(* ===== verification/_CoqProject ===== *)
-Q . S2P
Prelude.v
GoStrings.v
Paths.v
Regexp.v
Yaml.v
Types.v
Registries.v
Config.v
PathWalk.v
Plan.v
Schemas.v
Trajectory.v
Waiver.v
Bisect.v
AppSet.v
Sha256.v
Json.v
AuditLog.v
Enrich.v
Violations.v
Kl.v
Encode.v
FieldTypes.v
Checker.v
Documents.v
Loader.v
Owner.v
Templates.v
Values.v
Renderer.v
Tools.v
Build.v
Wire.v
Snapshot.v
Report.v
SExpr.v
Cluster.v
ProofFile.v
Shell.v
RunCheck.v
Command.v
BisectCommand.v
PlanRun.v
PlanCommand.v
Ruleset.v
KernelDir.v
TreeHash.v
Skill.v
ConfigFile.v
