(* ===== verification/Prelude.v ===== *)
(** * Cross-validate: a verification library

    [xpc] checks a directory of Crossplane and Argo CD manifests before they
    reach a cluster.  A run goes through these parts (paths under src/):

    - pkg/config reads xpc.yaml and overlays it on built-in tables
      (pkg/ir/*_registry.go);
    - pkg/loader and pkg/renderer produce decoded documents, pkg/ir/builder.go
      turns them into a World (pkg/types/types.go), expanding ApplicationSets
      (pkg/ir/appset_*.go), adding the Secrets operators produce
      (pkg/ir/externalsecret_synth.go), deriving facts
      (pkg/ir/trajectory_extract.go over pkg/ir/path_walk.go) and validating
      resources against CRD schemas (pkg/schemas, pkg/ir/field_validation.go);
    - pkg/checker hands the World to the Shen kernel and reads back
      diagnostics; pkg/trajectory simulates the sync waves;
    - pkg/waiver partitions the diagnostics against the accepted-risk register,
      pkg/report prints them, pkg/audit commits them to a Merkle tree;
    - pkg/plan compares two Worlds (base and head) and applies the rules R26 and
      R27 to their difference; pkg/bisect searches a git history for the commit
      that changed a rule's verdict.

    ** Files

    Shared:
    - Prelude (this file): tactics, lists, Go's sort, maps filled by loops.
    - GoStrings, Paths, Regexp, Yaml, Json, Sha256: what the source uses of Go's
      library: strings and strconv; clean paths, the climb to the root,
      containment and filepath.Rel; regexp (the patterns of the templates'
      checks, compiled and matched); decoded documents with reflect.DeepEqual
      and interface equality; encoding/json's text; SHA-256.
    - Types: every record of pkg/types/types.go.  Registries: the built-in
      tables of pkg/ir.  Wire: the JSON of those records, field by field.

    Inputs:
    - Config: pkg/config (defaults, overlays, validation, discovery order).
      ConfigFile: its loader (load.go, [Parse], [Load]).
    - Loader: pkg/loader (the walk, [LoadReader], the pool of workers as an
      interleaving of their steps).
    - Cluster: pkg/clustersrc/kubectl.go ([Capture]).
    - Snapshot: pkg/snapshot ([FromWorld], [computeDigest], [Diff]) and
      [mergeSnapshotIntoWorld] of cmd/xpc/main.go.

    The World (pkg/ir, pkg/schemas, pkg/renderer):
    - Documents: the parsers of builder.go and its loop over the documents.
    - PathWalk: path_walk.go ([WalkPath], [ReadPath]).
    - AppSet: appset_template.go and appset_expand.go ([ExpandAppSet]).
    - Owner: the owner resolution of builder.go, and values_ref.go.
    - Templates: composition_template_check.go and orphan_sgref_check.go.
    - Values, Renderer, Tools: pkg/renderer: the merge of helm values on a store
      of shared maps, the caches and the renders, the download of charts, and the
      interface [Renderers] through which the builder sees them.  TreeHash: the
      digest of a directory behind the cache keys.
    - Enrich: trajectory_extract.go and externalsecret_synth.go.
    - Build: [Build] with all its passes, and composition_render.go.
    - Schemas, FieldTypes: pkg/schemas and field_validation.go
      ([ValidateManifest], the index; the schema cache, [ResolveFieldType]).
    - SExpr: sexpr.go ([ToSExpr], [DigestWorld]).

    The checks (pkg/checker, pkg/trajectory, pkg/waiver):
    - Kl: the values of the Shen interpreter as an interface with its laws.
    - Violations: the violation builders of bridge.go.
    - Encode: the World as the kernel receives it.
    - Checker: [CheckWithObligations], the decoding of judgments, the run summary.
    - KernelDir: [resolveOrMaterialiseKernel] as the interleaving of the file
      operations of processes that share a directory.
    - Trajectory: pkg/trajectory ([Simulate], [simulateApp]).
    - Waiver: pkg/waiver ([Apply], [Validate]).

    Outputs and commands:
    - Report: pkg/report, all six formats.
    - AuditLog, ProofFile, Ruleset: pkg/audit/proof.go (the tree and what it
      binds; the file of a proof and its summary; the digests of the rules).
    - Plan, PlanRun, PlanCommand: pkg/plan ([Diff], R26, R27 and the selections of
      the outputs; [Run] with its worktrees; the texts, the comment and
      `xpc plan`).
    - Bisect, BisectCommand: pkg/bisect; `xpc bisect`.
    - Shell: the monad of a command (its outputs, exit code and panics) and the
      loop over its flags.  RunCheck: `xpc check`.  Command: dump-ir, snapshot,
      verify, proof and explain.  Skill: `xpc skill` and the dispatch of main.

    ** Conventions

    A definition carries the name of the Go function, type or constant it
    models; a loop body or a branch that needs a name of its own is a definition
    beside it.  A struct is a record whose fields have a short prefix; a string
    is a byte string; an [int] is a Z (no arithmetic of the modelled code leaves
    64 bits, and strconv.Atoi's range check is written out); a slice is a list;
    a slice or map whose nil-ness the code tests, and a pointer, is an option; a
    map with string keys and scalar values is a gmap; a decoded document keeps
    its maps as association lists in some iteration order, and theorems about
    loops over them hold for every order.  An error or a panic is a value of an
    option or a sum.  A method that mutates the World returns the new World.
    sort.Slice and slices.Sort are an insertion sort; where the order of tied
    elements would matter a theorem has the hypothesis that there are none, or
    speaks of the order the sort gives.

    Code outside the repository's Go sources is a parameter: the operating system
    (files, environment, clock), git, helm, kustomize, crossplane and kubectl, the
    YAML and JSON decoders, text/template's parser, fmt's %v verb, the texts of
    floats, the values of the interpreter, and the kernel as a function from the
    encoded World to its judgments.  Where the code ranges over a map the order is
    a parameter ([leaf_order] of the enrichment, [be_order] of a build), or a theorem
    speaks of every order.  Hypotheses on parameters are
    stated with the theorem that needs them, or are laws of an interface with an
    instance ([KLLaws], [KObj]; [Renderers]); no axiom is used anywhere.

    State and interleaving: the World, the tools' caches, the outputs of a command
    and the directories of a plan run are explicit states; the loader's workers and
    the processes that publish the kernel are systems whose steps any schedule may
    order.

    ** What the theorems show

    - Commands: `xpc check` and `xpc plan` exit with 0 only when the report or plan
      was printed and holds no error, by the flags, waivers and knobs in force
      ([runCheck_passes], [runPlan_passes]); flags are read back in any order
      ([parse_check_args]); a rule restriction selects the documented codes
      ([resolveRuleAllowlist_spec]); the World that is checked is the built one with
      the snapshot's objects merged in, its facts computed in one go from these
      ([check_run_world]); a proof written by check is accepted by verify
      ([checked_proof_verifies]); a plan run leaves nothing but what git or the
      system failed to remove and the directory of a worktree git refused
      ([Run_leaves_nothing]); a rule fires in a bisection exactly when one of its
      findings is not waived ([detector_after_waivers]); an installation of the skill
      can be repeated ([installSkill_idempotent]).
    - Build: every diagnostic and every unrendered source is accounted for
      ([Build_accounted], [Build_results]), and a World is only refused for the
      reasons given.
    - Loading: the documents of a directory are those of its files, in order, under
      every schedule of the workers ([LoadDirectory_outcome]); each category of
      document fills its own slice of the World ([add_documents_spec]); a captured
      snapshot is what the cluster answered ([Capture_outcome]); a configuration is
      accepted exactly when it is well formed ([Load_spec]).
    - The bridge: reading the encoded World back gives its facts
      ([worldToShenObj_reads], [worldToShenObj_typed]); each judgment becomes one
      diagnostic ([objToDiagnostics_judgments]); the violation builders agree with
      declarative accounts of their rules ([buildR12Violations_spec],
      [buildR14Violations_spec]).
    - The kernel's directory: its marker promises every file, whatever the processes
      do and wherever they die, none waits for another, and its digest is that of
      the binary ([kernel_dir_complete], [kernel_processes_end],
      [materialised_digest]).
    - Plan: [Diff] is the set difference of two indexes, sorted, independent of map
      order; R26 and R27 report exactly the changes their documentation describes.
    - Schemas: the validator agrees with an inductive relation that says what a
      violation is, and always returns when enum entries are scalars.
    - Trajectory: the wave loop refines a declarative account of the cluster's
      contents at a wave.
    - Waiver: the justification of everything suppressed.
    - Bisect: the reported commit is a transition, found in logarithmically many
      checks, and the search ends.
    - PathWalk, Owner, AppSet, Templates: the walk yields the resolutions of the
      parsed path; the owner of a fact of any kind is the nearest claim; every parameter
      set of an ApplicationSet is accounted for; the orphan scan finds exactly the
      references it describes.
    - Values, Renderer: the merge on shared maps refines the merge of trees; a cache
      answers what was put last and is fresh; the mismatch summary slices in range.
      TreeHash: equal keys mean equal text files, up to a collision.
    - AuditLog: what the root binds, up to an explicit collision among the hashed
      strings, and what Verify does not look at.

    Lemmas of the same files hold the rest: overlays of the configuration as map
    updates, the completeness of a generated proof, the digest's view of a World, the
    shadowing of a live waiver, idempotence of the enrichment up to the order of the
    fixed-point usages, bounds on template parsing, and examples of what the code gets wrong.

    ** Fuel

    Recursions that are not structural carry fuel that is enough:
    - [walkField], [parse_generator]: the depth of the value ([ValidateManifest_total]
      for the first; a generator nests in the document it is parsed from);
    - [substitute_loop], [bracket_contents], [substitute_brackets], [split_fuel],
      [trim_left_of], [parse_brackets], [unversioned_from]: the length of the string,
      which each step shortens;
    - [climb] and the discovery of Config: two more than the length of the path
      ([climb_nearest]);
    - [search] of Bisect: the number of commits ([Run_converges]); the Merkle loop:
      the number of leaves ([merkle_loop_fuel]); [compress_all]: the words of the
      padded message;
    - Regexp: [parse] the length of the pattern, [search_from] and [find_all] the
      length of the text, of which every match but an empty one consumes some;
    - [deepMerge] and [load] of Values: the depth of the maps, which the refinement
      theorem asks to be within it.
    The schedules of Loader and KernelDir end by a decreasing measure of each worker
    ([workers_finish], [kernel_processes_end]).

    ** Not modelled

    The generated Shen runtime (internal/shenfull) and the kernel's Shen rules
    (kernel): the first is generated Go of a Lisp system, the second is not Go.
    Starting that runtime (initShen), profiling (XPC_CPUPROFILE, XPC_TIMING, stage
    timings) and the usage texts.  The bodies of the subprocess calls (git, helm,
    kustomize, crossplane, kubectl, gh, glab) and cancellation of a running one.
    Decoding YAML and JSON.  The Composition cache repeats the render cache, whose
    operations stand for it; shortID of runner.go is called by nothing, and the
    second copies of searchUpward and searchKernelUpward repeat a modelled climb. *)
From Stdlib Require Export Ascii.
From stdpp Require Export base decidable option list gmap strings sorting.

Declare Scope xpc_scope.
Delimit Scope xpc_scope with xpc.

#[global] Arguments String.append !_ _ / : simpl nomatch.

(** ** Tactics *)

(** Split every boolean test and match in the goal, closing the easy cases. *)
Ltac cases :=
  repeat (case_match; simplify_eq/=); try done.

(** Turn boolean equations of the context and of the goal into propositions. *)
Ltac bool_props :=
  repeat match goal with
  | H : _ && _ = true |- _ => apply andb_true_iff in H as [? ?]
  | H : _ || _ = false |- _ => apply orb_false_iff in H as [? ?]
  | H : negb _ = true |- _ => apply negb_true_iff in H
  | H : negb _ = false |- _ => apply negb_false_iff in H
  | H : String.eqb _ _ = true |- _ => apply String.eqb_eq in H
  | H : String.eqb _ _ = false |- _ => apply String.eqb_neq in H
  | H : bool_decide _ = true |- _ => apply bool_decide_eq_true in H
  | H : bool_decide _ = false |- _ => apply bool_decide_eq_false in H
  end.

(** ** Booleans and lists *)

Section lists.
Context {A B : Type}.

Lemma existsb_elem_of (f : A → bool) (l : list A) :
  existsb f l = true ↔ ∃ x, x ∈ l ∧ f x = true.
Proof.
  rewrite existsb_exists. by setoid_rewrite list_elem_of_In.
Qed.

Lemma existsb_none (f : A → bool) (l : list A) :
  existsb f l = false ↔ ∀ x, x ∈ l → f x = false.
Proof.
  rewrite <- not_true_iff_false, existsb_elem_of. split.
  - intros H x Hx. apply not_true_iff_false. eauto.
  - intros H [x [Hx E]]. rewrite H in E; done.
Qed.

Lemma forallb_elem_of (f : A → bool) (l : list A) :
  forallb f l = true ↔ ∀ x, x ∈ l → f x = true.
Proof.
  rewrite forallb_forall. by setoid_rewrite list_elem_of_In.
Qed.

(** [flat_map], the shape of every "for each element append what it yields". *)
Lemma elem_of_flat_map (f : A → list B) (l : list A) (y : B) :
  y ∈ flat_map f l ↔ ∃ x, x ∈ l ∧ y ∈ f x.
Proof.
  rewrite list_elem_of_In, in_flat_map. by setoid_rewrite list_elem_of_In.
Qed.

#[global] Instance flat_map_perm (f : A → list B) :
  Proper ((≡ₚ) ==> (≡ₚ)) (flat_map f).
Proof.
  intros l k H. induction H; simpl; [done|by f_equiv| |by etrans].
  rewrite !app_assoc. f_equiv. apply app_Permutation_comm.
Qed.
End lists.

Lemma elem_of_rev {A} (x : A) (l : list A) : x ∈ rev l ↔ x ∈ l.
Proof. rewrite !list_elem_of_In. symmetry. apply in_rev. Qed.

Lemma filter_all {A} (P : A → Prop) `{!∀ x, Decision (P x)} l : Forall P l → filter P l = l.
Proof.
  induction 1 as [|x l Hx _ IH]; [done|]. rewrite filter_cons, decide_True by done. by rewrite IH.
Qed.

(** An accumulator loop that appends is a [flat_map]. *)
Lemma foldl_app_flat_map {A B} (f : A → list B) (l : list A) (acc : list B) :
  foldl (λ out x, out ++ f x) acc l = acc ++ flat_map f l.
Proof.
  revert acc. induction l as [|x l IH]; intros acc; simpl.
  - by rewrite app_nil_r.
  - by rewrite IH, app_assoc.
Qed.

(** The first element satisfying [f] (a [for] loop with an early return). *)
Fixpoint find_first {A} (f : A → bool) (l : list A) : option A :=
  match l with
  | [] => None
  | x :: l => if f x then Some x else find_first f l
  end.

Lemma find_first_Some {A} (f : A → bool) l x :
  find_first f l = Some x → x ∈ l ∧ f x = true.
Proof.
  induction l as [|y l IH]; simpl; [done|].
  destruct (f y) eqn:E; intros H; simplify_eq; [by split; [left|]|].
  destruct (IH H) as [??]. split; [by right|done].
Qed.

Lemma find_first_app {A} (f : A → bool) l l' :
  find_first f (l ++ l') = match find_first f l with Some x => Some x | None => find_first f l' end.
Proof. induction l as [|x l IH]; simpl; [done|]. by destruct (f x). Qed.
Lemma find_first_None {A} (f : A → bool) l :
  find_first f l = None ↔ ∀ x, x ∈ l → f x = false.
Proof.
  induction l as [|y l IH]; simpl; [by split; [intros _ x ?%not_elem_of_nil|]|].
  setoid_rewrite elem_of_cons. destruct (f y) eqn:E.
  - split; [done|]. intros H. rewrite H in E; [done|by left].
  - rewrite IH. split; [intros H x [->|Hx]; eauto|eauto].
Qed.

(** Deduplication by first occurrence: the [seen] map idiom. *)
Definition contains_string (haystack : list string) (needle : string) : bool :=
  existsb (String.eqb needle) haystack.

Lemma contains_string_spec h n : contains_string h n = true ↔ n ∈ h.
Proof.
  unfold contains_string. rewrite existsb_elem_of. split.
  - intros (x & Hx & E%String.eqb_eq). by subst.
  - intros H. exists n. by rewrite String.eqb_refl.
Qed.

Lemma contains_string_false h n : contains_string h n = false ↔ n ∉ h.
Proof. rewrite <- not_true_iff_false. by rewrite contains_string_spec. Qed.

(** ** Sorting: [sort.Slice] and [slices.SortFunc]

    Both sort in place by a [less] (or three-way) function and leave the order
    of equal elements unspecified; for short slices they run the insertion sort
    written here.  The lemmas below characterise the result as a sorted
    permutation and show that it is the only one when no two elements tie. *)
Section sort.
Context {A : Type} (less : A → A → bool).

Fixpoint insert_sorted (x : A) (l : list A) : list A :=
  match l with
  | [] => [x]
  | y :: l' => if less x y then x :: y :: l' else y :: insert_sorted x l'
  end.

Definition sort_slice (l : list A) : list A := foldl (flip insert_sorted) [] l.

(** [x] may stand before [y]. *)
Definition not_after (x y : A) : Prop := less y x = false.

Lemma insert_sorted_perm x l : insert_sorted x l ≡ₚ x :: l.
Proof.
  induction l as [|y l IH]; simpl; [done|].
  destruct (less x y); [done|]. rewrite IH. apply Permutation_swap.
Qed.

Lemma sort_foldl_perm l acc : foldl (flip insert_sorted) acc l ≡ₚ acc ++ l.
Proof.
  revert acc. induction l as [|x l IH]; intros acc; simpl; [by rewrite app_nil_r|].
  rewrite IH. unfold flip. rewrite insert_sorted_perm.
  by rewrite <- Permutation_middle.
Qed.

Lemma sort_slice_perm l : sort_slice l ≡ₚ l.
Proof. apply (sort_foldl_perm l []). Qed.

Lemma elem_of_sort_slice x l : x ∈ sort_slice l ↔ x ∈ l.
Proof. by rewrite sort_slice_perm. Qed.

Lemma length_sort_slice l : length (sort_slice l) = length l.
Proof. by rewrite sort_slice_perm. Qed.
End sort.

Lemma NoDup_fmap_elem {A B} (f : A → B) l x y :
  NoDup (f <$> l) → x ∈ l → y ∈ l → f x = f y → x = y.
Proof.
  induction l as [|z l IH]; simpl; [by intros _ ?%not_elem_of_nil|].
  intros [Hz Hl]%NoDup_cons [->|Hx]%elem_of_cons [->|Hy]%elem_of_cons E; auto.
  - destruct Hz. rewrite E. by apply list_elem_of_fmap_2.
  - destruct Hz. rewrite <- E. by apply list_elem_of_fmap_2.
Qed.

(** Sorting commutes with a map the comparison does not see. *)
Lemma insert_sorted_map {A B} (less : A → A → bool) (less' : B → B → bool) f x l :
  (∀ a b, less' (f a) (f b) = less a b) →
  insert_sorted less' (f x) (f <$> l) = f <$> insert_sorted less x l.
Proof.
  intros Hf. induction l as [|y l IH]; simpl; [done|]. rewrite Hf.
  destruct (less x y); [done|]. simpl. f_equal. apply IH.
Qed.
Lemma sort_slice_map {A B} (less : A → A → bool) (less' : B → B → bool) f l :
  (∀ a b, less' (f a) (f b) = less a b) →
  sort_slice less' (f <$> l) = f <$> sort_slice less l.
Proof.
  intros Hf. unfold sort_slice.
  assert (H : ∀ acc, foldl (flip (insert_sorted less')) (f <$> acc) (f <$> l) =
                     f <$> foldl (flip (insert_sorted less)) acc l).
  { induction l as [|x l IH]; intros acc; simpl; [done|].
    rewrite <- IH. f_equal. unfold flip. by apply insert_sorted_map. }
  apply (H []).
Qed.

(** What a comparison function must satisfy for Go's sort to be meaningful. *)
Class StrictWeak {A} (less : A → A → bool) : Prop := {
  less_asym : ∀ x y, less x y = true → less y x = false;
  less_ntrans : ∀ x y z, less y x = false → less z y = false → less z x = false;
}.

Section sorted.
Context {A : Type} (less : A → A → bool) `{!StrictWeak less}.

Lemma insert_sorted_sorted x l :
  StronglySorted (not_after less) l →
  StronglySorted (not_after less) (insert_sorted less x l).
Proof.
  induction 1 as [|y l Hl IH Hy]; simpl; [repeat constructor|].
  destruct (less x y) eqn:E.
  - constructor; [by constructor|]. constructor; [by apply less_asym|].
    eapply Forall_impl; [exact Hy|]. intros z Hz.
    eapply less_ntrans; [|exact Hz]. by apply less_asym.
  - constructor; [done|]. rewrite insert_sorted_perm. by constructor.
Qed.

Lemma sort_slice_sorted l : StronglySorted (not_after less) (sort_slice less l).
Proof.
  unfold sort_slice. assert (H : StronglySorted (not_after less) []) by constructor.
  revert H. generalize (@nil A) as acc. induction l as [|x l IH]; intros acc H; simpl; [done|].
  apply IH. by apply insert_sorted_sorted.
Qed.

(** Any sorted permutation is the result of the sort, up to ties. *)
Lemma sorted_perm_unique l1 l2 :
  (∀ x y, x ∈ l1 → y ∈ l1 → less x y = false → less y x = false → x = y) →
  StronglySorted (not_after less) l1 → StronglySorted (not_after less) l2 →
  l1 ≡ₚ l2 → l1 = l2.
Proof.
  intros Hanti H1 H2 Hp. apply (StronglySorted_unique_strong (not_after less)); try done.
  intros x y Hx Hy Hxy Hyx. rewrite <- Hp in Hy. by apply Hanti.
Qed.

Lemma sort_slice_unique l l' :
  (∀ x y, x ∈ l → y ∈ l → less x y = false → less y x = false → x = y) →
  StronglySorted (not_after less) l' → l' ≡ₚ l → sort_slice less l = l'.
Proof.
  intros Hanti Hs Hp. apply sorted_perm_unique.
  - intros x y. rewrite !elem_of_sort_slice. apply Hanti.
  - apply sort_slice_sorted.
  - done.
  - by rewrite sort_slice_perm.
Qed.

Lemma sort_slice_perm_eq l l' :
  (∀ x y, x ∈ l → y ∈ l → less x y = false → less y x = false → x = y) →
  l ≡ₚ l' → sort_slice less l = sort_slice less l'.
Proof.
  intros Hanti Hp. apply sort_slice_unique; [done|apply sort_slice_sorted|].
  by rewrite sort_slice_perm, Hp.
Qed.
End sorted.

(** ** Maps filled by a loop: the last entry for a key wins *)
Lemma lookup_foldl_insert `{Countable K} {A B} (key : A → K) (f : A → B) (l : list A)
    (m : gmap K B) (i : K) :
  foldl (λ out a, <[key a := f a]> out) m l !! i =
  match find_first (λ a, bool_decide (key a = i)) (rev l) with
  | Some a => Some (f a)
  | None => m !! i
  end.
Proof.
  induction l as [|a l IH] using rev_ind; [done|].
  rewrite foldl_app, rev_app_distr. simpl. destruct (decide (key a = i)) as [<-|Hi].
  - by rewrite bool_decide_true, lookup_insert_eq.
  - by rewrite bool_decide_false, lookup_insert_ne, IH.
Qed.

(** ** Loops that keep the first element for each key

    [if seen[key(x)] { continue }; seen[key(x)] = true; out = append(out, x)]. *)
Section dedup.
Context `{Countable K} {A : Type} (key : A → K).

Definition add_new (acc : gset K * list A) (x : A) : gset K * list A :=
  let (seen, out) := acc in
  if bool_decide (key x ∈ seen) then acc else ({[key x]} ∪ seen, out ++ [x]).
Definition dedup (l : list A) : list A := (foldl add_new (∅, []) l).2.

Lemma dedup_seen l k : k ∈ (foldl add_new (∅, []) l).1 ↔ k ∈ key <$> l.
Proof.
  induction l as [|x l IH] using rev_ind; [set_solver|].
  rewrite foldl_app, fmap_app. simpl. unfold add_new at 1.
  destruct (foldl add_new (∅, []) l) as [seen out]; simpl in *.
  case_bool_decide; simpl; set_solver.
Qed.

Lemma dedup_snoc l x :
  dedup (l ++ [x]) = if bool_decide (key x ∈ key <$> l) then dedup l else dedup l ++ [x].
Proof.
  unfold dedup. rewrite foldl_app. simpl. unfold add_new at 1.
  pose proof (dedup_seen l (key x)) as Hs. destruct (foldl add_new (∅, []) l) as [seen out]; simpl in *.
  do 2 case_bool_decide; tauto.
Qed.

Lemma dedup_keys l k : k ∈ key <$> dedup l ↔ k ∈ key <$> l.
Proof.
  induction l as [|x l IH] using rev_ind; [done|]. rewrite dedup_snoc, fmap_app.
  case_bool_decide; rewrite ?fmap_app; set_solver.
Qed.

Lemma dedup_NoDup l : NoDup (key <$> dedup l).
Proof.
  induction l as [|x l IH] using rev_ind; [constructor|]. rewrite dedup_snoc.
  case_bool_decide as E; [done|]. rewrite fmap_app. apply NoDup_app. split_and!; [done| |].
  - intros k Hk. rewrite dedup_keys in Hk. simpl. set_solver.
  - simpl. apply NoDup_singleton.
Qed.

Lemma elem_of_dedup l x :
  x ∈ dedup l ↔ ∃ l1 l2, l = l1 ++ x :: l2 ∧ key x ∉ key <$> l1.
Proof.
  induction l as [|y l IH] using rev_ind.
  { split; [by intros ?%not_elem_of_nil|]. by intros ([|] & l2 & ? & _). }
  rewrite dedup_snoc. assert (Hl : x ∈ dedup l → ∃ l1 l2, l ++ [y] = l1 ++ x :: l2 ∧ key x ∉ key <$> l1).
  { rewrite IH. intros (l1 & l2 & -> & Hx). exists l1, (l2 ++ [y]). by rewrite <- app_assoc. }
  assert (Hr : ∀ l1 l2, l ++ [y] = l1 ++ x :: l2 → key x ∉ key <$> l1 →
      x ∈ dedup l ∨ (y = x ∧ l1 = l)).
  { intros l1 l2 E Hx. destruct l2 as [|z l2 _] using rev_ind.
    - apply app_inj_tail in E as [-> ->]. by right.
    - left. rewrite app_comm_cons, app_assoc in E. apply app_inj_tail in E as [-> ->].
      apply IH. eauto. }
  case_bool_decide as E.
  - split; [exact Hl|]. intros (l1 & l2 & E' & Hx). destruct (Hr _ _ E' Hx) as [?|[-> ->]]; done.
  - rewrite elem_of_app, list_elem_of_singleton. split.
    + intros [?| ->]; [by apply Hl|]. by exists l, [].
    + intros (l1 & l2 & E' & Hx). destruct (Hr _ _ E' Hx) as [?|[-> ->]]; tauto.
Qed.

(** The loop started from a list whose keys count as seen. *)
Definition extend (l0 l : list A) : list A :=
  (foldl add_new (list_to_set (map key l0), l0) l).2.

Lemma extend_eq l0 l : extend l0 l = l0 ++ dedup (filter (λ x, key x ∉ key <$> l0) l).
Proof.
  assert (Hf : foldl add_new (list_to_set (map key l0), l0) l =
    (list_to_set (map key l0) ∪ (foldl add_new (∅, []) (filter (λ x, key x ∉ key <$> l0) l)).1,
     l0 ++ dedup (filter (λ x, key x ∉ key <$> l0) l))).
  { induction l as [|x l IH] using rev_ind.
    { unfold dedup. simpl. by rewrite app_nil_r, (right_id_L ∅ (∪)). }
    rewrite foldl_app, IH, filter_app. simpl. unfold dedup. rewrite foldl_app, filter_cons, filter_nil.
    destruct (foldl add_new (∅, []) (filter _ l)) as [seen out]; simpl.
    case_decide as E; simpl.
    - unfold add_new; simpl. destruct (decide (key x ∈ seen)) as [E'|E'].
      + rewrite !bool_decide_true by (first [done|by apply elem_of_union_r]). done.
      + rewrite !bool_decide_false; simpl; [|done|].
        * f_equal; [set_solver|]. by rewrite app_assoc.
        * intros [Hin|?]%elem_of_union; [|done]. apply elem_of_list_to_set in Hin. done.
    - rewrite bool_decide_true; [done|].
      apply elem_of_union_l, elem_of_list_to_set. done. }
  unfold extend. by rewrite Hf.
Qed.

Lemma dedup_elem l x : x ∈ dedup l → x ∈ l.
Proof. rewrite elem_of_dedup. intros (l1 & l2 & -> & _). set_solver. Qed.

Lemma dedup_covers l x : x ∈ l → ∃ y, y ∈ dedup l ∧ key y = key x.
Proof.
  intros Hx. assert (Hk : key x ∈ key <$> dedup l) by (apply dedup_keys; set_solver).
  apply list_elem_of_fmap in Hk as (y & ? & ?). eauto.
Qed.
End dedup.

(** A finer key has no duplicates where a coarser one has none. *)
Lemma NoDup_fmap_inj_on {A B C} (f : A → B) (g : A → C) (l : list A) :
  (∀ x y, x ∈ l → y ∈ l → f x = f y ↔ g x = g y) → NoDup (f <$> l) → NoDup (g <$> l).
Proof.
  induction l as [|x l IH]; simpl; [constructor|]. intros Hinj [Hx Hl]%NoDup_cons.
  apply NoDup_cons. split; [|apply IH; [intros; apply Hinj; set_solver|done]].
  intros (y & E & Hy)%list_elem_of_fmap. apply Hx, list_elem_of_fmap. exists y.
  split; [|done]. apply Hinj; set_solver.
Qed.

Lemma NoDup_lookup_key {K B} (l : list (K * B)) k (x y : B) :
  NoDup l.*1 → (k, x) ∈ l → (k, y) ∈ l → x = y.
Proof.
  induction l as [|[k' z] l IH]; simpl; [by intros _ ?%not_elem_of_nil|].
  intros [Hk Hl]%NoDup_cons. rewrite !elem_of_cons.
  assert (Hin : ∀ v, (k, v) ∈ l → k ∈ l.*1) by (intros v Hv; apply list_elem_of_fmap; by exists (k, v)).
  intros [Ex|Hx] [Ey|Hy]; simplify_eq; try done; [destruct Hk; eauto..|auto].
Qed.

(** Splitting a filtered list splits the list. *)
Section filter_inv.
Context {A : Type} (P : A → Prop) `{!∀ x, Decision (P x)}.
Lemma filter_none l : Forall (λ x, ¬ P x) l → filter P l = [].
Proof. induction 1 as [|x l Hx _ IH]; [done|]. by rewrite filter_cons, decide_False. Qed.
Lemma filter_app_inv l a b : filter P l = a ++ b →
  ∃ l1 l2, l = l1 ++ l2 ∧ filter P l1 = a ∧ filter P l2 = b.
Proof.
  revert a. induction l as [|x l IH]; intros a; [intros [-> ->]%eq_sym%app_nil; by exists [], []|].
  rewrite filter_cons. case_decide as Hx.
  - destruct a as [|y a]; simpl.
    + intros <-. exists [], (x :: l). split_and!; [done..|]. by rewrite filter_cons, decide_True.
    + intros [= <- E]. apply IH in E as (l1 & l2 & -> & <- & <-). exists (x :: l1), l2.
      by rewrite filter_cons, decide_True.
  - intros E. apply IH in E as (l1 & l2 & -> & <- & <-). exists (x :: l1), l2.
    by rewrite filter_cons, decide_False.
Qed.
Lemma filter_cons_inv l x b : filter P l = x :: b →
  ∃ l1 l2, l = l1 ++ x :: l2 ∧ Forall (λ y, ¬ P y) l1 ∧ P x ∧ filter P l2 = b.
Proof.
  induction l as [|y l IH]; [done|]. rewrite filter_cons. case_decide as Hy.
  - intros [= -> <-]. exists [], l. by split_and!; try constructor.
  - intros (l1 & l2 & -> & ? & ? & ?)%IH. exists (y :: l1), l2. split_and!; try done. by constructor.
Qed.
End filter_inv.

Lemma elem_of_fmap_filter_key {A K} (f : A → K) (P : K → Prop) `{!∀ x, Decision (P (f x))} (l : list A) k :
  k ∈ f <$> filter (λ x, P (f x)) l ↔ P k ∧ k ∈ f <$> l.
Proof.
  rewrite !list_elem_of_fmap. split.
  - intros (x & -> & [HP Hx]%list_elem_of_filter). eauto.
  - intros (HP & x & -> & Hx). exists x. by rewrite list_elem_of_filter.
Qed.

(** Two nested loops that append can be swapped, up to order. *)
Lemma flat_map_swap {A B C} (f : A → B → list C) la lb :
  flat_map (λ a, flat_map (f a) lb) la ≡ₚ flat_map (λ b, flat_map (λ a, f a b) la) lb.
Proof.
  induction la as [|a la IH]; simpl.
  { induction lb as [|b lb IH]; simpl; [done|]. exact IH. }
  rewrite IH. clear IH. induction lb as [|b lb IH]; simpl; [done|].
  rewrite <- IH. rewrite <- !app_assoc. f_equiv. rewrite !app_assoc. f_equiv. apply Permutation_app_comm.
Qed.

Lemma StronglySorted_filter {A} (R : A → A → Prop) (P : A → Prop) `{!∀ x, Decision (P x)} l :
  StronglySorted R l → StronglySorted R (filter P l).
Proof.
  induction 1 as [|x l _ IH Hx]; [constructor|]. rewrite filter_cons. destruct (decide (P x)); [|done].
  constructor; [done|]. rewrite Forall_forall in Hx. apply Forall_forall. intros y [_ Hy]%list_elem_of_filter. auto.
Qed.

(** An element found before another of a sorted list does not come after it. *)
Lemma sorted_before {A} (R : A → A → Prop) l1 x l2 y :
  StronglySorted R (l1 ++ x :: l2) → y ∈ l2 → R x y.
Proof.
  intros Hs Hy. apply StronglySorted_app_1_r in Hs.
  inversion_clear Hs as [|? ? _ HF]. rewrite Forall_forall in HF. auto.
Qed.

(** ** Groups: [m[key(x)] = append(m[key(x)], x)], elements to skip left out *)
Section group.
Context `{Countable K} {A : Type} (skip : A → bool) (key : A → K).

Definition group_skip (l : list A) : gmap K (list A) :=
  foldl (λ m x, if skip x then m else <[key x := default [] (m !! key x) ++ [x]]> m) ∅ l.

Lemma lookup_group l k :
  default [] (group_skip l !! k) = filter (λ x, skip x = false ∧ key x = k) l.
Proof.
  unfold group_skip. induction l as [|x l IH] using rev_ind; [done|].
  rewrite foldl_app, filter_app, <- IH. simpl. rewrite filter_cons, filter_nil.
  destruct (decide (skip x = false ∧ key x = k)) as [[E Hk]|Hk]; simpl.
  - subst k. by rewrite E, lookup_insert_eq.
  - rewrite app_nil_r. destruct (skip x) eqn:E; [done|].
    rewrite lookup_insert_ne; [done|]. intros Hx. by destruct Hk.
Qed.
End group.
