(* ===== verification/GoStrings.v ===== *)
(** The parts of Go's [strings], [strconv] and [path/filepath] packages the
    program uses, on byte strings ([String.string], one [ascii] per byte), with
    the lemmas the components share: ordering, cutting, splitting and joining,
    decimal conversion, lexical path cleaning (on the Unix separator). *)
From Stdlib Require Import Ascii Decimal DecimalString DecimalPos DecimalZ.
From S2P Require Import Prelude.

#[local] Open Scope string_scope.

(** ** Ordering: Go compares strings bytewise *)

Definition str_lt (a b : string) : bool := String.ltb a b.

Lemma str_leb_total a b : String.leb a b = true ∨ String.leb b a = true.
Proof.
  unfold String.leb. rewrite (String.compare_antisym a b).
  destruct (String.compare b a); simpl; eauto.
Qed.

Lemma str_lt_false a b : str_lt b a = false ↔ String.le a b.
Proof.
  unfold str_lt, String.le, String.ltb, String.leb. rewrite (String.compare_antisym a b).
  destruct (String.compare b a); simpl; naive_solver.
Qed.

Lemma str_lt_irrefl a : str_lt a a = false.
Proof. apply str_lt_false. reflexivity. Qed.

Lemma str_lt_asym a b : str_lt a b = true → str_lt b a = false.
Proof.
  unfold str_lt, String.ltb. rewrite (String.compare_antisym b a).
  by destruct (String.compare a b).
Qed.

Lemma str_lt_total a b : str_lt a b = false → str_lt b a = false → a = b.
Proof. rewrite !str_lt_false. intros. by apply (anti_symm String.le). Qed.

Lemma str_lt_trans a b c : str_lt a b = true → str_lt b c = true → str_lt a c = true.
Proof.
  intros H1 H2. destruct (str_lt a c) eqn:E; [done|]. apply str_lt_false in E.
  pose proof (str_lt_asym _ _ H2) as Hcb%str_lt_false.
  assert (String.le b a) as Hba by (etrans; eauto).
  apply str_lt_false in Hba. congruence.
Qed.

#[export] Instance str_lt_weak : StrictWeak str_lt.
Proof.
  split; [apply str_lt_asym|].
  intros x y z Hxy Hyz. apply str_lt_false in Hxy. apply str_lt_false in Hyz.
  apply str_lt_false. by etrans.
Qed.

(** Sorting distinct strings is strict. *)
Lemma sort_strings_strict l : NoDup l → StronglySorted (λ a b, str_lt a b = true) (sort_slice str_lt l).
Proof.
  intros Hl. pose proof (sort_slice_sorted str_lt l) as Hs.
  rewrite <- (sort_slice_perm str_lt l) in Hl. induction Hs as [|x l' Hs IH Hx]; [constructor|].
  apply NoDup_cons in Hl as [Hn Hl]. constructor; [by apply IH|].
  rewrite Forall_forall in Hx. apply Forall_forall. intros y Hy.
  destruct (str_lt x y) eqn:E; [done|]. destruct Hn.
  by rewrite (str_lt_total x y E (Hx y Hy)).
Qed.

(** Lexicographic comparison of equal-length keys: the chain
    [if a.X != b.X { return a.X < b.X }; ...] of a [less] function. *)
Fixpoint key_less (ks : list (string * string)) : bool :=
  match ks with
  | [] => false
  | [(a, b)] => str_lt a b
  | (a, b) :: ks => if String.eqb a b then key_less ks else str_lt a b
  end.

(** Three-way form: [if c := cmp.Compare(a.X, b.X); c != 0 { return c }; ...],
    a [SortFunc] argument sorting before on a negative result. *)
Definition then_cmp (c1 c2 : comparison) : comparison :=
  match c1 with Eq => c2 | _ => c1 end.
Definition cmp_less {A} (cmp : A → A → comparison) (a b : A) : bool :=
  match cmp a b with Lt => true | _ => false end.
Definition str_cmp (a b : string) : comparison := String.compare a b.
Notation "c1 <+> c2" := (then_cmp c1 c2) (at level 63, right associativity) : xpc_scope.

Fixpoint keys_lt (a b : list string) : bool :=
  match a, b with
  | x :: a, y :: b => if String.eqb x y then keys_lt a b else str_lt x y
  | _, _ => false
  end.

Lemma key_less_zip a b : length a = length b → key_less (zip a b) = keys_lt a b.
Proof.
  revert b. induction a as [|x a IH]; intros [|y b] Hl; simpl in *; try done.
  injection Hl as Hl. specialize (IH b Hl). rewrite <- IH.
  destruct (zip a b) as [|[u v] k] eqn:E; [|done].
  destruct (String.eqb_spec x y) as [->|]; [apply str_lt_irrefl|done].
Qed.

Lemma keys_lt_irrefl a : keys_lt a a = false.
Proof. induction a as [|x a IH]; simpl; [done|]. by rewrite String.eqb_refl. Qed.

Lemma keys_lt_asym a b : keys_lt a b = true → keys_lt b a = false.
Proof.
  revert b. induction a as [|x a IH]; intros [|y b]; simpl; try done.
  rewrite (String.eqb_sym y x). destruct (String.eqb_spec x y); [apply IH|apply str_lt_asym].
Qed.

Lemma keys_lt_ntrans a b c : length a = length b → length b = length c →
  keys_lt b a = false → keys_lt c b = false → keys_lt c a = false.
Proof.
  revert b c. induction a as [|x a IH]; intros [|y b] [|z c]; simpl; try done.
  intros [= Hab] [= Hbc].
  destruct (String.eqb_spec y x) as [->|Hyx], (String.eqb_spec z x) as [->|Hzx]; try done.
  - by apply IH.
  - intros H1. rewrite (proj2 (String.eqb_neq x y)) by done. intros H2.
    by destruct Hyx; apply str_lt_total.
  - intros H1. destruct (String.eqb_spec z y) as [->|Hzy]; [done|].
    intros H2. by apply (less_ntrans (less := str_lt)) with y.
Qed.

Lemma keys_lt_total a b : length a = length b →
  keys_lt a b = false → keys_lt b a = false → a = b.
Proof.
  revert b. induction a as [|x a IH]; intros [|y b]; simpl; try done.
  intros [= Hl]. rewrite (String.eqb_sym y x).
  destruct (String.eqb_spec x y) as [->|Hxy].
  - intros H1 H2. f_equal. by apply IH.
  - intros H1 H2. by destruct Hxy; apply str_lt_total.
Qed.

(** A comparison by a key of fixed length is a strict weak order, and ties are
    exactly the elements with the same key. *)
Class KeyOrder {A} (less : A → A → bool) (key : A → list string) : Prop := {
  key_order_less : ∀ a b, less a b = keys_lt (key a) (key b);
  key_order_length : ∀ a b, length (key a) = length (key b);
}.

#[export] Instance key_order_weak {A} (less : A → A → bool) key :
  KeyOrder less key → StrictWeak less.
Proof.
  intros H. split.
  - intros x y. rewrite !(@key_order_less _ _ _ H). apply keys_lt_asym.
  - intros x y z. rewrite !(@key_order_less _ _ _ H). by apply keys_lt_ntrans; apply (key_order_length (less:=less)).
Qed.

Lemma key_order_tie {A} (less : A → A → bool) key `{!KeyOrder less key} a b :
  less a b = false → less b a = false → key a = key b.
Proof.
  rewrite !(@key_order_less _ _ _ KeyOrder0). by apply keys_lt_total, (key_order_length (less:=less)).
Qed.

Lemma str_compare_refl a : String.compare a a = Eq.
Proof.
  pose proof (str_lt_irrefl a) as H. unfold str_lt, String.ltb in H.
  pose proof (String.compare_antisym a a). by destruct (String.compare a a).
Qed.

Lemma then_cmp_less_cons x y a b c :
  match c with Lt => true | _ => false end = keys_lt a b →
  match then_cmp (str_cmp x y) c with Lt => true | _ => false end =
  keys_lt (x :: a) (y :: b).
Proof.
  intros H. unfold then_cmp, str_cmp; simpl. unfold str_lt, String.ltb.
  destruct (String.compare x y) eqn:E.
  - apply String.compare_eq_iff in E. subst y. by rewrite String.eqb_refl.
  - destruct (String.eqb_spec x y) as [->|]; [|done].
    by rewrite str_compare_refl in E.
  - destruct (String.eqb_spec x y) as [->|]; [|done].
    by rewrite str_compare_refl in E.
Qed.

Lemma cmp_less_last x y :
  match str_cmp x y with Lt => true | _ => false end = keys_lt [x] [y].
Proof. by rewrite <- (then_cmp_less_cons x y [] [] Eq); [destruct (str_cmp x y)|]. Qed.

Create HintDb xpc_order.
#[export] Hint Resolve then_cmp_less_cons cmp_less_last : xpc_order.

(** Prove a [KeyOrder] for a three-way comparison written with [<+>]. *)
Ltac solve_cmp_order :=
  split; [intros ??; unfold cmp_less; eauto with xpc_order | done].
(** Prove a [KeyOrder] for a [less] written with [key_less]. *)
Ltac solve_less_order :=
  split; [intros ??; symmetry; refine (eq_trans (eq_sym (key_less_zip _ _ _)) _); done | done].

(** ** Bytes *)

Definition is_digit (c : ascii) : bool :=
  let n := N_of_ascii c in (48 <=? n)%N && (n <=? 57)%N.
Definition digit_value (c : ascii) : Z := Z.of_N (N_of_ascii c) - 48.
Definition digit_char (d : Z) : ascii := ascii_of_N (Z.to_N (d + 48)).

(** [strings.ToLower], on the ASCII letters (the program compares its result
    with ASCII words only). *)
Definition lower_char (c : ascii) : ascii :=
  let n := N_of_ascii c in
  if (65 <=? n)%N && (n <=? 90)%N then ascii_of_N (n + 32) else c.
Fixpoint to_lower (s : string) : string :=
  match s with "" => "" | String c s => String (lower_char c) (to_lower s) end.

(** ** Prefixes, suffixes and cutting *)

Fixpoint has_prefix (p s : string) : bool :=
  match p, s with
  | "", _ => true
  | String a p, String b s => Ascii.eqb a b && has_prefix p s
  | _, "" => false
  end.

(** [s[n:]] and [s[:n]] (within bounds). *)
Fixpoint str_drop (n : nat) (s : string) : string :=
  match n, s with
  | S n, String _ s => str_drop n s
  | _, _ => s
  end.
Fixpoint str_take (n : nat) (s : string) : string :=
  match n, s with
  | S n, String c s => String c (str_take n s)
  | _, _ => ""
  end.

Definition trim_prefix (p s : string) : string :=
  if has_prefix p s then str_drop (String.length p) s else s.
Definition has_suffix (p s : string) : bool := has_prefix (String.rev p) (String.rev s).

(** [i := strings.Index(s, sub)] followed by [s[:i]] and [s[i+len(sub):]]. *)
Fixpoint str_cut (sub s : string) : option (string * string) :=
  if has_prefix sub s then Some ("", str_drop (String.length sub) s)
  else match s with
       | "" => None
       | String c s =>
           match str_cut sub s with Some (a, b) => Some (String c a, b) | None => None end
       end.
Definition contains (s sub : string) : bool :=
  match str_cut sub s with Some _ => true | None => false end.

(** [strings.Split] at a separator that is not empty; the fuel is the length. *)
Fixpoint split_fuel (fuel : nat) (sep s : string) : list string :=
  match fuel, str_cut sep s with
  | S fuel, Some (a, b) => a :: split_fuel fuel sep b
  | _, _ => [s]
  end.
Definition str_split (sep s : string) : list string := split_fuel (String.length s) sep s.
(** [strings.Count], the occurrences that do not overlap. *)
Definition str_count (sub s : string) : nat := length (str_split sub s) - 1.

(** Cutting at a single byte: [strings.IndexByte] / [strings.Index(s, "c")]. *)
Fixpoint cut_char (c : ascii) (s : string) : option (string * string) :=
  match s with
  | "" => None
  | String d s =>
      if Ascii.eqb c d then Some ("", s)
      else match cut_char c s with Some (a, b) => Some (String d a, b) | None => None end
  end.
(** [i := strings.LastIndex(s, "c")] followed by [s[:i]] and [s[i+1:]]. *)
Fixpoint cut_last (c : ascii) (s : string) : option (string * string) :=
  match s with
  | "" => None
  | String d s =>
      match cut_last c s with
      | Some (a, b) => Some (String d a, b)
      | None => if Ascii.eqb c d then Some ("", s) else None
      end
  end.
(** [strings.Split(s, "c")]. *)
Fixpoint split_on (c : ascii) (s : string) : list string :=
  match s with
  | "" => [""]
  | String d s =>
      if Ascii.eqb c d then "" :: split_on c s
      else match split_on c s with
           | [] => [String d ""]
           | p :: ps => String d p :: ps
           end
  end.
(** [strings.Join]. *)
Fixpoint join (sep : string) (l : list string) : string :=
  match l with
  | [] => ""
  | [s] => s
  | s :: l => s +:+ sep +:+ join sep l
  end.
Definition has_char (c : ascii) (s : string) : bool :=
  match cut_char c s with Some _ => true | None => false end.

Lemma app_str_assoc a b c : (a +:+ b) +:+ c = a +:+ (b +:+ c).
Proof. induction a as [|x a IH]; simpl; [done|]. by f_equal. Qed.
Lemma app_str_nil_r a : a +:+ "" = a.
Proof. induction a as [|x a IH]; simpl; [done|]. by f_equal. Qed.
Lemma length_app_str a b : String.length (a +:+ b) = String.length a + String.length b.
Proof. induction a as [|x a IH]; simpl; [done|]. by f_equal. Qed.
Lemma app_str_eq_nil a b : a +:+ b = "" ↔ a = "" ∧ b = "".
Proof. destruct a; simpl; (split; [intros; by simplify_eq|by intros [? ?]; simplify_eq]). Qed.

Lemma app_str_inj a b c d : String.length a = String.length c → a +:+ b = c +:+ d → a = c ∧ b = d.
Proof.
  revert c. induction a as [|x a IH]; intros [|y c]; simpl; try done.
  intros [= Hl] [= -> H]. destruct (IH c Hl H) as [-> ->]. done.
Qed.
Lemma join_cons sep e l : l ≠ [] → join sep (e :: l) = e +:+ sep +:+ join sep l.
Proof. by destruct l. Qed.
Lemma join_snoc sep l e : l ≠ [] → join sep (l ++ [e]) = join sep l +:+ sep +:+ e.
Proof.
  intros Hl. induction l as [|x l IH]; [done|]. destruct l as [|y l]; [done|].
  change (join sep ((x :: y :: l) ++ [e])) with (x +:+ sep +:+ join sep ((y :: l) ++ [e])).
  rewrite IH by done. change (join sep (x :: y :: l)) with (x +:+ sep +:+ join sep (y :: l)).
  by rewrite !app_str_assoc.
Qed.
Lemma join_app sep l k : l ≠ [] → k ≠ [] → join sep (l ++ k) = join sep l +:+ sep +:+ join sep k.
Proof.
  intros Hl Hk. induction l as [|x l IH]; [done|]. destruct l as [|y l]; [by apply join_cons|].
  change ((x :: y :: l) ++ k)%list with (x :: ((y :: l) ++ k))%list. rewrite join_cons by done.
  rewrite IH by done. rewrite (join_cons _ x) by done. by rewrite !app_str_assoc.
Qed.

Lemma has_prefix_spec p s : has_prefix p s = true ↔ ∃ r, s = p +:+ r.
Proof.
  revert s. induction p as [|a p IH]; intros [|b s].
  - simpl. split; eauto.
  - simpl. split; [intros _; exists (String b s); reflexivity|done].
  - simpl. split; [done|]. intros [r H]. discriminate H.
  - simpl. rewrite andb_true_iff, Ascii.eqb_eq, IH. split.
    + intros [-> [r ->]]. by exists r.
    + intros [r [= -> ->]]. eauto.
Qed.

Lemma has_prefix_app p s : has_prefix p (p +:+ s) = true.
Proof. apply has_prefix_spec. eauto. Qed.

Lemma str_drop_app p s : str_drop (String.length p) (p +:+ s) = s.
Proof. by induction p. Qed.
Lemma str_take_app p s : str_take (String.length p) (p +:+ s) = p.
Proof. induction p; simpl; [by destruct s|by f_equal]. Qed.

Lemma str_cut_Some sub s a b : str_cut sub s = Some (a, b) → s = a +:+ sub +:+ b.
Proof.
  revert a b. induction s as [|c s IH]; intros a b; simpl.
  - destruct (has_prefix sub "") eqn:E; [|done]. intros [= <- <-].
    apply has_prefix_spec in E as [r E]. rewrite E at 1. simpl. by rewrite E, str_drop_app.
  - destruct (has_prefix sub (String c s)) eqn:E.
    + intros [= <- <-]. apply has_prefix_spec in E as [r E].
      rewrite E at 1. simpl. by rewrite E, str_drop_app.
    + destruct (str_cut sub s) as [[a' b']|]; [|done]. intros [= <- <-]. simpl.
      f_equal. by apply IH.
Qed.

(** The cut is at the first occurrence. *)
Lemma str_cut_app sub a b : ∃ a0 b0, str_cut sub (a +:+ sub +:+ b) = Some (a0, b0) ∧
  (String.length a0 <= String.length a)%nat.
Proof.
  induction a as [|c a IH].
  - exists "", b. split; [|done]. simpl. destruct sub as [|d sub]; [by destruct b|].
    cbn [str_cut]. change (String d sub +:+ b) with (String d (sub +:+ b)).
    change (str_cut (String d sub) (String d (sub +:+ b)) = Some ("", b)). cbn [str_cut].
    change (String d (sub +:+ b)) with (String d sub +:+ b). by rewrite has_prefix_app, str_drop_app.
  - destruct IH as (a0 & b0 & E & Hl). change (String c a +:+ sub +:+ b) with (String c (a +:+ sub +:+ b)).
    cbn [str_cut]. destruct (has_prefix sub (String c (a +:+ sub +:+ b))).
    + eexists "", _. split; [done|]. simpl. lia.
    + rewrite E. exists (String c a0), b0. split; [done|]. simpl. lia.
Qed.
Lemma cut_char_Some c s a b :
  cut_char c s = Some (a, b) → s = a +:+ String c b ∧ has_char c a = false.
Proof.
  unfold has_char. revert a b. induction s as [|d s IH]; intros a b; simpl; [done|].
  destruct (Ascii.eqb_spec c d) as [->|Hne]; [by intros [= <- <-]|].
  destruct (cut_char c s) as [[a' b']|]; [|done]. intros [= <- <-].
  destruct (IH a' b' eq_refl) as [-> H]. split; [done|]. simpl.
  rewrite (proj2 (Ascii.eqb_neq c d)) by done. by destruct (cut_char c a') as [[]|].
Qed.

Lemma has_char_cons c d s : has_char c (String d s) = Ascii.eqb c d || has_char c s.
Proof.
  unfold has_char. simpl. destruct (Ascii.eqb c d); [done|]. by destruct (cut_char c s) as [[]|].
Qed.
Lemma has_char_app c a b : has_char c (a +:+ b) = has_char c a || has_char c b.
Proof.
  induction a as [|d a IH]; [done|]. simpl. by rewrite !has_char_cons, IH, orb_assoc.
Qed.

Lemma cut_char_app c a b : has_char c a = false → cut_char c (a +:+ String c b) = Some (a, b).
Proof.
  induction a as [|d a IH]; simpl; [by rewrite Ascii.eqb_refl|].
  rewrite has_char_cons, orb_false_iff. intros [Hd Ha]. by rewrite Hd, IH.
Qed.
Lemma cut_char_None c s : has_char c s = false → cut_char c s = None.
Proof. unfold has_char. by destruct (cut_char c s). Qed.

Lemma app_str_prefix a0 x a y : a0 +:+ x = a +:+ y → (String.length a0 <= String.length a)%nat →
  ∃ u, a = a0 +:+ u ∧ x = u +:+ y.
Proof.
  revert a. induction a0 as [|c a0 IH]; intros a E Hl; [by exists a|]. destruct a as [|d a]; simpl in *; [lia|].
  injection E as -> E. destruct (IH a E) as (u & -> & ->); [lia|]. by exists u.
Qed.
Lemma contains_char c s : contains s (String c "") = has_char c s.
Proof.
  unfold contains, has_char. induction s as [|d s IH]; [done|]. cbn [str_cut has_prefix cut_char].
  destruct (Ascii.eqb c d); [done|]. simpl. destruct (str_cut (String c "") s) as [[]|], (cut_char c s) as [[]|]; done.
Qed.
Lemma split_on_nonempty c s : split_on c s ≠ [].
Proof.
  destruct s as [|d s]; simpl; [done|]. destruct (Ascii.eqb c d); [done|]. by destruct (split_on c s).
Qed.

Lemma split_on_no_char c s : has_char c s = false → split_on c s = [s].
Proof.
  induction s as [|d s IH]; simpl; [done|]. rewrite has_char_cons, orb_false_iff.
  intros [Hd Hs]. by rewrite Hd, IH.
Qed.

Lemma split_on_app c a b :
  has_char c a = false → split_on c (a +:+ String c b) = a :: split_on c b.
Proof.
  induction a as [|d a IH]; simpl; [by rewrite Ascii.eqb_refl|].
  rewrite has_char_cons, orb_false_iff. intros [Hd Ha]. by rewrite Hd, IH.
Qed.

(** [Split] inverts [Join] when no part holds the separator. *)
Lemma split_on_join c l :
  l ≠ [] → Forall (λ p, has_char c p = false) l →
  split_on c (join (String c "") l) = l.
Proof.
  intros Hl. induction 1 as [|p l Hp HF IH]; [done|].
  destruct l as [|q l]; [by apply split_on_no_char|].
  change (join (String c "") (p :: q :: l)) with (p +:+ String c (join (String c "") (q :: l))).
  rewrite split_on_app by done. f_equal. by apply IH.
Qed.

Lemma join_split_on c s : join (String c "") (split_on c s) = s.
Proof.
  induction s as [|d s IH]; [done|]. simpl.
  destruct (Ascii.eqb_spec c d) as [->|Hne].
  - destruct (split_on d s) as [|p ps] eqn:E; [by apply split_on_nonempty in E|].
    change (join (String d "") ("" :: p :: ps)) with (String d (join (String d "") (p :: ps))).
    by rewrite IH.
  - destruct (split_on c s) as [|p ps] eqn:E; [by apply split_on_nonempty in E|].
    destruct ps as [|q ps]; simpl in *; by rewrite <- IH.
Qed.

Lemma split_on_parts c s : Forall (λ p, has_char c p = false) (split_on c s).
Proof.
  induction s as [|d s IH]; simpl; [by repeat constructor|].
  destruct (Ascii.eqb c d) eqn:Hd; [by constructor|].
  destruct (split_on c s) as [|p ps]; [by apply Forall_singleton; rewrite has_char_cons, Hd|].
  inversion_clear IH. constructor; [|done]. by rewrite has_char_cons, Hd.
Qed.

(** The parts hold no byte the string does not hold. *)
Lemma split_on_other c d s : has_char d s = false →
  Forall (λ p, has_char d p = false) (split_on c s).
Proof.
  induction s as [|e s IH]; simpl; [by repeat constructor|]. rewrite has_char_cons, orb_false_iff.
  intros [He Hs]. specialize (IH Hs). destruct (Ascii.eqb c e); [by constructor|].
  destruct (split_on c s) as [|p ps]; [apply Forall_singleton; by rewrite has_char_cons, He|].
  inversion_clear IH. constructor; [|done]. by rewrite has_char_cons, He.
Qed.

Lemma cut_last_Some c s a b :
  cut_last c s = Some (a, b) → s = a +:+ String c b ∧ has_char c b = false.
Proof.
  assert (Hn : ∀ t, cut_last c t = None → has_char c t = false).
  { induction t as [|d t IH]; simpl; [done|]. rewrite has_char_cons.
    destruct (cut_last c t) as [[]|]; [done|]. destruct (Ascii.eqb c d); [done|]. intros _. by apply IH. }
  revert a b. induction s as [|d s IH]; intros a b; simpl; [done|].
  destruct (cut_last c s) as [[a' b']|] eqn:E.
  - intros [= <- <-]. destruct (IH _ _ eq_refl) as [-> ?]. done.
  - destruct (Ascii.eqb_spec c d) as [->|]; [|done]. intros [= <- <-]. eauto.
Qed.

(** ** Decimal conversion: [strconv.Itoa] and [strconv.Atoi] on 64-bit [int] *)

Definition itoa (z : Z) : string := NilZero.string_of_int (Z.to_int z).

Definition in_int64 (z : Z) : bool := (- 2 ^ 63 <=? z)%Z && (z <? 2 ^ 63)%Z.

Definition parse_digits (s : string) : option Z :=
  option_map Z.of_uint (NilZero.uint_of_string s).

(** An optional sign, at least one digit, and a value in range. *)
Definition atoi (s : string) : option Z :=
  let r := match s with
           | String c t =>
               if Ascii.eqb c "-" then option_map Z.opp (parse_digits t)
               else if Ascii.eqb c "+" then parse_digits t
               else parse_digits s
           | "" => None
           end in
  match r with
  | Some z => if in_int64 z then Some z else None
  | None => None
  end.

(** All bytes are decimal digits. *)
Fixpoint all_digits (s : string) : bool :=
  match s with "" => true | String c s => is_digit c && all_digits s end.

Lemma string_of_uint_digits d : all_digits (NilEmpty.string_of_uint d) = true.
Proof. by induction d. Qed.

Lemma itoa_digits z : (0 <= z)%Z → itoa z ≠ "" ∧ all_digits (itoa z) = true.
Proof.
  intros Hz. unfold itoa. destruct z as [|p|p]; [done| |lia]. simpl.
  unfold NilZero.string_of_uint.
  pose proof (string_of_uint_digits (Pos.to_uint p)) as H.
  destruct (Pos.to_uint p); simpl in *; done.
Qed.

Lemma all_digits_no_char c s : is_digit c = false → all_digits s = true → has_char c s = false.
Proof.
  intros Hc. induction s as [|d s IH]; [done|]. simpl. rewrite andb_true_iff. intros [Hd Hs].
  rewrite has_char_cons, IH by done. destruct (Ascii.eqb_spec c d) as [->|]; [congruence|done].
Qed.

Lemma itoa_no_char c z : (0 <= z)%Z → is_digit c = false → has_char c (itoa z) = false.
Proof. intros Hz Hc. apply all_digits_no_char; [done|]. by apply itoa_digits. Qed.

(** [Atoi] inverts [Itoa] on every non-negative [int]. *)
Lemma atoi_itoa z : (0 <= z)%Z → (z < 2 ^ 63)%Z → atoi (itoa z) = Some z.
Proof.
  intros H0 H1. destruct (itoa_digits z H0) as [Hne Hd].
  assert (Hp : parse_digits (itoa z) = Some z).
  { unfold parse_digits, itoa. destruct z as [|p|p]; [done| |lia].
    change (option_map Z.of_uint
      (NilZero.uint_of_string (NilZero.string_of_uint (Pos.to_uint p))) = Some (Zpos p)).
    rewrite NilZero.usu by apply DecimalPos.Unsigned.to_uint_nonnil.
    exact (f_equal Some (DecimalZ.of_to (Zpos p))). }
  unfold atoi. destruct (itoa z) as [|c t] eqn:E; [done|].
  simpl in Hd. apply andb_true_iff in Hd as [Hc _].
  destruct (Ascii.eqb_spec c "-") as [->|]; [done|].
  destruct (Ascii.eqb_spec c "+") as [->|]; [done|].
  rewrite Hp. unfold in_int64.
  destruct (Z.leb_spec (- 2 ^ 63) z); [|lia]. by destruct (Z.ltb_spec z (2 ^ 63)); [|lia].
Qed.

(** ** [strings.TrimSpace]: ASCII white space and the UTF-8 encodings of the
    other code points [unicode.IsSpace] accepts *)

Definition byte (n : N) : ascii := ascii_of_N n.
(** A line break. *)
Definition nl : string := String (byte 10) "".
Definition bytes (l : list N) : string := String.string_of_list_ascii (map byte l).

Definition white_space : list string :=
  map (λ n, bytes [n]) [9; 10; 11; 12; 13; 32]%N ++
  [bytes [194; 133]; bytes [194; 160]; bytes [225; 154; 128]]%N ++
  map (λ n, bytes [226; 128; n]%N) [128; 129; 130; 131; 132; 133; 134; 135; 136; 137; 138;
                                  168; 169; 175]%N ++
  [bytes [226; 129; 159]; bytes [227; 128; 128]]%N.

Fixpoint trim_left_of (spaces : list string) (fuel : nat) (s : string) : string :=
  match fuel with
  | 0 => s
  | S fuel =>
      match find_first (λ w, has_prefix w s) spaces with
      | Some w => trim_left_of spaces fuel (str_drop (String.length w) s)
      | None => s
      end
  end.
Definition trim_left (s : string) : string := trim_left_of white_space (String.length s) s.
Definition trim_right (s : string) : string :=
  String.rev (trim_left_of (map String.rev white_space) (String.length s) (String.rev s)).
Definition trim_space (s : string) : string := trim_right (trim_left s).

(** [strings.Fields]: the words between runs of white space.  [skip] bytes are left of
    the current space, [cur] is the word so far. *)
Fixpoint fields_from (skip : nat) (cur s : string) : list string :=
  match s with
  | "" => if String.eqb cur "" then [] else [cur]
  | String c r =>
      match skip with
      | S skip => fields_from skip cur r
      | 0 => match find_first (λ w, has_prefix w s) white_space with
             | Some w => (if String.eqb cur "" then [] else [cur]) ++ fields_from (String.length w - 1) "" r
             | None => fields_from 0 (cur +:+ String c "") r
             end
      end
  end.
Definition fields (s : string) : list string := fields_from 0 "" s.
Example fields_ex : fields (" a" +:+ nl +:+ " b" +:+ bytes [194; 160]%N +:+ "c ") = ["a"; "b"; "c"].
Proof. reflexivity. Qed.

Example trim_space_ex : trim_space " 	a b
 " = "a b".
Proof. reflexivity. Qed.

(** ** [path/filepath] on Unix: purely lexical *)

Definition is_abs (p : string) : bool := has_prefix "/" p.

(** The path elements that remain, innermost first. *)
Fixpoint clean_elems (rooted : bool) (out : list string) (l : list string) : list string :=
  match l with
  | [] => out
  | e :: l =>
      if String.eqb e "" || String.eqb e "." then clean_elems rooted out l
      else if String.eqb e ".." then
        match out with
        | top :: rest =>
            if String.eqb top ".." then clean_elems rooted (e :: out) l
            else clean_elems rooted rest l
        | [] => if rooted then clean_elems rooted [] l else clean_elems rooted [e] l
        end
      else clean_elems rooted (e :: out) l
  end.

Definition path_clean (p : string) : string :=
  let rooted := is_abs p in
  let body := join "/" (rev (clean_elems rooted [] (split_on "/" p))) in
  if rooted then "/" +:+ body else if String.eqb body "" then "." else body.

(** [filepath.Join]: empty elements are ignored. *)
Definition path_join (l : list string) : string :=
  match filter (λ e, e ≠ "") l with
  | [] => ""
  | l => path_clean (join "/" l)
  end.

Definition path_base (p : string) : string :=
  if String.eqb p "" then "."
  else match filter (λ e, e ≠ "") (rev (split_on "/" p)) with
       | [] => "/"
       | e :: _ => e
       end.

Definition path_dir (p : string) : string :=
  match cut_last "/" p with
  | Some (a, _) => path_clean (a +:+ "/")
  | None => "."
  end.

Example path_clean_ex :
  map path_clean [""; "a//b/./c/.."; "/../a"; "../../x/.."; "/"; "./"] =
  ["."; "a/b"; "/a"; "../.."; "/"; "."].
Proof. reflexivity. Qed.
Example path_misc_ex :
  (path_base "/x/apps/a.yaml", path_base "//", path_dir "/x/a.yaml", path_dir "a", path_join ["/r"; ""; "p/../q"])
  = ("a.yaml", "/", "/x", ".", "/r/q").
Proof. reflexivity. Qed.

(** ** UTF-8 *)

(** The length in bytes of the UTF-8 rune a string of two or more bytes starts
    with ([utf8.DecodeRuneInString]); [None] for an invalid encoding. *)
Definition in_range (lo hi n : N) : bool := (lo <=? n)%N && (n <=? hi)%N.
Definition continues (l : list N) : bool := forallb (in_range 128 191) l.
Definition rune_len (b : list N) : option nat :=
  match b with
  | b0 :: b1 :: rest =>
      if in_range 194 223 b0 && in_range 128 191 b1 then Some 2
      else match rest with
      | b2 :: rest =>
          let second :=
            if (b0 =? 224)%N then in_range 160 191 b1
            else if (b0 =? 237)%N then in_range 128 159 b1
            else in_range 225 239 b0 && in_range 128 191 b1 in
          if second && continues [b2] then Some 3
          else match rest with
          | b3 :: _ =>
              let second :=
                if (b0 =? 240)%N then in_range 144 191 b1
                else if (b0 =? 244)%N then in_range 128 143 b1
                else in_range 241 243 b0 && in_range 128 191 b1 in
              if second && continues [b2; b3] then Some 4 else None
          | [] => None
          end
      | [] => None
      end
  | _ => None
  end.

(** ** [fmt]'s %q verb: [strconv.Quote]; a byte that is not part of a rune is written in
    hexadecimal, and every rune from 128 up is taken for a printable one *)

Definition hex_digit (n : N) : ascii :=
  if (n <? 10)%N then ascii_of_N (48 + n) else ascii_of_N (87 + n).

Definition hex_escape (c : ascii) : string :=
  let n := N_of_ascii c in "\x" +:+ String (hex_digit (n / 16)) (String (hex_digit (n mod 16)) "").
Definition quote_char (c : ascii) : string :=
  let n := N_of_ascii c in
  if (n =? 34)%N then bytes [92; 34]%N
  else if (n =? 92)%N then bytes [92; 92]%N
  else if (32 <=? n)%N && negb (n =? 127)%N then String c ""
  else match find_first (λ p : N * ascii, N.eqb (fst p) n)
               [(7, "a"); (8, "b"); (9, "t"); (10, "n"); (11, "v"); (12, "f"); (13, "r")]%N%char with
       | Some (_, e) => String "\" (String e "")
       | None => hex_escape c
       end.
(** [skip] bytes of the current rune are left. *)
Fixpoint quote_body (skip : nat) (s : string) : string :=
  match s with
  | "" => ""
  | String c rest =>
      match skip with
      | S skip => quote_char c +:+ quote_body skip rest
      | 0 => if (N_of_ascii c <? 128)%N then quote_char c +:+ quote_body 0 rest
             else match rune_len (map N_of_ascii (String.list_ascii_of_string (str_take 4 s))) with
                  | Some k => quote_char c +:+ quote_body (k - 1) rest
                  | None => hex_escape c +:+ quote_body 0 rest
                  end
      end
  end.
Definition quote (s : string) : string :=
  String (byte 34) (quote_body 0 s +:+ String (byte 34) "").
Example quote_ex : quote (bytes [195; 169; 169; 10; 255]%N) =
  String (byte 34) (bytes [195; 169]%N +:+ "\xa9\n\xff" +:+ String (byte 34) "").
Proof. vm_compute. reflexivity. Qed.
