(* ===== verification/Paths.v ===== *)
(** Lexical paths: what [path_clean] and [path_dir] of GoStrings.v compute, the
    climb from a directory to the root that config discovery and the search for
    the repository share, containment of one path in another, and relative paths. *)
From Stdlib Require Import ZArith.
From S2P Require Import Prelude GoStrings.

#[local] Open Scope string_scope.
#[local] Open Scope list_scope.

(** ** Clean paths

    A clean path is a stack of elements, innermost first: names, and for a
    relative path the leading dot-dots at the bottom. *)

Definition name (e : string) : Prop := e ≠ "" ∧ e ≠ "." ∧ e ≠ ".." ∧ has_char "/" e = false.
Inductive stack (rooted : bool) : list string → Prop :=
  | stack_nil : stack rooted []
  | stack_name e s : name e → stack rooted s → stack rooted (e :: s)
  | stack_up s : rooted = false → Forall (λ x, x = "..") s → stack rooted (".." :: s).
Definition show_path (rooted : bool) (s : list string) : string :=
  let body := join "/" (rev s) in
  if rooted then "/" +:+ body else if String.eqb body "" then "." else body.

Lemma ups_stack rooted s : rooted = false → Forall (λ x, x = "..") s → stack rooted s.
Proof. intros Hr. destruct 1 as [|x s -> H]; [constructor|by apply stack_up]. Qed.
Lemma stack_tail rooted e s : stack rooted (e :: s) → stack rooted s.
Proof. inversion 1; subst; [done|by apply ups_stack]. Qed.
Lemma stack_no_slash rooted s : stack rooted s → Forall (λ e, has_char "/" e = false) s.
Proof.
  induction 1 as [|e s (_ & _ & _ & Hn) _ IH|s _ H]; constructor; try done.
  eapply Forall_impl; [exact H|]. by intros x ->.
Qed.
Lemma stack_nonempty rooted s : stack rooted s → Forall (λ e, e ≠ "") s.
Proof.
  induction 1 as [|e s (Hn & _) _ IH|s _ H]; constructor; try done.
  eapply Forall_impl; [exact H|]. by intros x ->.
Qed.

Lemma clean_elems_stack rooted l out : Forall (λ e, has_char "/" e = false) l → stack rooted out →
  stack rooted (clean_elems rooted out l).
Proof.
  intros Hl. revert out. induction Hl as [|e l He _ IH]; intros out Hs; simpl; [done|].
  destruct (String.eqb_spec e ""); [by apply IH|]. destruct (String.eqb_spec e "."); [by apply IH|]. cbn [orb].
  destruct (String.eqb_spec e "..") as [->|].
  - destruct out as [|top rest].
    + destruct rooted; apply IH; [done|by apply stack_up].
    + destruct (String.eqb_spec top "..") as [->|]; apply IH.
      * inversion Hs as [|? ? Hn _|? Hr Hf]; subst; [by destruct Hn as (_ & _ & [] & _)|].
        apply stack_up; [done|by constructor].
      * by eapply stack_tail.
  - apply IH. by constructor.
Qed.

(** Cleaning a clean path reads the stack back. *)
Lemma clean_elems_replay rooted s l : stack rooted s →
  clean_elems rooted [] (rev s ++ l) = clean_elems rooted s l.
Proof.
  intros Hs. revert l. induction s as [|e s IH]; intros l; [done|]. simpl rev.
  rewrite <- app_assoc, IH by (by eapply stack_tail). cbn [app clean_elems].
  inversion Hs as [|? ? (He & Hd & Hu & _) _|? Hr Hf]; subst.
  - destruct (String.eqb_spec e ""); [done|]. destruct (String.eqb_spec e "."); [done|].
    by destruct (String.eqb_spec e "..").
  - cbn. destruct s as [|x s]; [done|]. by inversion Hf; subst.
Qed.

Lemma length_clean_elems rooted out l :
  (length (clean_elems rooted out l) ≤ length out + length (filter (λ e, e ≠ "") l))%nat.
Proof.
  revert out. induction l as [|e l IH]; intros out; simpl; [lia|]. rewrite filter_cons.
  destruct (String.eqb_spec e "") as [->|He]; cbn [orb]; [rewrite decide_False by (by intros []); apply IH|].
  rewrite decide_True by done. cbn [length].
  destruct (String.eqb e "."); [specialize (IH out); lia|].
  destruct (String.eqb e ".."); [|specialize (IH (e :: out)); simpl in IH; lia].
  destruct out as [|top rest]; [destruct rooted; [specialize (IH [])|specialize (IH [e])]; simpl in IH; simpl; lia|].
  destruct (String.eqb top ".."); [specialize (IH (e :: top :: rest))|specialize (IH rest)]; simpl in IH; simpl; lia.
Qed.

Lemma path_clean_show p : ∃ s, stack (is_abs p) s ∧ path_clean p = show_path (is_abs p) s ∧
  (length s ≤ length (filter (λ e, e ≠ "") (split_on "/" p)))%nat.
Proof.
  exists (clean_elems (is_abs p) [] (split_on "/" p)). split_and!.
  - apply clean_elems_stack; [apply split_on_parts|constructor].
  - done.
  - etrans; [apply length_clean_elems|]. simpl. lia.
Qed.

Lemma cut_last_app c a b : has_char c b = false → cut_last c (a +:+ String c b) = Some (a, b).
Proof.
  intros Hb. induction a as [|d a IH]; simpl.
  - assert (H : cut_last c b = None).
    { induction b as [|d b IH]; [done|]. rewrite has_char_cons in Hb. apply orb_false_iff in Hb as [Hd Hb].
      simpl. by rewrite (IH Hb), Hd. }
    by rewrite H, Ascii.eqb_refl.
  - by rewrite IH.
Qed.
Lemma cut_last_None c s : has_char c s = false → cut_last c s = None.
Proof.
  induction s as [|d s IH]; [done|]. rewrite has_char_cons. intros [Hd Hs]%orb_false_iff. simpl. by rewrite (IH Hs), Hd.
Qed.

Lemma not_abs e x : e ≠ "" → has_char "/" e = false → is_abs (e +:+ x) = false.
Proof.
  destruct e as [|c e]; [done|]. intros _. rewrite has_char_cons. intros [Hc _]%orb_false_iff.
  change (is_abs (String c e +:+ x)) with (Ascii.eqb "/" c && true). by rewrite Hc.
Qed.

(** A clean path written with a trailing slash cleans to itself. *)
Lemma path_clean_slash rooted s : stack rooted s → s ≠ [] →
  path_clean ((if rooted then "/" else "") +:+ join "/" (rev s) +:+ "/") = show_path rooted s.
Proof.
  intros Hs Hne. set (p := _ +:+ _).
  assert (Hrev : rev s ≠ []) by (intros E; apply Hne; by rewrite <- (rev_involutive s), E).
  assert (Hp : p = join "/" ((if rooted then [""] else []) ++ rev s ++ [""])).
  { subst p. destruct rooted; cbn [app].
    - rewrite (join_cons _ ""), join_snoc by (by destruct (rev s)). done.
    - by rewrite join_snoc. }
  assert (Hr : is_abs p = rooted).
  { rewrite Hp. destruct rooted; cbn [app].
    - rewrite join_cons by (by destruct (rev s)). done.
    - pose proof (stack_no_slash _ _ Hs) as H1. pose proof (stack_nonempty _ _ Hs) as H2.
      destruct (rev s) as [|e l] eqn:E; [done|].
      assert (He : e ∈ s) by (apply elem_of_rev; rewrite E; by left).
      rewrite Forall_forall in H1. rewrite Forall_forall in H2.
      cbn [app]. rewrite join_cons by (by destruct l). apply not_abs; auto. }
  unfold path_clean. rewrite Hr.
  assert (Hsp : split_on "/" p = (if rooted then [""] else []) ++ rev s ++ [""]).
  { rewrite Hp. apply split_on_join; [by destruct rooted, (rev s)|].
    rewrite !Forall_app. split_and!; [destruct rooted; repeat constructor| |repeat constructor].
    apply Forall_rev. by eapply stack_no_slash. }
  rewrite Hsp. replace (clean_elems rooted [] _) with s; [done|].
  symmetry. transitivity (clean_elems rooted [] (rev s ++ [""])); [by destruct rooted|].
  by rewrite clean_elems_replay.
Qed.

(** [filepath.Dir] drops the innermost element, and stays at the root or at the
    current directory. *)
Lemma path_dir_show rooted s : stack rooted s →
  path_dir (show_path rooted s) = show_path rooted (tail s).
Proof.
  intros Hs. destruct s as [|e s]; [by destruct rooted|].
  assert (He : has_char "/" e = false) by (apply stack_no_slash, Forall_cons in Hs; tauto).
  assert (Hne : e ≠ "") by (apply stack_nonempty, Forall_cons in Hs; tauto).
  cbn [tail]. unfold path_dir, show_path at 1. cbn [rev].
  destruct s as [|x s].
  - cbn [rev app join]. destruct rooted.
    + change ("/" +:+ e) with ("" +:+ String "/" e). by rewrite cut_last_app.
    + rewrite (proj2 (String.eqb_neq _ _) Hne). by rewrite cut_last_None.
  - assert (Hx : rev (x :: s) ≠ []) by (simpl; by destruct (rev s)).
    rewrite join_snoc by done. change ("/" +:+ e) with (String "/" e).
    assert (Hb : (join "/" (rev (x :: s)) +:+ String "/" e =? "") = false).
    { apply String.eqb_neq. intros [_ ?]%app_str_eq_nil. done. }
    rewrite Hb. apply stack_tail in Hs. rewrite <- path_clean_slash by done.
    destruct rooted.
    + rewrite <- app_str_assoc, cut_last_app by done. by rewrite app_str_assoc.
    + by rewrite cut_last_app.
Qed.

(** ** The climb to the root *)

Definition up (k : nat) (p : string) : string := Nat.iter k path_dir p.

(** [for { if a := test(cur) ...; parent := filepath.Dir(cur);
    if parent == cur { return }; cur = parent }]. *)
Fixpoint climb {A} (test : string → option A) (fuel : nat) (dir : string) : option A :=
  match fuel with
  | O => None
  | S fuel =>
      match test dir with
      | Some a => Some a
      | None => let parent := path_dir dir in
                if String.eqb parent dir then None else climb test fuel parent
      end
  end.
(** One step for each element the path can have, and two for the end. *)
Definition climb_fuel (dir : string) : nat := S (S (String.length dir)).

Lemma up_show rooted s k : stack rooted s → up k (show_path rooted s) = show_path rooted (drop k s).
Proof.
  intros Hs. unfold up. revert s Hs. induction k as [|k IH]; intros s Hs; [by rewrite drop_0|].
  rewrite Nat.iter_succ_r, path_dir_show by done. rewrite IH by (destruct s; [done|by eapply stack_tail]).
  destruct s; cbn; [by rewrite drop_nil|done].
Qed.

Lemma length_parts c s : (length (filter (λ e, e ≠ "") (split_on c s)) ≤ String.length s)%nat.
Proof.
  induction s as [|d s IH]; simpl; [lia|]. destruct (Ascii.eqb c d).
  - rewrite filter_cons, decide_False by (by intros []). lia.
  - destruct (split_on c s) as [|p ps]; rewrite filter_cons, decide_True by done; simpl in *.
    + lia.
    + rewrite filter_cons in IH. destruct (decide (p ≠ "")); simpl in *; lia.
Qed.

Lemma path_dir_shape p : ∃ rooted s, stack rooted s ∧ path_dir p = show_path rooted s ∧
  (length s ≤ String.length p)%nat.
Proof.
  unfold path_dir. destruct (cut_last "/" p) as [[a b]|] eqn:E.
  - apply cut_last_Some in E as [-> _]. destruct (path_clean_show (a +:+ "/")) as (s & Hs & -> & Hl).
    exists (is_abs (a +:+ "/")), s. split_and!; [done..|]. etrans; [exact Hl|].
    etrans; [apply length_parts|]. rewrite !length_app_str. simpl. lia.
  - exists false, []. split_and!; [constructor|done|simpl; lia].
Qed.

(** Climbing comes to rest within the fuel. *)
Lemma climb_rests p : path_dir (up (S (String.length p)) p) = up (S (String.length p)) p.
Proof.
  assert (E : ∃ rooted, up (S (String.length p)) p = show_path rooted []).
  { destruct (path_dir_shape p) as (rooted & s & Hs & Hp & Hl). exists rooted.
    unfold up. rewrite Nat.iter_succ_r, Hp. fold (up (String.length p) (show_path rooted s)).
    by rewrite up_show, drop_ge. }
  destruct E as ([] & ->); reflexivity.
Qed.

(** With that much fuel the climb finds the nearest ancestor that passes the
    test, and finds none exactly when there is none. *)
Lemma climb_nearest {A} (test : string → option A) fuel dir : (climb_fuel dir ≤ fuel)%nat →
  match climb test fuel dir with
  | Some a => ∃ k, test (up k dir) = Some a ∧ ∀ j, (j < k)%nat → test (up j dir) = None
  | None => ∀ k, test (up k dir) = None
  end.
Proof.
  intros Hf. assert (Hk : ∃ k, (k < fuel)%nat ∧ path_dir (up k dir) = up k dir).
  { exists (S (String.length dir)). split; [unfold climb_fuel in Hf; lia|apply climb_rests]. }
  clear Hf. revert dir Hk. induction fuel as [|fuel IH]; intros dir (k & Hk & Hrest); [lia|].
  simpl. destruct (test dir) as [a|] eqn:Et; [exists 0; split; [done|lia]|].
  destruct (String.eqb_spec (path_dir dir) dir) as [Hd|Hd].
  { intros j. unfold up. induction j as [|j IHj]; [done|]. by rewrite Nat.iter_succ_r, Hd. }
  destruct k as [|k]; [done|].
  assert (Hup : ∀ j, up j (path_dir dir) = up (S j) dir) by (intros; unfold up; by rewrite Nat.iter_succ_r).
  specialize (IH (path_dir dir)). destruct (climb test fuel (path_dir dir)) as [a|].
  - destruct IH as (j & Ha & Hj); [exists k; rewrite !Hup; split; [lia|done]|].
    exists (S j). rewrite <- Hup. split; [done|]. intros i Hi. destruct i as [|i]; [done|].
    rewrite <- Hup. apply Hj. lia.
  - intros [|j]; [done|]. rewrite <- Hup. apply IH. exists k. rewrite !Hup. split; [lia|done].
Qed.

(** ** Containment *)

(** [pathUnder] of builder.go; the index is in range where it is read. *)
Definition pathUnder (file dir : string) : bool :=
  if String.eqb file dir then true
  else if negb (has_prefix dir file) then false
  else match str_drop (String.length dir) file with
       | String c _ => Ascii.eqb c "/"
       | "" => false
       end.

Lemma split_show s : stack true s → s ≠ [] → split_on "/" (show_path true s) = "" :: rev s.
Proof.
  intros Hs Hne. assert (Hr : rev s ≠ []) by (intros E; apply Hne; by rewrite <- (rev_involutive s), E).
  unfold show_path. change ("/" +:+ join "/" (rev s)) with ("" +:+ String "/" (join "/" (rev s))).
  rewrite split_on_app by done. rewrite split_on_join; [done|done|]. apply Forall_rev. by eapply stack_no_slash.
Qed.
Lemma show_path_app t d : t ≠ [] → d ≠ [] →
  show_path true (t ++ d) = show_path true d +:+ String "/" (join "/" (rev t)).
Proof.
  intros Ht Hd. unfold show_path. rewrite rev_app_distr, join_app.
  - by rewrite <- app_str_assoc.
  - intros E. apply Hd. by rewrite <- (rev_involutive d), E.
  - intros E. apply Ht. by rewrite <- (rev_involutive t), E.
Qed.
Lemma split_on_app_parts c a b : split_on c (a +:+ String c b) = split_on c a ++ split_on c b.
Proof.
  induction a as [|d a IH]; simpl; [by rewrite Ascii.eqb_refl|].
  destruct (Ascii.eqb c d); [by rewrite IH|]. rewrite IH.
  by destruct (split_on c a) eqn:E; [apply split_on_nonempty in E|].
Qed.
Lemma show_root s : stack true s → show_path true s = show_path true [] → s = [].
Proof.
  intros Hs E. destruct s as [|x s]; [done|]. exfalso.
  assert (H : "" :: rev (x :: s) = ["";""]) by (by rewrite <- split_show, E).
  injection H as H. assert (Hx : x ∈ rev (x :: s)) by (apply elem_of_rev; by left).
  assert (H' : rev (x :: s) = [""]) by done.
  rewrite H' in Hx. apply list_elem_of_singleton in Hx. apply stack_nonempty, Forall_cons in Hs. by destruct Hs.
Qed.
Lemma show_path_inj s d : stack true s → stack true d → show_path true s = show_path true d → s = d.
Proof.
  intros Hs Hd E. destruct s as [|x s], d as [|y d]; [done| | |].
  - symmetry in E. by apply show_root in E.
  - by apply show_root in E.
  - assert (H : "" :: rev (x :: s) = "" :: rev (y :: d)).
    { rewrite <- !split_show by done. by rewrite E. }
    apply (f_equal tail) in H. cbn [tail] in H.
    rewrite <- (rev_involutive (x :: s)), H. apply rev_involutive.
Qed.

(** A clean absolute path is under another exactly when the other's elements end
    its own; but nothing other than itself is under the root. *)
Lemma pathUnder_show s d : stack true s → stack true d →
  pathUnder (show_path true s) (show_path true d) = true ↔ s = d ∨ (d ≠ [] ∧ ∃ t, s = t ++ d).
Proof.
  intros Hs Hd. unfold pathUnder. destruct (String.eqb_spec (show_path true s) (show_path true d)) as [E|E].
  { split; [intros _; left; by apply show_path_inj|done]. }
  destruct (has_prefix (show_path true d) (show_path true s)) eqn:Hp; cbn [negb].
  - apply has_prefix_spec in Hp as [r Hr]. rewrite Hr, str_drop_app. destruct r as [|c r].
    { rewrite app_str_nil_r in Hr. done. }
    rewrite Ascii.eqb_eq. split.
    + intros ->. right. assert (Hne : s ≠ []).
      { intros ->. apply (f_equal String.length) in Hr. rewrite length_app_str in Hr. unfold show_path in Hr.
        simpl in Hr. lia. }
      destruct d as [|y d].
      { exfalso. assert (Hsp : split_on "/" (show_path true s) = "" :: "" :: split_on "/" r) by (by rewrite Hr).
        rewrite split_show in Hsp by done. injection Hsp as Hsp.
        assert (Hx : "" ∈ rev s) by (rewrite Hsp; by left). rewrite elem_of_rev in Hx.
        apply stack_nonempty in Hs. rewrite Forall_forall in Hs. by apply (Hs "" Hx). }
      split; [done|]. exists (rev (split_on "/" r)).
      assert (Hsp : "" :: rev s = ("" :: rev (y :: d)) ++ split_on "/" r).
      { rewrite <- !split_show by done. rewrite Hr. apply split_on_app_parts. }
      apply (f_equal tail) in Hsp. cbn [tail app] in Hsp.
      rewrite <- (rev_involutive s), Hsp. by rewrite rev_app_distr, rev_involutive.
    + intros [->|(Hn & t & ->)]; [done|]. destruct t as [|x t]; [done|].
      rewrite show_path_app in Hr by done. apply (f_equal (str_drop (String.length (show_path true d)))) in Hr.
      rewrite !str_drop_app in Hr. by injection Hr.
  - split; [done|]. intros [->|(Hn & t & ->)]; [done|]. destruct t as [|x t]; [done|].
    rewrite show_path_app in Hp by done. by rewrite has_prefix_app in Hp.
Qed.

(** ** A path relative to another *)

(** [filepath.Rel] of two absolute paths, or of a relative one and a path below it: up
    from what they do not share. *)
Fixpoint strip_common (a b : list string) : list string * list string :=
  match a, b with
  | x :: a', y :: b' => if String.eqb x y then strip_common a' b' else (a, b)
  | _, _ => (a, b)
  end.
Definition path_elems (p : string) : list string :=
  if String.eqb (path_clean p) "." then [] else filter (λ e, e ≠ "") (split_on "/" (path_clean p)).
Definition path_rel (base target : string) : string :=
  let '(b, t) := strip_common (path_elems base) (path_elems target) in
  match app (map (λ _, "..") b) t with [] => "." | l => join "/" l end.
Example path_rel_ex : map (path_rel "/repo") ["/repo/deploy/a"; "/repo"; "/repo2"; "/"] = ["deploy/a"; "."; "../repo2"; ".."] ∧
  map (path_rel ".") ["a"; "./a/b"; "."] = ["a"; "a/b"; "."].
Proof. split; reflexivity. Qed.

(** A name below a clean directory: the path that is joined for it, and the way back. *)
Lemma show_path_below s : ∃ p, ∀ n, show_path true (n :: s) = p +:+ n.
Proof.
  destruct s as [|e s]; [by exists "/"|]. exists (show_path true (e :: s) +:+ "/"). intros n.
  change (n :: e :: s) with ([n] ++ e :: s). rewrite show_path_app by done. by rewrite app_str_assoc.
Qed.
Lemma parts_show s : stack true s → clean_elems true [] (split_on "/" (show_path true s)) = s ∧
  filter (λ e, e ≠ "") (split_on "/" (show_path true s)) = rev s.
Proof.
  intros Hs. destruct (decide (s = [])) as [->|Hne]; [done|]. rewrite split_show by done. split.
  - change (clean_elems true [] ("" :: rev s)) with (clean_elems true [] (rev s)).
    rewrite <- (app_nil_r (rev s)). by rewrite clean_elems_replay.
  - rewrite filter_cons_False by (intros H; by apply H). apply filter_all.
    apply Forall_rev. by eapply stack_nonempty.
Qed.
Lemma path_clean_stack s : stack true s → path_clean (show_path true s) = show_path true s.
Proof.
  intros Hs. unfold path_clean. replace (is_abs (show_path true s)) with true by (by destruct s).
  by rewrite (proj1 (parts_show s Hs)).
Qed.
Lemma path_join_show s n : stack true s → name n → path_join [show_path true s; n] = show_path true (n :: s).
Proof.
  intros Hs Hn. assert (Hs' : stack true (n :: s)) by (by constructor). pose proof Hn as (H1 & H2 & H3 & H4).
  unfold path_join. rewrite filter_cons_True by (by destruct s). rewrite filter_cons_True by done. rewrite filter_nil.
  cbn [join]. change ("/" +:+ n) with (String "/" n). destruct s as [|e s].
  - unfold path_clean. change (show_path true []) with "/". rewrite split_on_app_parts, (split_on_no_char _ n) by done.
    cbn. by destruct (String.eqb_spec n ""), (String.eqb_spec n "."), (String.eqb_spec n "..").
  - rewrite <- (path_clean_stack (n :: e :: s) Hs'). change (n :: e :: s) with ([n] ++ e :: s). by rewrite show_path_app.
Qed.
Lemma strip_common_app a b : strip_common a (a ++ b) = ([], b).
Proof. induction a as [|x a IH]; [by destruct b|]. cbn. by rewrite String.eqb_refl. Qed.
Lemma path_rel_show s n : stack true s → name n → path_rel (show_path true s) (show_path true (n :: s)) = n.
Proof.
  intros Hs Hn. assert (Hs' : stack true (n :: s)) by (by constructor). unfold path_rel, path_elems.
  rewrite !path_clean_stack by done. rewrite (proj2 (parts_show s Hs)), (proj2 (parts_show _ Hs')).
  replace (String.eqb (show_path true s) ".") with false by (by destruct s).
  replace (String.eqb (show_path true (n :: s)) ".") with false by done.
  cbn [rev]. by rewrite strip_common_app.
Qed.
