(* ===== verification/Regexp.v ===== *)
(** The part of Go's regexp package the program uses: patterns are compiled from
    their source text and matched leftmost-first, with submatches.

    Matching is over bytes: with the classes used here (each multi-byte rune is
    inside or outside them as a whole) the matches are those over runes.  A
    repetition is only supported on a single-character class, as in every pattern
    of the program; on others the compiler answers None. *)
From Stdlib Require Import ZArith.
From S2P Require Import Prelude GoStrings.

#[local] Open Scope string_scope.
#[local] Open Scope list_scope.

(** ** Expressions *)

Notation class := (ascii → bool).
Inductive re : Type :=
  | REmpty
  | RChr (c : class)
  | RSeq (a b : re)
  | RAlt (a b : re)
  | RStar (greedy : bool) (c : class)
  | RGroup (n : nat) (r : re)
  | RBol | REol          (* ^ and $ under (?m) *)
  | RBot | REot          (* ^ and $ otherwise *)
  | RBound.              (* \b *)

Definition newline : ascii := byte 10.
Definition tab : ascii := byte 9.
Definition is_newline (c : ascii) : bool := Ascii.eqb c newline.
Definition is_blank (c : ascii) : bool := Ascii.eqb c " " || Ascii.eqb c tab.
(** \s: tab, newline, form feed, carriage return and space. *)
Definition is_space (c : ascii) : bool :=
  is_blank c || is_newline c || Ascii.eqb c (byte 12) || Ascii.eqb c (byte 13).
Definition is_word (c : ascii) : bool :=
  let n := N_of_ascii c in
  ((48 <=? n) && (n <=? 57))%N || ((65 <=? n) && (n <=? 90))%N || ((97 <=? n) && (n <=? 122))%N ||
  Ascii.eqb c "_".

(** ** Compilation *)

(** One escaped character, as a class or an assertion. *)
Definition escape (c : ascii) : option re :=
  if Ascii.eqb c "s" then Some (RChr is_space)
  else if Ascii.eqb c "S" then Some (RChr (λ a, negb (is_space a)))
  else if Ascii.eqb c "t" then Some (RChr (Ascii.eqb tab))
  else if Ascii.eqb c "n" then Some (RChr (Ascii.eqb newline))
  else if Ascii.eqb c "b" then Some RBound
  else if is_word c then None
  else Some (RChr (Ascii.eqb c)).
(** The items of a bracket, up to its end. *)
Fixpoint parse_class (s : string) : option (class * string) :=
  match s with
  | "" => None
  | String "]" s => Some (λ _, false, s)
  | String "\" (String e s) =>
      match escape e, parse_class s with
      | Some (RChr c), Some (d, s) => Some (λ a, c a || d a, s)
      | _, _ => None
      end
  | String c s =>
      match parse_class s with
      | Some (d, s) => Some (λ a, Ascii.eqb c a || d a, s)
      | None => None
      end
  end.
Definition parse_bracket (s : string) : option (re * string) :=
  match s with
  | String "^" s => match parse_class s with
                    | Some (c, s) => Some (RChr (λ a, negb (c a)), s)
                    | None => None
                    end
  | s => match parse_class s with Some (c, s) => Some (RChr c, s) | None => None end
  end.
(** A quantifier after an atom. *)
Definition quantify (a : re) (s : string) : option (re * string) :=
  match s with
  | String "*" (String "?" s) => match a with RChr c => Some (RStar false c, s) | _ => None end
  | String "*" s => match a with RChr c => Some (RStar true c, s) | _ => None end
  | String "+" s => match a with RChr c => Some (RSeq a (RStar true c), s) | _ => None end
  | String "?" s => Some (RAlt a REmpty, s)
  | s => Some (a, s)
  end.
(** [n] is the number of the next group; [alt] says which production. *)
Fixpoint parse (fuel : nat) (multi alt : bool) (n : nat) (s : string) : option (re * nat * string) :=
  match fuel with
  | O => None
  | S fuel =>
      if alt then
        match parse fuel multi false n s with
        | Some (r, n, String "|" s) =>
            match parse fuel multi true n s with
            | Some (r', n, s) => Some (RAlt r r', n, s)
            | None => None
            end
        | other => other
        end
      else
        let continue (a : re) (n : nat) (s : string) :=
          match quantify a s with
          | Some (a, s) => match parse fuel multi false n s with
                           | Some (r, n, s) => Some (RSeq a r, n, s)
                           | None => None
                           end
          | None => None
          end in
        match s with
        | "" | String "|" _ | String ")" _ => Some (REmpty, n, s)
        | String "(" (String "?" (String ":" s)) =>
            match parse fuel multi true n s with
            | Some (r, n, String ")" s) => continue r n s
            | _ => None
            end
        | String "(" s =>
            match parse fuel multi true (S n) s with
            | Some (r, n', String ")" s) => continue (RGroup n r) n' s
            | _ => None
            end
        | String "[" s => match parse_bracket s with Some (a, s) => continue a n s | None => None end
        | String "." s => continue (RChr (λ a, negb (is_newline a))) n s
        | String "^" s => continue (if multi then RBol else RBot) n s
        | String "$" s => continue (if multi then REol else REot) n s
        | String "\" (String e s) => match escape e with Some a => continue a n s | None => None end
        | String c s => if contains "*+?{}" (String c "") then None else continue (RChr (Ascii.eqb c)) n s
        end
  end.
Definition Compile (pattern : string) : option re :=
  let multi := has_prefix "(?m)" pattern in
  let body := trim_prefix "(?m)" pattern in
  match parse (S (S (2 * String.length body))) multi true 1 body with
  | Some (r, _, "") => Some r
  | _ => None
  end.
(** [regexp.MustCompile]: on the program's own patterns, which all compile. *)
Definition MustCompile (pattern : string) : re := default REmpty (Compile pattern).

Definition meta : string := "\.+*?()|[]{}^$".
Fixpoint QuoteMeta (s : string) : string :=
  match s with
  | "" => ""
  | String c s => (if has_char c meta then String "\" (String c "") else String c "") +:+ QuoteMeta s
  end.

(** ** Matching *)

(** Where the matcher is: the byte before, and the text that is left. *)
Record pos : Type := MkPos { p_prev : option ascii; p_rest : string }.
Definition start (s : string) : pos := MkPos None s.
(** The text between two positions of one subject. *)
Definition between (p q : pos) : string :=
  str_take (String.length (p_rest p) - String.length (p_rest q)) (p_rest p).
(** Submatches, the latest first. *)
Notation caps := (list (nat * string)).

Definition at_bol (p : pos) : bool := match p_prev p with None => true | Some c => is_newline c end.
Definition at_eol (p : pos) : bool := match p_rest p with "" => true | String c _ => is_newline c end.
Definition at_bot (p : pos) : bool := match p_prev p with None => true | Some _ => false end.
Definition at_eot (p : pos) : bool := match p_rest p with "" => true | _ => false end.
Definition at_bound (p : pos) : bool :=
  xorb (match p_prev p with Some c => is_word c | None => false end)
       (match p_rest p with String c _ => is_word c | "" => false end).
Definition assertion (r : re) : option (pos → bool) :=
  match r with
  | RBol => Some at_bol | REol => Some at_eol | RBot => Some at_bot | REot => Some at_eot
  | RBound => Some at_bound | _ => None
  end.

(** The backtracking matcher, in continuation-passing style. *)
Section run.
Context {A : Type}.
Definition star_with (greedy : bool) (c : class) (k : pos → option A) :=
  fix star (prev : option ascii) (s : string) : option A :=
    match s with
    | String a s' =>
        if c a then
          if greedy then match star (Some a) s' with Some x => Some x | None => k (MkPos prev s) end
          else match k (MkPos prev s) with Some x => Some x | None => star (Some a) s' end
        else k (MkPos prev s)
    | "" => k (MkPos prev s)
    end.
Fixpoint run (r : re) (p : pos) (cs : caps) (k : pos → caps → option A) : option A :=
  match r with
  | REmpty => k p cs
  | RChr c => match p_rest p with
              | String a s => if c a then k (MkPos (Some a) s) cs else None
              | "" => None
              end
  | RSeq a b => run a p cs (λ q cs, run b q cs k)
  | RAlt a b => match run a p cs k with Some x => Some x | None => run b p cs k end
  | RStar greedy c => star_with greedy c (λ q, k q cs) (p_prev p) (p_rest p)
  | RGroup n r => run r p cs (λ q cs, k q ((n, between p q) :: cs))
  | RBol => if at_bol p then k p cs else None
  | REol => if at_eol p then k p cs else None
  | RBot => if at_bot p then k p cs else None
  | REot => if at_eot p then k p cs else None
  | RBound => if at_bound p then k p cs else None
  end.
End run.

(** A match: its end and its submatches. *)
Definition match_at (r : re) (p : pos) : option (pos * caps) := run r p [] (λ q cs, Some (q, cs)).
Definition advance (p : pos) : pos :=
  match p_rest p with String c s => MkPos (Some c) s | "" => p end.
(** The leftmost match: its start, end and submatches. *)
Fixpoint search_from (fuel : nat) (r : re) (p : pos) : option (pos * pos * caps) :=
  match match_at r p with
  | Some (q, cs) => Some (p, q, cs)
  | None => match fuel with
            | O => None
            | S fuel => search_from fuel r (advance p)
            end
  end.
Definition leftmost (r : re) (p : pos) : option (pos * pos * caps) :=
  search_from (String.length (p_rest p)) r p.
(** Submatch [n]: the empty string when the group took no part. *)
Definition submatch (n : nat) (cs : caps) : string :=
  match find_first (λ c, Nat.eqb (fst c) n) cs with Some (_, s) => s | None => "" end.

Definition MatchString (r : re) (s : string) : bool :=
  match leftmost r (start s) with Some _ => true | None => false end.
(** [FindStringSubmatch]: the whole match and group 1. *)
Definition FindStringSubmatch (r : re) (s : string) : option (string * caps) :=
  match leftmost r (start s) with Some (p, q, cs) => Some (between p q, cs) | None => None end.
(** Successive matches; an empty one moves on by a byte. *)
Fixpoint find_all (fuel : nat) (r : re) (p : pos) : list (pos * pos * caps) :=
  match fuel with
  | O => []
  | S fuel =>
      match leftmost r p with
      | None => []
      | Some (a, b, cs) =>
          (a, b, cs) ::
          if Nat.ltb (String.length (p_rest b)) (String.length (p_rest a)) then find_all fuel r b
          else match p_rest b with "" => [] | _ => find_all fuel r (advance b) end
      end
  end.
Definition FindAllStringSubmatch (r : re) (s : string) : list caps :=
  map snd (find_all (S (String.length s)) r (start s)).
(** [ReplaceAllString] with a replacement that holds no group reference. *)
Definition ReplaceAllString (r : re) (s repl : string) : string :=
  let '(p, out) := foldl (λ acc m, let '(a, b, _) := m in (b, snd acc +:+ between (fst acc) a +:+ repl))
                     (start s, "") (find_all (S (String.length s)) r (start s)) in
  out +:+ p_rest p.

(** ** The reference semantics: every way to match, best first *)

Fixpoint star_results (greedy : bool) (c : class) (prev : option ascii) (s : string) : list pos :=
  match s with
  | String a s' =>
      if c a then
        if greedy then star_results greedy c (Some a) s' ++ [MkPos prev s]
        else MkPos prev s :: star_results greedy c (Some a) s'
      else [MkPos prev s]
  | "" => [MkPos prev s]
  end.
Fixpoint results (r : re) (p : pos) (cs : caps) : list (pos * caps) :=
  match r with
  | REmpty => [(p, cs)]
  | RChr c => match p_rest p with
              | String a s => if c a then [(MkPos (Some a) s, cs)] else []
              | "" => []
              end
  | RSeq a b => flat_map (λ m, results b (fst m) (snd m)) (results a p cs)
  | RAlt a b => results a p cs ++ results b p cs
  | RStar greedy c => map (λ q, (q, cs)) (star_results greedy c (p_prev p) (p_rest p))
  | RGroup n r => map (λ m, (fst m, (n, between p (fst m)) :: snd m)) (results r p cs)
  | RBol => if at_bol p then [(p, cs)] else []
  | REol => if at_eol p then [(p, cs)] else []
  | RBot => if at_bot p then [(p, cs)] else []
  | REot => if at_eot p then [(p, cs)] else []
  | RBound => if at_bound p then [(p, cs)] else []
  end.

(** The first result of a list on which a partial function is defined. *)
Fixpoint first_some {A B} (f : A → option B) (l : list A) : option B :=
  match l with [] => None | x :: l => match f x with Some y => Some y | None => first_some f l end end.
Lemma first_some_app {A B} (f : A → option B) l l' :
  first_some f (l ++ l') = match first_some f l with Some y => Some y | None => first_some f l' end.
Proof. induction l as [|x l IH]; simpl; [done|]. by destruct (f x). Qed.
Lemma first_some_flat_map {A B C} (f : A → list B) (g : B → option C) l :
  first_some g (flat_map f l) = first_some (λ x, first_some g (f x)) l.
Proof. induction l as [|x l IH]; simpl; [done|]. by rewrite first_some_app, IH. Qed.
Lemma first_some_map {A B C} (f : A → B) (g : B → option C) l :
  first_some g (map f l) = first_some (λ x, g (f x)) l.
Proof. induction l as [|x l IH]; simpl; [done|]. by rewrite IH. Qed.
Lemma first_some_ext {A B} (f g : A → option B) l : (∀ x, f x = g x) → first_some f l = first_some g l.
Proof. intros H. induction l as [|x l IH]; simpl; [done|]. by rewrite H, IH. Qed.
Lemma first_some_total {A} (l : list A) : first_some Some l = head l.
Proof. by destruct l. Qed.

(** The matcher takes the first result its continuation accepts. *)
Lemma star_with_results {A} greedy c (k : pos → option A) prev s :
  star_with greedy c k prev s = first_some k (star_results greedy c prev s).
Proof.
  revert prev. induction s as [|a s IH]; intros prev; cbn; [by destruct (k (MkPos prev ""))|].
  destruct (c a); [|cbn; by destruct (k (MkPos prev (String a s)))]. destruct greedy.
  - rewrite first_some_app, IH. destruct (first_some k _); [done|]. cbn. by destruct (k (MkPos prev (String a s))).
  - cbn. by rewrite IH.
Qed.
Lemma run_results {A} r p cs (k : pos → caps → option A) :
  run r p cs k = first_some (λ m, k (fst m) (snd m)) (results r p cs).
Proof.
  revert p cs k. induction r as [|c|a IHa b IHb|a IHa b IHb|g c|n r IH| | | | |]; intros p cs k; cbn.
  - by destruct (k p cs).
  - destruct (p_rest p) as [|x s]; [done|]. destruct (c x); [|done]. cbn. by destruct (k _ cs).
  - rewrite IHa, first_some_flat_map. apply first_some_ext. intros m. apply IHb.
  - by rewrite first_some_app, IHa, IHb.
  - by rewrite star_with_results, first_some_map.
  - by rewrite IH, first_some_map.
  - destruct (at_bol p); [cbn; by destruct (k p cs)|done].
  - destruct (at_eol p); [cbn; by destruct (k p cs)|done].
  - destruct (at_bot p); [cbn; by destruct (k p cs)|done].
  - destruct (at_eot p); [cbn; by destruct (k p cs)|done].
  - destruct (at_bound p); [cbn; by destruct (k p cs)|done].
Qed.
Lemma match_at_results r p : match_at r p = head (results r p []).
Proof.
  unfold match_at. rewrite run_results. rewrite <- first_some_total. apply first_some_ext. by intros [].
Qed.

(** ** What is matched, without the order *)

Definition step (p : pos) (c : ascii) (q : pos) : Prop := p_rest p = String c (p_rest q) ∧ p_prev q = Some c.
(** Reads a text whose characters are all of one class. *)
Inductive steps (c : class) : pos → pos → Prop :=
  | steps_nil p : steps c p p
  | steps_cons p a q r : step p a q → c a = true → steps c q r → steps c p r.
Fixpoint lang (r : re) (p q : pos) : Prop :=
  match r with
  | REmpty => q = p
  | RChr c => ∃ a, step p a q ∧ c a = true
  | RSeq a b => ∃ m, lang a p m ∧ lang b m q
  | RAlt a b => lang a p q ∨ lang b p q
  | RStar _ c => steps c p q
  | RGroup _ r => lang r p q
  | RBol => q = p ∧ at_bol p = true
  | REol => q = p ∧ at_eol p = true
  | RBot => q = p ∧ at_bot p = true
  | REot => q = p ∧ at_eot p = true
  | RBound => q = p ∧ at_bound p = true
  end.

Lemma step_eq p a q : step p a q ↔ p_rest p = String a (p_rest q) ∧ q = MkPos (Some a) (p_rest q).
Proof. unfold step. destruct q as [prev s]; simpl. split; intros [? H]; split; congruence. Qed.

Lemma elem_of_star_results greedy c prev s q : q ∈ star_results greedy c prev s ↔ steps c (MkPos prev s) q.
Proof.
  revert prev. induction s as [|a s IH]; intros prev; simpl.
  - rewrite list_elem_of_singleton. split; [intros ->; constructor|].
    inversion 1 as [|? b m ? [E _]]; subst; done.
  - assert (Hsteps : steps c (MkPos prev (String a s)) q ↔
      q = MkPos prev (String a s) ∨ (c a = true ∧ steps c (MkPos (Some a) s) q)).
    { split.
      - inversion 1 as [|? b m ? Hs Hc Hq]; subst; [by left|right].
        apply step_eq in Hs as [E Hm]. simpl in E. injection E as <- E.
        rewrite Hm, <- E in Hq. done.
      - intros [->|[Ha Hq]]; [constructor|]. eapply (steps_cons _ _ a); [|done|exact Hq]. by split. }
    rewrite Hsteps. destruct (c a) eqn:Hc.
    + destruct greedy; [rewrite elem_of_app, IH, list_elem_of_singleton; tauto|rewrite elem_of_cons, IH; tauto].
    + rewrite list_elem_of_singleton. split; [by left|]. by intros [->|[]].
Qed.

Lemma elem_of_if {A} (b : bool) (x y : A) : x ∈ (if b then [y] else []) ↔ x = y ∧ b = true.
Proof. destruct b; [rewrite list_elem_of_singleton; tauto|]. split; [by intros ?%not_elem_of_nil|by intros []]. Qed.
Lemma results_lang r p cs q cs' : (q, cs') ∈ results r p cs → lang r p q.
Proof.
  revert p cs q cs'. induction r as [|c|a IHa b IHb|a IHa b IHb|g c|n r IH| | | | |]; intros p cs q cs'; simpl;
    try (intros [[= -> _] ?]%elem_of_if; done).
  - by intros [= -> _]%list_elem_of_singleton.
  - destruct (p_rest p) as [|x s] eqn:E; [by intros ?%not_elem_of_nil|].
    intros [[= -> _] Hc]%elem_of_if. exists x. by repeat split.
  - intros ([m csm] & Hm & Hq)%elem_of_flat_map. exists m. split; [by eapply IHa|by eapply IHb].
  - intros [?|?]%elem_of_app; [left; by eapply IHa|right; by eapply IHb].
  - intros (m & [= -> _] & Hm)%list_elem_of_fmap. apply elem_of_star_results in Hm. by destruct p.
  - intros ([m csm] & [= -> _] & Hm)%list_elem_of_fmap. by eapply IH.
Qed.
Lemma lang_results r p q cs : lang r p q → ∃ cs', (q, cs') ∈ results r p cs.
Proof.
  revert p q cs. induction r as [|c|a IHa b IHb|a IHa b IHb|g c|n r IH| | | | |]; intros p q cs; simpl;
    try (intros [-> H]; exists cs; by apply elem_of_if).
  - intros ->. exists cs. by left.
  - intros (a & [Ha Hq]%step_eq & Hc). rewrite Ha. exists cs. apply elem_of_if. by rewrite Hq.
  - intros (m & Hm & Hq). destruct (IHa _ _ cs Hm) as [cs1 H1]. destruct (IHb _ _ cs1 Hq) as [cs2 H2].
    exists cs2. apply elem_of_flat_map. by exists (m, cs1).
  - intros [H|H]; [apply (IHa _ _ cs) in H|apply (IHb _ _ cs) in H]; destruct H as [cs' H]; exists cs';
      apply elem_of_app; [by left|by right].
  - intros H. exists cs. apply list_elem_of_fmap. exists q. split; [done|]. apply elem_of_star_results. by destruct p.
  - intros H. destruct (IH _ _ cs H) as [cs' H']. exists ((n, between p q) :: cs').
    apply list_elem_of_fmap. by exists (q, cs').
Qed.

(** Some match starts at a position exactly when the matcher finds one. *)
Lemma match_at_None r p : match_at r p = None ↔ ∀ q, ¬ lang r p q.
Proof.
  rewrite match_at_results. split.
  - intros H q Hq. destruct (lang_results r p q [] Hq) as [cs' Hin]. destruct (results r p []); [|done].
    by apply not_elem_of_nil in Hin.
  - intros H. destruct (results r p []) as [|[q cs] l] eqn:E; [done|]. destruct (H q).
    apply (results_lang r p [] q cs). rewrite E. by left.
Qed.
Lemma match_at_Some r p q cs : match_at r p = Some (q, cs) → (q, cs) ∈ results r p [] ∧ lang r p q.
Proof.
  rewrite match_at_results. intros H. assert (Hin : (q, cs) ∈ results r p []).
  { destruct (results r p []); [done|]. injection H as ->. by left. }
  split; [done|by eapply results_lang].
Qed.

(** ** Search *)

Definition skip (n : nat) (p : pos) : pos := Nat.iter n advance p.
Lemma search_from_spec fuel r p :
  match search_from fuel r p with
  | Some (a, q, cs) => ∃ n, (n ≤ fuel)%nat ∧ a = skip n p ∧ match_at r a = Some (q, cs) ∧
                            ∀ m, (m < n)%nat → match_at r (skip m p) = None
  | None => ∀ n, (n ≤ fuel)%nat → match_at r (skip n p) = None
  end.
Proof.
  revert p. induction fuel as [|fuel IH]; intros p; simpl; destruct (match_at r p) as [[q cs]|] eqn:E;
    try (exists 0; split_and!; [lia|done|done|lia]).
  - intros n Hn. by replace n with 0 by lia.
  - specialize (IH (advance p)). destruct (search_from fuel r (advance p)) as [[[a q] cs]|].
    + destruct IH as (n & Hn & -> & Hm & Hb). exists (S n).
      assert (Hs : ∀ m, skip m (advance p) = skip (S m) p) by (intros; unfold skip; by rewrite Nat.iter_succ_r).
      rewrite <- Hs. split_and!; [lia|done|done|]. intros [|m] Hlt; [done|]. rewrite <- Hs. apply Hb. lia.
    + intros [|n] Hn; [done|]. unfold skip. rewrite Nat.iter_succ_r. apply IH. lia.
Qed.
Lemma skip_start n p : p_rest (skip n p) = str_drop n (p_rest p).
Proof.
  revert p. induction n as [|n IH]; intros p; [done|]. unfold skip. rewrite Nat.iter_succ_r.
  fold (skip n (advance p)). rewrite IH. unfold advance. destruct p as [prev [|c s]]; simpl; [by destruct n|done].
Qed.
Lemma skip_end n p : (String.length (p_rest p) ≤ n)%nat → skip n p = skip (String.length (p_rest p)) p.
Proof.
  intros Hn. induction Hn as [|n Hn IH]; [done|]. change (skip (S n) p) with (advance (skip n p)).
  unfold advance. rewrite skip_start. assert (H : str_drop n (p_rest p) = "").
  { clear IH. revert n Hn. generalize (p_rest p). intros s. induction s as [|c s IH]; intros n Hn; [by destruct n|].
    destruct n; simpl in Hn; [lia|]. apply IH. lia. }
  by rewrite H.
Qed.

(** A text matches exactly when the pattern matches from some position of it. *)
Lemma MatchString_spec r s : MatchString r s = true ↔ ∃ n q, lang r (skip n (start s)) q.
Proof.
  unfold MatchString, leftmost. pose proof (search_from_spec (String.length (p_rest (start s))) r (start s)) as H.
  destruct (search_from _ _ _) as [[[a q] cs]|].
  - split; [intros _|done]. destruct H as (n & _ & -> & Hm & _). apply match_at_Some in Hm as [_ Hm]. eauto.
  - split; [done|]. intros (n & q & Hq). exfalso.
    destruct (decide (n ≤ String.length (p_rest (start s)))%nat) as [Hn|Hn].
    + by apply (proj1 (match_at_None _ _) (H n Hn) q).
    + rewrite skip_end in Hq by lia. by apply (proj1 (match_at_None _ _) (H _ (le_n _)) q).
Qed.

(** ** Texts an expression without assertions reads *)

Fixpoint all_chars (c : class) (w : string) : bool :=
  match w with "" => true | String a w => c a && all_chars c w end.
Fixpoint denotes (r : re) (w : string) : Prop :=
  match r with
  | REmpty => w = ""
  | RChr c => ∃ a, w = String a "" ∧ c a = true
  | RSeq a b => ∃ u v, w = u +:+ v ∧ denotes a u ∧ denotes b v
  | RAlt a b => denotes a w ∨ denotes b w
  | RStar _ c => all_chars c w = true
  | RGroup _ r => denotes r w
  | _ => False
  end.
Fixpoint plain (r : re) : bool :=
  match r with
  | REmpty | RChr _ | RStar _ _ => true
  | RSeq a b | RAlt a b => plain a && plain b
  | RGroup _ r => plain r
  | _ => false
  end.
Fixpoint last_of (prev : option ascii) (w : string) : option ascii :=
  match w with "" => prev | String a w => last_of (Some a) w end.
(** Reading [w] leads from one position to another. *)
Definition reach (p : pos) (w : string) (q : pos) : Prop :=
  p_rest p = w +:+ p_rest q ∧ p_prev q = last_of (p_prev p) w.

Lemma reach_nil p q : reach p "" q ↔ q = p.
Proof. unfold reach. destruct p, q; simpl. split; [intros [-> ->]|intros [= -> ->]]; done. Qed.
Lemma reach_app p u v q : reach p (u +:+ v) q ↔ ∃ m, reach p u m ∧ reach m v q.
Proof.
  split.
  - intros [H1 H2]. exists (MkPos (last_of (p_prev p) u) (v +:+ p_rest q)). repeat split; simpl.
    + by rewrite H1, app_str_assoc.
    + rewrite H2. clear. generalize (p_prev p). induction u as [|a u IH]; intros o; [done|]. apply IH.
  - intros (m & [H1 H2] & [H3 H4]). split; [by rewrite H1, H3, app_str_assoc|].
    rewrite H4, H2. clear. generalize (p_prev p). induction u as [|a u IH]; intros o; [done|]. apply IH.
Qed.
Lemma reach_cons p a w q : reach p (String a w) q ↔ ∃ m, step p a m ∧ reach m w q.
Proof.
  change (String a w) with (String a "" +:+ w). rewrite reach_app. f_equiv. intros m.
  unfold reach, step; simpl. tauto.
Qed.
Lemma steps_reach c p q : steps c p q ↔ ∃ w, all_chars c w = true ∧ reach p w q.
Proof.
  split.
  - induction 1 as [p|p a q r Hs Hc _ (w & Hw & Hr)]; [exists ""; by rewrite reach_nil|].
    exists (String a w). simpl. rewrite Hc, Hw. split; [done|]. apply reach_cons. eauto.
  - intros (w & Hw & Hr). revert p Hw Hr. induction w as [|a w IH]; intros p Hw Hr.
    + apply reach_nil in Hr as ->. constructor.
    + simpl in Hw. apply andb_true_iff in Hw as [Ha Hw]. apply reach_cons in Hr as (m & Hs & Hr).
      eapply steps_cons; eauto.
Qed.
Lemma lang_denotes r p q : plain r = true → lang r p q ↔ ∃ w, denotes r w ∧ reach p w q.
Proof.
  revert p q. induction r as [|c|a IHa b IHb|a IHa b IHb|g c|n r IH| | | | |]; intros p q Hp; simpl in *; try done.
  - split; [intros ->; exists ""; by rewrite reach_nil|]. by intros (? & -> & ?%reach_nil).
  - split.
    + intros (a & Hs & Hc). exists (String a ""). split; [eauto|]. apply reach_cons. exists q. by rewrite reach_nil.
    + intros (w & (a & -> & Hc) & (m & Hs & ->%reach_nil)%reach_cons). eauto.
  - apply andb_true_iff in Hp as [Ha Hb]. split.
    + intros (m & (u & Hu & Hpm)%(IHa _ _ Ha) & (v & Hv & Hmq)%(IHb _ _ Hb)).
      exists (u +:+ v). split; [eauto|]. apply reach_app. eauto.
    + intros (w & (u & v & -> & Hu & Hv) & (m & H1 & H2)%reach_app). exists m. rewrite IHa, IHb by done. split; eauto.
  - apply andb_true_iff in Hp as [Ha Hb]. rewrite IHa, IHb by done. split.
    + intros [(w & ? & ?)|(w & ? & ?)]; eauto.
    + intros (w & [?|?] & ?); [left|right]; eauto.
  - apply steps_reach.
  - by apply IH.
Qed.

(** ** Sequences *)

Definition seq (l : list re) : re := foldr RSeq REmpty l.
Definition seq_then (l : list re) (r : re) : re := foldr RSeq r l.
Lemma lang_seq_then l r p q : forallb plain l = true →
  lang (seq_then l r) p q ↔ ∃ w m, denotes (seq l) w ∧ reach p w m ∧ lang r m q.
Proof.
  revert p. induction l as [|a l IH]; intros p Hl; simpl in *.
  - split; [intros H; exists "", p; by rewrite reach_nil|]. by intros (w & m & -> & ->%reach_nil & H).
  - apply andb_true_iff in Hl as [Ha Hl]. split.
    + intros (m & (u & Hu & Hpm)%(lang_denotes _ _ _ Ha) & (v & k & Hv & Hmk & Hk)%(IH _ Hl)).
      exists (u +:+ v), k. split_and!; [eauto| |done]. apply reach_app. eauto.
    + intros (w & k & (u & v & -> & Hu & Hv) & (m & Hm & Hk)%reach_app & Hq).
      exists m. rewrite lang_denotes, IH by done. eauto 10.
Qed.
Lemma plain_seq l : forallb plain l = true → plain (seq l) = true.
Proof. induction l as [|a l IH]; [done|]. simpl. intros [-> Hl]%andb_true_iff. by apply IH. Qed.
(** A literal. *)
Definition lit (s : string) : list re := map (λ c, RChr (Ascii.eqb c)) (String.list_ascii_of_string s).
Lemma denotes_lit s l w : denotes (seq (lit s ++ l)) w ↔ ∃ v, w = s +:+ v ∧ denotes (seq l) v.
Proof.
  revert w. induction s as [|c s IH]; intros w; simpl; [split; [eauto|]; by intros (v & -> & ?)|].
  split.
  - intros (u & v & -> & (a & -> & <-%Ascii.eqb_eq) & (x & -> & Hx)%IH). eauto.
  - intros (v & -> & Hv). exists (String c ""), (s +:+ v). split_and!; [done| |apply IH; eauto].
    exists c. by rewrite Ascii.eqb_refl.
Qed.
Lemma denotes_star g c l w : denotes (seq (RStar g c :: l)) w ↔
  ∃ b v, w = b +:+ v ∧ all_chars c b = true ∧ denotes (seq l) v.
Proof. done. Qed.

(** ** Lines *)

Definition lines (s : string) : list string := split_on newline s.
(** The expression reads no newline. *)
Definition one_line (l : list re) : Prop := ∀ w, denotes (seq l) w → has_char newline w = false.

(** The positions where a line begins. *)
Lemma bol_positions s (Q : string → Prop) :
  (∃ n, at_bol (skip n (start s)) = true ∧ Q (p_rest (skip n (start s)))) ↔
  ∃ l1 l2, lines s = l1 ++ l2 ∧ l2 ≠ [] ∧ Q (join (String newline "") l2).
Proof.
  unfold at_bol.
  assert (Hgen : ∀ prev, (∃ n, match p_prev (skip n (MkPos prev s)) with None => true | Some c => is_newline c end = true ∧
      Q (p_rest (skip n (MkPos prev s)))) ↔
    (match prev with None => true | Some c => is_newline c end = true ∧ Q s) ∨
    ∃ x l1 l2, lines s = x :: l1 ++ l2 ∧ l2 ≠ [] ∧ Q (join (String newline "") l2)).
  { induction s as [|c s IH]; intros prev.
    - assert (H : ∀ n, skip n (MkPos prev "") = MkPos prev "").
      { induction n as [|n IHn]; [done|]. unfold skip in *. rewrite Nat.iter_succ_r. apply IHn. }
      split.
      + intros (n & Hb & HQ). rewrite H in Hb, HQ. by left.
      + intros [[Hb HQ]|(x & l1 & l2 & Hl & Hn & HQ)]; [exists 0; eauto|]. simpl in Hl. injection Hl as <- Hl.
        symmetry in Hl. apply app_nil in Hl as [_ ->]. done.
    - assert (Hs : ∀ n, skip (S n) (MkPos prev (String c s)) = skip n (MkPos (Some c) s)).
      { intros n. unfold skip. by rewrite Nat.iter_succ_r. }
      transitivity ((match prev with None => true | Some c => is_newline c end = true ∧ Q (String c s)) ∨
        ∃ n, match p_prev (skip n (MkPos (Some c) s)) with None => true | Some c => is_newline c end = true ∧
             Q (p_rest (skip n (MkPos (Some c) s)))).
      { split.
        - intros ([|n] & Hb & HQ); [by left|right]. rewrite Hs in Hb, HQ. eauto.
        - intros [[Hb HQ]|(n & Hb & HQ)]; [by exists 0|]. exists (S n). rewrite Hs. eauto. }
      rewrite IH. f_equiv. unfold is_newline.
      change (lines (String c s)) with (if Ascii.eqb newline c then "" :: lines s else
        match lines s with [] => [String c ""] | p :: ps => String c p :: ps end).
      destruct (Ascii.eqb_spec newline c) as [<-|Hne].
      + rewrite Ascii.eqb_refl. split.
        * intros [[_ HQ]|(x & l1 & l2 & Hl & Hn & HQ)].
          -- exists "", [], (lines s). split_and!; [done|apply split_on_nonempty|].
             unfold lines. by rewrite join_split_on.
          -- exists "", (x :: l1), l2. by rewrite Hl.
        * intros (x & [|y l1] & l2 & [= <- Hl] & Hn & HQ).
          -- left. split; [done|]. simpl in Hl. subst l2. unfold lines in HQ. by rewrite join_split_on in HQ.
          -- right. exists y, l1, l2. done.
      + destruct (Ascii.eqb_spec c newline) as [->|_]; [done|].
        destruct (lines s) as [|p ps] eqn:E; [by apply split_on_nonempty in E|]. split.
        * intros [[? _]|(x & l1 & l2 & [= <- Hl] & Hn & HQ)]; [done|]. exists (String c p), l1, l2. by rewrite Hl.
        * intros (x & l1 & l2 & [= <- Hl] & Hn & HQ). right. exists p, l1, l2. by rewrite Hl. }
  unfold start. rewrite Hgen. split.
  - intros [[_ HQ]|(x & l1 & l2 & Hl & Hn & HQ)].
    + exists [], (lines s). split_and!; [done|apply split_on_nonempty|]. unfold lines. by rewrite join_split_on.
    + exists (x :: l1), l2. done.
  - intros ([|x l1] & l2 & Hl & Hn & HQ).
    + left. split; [done|]. simpl in Hl. subst l2. unfold lines in HQ. by rewrite join_split_on in HQ.
    + right. exists x, l1, l2. done.
Qed.

(** What is read up to the end of a line, from where it begins, is the line. *)
Lemma read_line l2 w r : l2 ≠ [] → Forall (λ x, has_char newline x = false) l2 → has_char newline w = false →
  join (String newline "") l2 = w +:+ r → (r = "" ∨ ∃ r', r = String newline r') → head l2 = Some w.
Proof.
  intros Hn Hl Hw E Hr. destruct l2 as [|x l2]; [done|]. simpl. f_equal.
  assert (Hx : lines (join (String newline "") (x :: l2)) = x :: l2) by (by apply split_on_join).
  destruct Hr as [->|[r' ->]].
  - rewrite app_str_nil_r in E. rewrite E in Hx. unfold lines in Hx. rewrite split_on_no_char in Hx by done. congruence.
  - rewrite E in Hx. unfold lines in Hx. rewrite split_on_app in Hx by done. congruence.
Qed.
Lemma lines_no_newline s : Forall (λ x, has_char newline x = false) (lines s).
Proof. apply split_on_parts. Qed.

(** [^...$] under (?m), on one line: some whole line of the text is read. *)
Lemma MatchString_line l s : forallb plain l = true → one_line l →
  MatchString (RSeq RBol (seq_then l (RSeq REol REmpty))) s = true ↔
  ∃ line, line ∈ lines s ∧ denotes (seq l) line.
Proof.
  intros Hp H1. rewrite MatchString_spec.
  transitivity (∃ n, at_bol (skip n (start s)) = true ∧
    (λ r, ∃ w v, r = w +:+ v ∧ denotes (seq l) w ∧ (v = "" ∨ ∃ v', v = String newline v')) (p_rest (skip n (start s)))).
  { split.
    - intros (n & q & m & [-> Hb] & Hq). exists n. split; [done|]. apply lang_seq_then in Hq; [|done].
      destruct Hq as (w & m' & Hw & [Hr _] & k & [-> He] & Hk). exists w, (p_rest m'). split_and!; [done..|].
      unfold at_eol in He. destruct (p_rest m') as [|c v]; [by left|right].
      apply Ascii.eqb_eq in He as ->. eauto.
    - intros (n & Hb & w & v & Hr & Hw & Hv). exists n, (MkPos (last_of (p_prev (skip n (start s))) w) v).
      exists (skip n (start s)). split; [done|]. apply lang_seq_then; [done|].
      exists w, (MkPos (last_of (p_prev (skip n (start s))) w) v). split_and!; [done| |].
      + by split.
      + eexists. split; [split; [done|]|done]. unfold at_eol; simpl. by destruct Hv as [->|[v' ->]]. }
  rewrite (bol_positions s (λ r, ∃ w v, r = w +:+ v ∧ denotes (seq l) w ∧ (v = "" ∨ ∃ v', v = String newline v'))).
  pose proof (lines_no_newline s) as Hl. split.
  - intros (l1 & l2 & E & Hn & w & v & Ew & Hw & Hv). exists w. split; [|done].
    rewrite E in Hl. apply Forall_app in Hl as [_ Hl].
    pose proof (read_line l2 w v Hn Hl (H1 w Hw) Ew Hv) as Hh. rewrite E. apply elem_of_app. right.
    destruct l2; [done|]. injection Hh as ->. by left.
  - intros (line & (l1 & l2 & E)%list_elem_of_split & Hw). exists l1, (line :: l2). split_and!; [done..|].
    destruct l2 as [|y l2].
    + exists line, "". rewrite app_str_nil_r. split_and!; [done..|by left].
    + exists line, (String newline (join (String newline "") (y :: l2))). split_and!; [done..|right; eauto].
Qed.
Lemma before_newline x y w v : has_char newline w = false →
  x +:+ String newline y = w +:+ v → ∃ v', x = w +:+ v'.
Proof.
  revert x. induction w as [|c w IH]; intros x Hw E; [by exists x|].
  rewrite has_char_cons in Hw. apply orb_false_iff in Hw as [Hc Hw].
  destruct x as [|d x]; simpl in E; injection E as E1 E2.
  - subst c. by rewrite Ascii.eqb_refl in Hc.
  - subst d. destruct (IH x Hw E2) as [v' ->]. by exists v'.
Qed.
(** [^...] under (?m): some line of the text begins so. *)
Lemma MatchString_prefix l s : forallb plain l = true → one_line l →
  MatchString (RSeq RBol (seq l)) s = true ↔
  ∃ line w v, line ∈ lines s ∧ line = w +:+ v ∧ denotes (seq l) w.
Proof.
  intros Hp H1. rewrite MatchString_spec.
  transitivity (∃ n, at_bol (skip n (start s)) = true ∧
    (λ r, ∃ w v, r = w +:+ v ∧ denotes (seq l) w) (p_rest (skip n (start s)))).
  { split.
    - intros (n & q & m & [-> Hb] & Hq). exists n. split; [done|].
      apply (lang_denotes (seq l)) in Hq as (w & Hw & [Hr _]); [eauto|]. by apply plain_seq.
    - intros (n & Hb & w & v & Hr & Hw). exists n, (MkPos (last_of (p_prev (skip n (start s))) w) v).
      exists (skip n (start s)). split; [done|]. apply (lang_denotes (seq l)).
      + by apply plain_seq.
      + exists w. split; [done|]. by split. }
  rewrite (bol_positions s (λ r, ∃ w v, r = w +:+ v ∧ denotes (seq l) w)). split.
  - intros (l1 & l2 & E & Hn & w & v & Ew & Hw). destruct l2 as [|x l2]; [done|].
    assert (Hx : ∃ v', x = w +:+ v').
    { destruct l2 as [|y l2]; [by exists v|]. rewrite join_cons in Ew by done. eapply before_newline; [by apply H1|exact Ew]. }
    destruct Hx as [v' ->]. exists (w +:+ v'), w, v'. split_and!; [|done..]. rewrite E. set_solver.
  - intros (line & w & v & (l1 & l2 & E)%list_elem_of_split & -> & Hw). exists l1, ((w +:+ v) :: l2).
    split_and!; [done..|]. destruct l2 as [|y l2]; [by exists w, v|].
    exists w, (v +:+ String newline (join (String newline "") (y :: l2))). split; [|done].
    rewrite join_cons by done. by rewrite app_str_assoc.
Qed.

(** ** Line by line

    An expression that reads no newline, behind [^] under (?m), can be run on each
    line alone. *)

(** No newline is read, and the end of the line is the only assertion. *)
Fixpoint within (r : re) : bool :=
  match r with
  | REmpty | REol => true
  | RChr c | RStar _ c => negb (c newline)
  | RSeq a b | RAlt a b => within a && within b
  | RGroup _ r => within r
  | _ => false
  end.
Definition line_end (t : string) : Prop := t = "" ∨ ∃ t', t = String newline t'.
(** A match in the text and in the line alone, [t] being what follows the line. *)
Definition same_place (t : string) (m m' : pos * caps) : Prop :=
  p_rest (fst m) = p_rest (fst m') +:+ t ∧ has_char newline (p_rest (fst m')) = false ∧ snd m = snd m'.

Lemma Forall2_flat_map {A B C D} (P : A → B → Prop) (Q : C → D → Prop) (f : A → list C) (g : B → list D) l l' :
  (∀ x y, P x y → Forall2 Q (f x) (g y)) → Forall2 P l l' → Forall2 Q (flat_map f l) (flat_map g l').
Proof. intros H. induction 1; simpl; [done|]. apply Forall2_app; auto. Qed.
Lemma str_take_app_le n x t : (n ≤ String.length x)%nat → str_take n (x +:+ t) = str_take n x.
Proof.
  revert n. induction x as [|c x IH]; intros [|n] Hn; simpl in *; [by destruct t|lia|done|]. by rewrite IH by lia.
Qed.
Lemma between_line t p q p' q' cs cs' : same_place t (p, cs) (p', cs) → same_place t (q, cs') (q', cs') →
  between p q = between p' q'.
Proof.
  intros (Hp & _ & _) (Hq & _ & _). simpl in *. unfold between. rewrite Hp, Hq, !length_app_str.
  replace (_ + _ - (_ + _))%nat with (String.length (p_rest p') - String.length (p_rest q'))%nat by lia.
  apply str_take_app_le. lia.
Qed.
Lemma same_place_chr t c cs p q : negb (c newline) = true → line_end t → same_place t (p, cs) (q, cs) →
  Forall2 (same_place t) (results (RChr c) p cs) (results (RChr c) q cs).
Proof.
  intros Hc%negb_true_iff Ht (Hp & Hn & _); simpl in *. rewrite Hp. destruct (p_rest q) as [|a s]; simpl.
  - destruct Ht as [->|[t' ->]]; [done|]. by rewrite Hc.
  - destruct (c a); [|done]. rewrite has_char_cons in Hn. apply orb_false_iff in Hn as [_ Hn].
    constructor; [|done]. by split_and!.
Qed.
Lemma same_place_star t g c cs prev prev' s : negb (c newline) = true → line_end t → has_char newline s = false →
  Forall2 (λ q q', same_place t (q, cs) (q', cs)) (star_results g c prev (s +:+ t)) (star_results g c prev' s).
Proof.
  intros Hc%negb_true_iff Ht. revert prev prev'. induction s as [|a s IH]; intros prev prev' Hn; simpl.
  - assert (H : star_results g c prev t = [MkPos prev t]).
    { destruct Ht as [->|[t' ->]]; simpl; [done|]. by rewrite Hc. }
    rewrite H. constructor; [|done]. by split_and!.
  - assert (Hs : same_place t (MkPos prev (String a (s +:+ t)), cs) (MkPos prev' (String a s), cs)) by (by split_and!).
    rewrite has_char_cons in Hn. apply orb_false_iff in Hn as [_ Hn]. specialize (IH (Some a) (Some a) Hn).
    destruct (c a); [|by constructor]. destruct g; [apply Forall2_app; [done|by constructor]|by constructor].
Qed.
Lemma results_line r t : within r = true → line_end t → ∀ p q cs, same_place t (p, cs) (q, cs) →
  Forall2 (same_place t) (results r p cs) (results r q cs).
Proof.
  intros Hr Ht. induction r as [|c|a IHa b IHb|a IHa b IHb|g c|n r IH| | | | |]; intros p q cs Hs; simpl in Hr;
    try discriminate Hr.
  - by constructor.
  - by apply same_place_chr.
  - apply andb_true_iff in Hr as [Ha Hb]. simpl. apply (Forall2_flat_map (same_place t)); [|by apply IHa].
    intros [p' cs1] [q' cs2] Hm. assert (cs1 = cs2) as -> by apply Hm. by apply IHb.
  - apply andb_true_iff in Hr as [Ha Hb]. apply Forall2_app; auto.
  - simpl. destruct Hs as (Hp & Hn & _); simpl in *. rewrite Hp. apply Forall2_fmap.
    by apply same_place_star.
  - simpl. apply Forall2_fmap. eapply Forall2_impl; [by apply IH|]. intros [p' cs1] [q' cs2] Hm.
    assert (cs1 = cs2) as -> by apply Hm. simpl. split_and!; [apply Hm..|]. simpl. do 2 f_equal.
    by apply (between_line t p p' q q' cs cs2).
  - simpl. assert (H : at_eol p = at_eol q).
    { destruct Hs as (Hp & Hn & _); simpl in *. unfold at_eol. rewrite Hp. destruct (p_rest q) as [|a s]; [|done].
      by destruct Ht as [->|[t' ->]]. }
    rewrite H. destruct (at_eol q); [|constructor]. constructor; [done|constructor].
Qed.

(** The lines of a text, and what follows the first. *)
Lemma lines_split s : ∃ x ls t, lines s = x :: ls ∧ s = x +:+ t ∧ line_end t ∧ has_char newline x = false ∧
  (∀ y, join (String newline "") (y :: ls) = y +:+ t) ∧
  (t = "" ∧ ls = [] ∨ ∃ t', t = String newline t' ∧ ls = lines t').
Proof.
  pose proof (lines_no_newline s) as Hn. destruct (lines s) as [|x ls] eqn:E; [by apply split_on_nonempty in E|].
  inversion Hn as [|? ? Hx Hls]; subst. assert (Hs : s = join (String newline "") (x :: ls)).
  { rewrite <- E. unfold lines. by rewrite join_split_on. }
  destruct ls as [|y ls].
  - exists x, [], "". split_and!; [done|by rewrite app_str_nil_r|by left|done| |by left].
    intros z. by rewrite app_str_nil_r.
  - exists x, (y :: ls), (String newline (join (String newline "") (y :: ls))).
    split_and!; [done|done|right; eauto|done|done|]. right. eexists. split; [done|].
    unfold lines. by rewrite split_on_join.
Qed.

(** What is left after the match, and its submatches, line after line. *)
Fixpoint search_lines (r : re) (ls : list string) : option (string * caps) :=
  match ls with
  | [] => None
  | x :: ls => match match_at r (start x) with
               | Some (q, cs) => Some (join (String newline "") (p_rest q :: ls), cs)
               | None => search_lines r ls
               end
  end.
Lemma match_at_line r x t prev : within r = true → line_end t → has_char newline x = false →
  match match_at r (MkPos prev (x +:+ t)), match_at r (start x) with
  | Some (q, cs), Some (q', cs') => p_rest q = p_rest q' +:+ t ∧ cs = cs'
  | None, None => True
  | _, _ => False
  end.
Proof.
  intros Hr Ht Hx. rewrite !match_at_results.
  assert (H : Forall2 (same_place t) (results r (MkPos prev (x +:+ t)) []) (results r (start x) [])).
  { apply results_line; [done..|]. by split_and!. }
  destruct H as [|[q cs] [q' cs'] l l' [Hq [_ Hc]] _]; [done|]. by split.
Qed.
(** The lines that begin at this position or after it. *)
Definition lines_from (p : pos) : list string :=
  if at_bol p then lines (p_rest p) else tail (lines (p_rest p)).
Lemma lines_cons c s : lines (String c s) = if Ascii.eqb newline c then "" :: lines s else
  match lines s with [] => [String c ""] | p :: ps => String c p :: ps end.
Proof. reflexivity. Qed.
Lemma lines_from_advance c s : lines_from (MkPos (Some c) s) = tail (lines (String c s)).
Proof.
  rewrite lines_cons, Ascii.eqb_sym. unfold lines_from, at_bol, is_newline; cbn [p_prev p_rest].
  destruct (Ascii.eqb c newline); [done|]. by destruct (lines s).
Qed.
Lemma match_at_bol r p : match_at (RSeq RBol r) p = if at_bol p then match_at r p else None.
Proof. done. Qed.
Lemma leftmost_lines r p : within r = true →
  (λ m, (p_rest (snd (fst m)), snd m)) <$> leftmost (RSeq RBol r) p = search_lines r (lines_from p).
Proof.
  intros Hr. destruct p as [prev s]. unfold leftmost; simpl. revert prev.
  induction s as [|c s IH]; intros prev.
  - simpl. rewrite match_at_bol. unfold lines_from; simpl. destruct (at_bol _); [|done].
    pose proof (match_at_line r "" "" prev Hr (or_introl eq_refl) eq_refl) as H. simpl in *.
    destruct (match_at r (MkPos prev "")) as [[q cs]|], (match_at r (start "")) as [[q' cs']|]; try done.
    simpl. destruct H as [-> ->]. by rewrite app_str_nil_r.
  - cbn [search_from String.length]. rewrite match_at_bol. unfold advance; cbn [p_rest].
    specialize (IH (Some c)). rewrite lines_from_advance in IH. unfold lines_from; cbn [p_rest].
    destruct (lines_split (String c s)) as (x & ls & t & E & Es & Ht & Hx & Hj & _). rewrite E in IH |- *.
    destruct (at_bol (MkPos prev (String c s))); [|exact IH].
    pose proof (match_at_line r x t prev Hr Ht Hx) as H. rewrite <- Es in H. cbn [search_lines].
    destruct (match_at r (MkPos prev (String c s))) as [[q cs]|], (match_at r (start x)) as [[q' cs']|]; try done.
    simpl fmap. cbn [fst snd]. destruct H as [-> ->]. by rewrite Hj.
Qed.
Lemma FindStringSubmatch_lines r s : within r = true →
  snd <$> FindStringSubmatch (RSeq RBol r) s = snd <$> search_lines r (lines s).
Proof.
  intros Hr. change (lines s) with (lines_from (start s)). rewrite <- leftmost_lines by done.
  unfold FindStringSubmatch.
  by destruct (leftmost (RSeq RBol r) (start s)) as [[[a b] cs]|].
Qed.

(** A match leads somewhere by reading a text. *)
Lemma lang_reach r p q : lang r p q → ∃ w, reach p w q.
Proof.
  revert p q. induction r as [|c|a IHa b IHb|a IHa b IHb|g c|n r IH| | | | |]; intros p q; simpl;
    try (intros [-> _]; exists ""; by rewrite reach_nil); eauto.
  - intros ->. exists "". by rewrite reach_nil.
  - intros (a & Hs & _). exists (String a ""). apply reach_cons. exists q. by rewrite reach_nil.
  - intros (m & (u & Hu)%IHa & (v & Hv)%IHb). exists (u +:+ v). apply reach_app. eauto.
  - intros [?|?]; eauto.
  - intros (w & _ & Hw)%steps_reach. eauto.
Qed.
(** Every match reads a whole line that is not empty. *)
Definition whole_line (r : re) : Prop := ∀ p q cs, match_at r p = Some (q, cs) → at_eol q = true ∧ p_rest q ≠ p_rest p.
Lemma last_of_line w prev : w ≠ "" → has_char newline w = false →
  at_bol (MkPos (last_of prev w) "") = false.
Proof.
  revert prev. induction w as [|c w IH]; intros prev Hn Hw; [done|]. rewrite has_char_cons in Hw.
  apply orb_false_iff in Hw as [Hc Hw]. destruct w as [|d w]; [|by apply (IH (Some c))]. simpl. unfold at_bol, is_newline; simpl.
  by rewrite Ascii.eqb_sym.
Qed.
Definition line_caps (r : re) (x : string) : option caps := snd <$> match_at r (start x).
Lemma omap_cons {A B} (f : A → option B) x l :
  omap f (x :: l) = match f x with Some y => y :: omap f l | None => omap f l end.
Proof. done. Qed.
Lemma search_lines_split r ls : match search_lines r ls with
  | None => omap (line_caps r) ls = []
  | Some (_, cs) => ∃ l1 x l2, ls = l1 ++ x :: l2 ∧ omap (line_caps r) l1 = [] ∧ line_caps r x = Some cs
  end.
Proof.
  induction ls as [|x ls IH]; [done|]. cbn [search_lines]. assert (Hx : line_caps r x = snd <$> match_at r (start x)) by done.
  destruct (match_at r (start x)) as [[q cs]|].
  - exists [], x, ls. by split_and!.
  - rewrite omap_cons, Hx. simpl fmap. cbv iota. destruct (search_lines r ls) as [[y cs]|]; [|done].
    destruct IH as (l1 & z & l2 & -> & H1 & H2). exists (x :: l1), z, l2. split_and!; [done| |done].
    by rewrite omap_cons, Hx.
Qed.
Lemma match_whole_line r p q cs : within r = true → whole_line r → match_at r p = Some (q, cs) →
  ∃ x ls, lines (p_rest p) = x :: ls ∧ line_caps r x = Some cs ∧ lines_from q = ls ∧
          (String.length (p_rest q) < String.length (p_rest p))%nat.
Proof.
  intros Hr Hw Hm. destruct (lines_split (p_rest p)) as (x & ls & t & E & Es & Ht & Hx & _ & Hls).
  exists x, ls. split; [done|]. pose proof (match_at_line r x t (p_prev p) Hr Ht Hx) as H.
  rewrite <- Es in H. destruct p as [prev s]; cbn [p_prev p_rest] in *. rewrite Hm in H.
  destruct (match_at r (start x)) as [[q' cs']|] eqn:Em; [|done]. destruct H as [Hq <-].
  assert (Hq' : p_rest q' = "").
  { destruct (Hw _ _ _ Em) as [He _]. apply match_at_Some in Em as [_ (w & Hw1 & _)%lang_reach].
    simpl in Hw1. rewrite Hw1, has_char_app in Hx. apply orb_false_iff in Hx as [_ Hx]. unfold at_eol in He.
    destruct (p_rest q') as [|c v]; [done|]. rewrite has_char_cons in Hx. apply orb_false_iff in Hx as [Hc _].
    unfold is_newline in He. by rewrite Ascii.eqb_sym, He in Hc. }
  rewrite Hq' in Hq; simpl in Hq. destruct (Hw _ _ _ Hm) as [_ Hne]. simpl in Hne.
  apply match_at_Some in Hm as [_ (w & Hw1 & Hw2)%lang_reach]. simpl in Hw1, Hw2.
  assert (Hwx : w = x). { apply (app_str_inj w t x t); [|congruence]. apply (f_equal String.length) in Hw1, Es.
    rewrite length_app_str in Hw1, Es. rewrite Hq in Hw1. lia. }
  subst w. assert (Hxn : x ≠ "") by (intros ->; by rewrite Hq, Es in Hne).
  split_and!.
  - unfold line_caps. by rewrite Em.
  - unfold lines_from. assert (Hb : at_bol q = false).
    { pose proof (last_of_line x prev Hxn Hx) as H. unfold at_bol in H |- *. by rewrite Hw2. }
    rewrite Hb, Hq. destruct Hls as [[-> ->]|(t' & -> & ->)]; [done|]. by rewrite lines_cons, Ascii.eqb_refl.
  - rewrite Hw1, length_app_str. destruct x; [done|]. simpl. lia.
Qed.
Lemma leftmost_whole_line r p : within r = true → whole_line r →
  match leftmost (RSeq RBol r) p with
  | None => omap (line_caps r) (lines_from p) = []
  | Some (a, b, cs) => ∃ l1 x l2, lines_from p = l1 ++ x :: l2 ∧ omap (line_caps r) l1 = [] ∧
      line_caps r x = Some cs ∧ lines_from b = l2 ∧
      (String.length (p_rest b) < String.length (p_rest a) ≤ String.length (p_rest p))%nat
  end.
Proof.
  intros Hr Hw. pose proof (leftmost_lines r p Hr) as H0. destruct (leftmost _ p) as [[[a b] cs]|] eqn:E.
  2: { pose proof (search_lines_split r (lines_from p)) as H. by rewrite <- H0 in H. }
  clear H0. unfold leftmost in E. destruct p as [prev s]; cbn [p_rest] in *. revert prev E.
  induction s as [|c s IH]; intros prev E; cbn [String.length search_from] in E; rewrite match_at_bol in E;
    destruct (at_bol _) eqn:Eb in E.
  all: try (destruct (match_at r _) as [[q cs']|] eqn:Em in E;
    [injection E as <- <- <-; destruct (match_whole_line _ _ _ _ Hr Hw Em) as (x & ls & H1 & H2 & H3 & H4);
     exists [], x, ls; unfold lines_from at 1; rewrite Eb; split_and!; [done..|simpl in *; lia]|]).
  all: try done.
  all: unfold advance in E; cbn [p_rest] in E; destruct (IH _ E) as (l1 & x & l2 & H1 & H2 & H3 & H4 & H5);
    rewrite lines_from_advance in H1.
  - destruct (lines_split (String c s)) as (y & ls & t & E1 & Es & Ht & Hy & _). rewrite E1 in H1. simpl in H1.
    pose proof (match_at_line r y t prev Hr Ht Hy) as H. rewrite <- Es, Em in H.
    exists (y :: l1), x, l2. unfold lines_from at 1. rewrite Eb. cbn [p_rest]. rewrite E1, H1.
    split_and!; [done| |done|done|simpl; lia|simpl; lia]. simpl. unfold line_caps at 1.
    by destruct (match_at r (start y)) as [[? ?]|].
  - exists l1, x, l2. unfold lines_from at 1. rewrite Eb. cbn [p_rest]. split_and!; [done..|simpl; lia|simpl; lia].
Qed.
(** All the matches: one for each line that matches. *)
Lemma find_all_whole_line fuel r p : within r = true → whole_line r → (String.length (p_rest p) < fuel)%nat →
  map snd (find_all fuel (RSeq RBol r) p) = omap (line_caps r) (lines_from p).
Proof.
  intros Hr Hw. revert p. induction fuel as [|fuel IH]; intros p Hf; [lia|]. cbn [find_all].
  pose proof (leftmost_whole_line r p Hr Hw) as H. destruct (leftmost _ p) as [[[a b] cs]|]; [|by rewrite H].
  destruct H as (l1 & x & l2 & -> & H1 & H2 & H3 & H4). cbn [map snd].
  rewrite (proj2 (Nat.ltb_lt _ _)) by lia. rewrite IH by lia. rewrite omap_app, H1, omap_cons, H2, H3. done.
Qed.
Lemma FindAllStringSubmatch_lines r s : within r = true → whole_line r →
  FindAllStringSubmatch (RSeq RBol r) s = omap (line_caps r) (lines s).
Proof. intros Hr Hw. apply (find_all_whole_line _ r (start s)); [done..|]. simpl. lia. Qed.

(** ** Running on a line *)

Section run_lemmas.
Context {A : Type} (k : pos → caps → option A).

Lemma run_lit s r p cs : run (seq_then (lit s) r) p cs k =
  if has_prefix s (p_rest p)
  then run r (MkPos (last_of (p_prev p) s) (str_drop (String.length s) (p_rest p))) cs k else None.
Proof.
  revert p. induction s as [|c s IH]; intros p; simpl; [by destruct p|].
  destruct (p_rest p) as [|a t]; [done|]. simpl. destruct (Ascii.eqb c a) eqn:E; [|done].
  apply Ascii.eqb_eq in E as ->. by rewrite IH.
Qed.
(** Past the characters of a class. *)
Fixpoint past (c : class) (prev : option ascii) (s : string) : pos :=
  match s with
  | String a s' => if c a then past c (Some a) s' else MkPos prev s
  | "" => MkPos prev s
  end.
(** When what follows cannot match earlier without matching later, the star takes
    all it can. *)
Lemma run_star c r p cs : has_char newline (p_rest p) = false →
  (∀ prev a s, has_char newline s = false → c a = true →
     run r (MkPos (Some a) s) cs k = None → run r (MkPos prev (String a s)) cs k = None) →
  run (RSeq (RStar true c) r) p cs k = run r (past c (p_prev p) (p_rest p)) cs k.
Proof.
  intros Hn H. simpl. destruct p as [prev s]; simpl in *.
  assert (Hp : ∀ s prev, has_char newline s = false →
    run r (past c prev s) cs k = None → run r (MkPos prev s) cs k = None).
  { clear prev s Hn. induction s as [|a s IH]; intros prev Hn; simpl; [done|].
    rewrite has_char_cons in Hn. apply orb_false_iff in Hn as [_ Hn]. destruct (c a) eqn:E; [|done]. eauto. }
  revert prev Hn. induction s as [|a s IH]; intros prev Hn; simpl; [done|].
  rewrite has_char_cons in Hn. apply orb_false_iff in Hn as [_ Hn].
  destruct (c a) eqn:E; [|done]. rewrite IH by done. destruct (run r (past c (Some a) s) cs k) eqn:E'; [done|].
  apply H; [done..|]. by apply Hp.
Qed.
End run_lemmas.

(** The text past the characters of a class. *)
Fixpoint drop_class (c : class) (s : string) : string :=
  match s with "" => "" | String a s' => if c a then drop_class c s' else s end.
Lemma past_rest c prev s : p_rest (past c prev s) = drop_class c s.
Proof. revert prev. induction s as [|a s IH]; intros prev; simpl; [done|]. destruct (c a); [apply IH|done]. Qed.
Lemma all_chars_drop c s : all_chars c s = true ↔ drop_class c s = "".
Proof. induction s as [|a s IH]; simpl; [done|]. by destruct (c a). Qed.
Lemma drop_class_split c s : ∃ b, s = b +:+ drop_class c s ∧ all_chars c b = true.
Proof.
  induction s as [|a s [b [Hb IH]]]; [by exists ""|]. simpl. destruct (c a) eqn:E; [|by exists ""].
  exists (String a b). simpl. by rewrite <- Hb, E.
Qed.
Lemma drop_class_app c b s : all_chars c b = true → drop_class c (b +:+ s) = drop_class c s.
Proof. induction b as [|a b IH]; simpl; [done|]. by intros [-> H]%andb_true_iff; apply IH. Qed.
Lemma has_char_drop d c s : has_char d s = false → has_char d (drop_class c s) = false.
Proof.
  induction s as [|a s IH]; simpl; [done|]. destruct (c a); [|done]. rewrite has_char_cons, orb_false_iff. tauto.
Qed.
(** Blanks up to the end of the line. *)
Lemma run_blank_eol {A} (c : class) q cs (k : pos → caps → option A) : (∀ a, c a = true → is_newline a = false) →
  has_char newline (p_rest q) = false →
  run (RSeq (RStar true c) (RSeq REol REmpty)) q cs k =
  if all_chars c (p_rest q) then k (past c (p_prev q) (p_rest q)) cs else None.
Proof.
  intros Hc Hn. rewrite run_star; [|done|].
  - simpl. unfold at_eol. rewrite past_rest. apply (has_char_drop _ c) in Hn.
    destruct (all_chars c (p_rest q)) eqn:E; [apply all_chars_drop in E; by rewrite E|].
    destruct (drop_class c (p_rest q)) as [|a s] eqn:E'; [apply all_chars_drop in E'; congruence|].
    rewrite has_char_cons in Hn. apply orb_false_iff in Hn as [Ha _]. unfold is_newline.
    by rewrite Ascii.eqb_sym, Ha.
  - intros prev a s _ Ha _. simpl. unfold at_eol; simpl. by rewrite Hc.
Qed.
(** The text up to its last character that is not blank, when that is no other white
    space. *)
Fixpoint last_visible (blank space : class) (s : string) : option string :=
  match s with
  | "" => None
  | String c s => match last_visible blank space s with
                  | Some v => Some (String c v)
                  | None => if negb (space c) && all_chars blank s then Some (String c "") else None
                  end
  end.
Lemma last_visible_spec blank space s v : (∀ a, blank a = true → space a = true) →
  last_visible blank space s = Some v ↔
  ∃ u c b, v = u +:+ String c "" ∧ s = v +:+ b ∧ space c = false ∧ all_chars blank b = true.
Proof.
  intros Hbs. assert (Hnone : ∀ s, last_visible blank space s = None → ∀ u c b,
    s = u +:+ String c b → space c = false → all_chars blank b = true → False).
  { clear s v. induction s as [|d s IH]; intros H u c b E Hc Hb; [by destruct u|]. simpl in H.
    destruct (last_visible blank space s) as [v|] eqn:Ev; [done|]. destruct u as [|x u]; simpl in E; injection E as -> ->.
    - by rewrite Hc, Hb in H.
    - by apply (IH eq_refl u c b). }
  assert (Hfun : ∀ s v, last_visible blank space s = Some v →
    ∃ u c b, v = u +:+ String c "" ∧ s = v +:+ b ∧ space c = false ∧ all_chars blank b = true).
  { clear s v. induction s as [|d s IH]; intros v H; [done|]. simpl in H.
    destruct (last_visible blank space s) as [v'|] eqn:Ev.
    - injection H as <-. destruct (IH v' eq_refl) as (u & c & b & -> & E & Hc & Hb).
      exists (String d u), c, b. simpl. by rewrite E at 1.
    - destruct (negb (space d) && all_chars blank s) eqn:E; [|done]. injection H as <-.
      apply andb_true_iff in E as [Hd%negb_true_iff Hb]. by exists "", d, s. }
  split; [apply Hfun|]. intros (u & c & b & -> & -> & Hc & Hb). rewrite app_str_assoc. simpl.
  destruct (last_visible blank space (u +:+ String c b)) as [v|] eqn:E; [|by destruct (Hnone _ E u c b)].
  f_equal. destruct (Hfun _ _ E) as (u' & c' & b' & -> & E' & Hc' & Hb'). rewrite app_str_assoc in E'; simpl in E'.
  clear E. revert u' E'. induction u as [|x u IH]; intros [|y u'] E'; simpl in *; injection E' as E1 E2.
  - by rewrite E1.
  - exfalso. subst. clear -Hb Hc' Hbs. induction u' as [|x u' IH]; simpl in *; apply andb_true_iff in Hb as [H1 H2]; eauto.
    by rewrite Hbs in Hc'.
  - exfalso. subst. clear -Hb' Hc Hbs. induction u as [|x u IH]; simpl in *; apply andb_true_iff in Hb' as [H1 H2]; eauto.
    by rewrite Hbs in Hc.
  - subst. f_equal. by apply IH.
Qed.
(** The submatches of a line, from a run whose continuation returns them. *)
Definition give_caps (_ : pos) (cs : caps) : option caps := Some cs.
Lemma line_caps_run r x : line_caps r x = run r (start x) [] give_caps.
Proof.
  unfold line_caps. rewrite match_at_results, run_results. by destruct (results r (start x) []).
Qed.
Lemma between_app p u v q : p_rest p = u +:+ v → p_rest q = v → between p q = u.
Proof.
  intros Hp Hq. unfold between. rewrite Hp, Hq, length_app_str.
  replace (_ + _ - _)%nat with (String.length u) by lia. apply str_take_app.
Qed.
(** A value up to the end of the line, without the blanks after it. *)
Lemma run_value n (dot ns bl : class) p cs : (∀ a, is_newline a = false → dot a = true) →
  (∀ a, bl a = true → is_newline a = false) → has_char newline (p_rest p) = false →
  run (RSeq (RGroup n (RSeq (RStar true dot) (RSeq (RChr ns) REmpty))) (RSeq (RStar true bl) (RSeq REol REmpty)))
    p cs give_caps =
  (λ v, (n, v) :: cs) <$> last_visible bl (λ a, negb (ns a)) (p_rest p).
Proof.
  intros Hdot Hbl Hn. set (K := λ q cs', run (RSeq (RStar true bl) (RSeq REol REmpty)) q cs' give_caps).
  assert (HK : ∀ q cs', has_char newline (p_rest q) = false →
    K q cs' = if all_chars bl (p_rest q) then Some cs' else None).
  { intros q cs' Hq. unfold K. by rewrite run_blank_eol. }
  change (run (RGroup n (RSeq (RStar true dot) (RSeq (RChr ns) REmpty))) p cs K =
    (λ v, (n, v) :: cs) <$> last_visible bl (λ a, negb (ns a)) (p_rest p)). clearbody K. cbn [run].
  assert (Hs : ∀ s prev u, p_rest p = u +:+ s →
    star_with true dot (λ q, match p_rest q with
      | String a s => if ns a then K (MkPos (Some a) s) ((n, between p (MkPos (Some a) s)) :: cs) else None
      | "" => None end) prev s = (λ v, (n, u +:+ v) :: cs) <$> last_visible bl (λ a, negb (ns a)) s).
  { induction s as [|a s IH]; intros prev u E; [done|]. cbn [star_with last_visible p_rest].
    rewrite E, has_char_app, has_char_cons in Hn. apply orb_false_iff in Hn as [Hu [Ha Hs]%orb_false_iff].
    assert (Ea : u +:+ String a s = (u +:+ String a "") +:+ s) by (by rewrite app_str_assoc).
    rewrite Hdot by (unfold is_newline; by rewrite Ascii.eqb_sym).
    rewrite (IH (Some a) (u +:+ String a "")) by congruence.
    destruct (last_visible bl (λ a, negb (ns a)) s) as [v|]; simpl; [by rewrite app_str_assoc|].
    rewrite negb_involutive. destruct (ns a); [|done]. rewrite HK by done.
    rewrite (between_app p (u +:+ String a "") s) by (simpl; congruence). simpl.
    by destruct (all_chars bl s). }
  apply (Hs _ _ ""). done.
Qed.

(** ** Keys and values

    The two shapes of the line patterns: a key and its value to the end of the
    line, and a key up to its colon. *)

(** [ \t], the dot and \S as they are compiled. *)
Definition blank_class : class := λ a, Ascii.eqb " " a || (Ascii.eqb tab a || false).
Definition dot_class : class := λ a, negb (is_newline a).
Definition visible_class : class := λ a, negb (is_space a).
Lemma blank_not_newline a : blank_class a = true → is_newline a = false.
Proof.
  unfold blank_class, is_newline. intros [E|E]%orb_true_iff; [|apply orb_true_iff in E as [E|E]; [|done]];
    apply Ascii.eqb_eq in E as <-; reflexivity.
Qed.
Lemma blanks_no_newline b : all_chars blank_class b = true → has_char newline b = false.
Proof.
  induction b as [|a b IH]; [done|]. simpl. intros [Ha Hb]%andb_true_iff. rewrite has_char_cons, IH by done.
  apply blank_not_newline in Ha. unfold is_newline in Ha. by rewrite Ascii.eqb_sym, Ha.
Qed.
Lemma blank_is_space a : blank_class a = true → is_space a = true.
Proof.
  unfold blank_class. intros [E|E]%orb_true_iff; [|apply orb_true_iff in E as [E|E]; [|done]];
    apply Ascii.eqb_eq in E as <-; reflexivity.
Qed.
Definition value_re (key : string) : re :=
  RSeq (RStar true blank_class) (seq_then (lit key) (RSeq (RStar true blank_class)
    (RSeq (RGroup 1 (RSeq (RStar true dot_class) (RSeq (RChr visible_class) REmpty)))
       (RSeq (RStar true blank_class) (RSeq REol REmpty))))).
(** The value of a line [<blanks><key><blanks><value><blanks>]. *)
Definition entry_value (key x : string) : option string :=
  let s := drop_class blank_class x in
  if has_prefix key s then
    last_visible blank_class is_space (drop_class blank_class (str_drop (String.length key) s))
  else None.
Lemma has_char_str_drop c n s : has_char c s = false → has_char c (str_drop n s) = false.
Proof.
  revert n. induction s as [|a s IH]; intros [|n] H; simpl; try done. apply IH.
  rewrite has_char_cons in H. by apply orb_false_iff in H as [_ ?].
Qed.
Lemma last_visible_ext bl sp sp' s : (∀ a, sp a = sp' a) → last_visible bl sp s = last_visible bl sp' s.
Proof. intros H. induction s as [|a s IH]; simpl; [done|]. by rewrite IH, H. Qed.
Lemma run_key c key r p cs {A} (k : pos → caps → option A) : has_char newline (p_rest p) = false → blank_class c = false →
  run (RSeq (RStar true blank_class) (seq_then (lit (String c key)) r)) p cs k =
  let s := drop_class blank_class (p_rest p) in
  if has_prefix (String c key) s
  then run r (MkPos (last_of (p_prev (past blank_class (p_prev p) (p_rest p))) (String c key))
                (str_drop (String.length (String c key)) s)) cs k
  else None.
Proof.
  intros Hn Hc. rewrite run_star; [by rewrite run_lit, past_rest|done|].
  intros prev a s _ Ha _. rewrite run_lit. cbn [p_rest has_prefix].
  destruct (Ascii.eqb_spec c a) as [->|_]; [congruence|done].
Qed.
Lemma line_caps_value c key x : has_char newline x = false → blank_class c = false →
  line_caps (value_re (String c key)) x = (λ v, [(1, v)]) <$> entry_value (String c key) x.
Proof.
  intros Hn Hc. rewrite line_caps_run. unfold value_re, entry_value. rewrite run_key by done.
  cbn zeta. cbn [p_rest start]. destruct (has_prefix _ _); [|done].
  set (s := str_drop _ _). assert (Hs : has_char newline s = false) by (by apply has_char_str_drop, has_char_drop).
  assert (Hv : ∀ p, has_char newline (p_rest p) = false →
    run (RSeq (RGroup 1 (RSeq (RStar true dot_class) (RSeq (RChr visible_class) REmpty)))
           (RSeq (RStar true blank_class) (RSeq REol REmpty))) p [] give_caps =
    (λ v, [(1, v)]) <$> last_visible blank_class is_space (p_rest p)).
  { intros p Hp. rewrite run_value; [|intros a; unfold dot_class; by intros ->|apply blank_not_newline|done].
    f_equal. apply last_visible_ext. intros a. apply negb_involutive. }
  rewrite run_star; [|done|].
  - rewrite Hv; rewrite past_rest; [done|]. by apply has_char_drop.
  - intros prev a u Hu Ha. assert (Hau : has_char newline (String a u) = false).
    { rewrite has_char_cons. apply orb_false_iff. split; [|done]. rewrite Ascii.eqb_sym. by apply blank_not_newline. }
    rewrite !Hv by done. cbn [p_rest last_visible]. rewrite (blank_is_space a Ha). by destruct (last_visible _ _ u).
Qed.
Lemma seq_then_app l l' r : seq_then (l ++ l') r = seq_then l (seq_then l' r).
Proof. unfold seq_then. apply foldr_app. Qed.
Lemma plain_lit s : forallb plain (lit s) = true.
Proof. induction s; [done|]. simpl. done. Qed.
Lemma value_re_whole_line c key : whole_line (value_re (String c key)).
Proof.
  intros p q cs [_ H]%match_at_Some. unfold value_re in H.
  change (lang (seq_then [RStar true blank_class] (seq_then (lit (String c key)) (seq_then
    [RStar true blank_class; RGroup 1 (RSeq (RStar true dot_class) (RSeq (RChr visible_class) REmpty));
     RStar true blank_class] (RSeq REol REmpty)))) p q) in H.
  rewrite <- !seq_then_app in H. apply lang_seq_then in H; [|by rewrite !forallb_app, plain_lit].
  destruct H as (w & m & Hw & [Hr _] & k & [-> He] & Hk). simpl in Hk. subst q. split; [done|].
  rewrite Hr. intros E. apply (f_equal String.length) in E. rewrite length_app_str in E.
  destruct Hw as (b & v & -> & _ & Hv). apply denotes_lit in Hv as (v' & -> & _).
  rewrite !length_app_str in E. simpl in E. lia.
Qed.
(** The key of a line [<blanks><key>...]. *)
Definition starts_key (key x : string) : bool := has_prefix key (drop_class blank_class x).
Definition key_re (key : string) : re := RSeq (RStar true blank_class) (seq_then (lit key) REmpty).
Lemma line_caps_key c key x : has_char newline x = false → blank_class c = false →
  line_caps (key_re (String c key)) x = if starts_key (String c key) x then Some [] else None.
Proof.
  intros Hn Hc. rewrite line_caps_run. unfold key_re, starts_key. rewrite run_key by done. cbn zeta. cbn [p_rest start].
  by destruct (has_prefix _ _).
Qed.
(** [<key>], or it with Ref or Selector after it, up to the colon; group 1 is the name. *)
Definition names_re (key : string) : re :=
  RSeq (RStar true blank_class) (RSeq (RGroup 1 (seq_then (lit key)
    (RSeq (RAlt (RAlt (seq_then (lit "Ref") REmpty) (seq_then (lit "Selector") REmpty)) REmpty) REmpty)))
    (RSeq (RChr (Ascii.eqb ":")) REmpty)).
Definition name_of (key x : string) : option string :=
  find_first (λ f, starts_key (f +:+ ":") x) [key +:+ "Ref"; key +:+ "Selector"; key].
Lemma has_prefix_app_l a b s : has_prefix (a +:+ b) s =
  has_prefix a s && has_prefix b (str_drop (String.length a) s).
Proof.
  revert s. induction a as [|c a IH]; intros s; simpl; [by destruct s|]. destruct s as [|d s]; [done|].
  destruct (Ascii.eqb c d); [apply IH|done].
Qed.
Lemma has_prefix_split a s : has_prefix a s = true → s = a +:+ str_drop (String.length a) s.
Proof. intros [r ->]%has_prefix_spec. by rewrite str_drop_app. Qed.
Lemma line_caps_names c key x : has_char newline x = false → blank_class c = false →
  line_caps (names_re (String c key)) x = (λ f, [(1, f)]) <$> name_of (String c key) x.
Proof.
  intros Hn Hc. rewrite line_caps_run. unfold names_re. rewrite run_star; [|done|].
  2: { intros prev a s _ Ha _. cbn [run]. rewrite run_lit. cbn [p_rest has_prefix].
       destruct (Ascii.eqb_spec c a) as [->|_]; [congruence|done]. }
  set (p := past _ _ _). assert (Hp : p_rest p = drop_class blank_class x) by apply past_rest.
  set (K := λ q cs, run (RSeq (RChr (Ascii.eqb ":")) REmpty) q ((1, between p q) :: cs) give_caps).
  change (run (seq_then (lit (String c key))
    (RSeq (RAlt (RAlt (seq_then (lit "Ref") REmpty) (seq_then (lit "Selector") REmpty)) REmpty) REmpty)) p [] K =
    (λ f, [(1, f)]) <$> name_of (String c key) x).
  unfold name_of, starts_key. rewrite <- Hp. clear Hp. cbn [find_first].
  set (fields := String c key). clearbody fields. rewrite run_lit, !app_str_assoc, !(has_prefix_app_l fields).
  destruct (has_prefix fields (p_rest p)) eqn:E; [|done]. apply has_prefix_split in E.
  set (rest := str_drop (String.length fields) (p_rest p)) in *. set (m := MkPos _ rest).
  assert (Halt : ∀ sfx, run (seq_then (lit sfx) REmpty) m [] K =
    if has_prefix (sfx +:+ ":") rest then Some [(1, fields +:+ sfx)] else None).
  { intros sfx. rewrite run_lit, has_prefix_app_l. cbn [p_rest p_prev m].
    destruct (has_prefix sfx rest) eqn:Es; [|done]. apply has_prefix_split in Es.
    set (t := str_drop (String.length sfx) rest) in *. clearbody t. unfold K. cbn [run p_rest has_prefix]. destruct t as [|a t]; [done|].
    rewrite (between_app p (fields +:+ sfx) (String a t)); [|by rewrite E, Es, app_str_assoc|done].
    destruct (Ascii.eqb ":" a); done. }
  change (match match run (seq_then (lit "Ref") REmpty) m [] K with
                | Some y => Some y | None => run (seq_then (lit "Selector") REmpty) m [] K end with
          | Some y => Some y | None => run (seq_then (lit "") REmpty) m [] K end =
    (λ f, [(1, f)]) <$> (if has_prefix ("Ref" +:+ ":") rest then Some (fields +:+ "Ref") else
      if has_prefix ("Selector" +:+ ":") rest then Some (fields +:+ "Selector") else
      if has_prefix ("" +:+ ":") rest then Some fields else None)).
  rewrite !Halt, app_str_nil_r.
  by destruct (has_prefix ("Ref" +:+ ":") rest), (has_prefix ("Selector" +:+ ":") rest), (has_prefix ("" +:+ ":") rest).
Qed.
Lemma MatchString_lines r s : within r = true →
  MatchString (RSeq RBol r) s = true ↔ ∃ x, x ∈ lines s ∧ is_Some (line_caps r x).
Proof.
  intros Hr. pose proof (leftmost_lines r (start s) Hr) as H. unfold MatchString.
  change (lines_from (start s)) with (lines s) in H. pose proof (search_lines_split r (lines s)) as Hs.
  rewrite <- H in Hs. destruct (leftmost (RSeq RBol r) (start s)) as [[[a b] cs]|]; simpl in Hs.
  - split; [|done]. intros _. destruct Hs as (l1 & x & l2 & -> & _ & Hx). exists x. split; [set_solver|eauto].
  - split; [done|]. intros (x & Hx & cs & Hcs). exfalso. apply (not_elem_of_nil cs). rewrite <- Hs.
    apply list_elem_of_omap. eauto.
Qed.
Lemma drop_class_stop c a s : c a = false → drop_class c (String a s) = String a s.
Proof. simpl. by intros ->. Qed.
(** The first character of a text is not in the class. *)
Definition starts_outside (c : class) (s : string) : bool :=
  match s with String a _ => negb (c a) | "" => false end.
Lemma drop_class_id c s : starts_outside c s = true → drop_class c s = s.
Proof. destruct s as [|a s]; [done|]. simpl. by destruct (c a). Qed.
Lemma drop_class_outside c s : drop_class c s = "" ∨ starts_outside c (drop_class c s) = true.
Proof. induction s as [|a s IH]; [by left|]. simpl. destruct (c a) eqn:E; [done|]. right. simpl. by rewrite E. Qed.
Lemma starts_outside_app c s t : starts_outside c s = true → starts_outside c (s +:+ t) = true.
Proof. by destruct s. Qed.
(** A value: it starts and ends with characters that are not blank. *)
Definition trimmed (v : string) : Prop :=
  starts_outside blank_class v = true ∧ ∃ u c, v = u +:+ String c "" ∧ is_space c = false.
Lemma entry_value_spec c key x v : blank_class c = false →
  entry_value (String c key) x = Some v ↔ ∃ b1 b2 b3, x = b1 +:+ String c key +:+ b2 +:+ v +:+ b3 ∧
    all_chars blank_class b1 = true ∧ all_chars blank_class b2 = true ∧ all_chars blank_class b3 = true ∧ trimmed v.
Proof.
  intros Hc. unfold entry_value. split.
  - destruct (has_prefix (String c key) (drop_class blank_class x)) eqn:E; [|done]. apply has_prefix_split in E.
    set (s := str_drop _ _) in *. intros Hv. apply last_visible_spec in Hv as (u & d & b3 & -> & Es & Hd & Hb3);
      [|apply blank_is_space].
    destruct (drop_class_split blank_class x) as (b1 & Ex & Hb1).
    destruct (drop_class_split blank_class s) as (b2 & Es2 & Hb2).
    exists b1, b2, b3. split_and!; [|done..|split; [|eauto]].
    + by rewrite Ex at 1; rewrite E, Es2, Es at 1; rewrite !app_str_assoc.
    + destruct (drop_class_outside blank_class s) as [H|H]; rewrite Es in H; [by destruct u|].
      by destruct u as [|e u].
  - intros (b1 & b2 & b3 & -> & Hb1 & Hb2 & Hb3 & Hs & u & d & -> & Hd). rewrite drop_class_app by done.
    change (String c key +:+ ?z) with (String c (key +:+ z)). rewrite drop_class_stop by done.
    change (String c (key +:+ ?z)) with (String c key +:+ z). rewrite has_prefix_app, str_drop_app.
    rewrite drop_class_app, drop_class_id by (by try apply starts_outside_app).
    apply last_visible_spec; [apply blank_is_space|]. eauto 10.
Qed.
Lemma starts_key_spec c key x : blank_class c = false →
  starts_key (String c key) x = true ↔ ∃ b v, x = b +:+ String c key +:+ v ∧ all_chars blank_class b = true.
Proof.
  intros Hc. unfold starts_key. split.
  - intros H%has_prefix_split. destruct (drop_class_split blank_class x) as (b & Ex & Hb). exists b. rewrite H in Ex. eauto.
  - intros (b & v & -> & Hb). rewrite drop_class_app by done. change (String c key +:+ v) with (String c (key +:+ v)).
    rewrite drop_class_stop by done. apply (has_prefix_app (String c key)).
Qed.
