(* ===== verification/Yaml.v ===== *)
(** Decoded YAML and JSON documents: Go's [interface{}] values as the loader
    and the renderers produce them, the accessors the program reads them with
    ([getMap], [getSlice], type assertions), Go's [==] on interfaces and
    [reflect.DeepEqual].

    A Go map is an association list in SOME iteration order with no duplicate
    key ([wf]); theorems about code that ranges over a map are stated through
    lookups or up to permutation, so they hold for every iteration order.  A
    [map[string]interface{}] variable is an [option] of such a list: [None] is
    the nil map. *)
From Stdlib Require Import ZArith Floats.SpecFloat.
From S2P Require Import Prelude GoStrings.

#[local] Open Scope string_scope.

(** Dynamic types: nil, bool, int, uint64, float64, string, []interface{},
    map[string]interface{}, and any other comparable dynamic type the code
    never matches (a timestamp), which carries its printed form. *)
Inductive value : Type :=
  | VNull
  | VBool (b : bool)
  | VInt (z : Z)
  | VUint (z : Z)
  | VFloat (f : spec_float)
  | VStr (s : string)
  | VList (l : list value)
  | VMap (m : list (string * value))
  | VOther (s : string).

Notation obj := (list (string * value)).
(** A [map[string]interface{}] variable: nil or a map. *)
Notation raw := (option (list (string * value))).

(** Induction through lists and maps. *)
Section value_ind.
Context (P : value → Prop).
Context (Hnull : P VNull) (Hbool : ∀ b, P (VBool b)) (Hint : ∀ z, P (VInt z))
  (Huint : ∀ z, P (VUint z)) (Hfloat : ∀ f, P (VFloat f)) (Hstr : ∀ s, P (VStr s))
  (Hlist : ∀ l, Forall P l → P (VList l))
  (Hmap : ∀ m, Forall (λ kv, P kv.2) m → P (VMap m))
  (Hother : ∀ s, P (VOther s)).
Fixpoint value_ind' (v : value) : P v :=
  match v with
  | VNull => Hnull | VBool b => Hbool b | VInt z => Hint z | VUint z => Huint z
  | VFloat f => Hfloat f | VStr s => Hstr s
  | VList l => Hlist l
      ((fix go l : Forall P l :=
          match l with
          | [] => Forall_nil_2 _
          | v :: l => Forall_cons_2 _ _ _ (value_ind' v) (go l)
          end) l)
  | VMap m => Hmap m
      ((fix go m : Forall (λ kv, P kv.2) m :=
          match m with
          | [] => Forall_nil_2 _
          | kv :: m => Forall_cons_2 _ _ _ (value_ind' kv.2) (go m)
          end) m)
  | VOther s => Hother s
  end.
End value_ind.

(** ** Maps *)

(** [m[key]] with its presence flag. *)
Fixpoint lookup_key (m : obj) (k : string) : option value :=
  match m with
  | [] => None
  | (k', v) :: m => if String.eqb k' k then Some v else lookup_key m k
  end.
Definition lookup_raw (m : raw) (k : string) : option value :=
  match m with Some m => lookup_key m k | None => None end.
Definition has_key (m : obj) (k : string) : bool :=
  match lookup_key m k with Some _ => true | None => false end.

Definition wf_map (m : obj) : Prop := NoDup m.*1.

Lemma lookup_key_elem_of m k v : lookup_key m k = Some v → (k, v) ∈ m.
Proof.
  induction m as [|[k' v'] m IH]; simpl; [done|].
  destruct (String.eqb_spec k' k) as [->|]; [intros [= ->]; by left|]. right; auto.
Qed.

Lemma elem_of_lookup_key m k v : wf_map m → (k, v) ∈ m → lookup_key m k = Some v.
Proof.
  unfold wf_map. induction m as [|[k' v'] m IH]; simpl; [by intros _ ?%not_elem_of_nil|].
  intros [Hk Hm]%NoDup_cons [[= -> ->]|H]%elem_of_cons; [by rewrite String.eqb_refl|].
  destruct (String.eqb_spec k' k) as [->|]; [|auto].
  destruct Hk. apply list_elem_of_fmap. by exists (k, v).
Qed.

Lemma lookup_key_iff m k v : wf_map m → lookup_key m k = Some v ↔ (k, v) ∈ m.
Proof. intros. split; [apply lookup_key_elem_of|by apply elem_of_lookup_key]. Qed.

Lemma lookup_key_None m k : lookup_key m k = None ↔ k ∉ m.*1.
Proof.
  induction m as [|[k' v'] m IH]; simpl; [split; [intros _ ?%not_elem_of_nil|]; done|].
  rewrite not_elem_of_cons. destruct (String.eqb_spec k' k) as [->|]; naive_solver.
Qed.

(** Lookups do not depend on the iteration order. *)
Lemma lookup_key_perm m1 m2 k : wf_map m1 → m1 ≡ₚ m2 → lookup_key m1 k = lookup_key m2 k.
Proof.
  intros Hw Hp. assert (wf_map m2) by (unfold wf_map in *; by rewrite <- Hp).
  apply option_eq. intros v. rewrite !lookup_key_iff by done. by rewrite Hp.
Qed.

Lemma has_key_spec m k : has_key m k = true ↔ ∃ v, lookup_key m k = Some v.
Proof. unfold has_key. destruct (lookup_key m k); naive_solver. Qed.

(** ** Accessors *)

(** Type assertions with the comma-ok form. *)
Definition as_string (v : value) : option string :=
  match v with VStr s => Some s | _ => None end.
Definition as_map (v : value) : raw := match v with VMap m => Some m | _ => None end.
Definition as_list (v : value) : option (list value) :=
  match v with VList l => Some l | _ => None end.

(** [getMap] of builder.go and [getNestedMap] of fetcher.go. *)
Definition get_map (m : raw) (key : string) : raw :=
  match lookup_raw m key with Some v => as_map v | None => None end.
(** [getSlice]: nil on absence or on another type. *)
Definition get_slice (m : raw) (key : string) : option (list value) :=
  match lookup_raw m key with Some v => as_list v | None => None end.
(** [s, _ := m[key].(string)]: the empty string on absence. *)
Definition get_str (m : raw) (key : string) : string :=
  match lookup_raw m key with Some (VStr s) => s | _ => "" end.
(** [b, _ := m[key].(bool)]. *)
Definition get_bool (m : raw) (key : string) : bool :=
  match lookup_raw m key with Some (VBool b) => b | _ => false end.
(** [getStringSlice]: the string elements. *)
Definition get_string_slice (m : raw) (key : string) : list string :=
  match get_slice m key with Some l => omap as_string l | None => [] end.

(** ** Well-formedness: no map holds a key twice *)
Fixpoint wf_value (v : value) : Prop :=
  match v with
  | VList l => (fix go l := match l with [] => True | v :: l => wf_value v ∧ go l end) l
  | VMap m => wf_map m ∧
      (fix go m := match m with [] => True | (_, v) :: m => wf_value v ∧ go m end) m
  | _ => True
  end.
Definition wf_raw (m : raw) : Prop :=
  match m with Some m => wf_value (VMap m) | None => True end.

Lemma wf_VList l : wf_value (VList l) ↔ Forall wf_value l.
Proof. simpl. induction l as [|v l IH]; [by split|]. by rewrite Forall_cons, IH. Qed.
Lemma wf_VMap m : wf_value (VMap m) ↔ wf_map m ∧ Forall (λ kv, wf_value kv.2) m.
Proof.
  simpl. f_equiv. induction m as [|[k v] m IH]; [by split|]. by rewrite Forall_cons, IH.
Qed.
Lemma wf_lookup m k v : wf_value (VMap m) → lookup_key m k = Some v → wf_value v.
Proof.
  rewrite wf_VMap. intros [_ H] Hk%lookup_key_elem_of. rewrite Forall_forall in H.
  by apply (H (k, v)).
Qed.
Lemma wf_elem l i v : wf_value (VList l) → l !! i = Some v → wf_value v.
Proof. rewrite wf_VList. intros H Hi. eapply Forall_lookup_1; eauto. Qed.

(** ** Nesting depth: the fuel of the recursive walks *)
Fixpoint depth (v : value) : nat :=
  match v with
  | VList l => S ((fix go l := match l with [] => 0 | v :: l => Nat.max (depth v) (go l) end) l)
  | VMap m =>
      S ((fix go m := match m with [] => 0 | (_, v) :: m => Nat.max (depth v) (go m) end) m)
  | _ => 0
  end.
Lemma depth_lookup m k v : lookup_key m k = Some v → depth v < depth (VMap m).
Proof.
  intros H%lookup_key_elem_of. simpl.
  induction m as [|[k' v'] m IH]; [by apply not_elem_of_nil in H|].
  apply elem_of_cons in H as [[= <- <-]|H]; [lia|]. specialize (IH H). lia.
Qed.
Lemma depth_elem l v : v ∈ l → depth v < depth (VList l).
Proof.
  intros H. simpl. induction H as [|v v' l H IH]; lia.
Qed.

(** ** Go's [==] on two interfaces: false on different dynamic types, a
    run-time panic ([None]) on two values of one uncomparable type. *)
Definition go_eq (a b : value) : option bool :=
  match a, b with
  | VNull, VNull => Some true
  | VBool x, VBool y => Some (Bool.eqb x y)
  | VInt x, VInt y => Some (Z.eqb x y)
  | VUint x, VUint y => Some (Z.eqb x y)
  | VFloat x, VFloat y => Some (SFeqb x y)
  | VStr x, VStr y => Some (String.eqb x y)
  | VOther x, VOther y => Some (String.eqb x y)
  | VList _, VList _ => None
  | VMap _, VMap _ => None
  | _, _ => Some false
  end.

(** ** [reflect.DeepEqual] on two separately decoded values *)
Fixpoint deep_equal (a b : value) {struct a} : bool :=
  match a, b with
  | VNull, VNull => true
  | VBool x, VBool y => Bool.eqb x y
  | VInt x, VInt y => Z.eqb x y
  | VUint x, VUint y => Z.eqb x y
  | VFloat x, VFloat y => SFeqb x y
  | VStr x, VStr y => String.eqb x y
  | VOther x, VOther y => String.eqb x y
  | VList l, VList k =>
      (fix go l k :=
         match l, k with
         | [], [] => true
         | x :: l, y :: k => deep_equal x y && go l k
         | _, _ => false
         end) l k
  | VMap m, VMap n =>
      Nat.eqb (length m) (length n) &&
      (fix go m :=
         match m with
         | [] => true
         | (k, x) :: m =>
             match lookup_key n k with Some y => deep_equal x y && go m | None => false end
         end) m
  | _, _ => false
  end.
(** On two map variables: a nil map is not equal to an empty one. *)
Definition raw_equal (a b : raw) : bool :=
  match a, b with
  | None, None => true
  | Some m, Some n => deep_equal (VMap m) (VMap n)
  | _, _ => false
  end.

Lemma deep_equal_list l k : deep_equal (VList l) (VList k) = true ↔
  Forall2 (λ x y, deep_equal x y = true) l k.
Proof.
  simpl. revert k. induction l as [|x l IH]; intros [|y k].
  - split; [constructor|done].
  - split; [done|]. intros H. inversion H.
  - split; [done|]. intros H. inversion H.
  - rewrite andb_true_iff, IH. split; [intros []; by constructor|by inversion 1].
Qed.

Lemma deep_equal_map m n : deep_equal (VMap m) (VMap n) = true ↔
  length m = length n ∧
  ∀ k x, (k, x) ∈ m → ∃ y, lookup_key n k = Some y ∧ deep_equal x y = true.
Proof.
  simpl. rewrite andb_true_iff, Nat.eqb_eq. f_equiv.
  induction m as [|[k x] m IH]; [split; [by intros _ ?? ?%not_elem_of_nil|done]|].
  destruct (lookup_key n k) as [y|] eqn:E.
  - rewrite andb_true_iff, IH. split.
    + intros [Hxy H] k' x' [[= -> ->]|H']%elem_of_cons; eauto.
    + intros H. split; [|intros; apply H; by right].
      destruct (H k x) as (y' & ? & ?); [by left|]. by simplify_eq.
  - split; [done|]. intros H. destruct (H k x) as (y' & ? & ?); [by left|]. congruence.
Qed.

(** Values without a NaN. *)
Fixpoint no_nan (v : value) : Prop :=
  match v with
  | VFloat f => SFeqb f f = true
  | VList l => (fix go l := match l with [] => True | v :: l => no_nan v ∧ go l end) l
  | VMap m => (fix go m := match m with [] => True | (_, v) :: m => no_nan v ∧ go m end) m
  | _ => True
  end.

Lemma deep_equal_refl v : wf_value v → no_nan v → deep_equal v v = true.
Proof.
  induction v as [|b|z|z|f|s|l IH|m IH|s] using value_ind'; intros Hw Hn; try done.
  - by destruct b.
  - apply Z.eqb_refl.
  - apply Z.eqb_refl.
  - apply String.eqb_refl.
  - apply deep_equal_list. apply wf_VList in Hw.
    induction IH as [|v l Hv _ IHl]; constructor.
    + inversion_clear Hw. destruct Hn. auto.
    + inversion_clear Hw. destruct Hn. auto.
  - apply deep_equal_map. split; [done|]. apply wf_VMap in Hw as [Hd Hw].
    intros k x Hkx. exists x. split; [by apply elem_of_lookup_key|].
    rewrite Forall_forall in IH, Hw. apply (IH (k, x)); [done|by apply (Hw (k, x))|].
    clear Hd IH Hw. induction m as [|[k' x'] m IH]; [by apply not_elem_of_nil in Hkx|].
    destruct Hn. apply elem_of_cons in Hkx as [[= -> ->]|]; auto.
  - apply String.eqb_refl.
Qed.

Lemma SFeqb_sym x y : SFeqb x y = SFeqb y x.
Proof.
  unfold SFeqb, SFcompare. destruct x as [[]|[]| |[] m e], y as [[]|[]| |[] m' e']; try done;
    rewrite (Z.compare_antisym e e'); destruct (Z.compare e e'); try done;
    change (Pos.compare_cont Eq m m') with (Pos.compare m m');
    change (Pos.compare_cont Eq m' m) with (Pos.compare m' m);
    rewrite (Pos.compare_antisym m m'); by destruct (Pos.compare m m').
Qed.

(** A key-respecting injection between duplicate-free maps of one size is onto. *)
Lemma wf_map_covers (m n : obj) : wf_map m → wf_map n → length m = length n →
  (∀ k, k ∈ m.*1 → k ∈ n.*1) → ∀ k, k ∈ n.*1 → k ∈ m.*1.
Proof.
  intros Hm Hn Hl H k Hk.
  assert (Hp : m.*1 ≡ₚ n.*1).
  { apply submseteq_length_Permutation; [by apply NoDup_submseteq|].
    rewrite !length_fmap. lia. }
  by rewrite Hp.
Qed.

Lemma deep_equal_sym a b : wf_value a → wf_value b → deep_equal a b = deep_equal b a.
Proof.
  assert (H : ∀ a b, wf_value a → wf_value b → deep_equal a b = true → deep_equal b a = true).
  { clear. intros a. induction a as [|x|z|z|f|s|l IH|m IH|s] using value_ind';
      intros [|x'|z'|z'|f'|s'|l'|m'|s'] Ha Hb; try done.
    - simpl. by destruct x, x'.
    - simpl. by rewrite Z.eqb_sym.
    - simpl. by rewrite Z.eqb_sym.
    - simpl. by rewrite SFeqb_sym.
    - simpl. by rewrite String.eqb_sym.
    - rewrite !deep_equal_list. apply wf_VList in Ha, Hb. revert l' Hb.
      induction IH as [|v l Hv _ IHl]; intros l' Hb H; inversion H; subst; constructor.
      + inversion_clear Ha. inversion_clear Hb. auto.
      + inversion_clear Ha. inversion_clear Hb. auto.
    - rewrite !deep_equal_map. apply wf_VMap in Ha as [Hm Ha], Hb as [Hm' Hb].
      intros [Hl H]. split; [done|]. intros k y Hy.
      assert (Hk : k ∈ m.*1).
      { apply (wf_map_covers m m'); try done.
        - intros k0 Hk0. apply list_elem_of_fmap in Hk0 as ([k1 x] & -> & Hx).
          destruct (H _ _ Hx) as (y' & Hy' & _). apply lookup_key_elem_of in Hy'.
          apply list_elem_of_fmap. by exists (k1, y').
        - apply list_elem_of_fmap. by exists (k, y). }
      apply list_elem_of_fmap in Hk as ([k1 x] & Hk1 & Hx). simpl in Hk1. subst k1.
      exists x. split; [by apply elem_of_lookup_key|].
      destruct (H _ _ Hx) as (y' & Hy' & E). apply elem_of_lookup_key in Hy; [|done].
      simplify_eq. rewrite Forall_forall in IH, Ha, Hb.
      apply (IH (k, x)); [done|by apply (Ha (k, x))| |done].
      apply (Hb (k, y)). by apply lookup_key_elem_of.
    - simpl. by rewrite String.eqb_sym. }
  intros Ha Hb. apply eq_true_iff_eq. split; by apply H.
Qed.

Lemma raw_equal_sym a b : wf_raw a → wf_raw b → raw_equal a b = raw_equal b a.
Proof. destruct a, b; try done. apply deep_equal_sym. Qed.
Lemma raw_equal_refl a : wf_raw a → match a with Some m => no_nan (VMap m) | None => True end →
  raw_equal a a = true.
Proof. destruct a; [|done]. apply deep_equal_refl. Qed.
