(* ===== verification/Types.v ===== *)
(** The typed representation of a set of manifests: the structs of
    src/pkg/types/types.go, field by field.  Field names carry a short prefix
    per struct ([ri_] for ResourceInfo, [app_] for ArgoApplication, ...), since
    Rocq record fields share one name space; [zero_T] is Go's zero value of T.

    Slices are lists.  A slice or map field whose nil-ness the code tests is an
    [option] (None = nil): the resolved registries of World, its two caches and
    the key lists of BypassKeySet.  Maps with string values are [gmap]s, decoded
    documents are [raw], pointers are options, [int] is Z. *)
From Stdlib Require Import ZArith.
From S2P Require Import Prelude GoStrings Yaml.

#[local] Open Scope string_scope.

(** Severity and ViolationKind are string enumerations in the source. *)
Inductive Severity : Type := SeverityError | SeverityWarning | SeverityInfo.
#[export] Instance Severity_eq_dec : EqDecision Severity.
Proof. solve_decision. Defined.
Inductive ViolationKind : Type :=
  | ViolationUnknownField | ViolationWrongType | ViolationMissingRequired | ViolationInvalidEnum.
#[export] Instance ViolationKind_eq_dec : EqDecision ViolationKind.
Proof. solve_decision. Defined.

(** A schema key: (APIVersion, Kind). *)
Definition SchemaKey : Type := string * string.

Record SourceLocation : Type := MkSourceLocation {
  sl_File : string;
  sl_Line : Z;
  sl_Column : Z;
}.
Definition zero_SourceLocation : SourceLocation := {|
  sl_File := "";
  sl_Line := 0%Z;
  sl_Column := 0%Z
|}.
#[export] Instance SourceLocation_eq_dec : EqDecision SourceLocation.
Proof. solve_decision. Defined.

Record CRDVersion : Type := MkCRDVersion {
  cv_Name : string;
  cv_Served : bool;
  cv_Storage : bool;
  cv_Referenceable : bool;
  cv_SchemaDigest : string;
}.
Definition zero_CRDVersion : CRDVersion := {|
  cv_Name := "";
  cv_Served := false;
  cv_Storage := false;
  cv_Referenceable := false;
  cv_SchemaDigest := ""
|}.
#[export] Instance CRDVersion_eq_dec : EqDecision CRDVersion.
Proof. solve_decision. Defined.

Record ConversionInfo : Type := MkConversionInfo {
  ci_Strategy : string;
  ci_CostClass : string;
  ci_WebhookService : string;
}.
Definition zero_ConversionInfo : ConversionInfo := {|
  ci_Strategy := "";
  ci_CostClass := "";
  ci_WebhookService := ""
|}.
#[export] Instance ConversionInfo_eq_dec : EqDecision ConversionInfo.
Proof. solve_decision. Defined.

Record CRDInfo : Type := MkCRDInfo {
  crd_Group : string;
  crd_Kind : string;
  crd_Scope : string;
  crd_Versions : list CRDVersion;
  crd_Conversion : ConversionInfo;
  crd_Source : SourceLocation;
  crd_IsXRD : bool;
  crd_APIVersion : string;
  crd_OwningApp : string;
}.
Definition zero_CRDInfo : CRDInfo := {|
  crd_Group := "";
  crd_Kind := "";
  crd_Scope := "";
  crd_Versions := [];
  crd_Conversion := zero_ConversionInfo;
  crd_Source := zero_SourceLocation;
  crd_IsXRD := false;
  crd_APIVersion := "";
  crd_OwningApp := ""
|}.
#[export] Instance CRDInfo_eq_dec : EqDecision CRDInfo.
Proof. solve_decision. Defined.

Record GVK : Type := MkGVK {
  gvk_Group : string;
  gvk_Version : string;
  gvk_Kind : string;
}.
Definition zero_GVK : GVK := {|
  gvk_Group := "";
  gvk_Version := "";
  gvk_Kind := ""
|}.
#[export] Instance GVK_eq_dec : EqDecision GVK.
Proof. solve_decision. Defined.

Record PipelineStep : Type := MkPipelineStep {
  ps_Name : string;
  ps_FunctionRef : string;
  ps_InputAPIVersion : string;
  ps_InputKind : string;
  ps_InputDigest : string;
}.
Definition zero_PipelineStep : PipelineStep := {|
  ps_Name := "";
  ps_FunctionRef := "";
  ps_InputAPIVersion := "";
  ps_InputKind := "";
  ps_InputDigest := ""
|}.
#[export] Instance PipelineStep_eq_dec : EqDecision PipelineStep.
Proof. solve_decision. Defined.

Record ResourceBase : Type := MkResourceBase {
  rb_APIVersion : string;
  rb_Kind : string;
}.
Definition zero_ResourceBase : ResourceBase := {|
  rb_APIVersion := "";
  rb_Kind := ""
|}.
#[export] Instance ResourceBase_eq_dec : EqDecision ResourceBase.
Proof. solve_decision. Defined.

Record TransformInfo : Type := MkTransformInfo {
  ti_Type : string;
  ti_Convert : string;
}.
Definition zero_TransformInfo : TransformInfo := {|
  ti_Type := "";
  ti_Convert := ""
|}.
#[export] Instance TransformInfo_eq_dec : EqDecision TransformInfo.
Proof. solve_decision. Defined.

Record PatchInfo : Type := MkPatchInfo {
  pi_Type : string;
  pi_FromFieldPath : string;
  pi_ToFieldPath : string;
  pi_Transforms : list TransformInfo;
}.
Definition zero_PatchInfo : PatchInfo := {|
  pi_Type := "";
  pi_FromFieldPath := "";
  pi_ToFieldPath := "";
  pi_Transforms := []
|}.
#[export] Instance PatchInfo_eq_dec : EqDecision PatchInfo.
Proof. solve_decision. Defined.

Record ComposedResource : Type := MkComposedResource {
  cr_Name : string;
  cr_Base : ResourceBase;
  cr_Patches : list PatchInfo;
}.
Definition zero_ComposedResource : ComposedResource := {|
  cr_Name := "";
  cr_Base := zero_ResourceBase;
  cr_Patches := []
|}.
#[export] Instance ComposedResource_eq_dec : EqDecision ComposedResource.
Proof. solve_decision. Defined.

Record CompositionInfo : Type := MkCompositionInfo {
  comp_Name : string;
  comp_CompositeTypeRef : GVK;
  comp_Mode : string;
  comp_Pipeline : list PipelineStep;
  comp_Resources : list ComposedResource;
  comp_Source : SourceLocation;
  comp_OwningApp : string;
}.
Definition zero_CompositionInfo : CompositionInfo := {|
  comp_Name := "";
  comp_CompositeTypeRef := zero_GVK;
  comp_Mode := "";
  comp_Pipeline := [];
  comp_Resources := [];
  comp_Source := zero_SourceLocation;
  comp_OwningApp := ""
|}.
#[export] Instance CompositionInfo_eq_dec : EqDecision CompositionInfo.
Proof. solve_decision. Defined.

Record FunctionInfo : Type := MkFunctionInfo {
  fn_Name : string;
  fn_Package : string;
  fn_InputVersions : list string;
  fn_Source : SourceLocation;
  fn_OwningApp : string;
}.
Definition zero_FunctionInfo : FunctionInfo := {|
  fn_Name := "";
  fn_Package := "";
  fn_InputVersions := [];
  fn_Source := zero_SourceLocation;
  fn_OwningApp := ""
|}.
#[export] Instance FunctionInfo_eq_dec : EqDecision FunctionInfo.
Proof. solve_decision. Defined.

Record ProviderInfo : Type := MkProviderInfo {
  pr_Name : string;
  pr_Package : string;
  pr_Annotations : gmap string string;
  pr_Source : SourceLocation;
  pr_OwningApp : string;
}.
Definition zero_ProviderInfo : ProviderInfo := {|
  pr_Name := "";
  pr_Package := "";
  pr_Annotations := ∅;
  pr_Source := zero_SourceLocation;
  pr_OwningApp := ""
|}.
#[export] Instance ProviderInfo_eq_dec : EqDecision ProviderInfo.
Proof. solve_decision. Defined.

Record ConfigurationInfo : Type := MkConfigurationInfo {
  cfgi_Name : string;
  cfgi_Package : string;
  cfgi_Source : SourceLocation;
}.
Definition zero_ConfigurationInfo : ConfigurationInfo := {|
  cfgi_Name := "";
  cfgi_Package := "";
  cfgi_Source := zero_SourceLocation
|}.
#[export] Instance ConfigurationInfo_eq_dec : EqDecision ConfigurationInfo.
Proof. solve_decision. Defined.

Record ResourceInfo : Type := MkResourceInfo {
  ri_APIVersion : string;
  ri_Kind : string;
  ri_Name : string;
  ri_Namespace : string;
  ri_Annotations : gmap string string;
  ri_Labels : gmap string string;
  ri_Source : SourceLocation;
  ri_Raw : raw;
  ri_Provenance : string;
  ri_OwningApp : string;
}.
Definition zero_ResourceInfo : ResourceInfo := {|
  ri_APIVersion := "";
  ri_Kind := "";
  ri_Name := "";
  ri_Namespace := "";
  ri_Annotations := ∅;
  ri_Labels := ∅;
  ri_Source := zero_SourceLocation;
  ri_Raw := None;
  ri_Provenance := "";
  ri_OwningApp := ""
|}.

Record SyncWaveEntry : Type := MkSyncWaveEntry {
  swe_Kind : string;
  swe_Name : string;
  swe_Wave : Z;
}.
Definition zero_SyncWaveEntry : SyncWaveEntry := {|
  swe_Kind := "";
  swe_Name := "";
  swe_Wave := 0%Z
|}.
#[export] Instance SyncWaveEntry_eq_dec : EqDecision SyncWaveEntry.
Proof. solve_decision. Defined.

Record ArgoHelmParam : Type := MkArgoHelmParam {
  hp_Name : string;
  hp_Value : string;
}.
Definition zero_ArgoHelmParam : ArgoHelmParam := {|
  hp_Name := "";
  hp_Value := ""
|}.
#[export] Instance ArgoHelmParam_eq_dec : EqDecision ArgoHelmParam.
Proof. solve_decision. Defined.

Record ArgoHelmSource : Type := MkArgoHelmSource {
  hs_ValueFiles : list string;
  hs_ValuesObject : raw;
  hs_Values : string;
  hs_ReleaseName : string;
  hs_Parameters : list ArgoHelmParam;
}.
Definition zero_ArgoHelmSource : ArgoHelmSource := {|
  hs_ValueFiles := [];
  hs_ValuesObject := None;
  hs_Values := "";
  hs_ReleaseName := "";
  hs_Parameters := []
|}.

Record ArgoKustomizeSource : Type := MkArgoKustomizeSource {
  ks_NamePrefix : string;
  ks_NameSuffix : string;
  ks_Images : list string;
  ks_CommonLabels : gmap string string;
  ks_CommonAnnotations : gmap string string;
}.
Definition zero_ArgoKustomizeSource : ArgoKustomizeSource := {|
  ks_NamePrefix := "";
  ks_NameSuffix := "";
  ks_Images := [];
  ks_CommonLabels := ∅;
  ks_CommonAnnotations := ∅
|}.
#[export] Instance ArgoKustomizeSource_eq_dec : EqDecision ArgoKustomizeSource.
Proof. solve_decision. Defined.

Record ArgoDirectorySource : Type := MkArgoDirectorySource {
  ds_Recurse : bool;
  ds_Exclude : string;
  ds_Include : string;
}.
Definition zero_ArgoDirectorySource : ArgoDirectorySource := {|
  ds_Recurse := false;
  ds_Exclude := "";
  ds_Include := ""
|}.
#[export] Instance ArgoDirectorySource_eq_dec : EqDecision ArgoDirectorySource.
Proof. solve_decision. Defined.

Record ArgoPluginEnv : Type := MkArgoPluginEnv {
  pe_Name : string;
  pe_Value : string;
}.
Definition zero_ArgoPluginEnv : ArgoPluginEnv := {|
  pe_Name := "";
  pe_Value := ""
|}.
#[export] Instance ArgoPluginEnv_eq_dec : EqDecision ArgoPluginEnv.
Proof. solve_decision. Defined.

Record ArgoPluginSource : Type := MkArgoPluginSource {
  pls_Name : string;
  pls_Env : list ArgoPluginEnv;
}.
Definition zero_ArgoPluginSource : ArgoPluginSource := {|
  pls_Name := "";
  pls_Env := []
|}.
#[export] Instance ArgoPluginSource_eq_dec : EqDecision ArgoPluginSource.
Proof. solve_decision. Defined.

Record ArgoSource : Type := MkArgoSource {
  as_RepoURL : string;
  as_Path : string;
  as_TargetRevision : string;
  as_Chart : string;
  as_Ref : string;
  as_Renderer : string;
  as_Helm : option ArgoHelmSource;
  as_Kustomize : option ArgoKustomizeSource;
  as_Directory : option ArgoDirectorySource;
  as_Plugin : option ArgoPluginSource;
}.
Definition zero_ArgoSource : ArgoSource := {|
  as_RepoURL := "";
  as_Path := "";
  as_TargetRevision := "";
  as_Chart := "";
  as_Ref := "";
  as_Renderer := "";
  as_Helm := None;
  as_Kustomize := None;
  as_Directory := None;
  as_Plugin := None
|}.

Record ArgoDestination : Type := MkArgoDestination {
  dest_Server : string;
  dest_Name : string;
  dest_Namespace : string;
}.
Definition zero_ArgoDestination : ArgoDestination := {|
  dest_Server := "";
  dest_Name := "";
  dest_Namespace := ""
|}.
#[export] Instance ArgoDestination_eq_dec : EqDecision ArgoDestination.
Proof. solve_decision. Defined.

Record ArgoAutomatedSync : Type := MkArgoAutomatedSync {
  au_Prune : bool;
  au_SelfHeal : bool;
}.
Definition zero_ArgoAutomatedSync : ArgoAutomatedSync := {|
  au_Prune := false;
  au_SelfHeal := false
|}.
#[export] Instance ArgoAutomatedSync_eq_dec : EqDecision ArgoAutomatedSync.
Proof. solve_decision. Defined.

Record ArgoSyncOptions : Type := MkArgoSyncOptions {
  so_Replace : bool;
  so_ServerSideApply : bool;
  so_Prune : bool;
  so_PruneLast : bool;
  so_CreateNamespace : bool;
  so_ApplyOutOfSyncOnly : bool;
  so_Validate : bool;
  so_FailOnSharedResource : bool;
  so_RespectIgnoreDifferences : bool;
}.
Definition zero_ArgoSyncOptions : ArgoSyncOptions := {|
  so_Replace := false;
  so_ServerSideApply := false;
  so_Prune := false;
  so_PruneLast := false;
  so_CreateNamespace := false;
  so_ApplyOutOfSyncOnly := false;
  so_Validate := false;
  so_FailOnSharedResource := false;
  so_RespectIgnoreDifferences := false
|}.
#[export] Instance ArgoSyncOptions_eq_dec : EqDecision ArgoSyncOptions.
Proof. solve_decision. Defined.

Record ArgoRetryPolicy : Type := MkArgoRetryPolicy {
  rp_Limit : Z;
  rp_BackoffDurationSec : Z;
  rp_BackoffMaxDurationSec : Z;
  rp_BackoffFactor : Z;
}.
Definition zero_ArgoRetryPolicy : ArgoRetryPolicy := {|
  rp_Limit := 0%Z;
  rp_BackoffDurationSec := 0%Z;
  rp_BackoffMaxDurationSec := 0%Z;
  rp_BackoffFactor := 0%Z
|}.
#[export] Instance ArgoRetryPolicy_eq_dec : EqDecision ArgoRetryPolicy.
Proof. solve_decision. Defined.

Record ArgoSyncPolicy : Type := MkArgoSyncPolicy {
  sp_Automated : option ArgoAutomatedSync;
  sp_SyncOptions : ArgoSyncOptions;
  sp_Retry : option ArgoRetryPolicy;
  sp_PreserveResourcesOnDeletion : bool;
}.
Definition zero_ArgoSyncPolicy : ArgoSyncPolicy := {|
  sp_Automated := None;
  sp_SyncOptions := zero_ArgoSyncOptions;
  sp_Retry := None;
  sp_PreserveResourcesOnDeletion := false
|}.
#[export] Instance ArgoSyncPolicy_eq_dec : EqDecision ArgoSyncPolicy.
Proof. solve_decision. Defined.

Record ArgoIgnoreDiff : Type := MkArgoIgnoreDiff {
  igd_Group : string;
  igd_Kind : string;
  igd_Name : string;
  igd_Namespace : string;
  igd_JSONPointers : list string;
  igd_JQPathExpressions : list string;
  igd_ManagedFieldsManagers : list string;
}.
Definition zero_ArgoIgnoreDiff : ArgoIgnoreDiff := {|
  igd_Group := "";
  igd_Kind := "";
  igd_Name := "";
  igd_Namespace := "";
  igd_JSONPointers := [];
  igd_JQPathExpressions := [];
  igd_ManagedFieldsManagers := []
|}.
#[export] Instance ArgoIgnoreDiff_eq_dec : EqDecision ArgoIgnoreDiff.
Proof. solve_decision. Defined.

Record ResourceRef : Type := MkResourceRef {
  rr_APIVersion : string;
  rr_Kind : string;
  rr_Name : string;
  rr_Namespace : string;
}.
Definition zero_ResourceRef : ResourceRef := {|
  rr_APIVersion := "";
  rr_Kind := "";
  rr_Name := "";
  rr_Namespace := ""
|}.
#[export] Instance ResourceRef_eq_dec : EqDecision ResourceRef.
Proof. solve_decision. Defined.

Record ArgoHook : Type := MkArgoHook {
  hk_Phase : string;
  hk_DeletePolicy : string;
  hk_Resource : ResourceRef;
  hk_Wave : Z;
}.
Definition zero_ArgoHook : ArgoHook := {|
  hk_Phase := "";
  hk_DeletePolicy := "";
  hk_Resource := zero_ResourceRef;
  hk_Wave := 0%Z
|}.
#[export] Instance ArgoHook_eq_dec : EqDecision ArgoHook.
Proof. solve_decision. Defined.

Record ArgoApplication : Type := MkArgoApplication {
  app_Name : string;
  app_Namespace : string;
  app_TrackingMode : string;
  app_SyncWaves : list SyncWaveEntry;
  app_Source : SourceLocation;
  app_Project : string;
  app_Sources : list ArgoSource;
  app_Destination : ArgoDestination;
  app_SyncPolicy : ArgoSyncPolicy;
  app_IgnoreDifferences : list ArgoIgnoreDiff;
  app_Hooks : list ArgoHook;
  app_Finalizers : list string;
  app_Annotations : gmap string string;
}.
Definition zero_ArgoApplication : ArgoApplication := {|
  app_Name := "";
  app_Namespace := "";
  app_TrackingMode := "";
  app_SyncWaves := [];
  app_Source := zero_SourceLocation;
  app_Project := "";
  app_Sources := [];
  app_Destination := zero_ArgoDestination;
  app_SyncPolicy := zero_ArgoSyncPolicy;
  app_IgnoreDifferences := [];
  app_Hooks := [];
  app_Finalizers := [];
  app_Annotations := ∅
|}.

Record ArgoProjectDestination : Type := MkArgoProjectDestination {
  pd_Server : string;
  pd_Name : string;
  pd_Namespace : string;
}.
Definition zero_ArgoProjectDestination : ArgoProjectDestination := {|
  pd_Server := "";
  pd_Name := "";
  pd_Namespace := ""
|}.
#[export] Instance ArgoProjectDestination_eq_dec : EqDecision ArgoProjectDestination.
Proof. solve_decision. Defined.

Record ArgoGroupKind : Type := MkArgoGroupKind {
  gk_Group : string;
  gk_Kind : string;
}.
Definition zero_ArgoGroupKind : ArgoGroupKind := {|
  gk_Group := "";
  gk_Kind := ""
|}.
#[export] Instance ArgoGroupKind_eq_dec : EqDecision ArgoGroupKind.
Proof. solve_decision. Defined.

Record ArgoSyncWindow : Type := MkArgoSyncWindow {
  sw_Kind : string;
  sw_Schedule : string;
  sw_Duration : string;
  sw_Applications : list string;
  sw_Namespaces : list string;
  sw_Clusters : list string;
}.
Definition zero_ArgoSyncWindow : ArgoSyncWindow := {|
  sw_Kind := "";
  sw_Schedule := "";
  sw_Duration := "";
  sw_Applications := [];
  sw_Namespaces := [];
  sw_Clusters := []
|}.
#[export] Instance ArgoSyncWindow_eq_dec : EqDecision ArgoSyncWindow.
Proof. solve_decision. Defined.

Record ArgoAppProject : Type := MkArgoAppProject {
  ap_Name : string;
  ap_Source : SourceLocation;
  ap_SourceRepos : list string;
  ap_Destinations : list ArgoProjectDestination;
  ap_ClusterResourceWhitelist : list ArgoGroupKind;
  ap_ClusterResourceWhitelistSet : bool;
  ap_ClusterResourceBlacklist : list ArgoGroupKind;
  ap_NamespaceResourceWhitelist : list ArgoGroupKind;
  ap_NamespaceResourceWhitelistSet : bool;
  ap_NamespaceResourceBlacklist : list ArgoGroupKind;
  ap_SyncWindows : list ArgoSyncWindow;
  ap_SignatureKeys : list string;
}.
Definition zero_ArgoAppProject : ArgoAppProject := {|
  ap_Name := "";
  ap_Source := zero_SourceLocation;
  ap_SourceRepos := [];
  ap_Destinations := [];
  ap_ClusterResourceWhitelist := [];
  ap_ClusterResourceWhitelistSet := false;
  ap_ClusterResourceBlacklist := [];
  ap_NamespaceResourceWhitelist := [];
  ap_NamespaceResourceWhitelistSet := false;
  ap_NamespaceResourceBlacklist := [];
  ap_SyncWindows := [];
  ap_SignatureKeys := []
|}.
#[export] Instance ArgoAppProject_eq_dec : EqDecision ArgoAppProject.
Proof. solve_decision. Defined.

Record ArgoAppSetGitDir : Type := MkArgoAppSetGitDir {
  gd_Path : string;
  gd_Exclude : bool;
}.
Definition zero_ArgoAppSetGitDir : ArgoAppSetGitDir := {|
  gd_Path := "";
  gd_Exclude := false
|}.
#[export] Instance ArgoAppSetGitDir_eq_dec : EqDecision ArgoAppSetGitDir.
Proof. solve_decision. Defined.

Record ArgoAppSetGitFile : Type := MkArgoAppSetGitFile {
  gf_Path : string;
}.
Definition zero_ArgoAppSetGitFile : ArgoAppSetGitFile := {|
  gf_Path := ""
|}.
#[export] Instance ArgoAppSetGitFile_eq_dec : EqDecision ArgoAppSetGitFile.
Proof. solve_decision. Defined.

Record ArgoAppSetGitGenerator : Type := MkArgoAppSetGitGenerator {
  gg_RepoURL : string;
  gg_Revision : string;
  gg_Directories : list ArgoAppSetGitDir;
  gg_Files : list ArgoAppSetGitFile;
}.
Definition zero_ArgoAppSetGitGenerator : ArgoAppSetGitGenerator := {|
  gg_RepoURL := "";
  gg_Revision := "";
  gg_Directories := [];
  gg_Files := []
|}.
#[export] Instance ArgoAppSetGitGenerator_eq_dec : EqDecision ArgoAppSetGitGenerator.
Proof. solve_decision. Defined.

Inductive ArgoAppSetGenerator : Type := MkArgoAppSetGenerator {
  gen_Kind : string;
  gen_ListElements : list (gmap string string);
  gen_ClusterSelector : gmap string string;
  gen_Git : option ArgoAppSetGitGenerator;
  gen_MatrixGenerators : list ArgoAppSetGenerator;
  gen_MergeGenerators : list ArgoAppSetGenerator;
  gen_MergeKeys : list string;
}.
Definition zero_ArgoAppSetGenerator : ArgoAppSetGenerator := {|
  gen_Kind := "";
  gen_ListElements := [];
  gen_ClusterSelector := ∅;
  gen_Git := None;
  gen_MatrixGenerators := [];
  gen_MergeGenerators := [];
  gen_MergeKeys := []
|}.

Record ArgoAppSetTemplate : Type := MkArgoAppSetTemplate {
  tm_Name : string;
  tm_Namespace : string;
  tm_Finalizers : list string;
  tm_Project : string;
  tm_Source : option ArgoSource;
  tm_Sources : list ArgoSource;
  tm_Destination : ArgoDestination;
  tm_SyncPolicy : ArgoSyncPolicy;
  tm_IgnoreDifferences : list ArgoIgnoreDiff;
}.
Definition zero_ArgoAppSetTemplate : ArgoAppSetTemplate := {|
  tm_Name := "";
  tm_Namespace := "";
  tm_Finalizers := [];
  tm_Project := "";
  tm_Source := None;
  tm_Sources := [];
  tm_Destination := zero_ArgoDestination;
  tm_SyncPolicy := zero_ArgoSyncPolicy;
  tm_IgnoreDifferences := []
|}.

Record ArgoAppSetSyncPolicy : Type := MkArgoAppSetSyncPolicy {
  asp_PreserveResourcesOnDeletion : bool;
}.
Definition zero_ArgoAppSetSyncPolicy : ArgoAppSetSyncPolicy := {|
  asp_PreserveResourcesOnDeletion := false
|}.
#[export] Instance ArgoAppSetSyncPolicy_eq_dec : EqDecision ArgoAppSetSyncPolicy.
Proof. solve_decision. Defined.

Record ArgoApplicationSet : Type := MkArgoApplicationSet {
  aset_Name : string;
  aset_Source : SourceLocation;
  aset_Generators : list ArgoAppSetGenerator;
  aset_Template : ArgoAppSetTemplate;
  aset_SyncPolicy : ArgoAppSetSyncPolicy;
}.
Definition zero_ArgoApplicationSet : ArgoApplicationSet := {|
  aset_Name := "";
  aset_Source := zero_SourceLocation;
  aset_Generators := [];
  aset_Template := zero_ArgoAppSetTemplate;
  aset_SyncPolicy := zero_ArgoAppSetSyncPolicy
|}.

Record SchemaInfo : Type := MkSchemaInfo {
  si_Digest : string;
  si_Schema : raw;
}.
Definition zero_SchemaInfo : SchemaInfo := {|
  si_Digest := "";
  si_Schema := None
|}.

Record MountRef : Type := MkMountRef {
  mr_OwnerKind : string;
  mr_OwnerName : string;
  mr_OwnerNamespace : string;
  mr_TargetKind : string;
  mr_TargetName : string;
  mr_TargetNamespace : string;
  mr_MountKind : string;
  mr_Optional : bool;
  mr_Source : SourceLocation;
}.
Definition zero_MountRef : MountRef := {|
  mr_OwnerKind := "";
  mr_OwnerName := "";
  mr_OwnerNamespace := "";
  mr_TargetKind := "";
  mr_TargetName := "";
  mr_TargetNamespace := "";
  mr_MountKind := "";
  mr_Optional := false;
  mr_Source := zero_SourceLocation
|}.
#[export] Instance MountRef_eq_dec : EqDecision MountRef.
Proof. solve_decision. Defined.

Record SARef : Type := MkSARef {
  sar_OwnerKind : string;
  sar_OwnerName : string;
  sar_OwnerNamespace : string;
  sar_SAName : string;
  sar_SANamespace : string;
  sar_Source : SourceLocation;
}.
Definition zero_SARef : SARef := {|
  sar_OwnerKind := "";
  sar_OwnerName := "";
  sar_OwnerNamespace := "";
  sar_SAName := "";
  sar_SANamespace := "";
  sar_Source := zero_SourceLocation
|}.
#[export] Instance SARef_eq_dec : EqDecision SARef.
Proof. solve_decision. Defined.

Record RBACBinding : Type := MkRBACBinding {
  rbb_BindingKind : string;
  rbb_BindingName : string;
  rbb_BindingNamespace : string;
  rbb_SubjectKind : string;
  rbb_SubjectName : string;
  rbb_SubjectNamespace : string;
  rbb_RoleKind : string;
  rbb_RoleName : string;
  rbb_RoleNamespace : string;
  rbb_Source : SourceLocation;
}.
Definition zero_RBACBinding : RBACBinding := {|
  rbb_BindingKind := "";
  rbb_BindingName := "";
  rbb_BindingNamespace := "";
  rbb_SubjectKind := "";
  rbb_SubjectName := "";
  rbb_SubjectNamespace := "";
  rbb_RoleKind := "";
  rbb_RoleName := "";
  rbb_RoleNamespace := "";
  rbb_Source := zero_SourceLocation
|}.
#[export] Instance RBACBinding_eq_dec : EqDecision RBACBinding.
Proof. solve_decision. Defined.

Record RBACRule : Type := MkRBACRule {
  rbr_OwnerKind : string;
  rbr_OwnerName : string;
  rbr_OwnerNamespace : string;
  rbr_APIGroups : list string;
  rbr_Resources : list string;
  rbr_Verbs : list string;
  rbr_ResourceNames : list string;
  rbr_Source : SourceLocation;
}.
Definition zero_RBACRule : RBACRule := {|
  rbr_OwnerKind := "";
  rbr_OwnerName := "";
  rbr_OwnerNamespace := "";
  rbr_APIGroups := [];
  rbr_Resources := [];
  rbr_Verbs := [];
  rbr_ResourceNames := [];
  rbr_Source := zero_SourceLocation
|}.
#[export] Instance RBACRule_eq_dec : EqDecision RBACRule.
Proof. solve_decision. Defined.

Record ImmutableField : Type := MkImmutableField {
  im_Group : string;
  im_Kind : string;
  im_FieldPath : string;
  im_Reason : string;
}.
Definition zero_ImmutableField : ImmutableField := {|
  im_Group := "";
  im_Kind := "";
  im_FieldPath := "";
  im_Reason := ""
|}.
#[export] Instance ImmutableField_eq_dec : EqDecision ImmutableField.
Proof. solve_decision. Defined.

Record ResourceFieldFact : Type := MkResourceFieldFact {
  rf_APIVersion : string;
  rf_Kind : string;
  rf_Namespace : string;
  rf_Name : string;
  rf_Path : string;
  rf_Violation : ViolationKind;
  rf_Message : string;
  rf_Source : SourceLocation;
}.
Definition zero_ResourceFieldFact : ResourceFieldFact := {|
  rf_APIVersion := "";
  rf_Kind := "";
  rf_Namespace := "";
  rf_Name := "";
  rf_Path := "";
  rf_Violation := ViolationUnknownField;
  rf_Message := "";
  rf_Source := zero_SourceLocation
|}.
#[export] Instance ResourceFieldFact_eq_dec : EqDecision ResourceFieldFact.
Proof. solve_decision. Defined.

Record ValuesIssue : Type := MkValuesIssue {
  vi_Path : string;
  vi_Message : string;
}.
Definition zero_ValuesIssue : ValuesIssue := {|
  vi_Path := "";
  vi_Message := ""
|}.
#[export] Instance ValuesIssue_eq_dec : EqDecision ValuesIssue.
Proof. solve_decision. Defined.

Record RenderResult : Type := MkRenderResult {
  rres_AppName : string;
  rres_ChartPath : string;
  rres_Success : bool;
  rres_Error : string;
  rres_ErrorKind : string;
  rres_ValuesIssues : list ValuesIssue;
  rres_Source : SourceLocation;
}.
Definition zero_RenderResult : RenderResult := {|
  rres_AppName := "";
  rres_ChartPath := "";
  rres_Success := false;
  rres_Error := "";
  rres_ErrorKind := "";
  rres_ValuesIssues := [];
  rres_Source := zero_SourceLocation
|}.
#[export] Instance RenderResult_eq_dec : EqDecision RenderResult.
Proof. solve_decision. Defined.

Record SelectorMapping : Type := MkSelectorMapping {
  sm_Group : string;
  sm_Kind : string;
  sm_SelectorPath : string;
  sm_ResolvedPath : string;
  sm_Reason : string;
}.
Definition zero_SelectorMapping : SelectorMapping := {|
  sm_Group := "";
  sm_Kind := "";
  sm_SelectorPath := "";
  sm_ResolvedPath := "";
  sm_Reason := ""
|}.
#[export] Instance SelectorMapping_eq_dec : EqDecision SelectorMapping.
Proof. solve_decision. Defined.

Record SelectorUsage : Type := MkSelectorUsage {
  su_ResourceGroup : string;
  su_ResourceKind : string;
  su_ResourceName : string;
  su_ResourceNamespace : string;
  su_SelectorPath : string;
  su_ResolvedPath : string;
  su_Source : SourceLocation;
}.
Definition zero_SelectorUsage : SelectorUsage := {|
  su_ResourceGroup := "";
  su_ResourceKind := "";
  su_ResourceName := "";
  su_ResourceNamespace := "";
  su_SelectorPath := "";
  su_ResolvedPath := "";
  su_Source := zero_SourceLocation
|}.
#[export] Instance SelectorUsage_eq_dec : EqDecision SelectorUsage.
Proof. solve_decision. Defined.

Record LateInitMapping : Type := MkLateInitMapping {
  lm_Group : string;
  lm_Kind : string;
  lm_FieldPath : string;
  lm_FixPattern : string;
  lm_Reason : string;
}.
Definition zero_LateInitMapping : LateInitMapping := {|
  lm_Group := "";
  lm_Kind := "";
  lm_FieldPath := "";
  lm_FixPattern := "";
  lm_Reason := ""
|}.
#[export] Instance LateInitMapping_eq_dec : EqDecision LateInitMapping.
Proof. solve_decision. Defined.

Record LateInitUsage : Type := MkLateInitUsage {
  lu_ResourceGroup : string;
  lu_ResourceKind : string;
  lu_ResourceName : string;
  lu_ResourceNamespace : string;
  lu_FieldPath : string;
  lu_Source : SourceLocation;
}.
Definition zero_LateInitUsage : LateInitUsage := {|
  lu_ResourceGroup := "";
  lu_ResourceKind := "";
  lu_ResourceName := "";
  lu_ResourceNamespace := "";
  lu_FieldPath := "";
  lu_Source := zero_SourceLocation
|}.
#[export] Instance LateInitUsage_eq_dec : EqDecision LateInitUsage.
Proof. solve_decision. Defined.

Record CanonicalFormMapping : Type := MkCanonicalFormMapping {
  cm_Group : string;
  cm_Kind : string;
  cm_FieldPath : string;
  cm_Detector : string;
  cm_Canonical : string;
  cm_Reason : string;
}.
Definition zero_CanonicalFormMapping : CanonicalFormMapping := {|
  cm_Group := "";
  cm_Kind := "";
  cm_FieldPath := "";
  cm_Detector := "";
  cm_Canonical := "";
  cm_Reason := ""
|}.
#[export] Instance CanonicalFormMapping_eq_dec : EqDecision CanonicalFormMapping.
Proof. solve_decision. Defined.

Record CanonicalFormUsage : Type := MkCanonicalFormUsage {
  cu_ResourceGroup : string;
  cu_ResourceKind : string;
  cu_ResourceName : string;
  cu_ResourceNamespace : string;
  cu_FieldPath : string;
  cu_Value : string;
  cu_Canonical : string;
  cu_Reason : string;
  cu_NonCanonical : bool;
  cu_UpdateDisabled : bool;
  cu_Bypass : bool;
  cu_Source : SourceLocation;
}.
Definition zero_CanonicalFormUsage : CanonicalFormUsage := {|
  cu_ResourceGroup := "";
  cu_ResourceKind := "";
  cu_ResourceName := "";
  cu_ResourceNamespace := "";
  cu_FieldPath := "";
  cu_Value := "";
  cu_Canonical := "";
  cu_Reason := "";
  cu_NonCanonical := false;
  cu_UpdateDisabled := false;
  cu_Bypass := false;
  cu_Source := zero_SourceLocation
|}.
#[export] Instance CanonicalFormUsage_eq_dec : EqDecision CanonicalFormUsage.
Proof. solve_decision. Defined.

Record CanonicalFormTemplateFinding : Type := MkCanonicalFormTemplateFinding {
  ctf_Composition : string;
  ctf_Group : string;
  ctf_Kind : string;
  ctf_Field : string;
  ctf_RHS : string;
  ctf_Canonical : string;
  ctf_Reason : string;
  ctf_Source : SourceLocation;
}.
Definition zero_CanonicalFormTemplateFinding : CanonicalFormTemplateFinding := {|
  ctf_Composition := "";
  ctf_Group := "";
  ctf_Kind := "";
  ctf_Field := "";
  ctf_RHS := "";
  ctf_Canonical := "";
  ctf_Reason := "";
  ctf_Source := zero_SourceLocation
|}.
#[export] Instance CanonicalFormTemplateFinding_eq_dec : EqDecision CanonicalFormTemplateFinding.
Proof. solve_decision. Defined.

Record DuplicateEnvFinding : Type := MkDuplicateEnvFinding {
  def_Composition : string;
  def_EnvName : string;
  def_Count : Z;
  def_Source : SourceLocation;
}.
Definition zero_DuplicateEnvFinding : DuplicateEnvFinding := {|
  def_Composition := "";
  def_EnvName := "";
  def_Count := 0%Z;
  def_Source := zero_SourceLocation
|}.
#[export] Instance DuplicateEnvFinding_eq_dec : EqDecision DuplicateEnvFinding.
Proof. solve_decision. Defined.

Record ComputedBlockAliasMapping : Type := MkComputedBlockAliasMapping {
  cbm_Group : string;
  cbm_Kind : string;
  cbm_ActionType : string;
  cbm_AliasFieldPattern : string;
  cbm_CanonicalBlockKey : string;
  cbm_Reason : string;
}.
Definition zero_ComputedBlockAliasMapping : ComputedBlockAliasMapping := {|
  cbm_Group := "";
  cbm_Kind := "";
  cbm_ActionType := "";
  cbm_AliasFieldPattern := "";
  cbm_CanonicalBlockKey := "";
  cbm_Reason := ""
|}.
#[export] Instance ComputedBlockAliasMapping_eq_dec : EqDecision ComputedBlockAliasMapping.
Proof. solve_decision. Defined.

Record ComputedBlockAliasFinding : Type := MkComputedBlockAliasFinding {
  cbf_Composition : string;
  cbf_Group : string;
  cbf_Kind : string;
  cbf_ActionType : string;
  cbf_AliasField : string;
  cbf_CanonicalBlock : string;
  cbf_Reason : string;
  cbf_Source : SourceLocation;
}.
Definition zero_ComputedBlockAliasFinding : ComputedBlockAliasFinding := {|
  cbf_Composition := "";
  cbf_Group := "";
  cbf_Kind := "";
  cbf_ActionType := "";
  cbf_AliasField := "";
  cbf_CanonicalBlock := "";
  cbf_Reason := "";
  cbf_Source := zero_SourceLocation
|}.
#[export] Instance ComputedBlockAliasFinding_eq_dec : EqDecision ComputedBlockAliasFinding.
Proof. solve_decision. Defined.

Record ExternalNameAdoptMapping : Type := MkExternalNameAdoptMapping {
  enm_Group : string;
  enm_Kind : string;
  enm_Reason : string;
}.
Definition zero_ExternalNameAdoptMapping : ExternalNameAdoptMapping := {|
  enm_Group := "";
  enm_Kind := "";
  enm_Reason := ""
|}.
#[export] Instance ExternalNameAdoptMapping_eq_dec : EqDecision ExternalNameAdoptMapping.
Proof. solve_decision. Defined.

Record ExternalNameAdoptFinding : Type := MkExternalNameAdoptFinding {
  enf_Group : string;
  enf_Kind : string;
  enf_Name : string;
  enf_Namespace : string;
  enf_Reason : string;
  enf_Source : SourceLocation;
}.
Definition zero_ExternalNameAdoptFinding : ExternalNameAdoptFinding := {|
  enf_Group := "";
  enf_Kind := "";
  enf_Name := "";
  enf_Namespace := "";
  enf_Reason := "";
  enf_Source := zero_SourceLocation
|}.
#[export] Instance ExternalNameAdoptFinding_eq_dec : EqDecision ExternalNameAdoptFinding.
Proof. solve_decision. Defined.

Record OrphanSGRefMapping : Type := MkOrphanSGRefMapping {
  osm_Group : string;
  osm_Kind : string;
  osm_RefGroup : string;
  osm_RefKind : string;
  osm_AttachFieldPattern : string;
  osm_RefFieldPattern : string;
  osm_Reason : string;
}.
Definition zero_OrphanSGRefMapping : OrphanSGRefMapping := {|
  osm_Group := "";
  osm_Kind := "";
  osm_RefGroup := "";
  osm_RefKind := "";
  osm_AttachFieldPattern := "";
  osm_RefFieldPattern := "";
  osm_Reason := ""
|}.
#[export] Instance OrphanSGRefMapping_eq_dec : EqDecision OrphanSGRefMapping.
Proof. solve_decision. Defined.

Record OrphanSGRefFinding : Type := MkOrphanSGRefFinding {
  osf_Composition : string;
  osf_Group : string;
  osf_Kind : string;
  osf_RuleName : string;
  osf_AttachField : string;
  osf_RefField : string;
  osf_Reason : string;
  osf_Source : SourceLocation;
}.
Definition zero_OrphanSGRefFinding : OrphanSGRefFinding := {|
  osf_Composition := "";
  osf_Group := "";
  osf_Kind := "";
  osf_RuleName := "";
  osf_AttachField := "";
  osf_RefField := "";
  osf_Reason := "";
  osf_Source := zero_SourceLocation
|}.
#[export] Instance OrphanSGRefFinding_eq_dec : EqDecision OrphanSGRefFinding.
Proof. solve_decision. Defined.

Record FixedPointUsage : Type := MkFixedPointUsage {
  fp_ResourceGroup : string;
  fp_ResourceKind : string;
  fp_ResourceName : string;
  fp_ResourceNamespace : string;
  fp_FieldPath : string;
  fp_Desired : string;
  fp_Observed : string;
  fp_Registered : bool;
  fp_UpdateDisabled : bool;
  fp_Source : SourceLocation;
}.
Definition zero_FixedPointUsage : FixedPointUsage := {|
  fp_ResourceGroup := "";
  fp_ResourceKind := "";
  fp_ResourceName := "";
  fp_ResourceNamespace := "";
  fp_FieldPath := "";
  fp_Desired := "";
  fp_Observed := "";
  fp_Registered := false;
  fp_UpdateDisabled := false;
  fp_Source := zero_SourceLocation
|}.
#[export] Instance FixedPointUsage_eq_dec : EqDecision FixedPointUsage.
Proof. solve_decision. Defined.

Record SSAMPConflict : Type := MkSSAMPConflict {
  ssa_AppName : string;
  ssa_ServerSideApply : bool;
  ssa_ManagementPolicies : list string;
  ssa_ResourceGroup : string;
  ssa_ResourceKind : string;
  ssa_ResourceName : string;
  ssa_ResourceNamespace : string;
  ssa_Source : SourceLocation;
}.
Definition zero_SSAMPConflict : SSAMPConflict := {|
  ssa_AppName := "";
  ssa_ServerSideApply := false;
  ssa_ManagementPolicies := [];
  ssa_ResourceGroup := "";
  ssa_ResourceKind := "";
  ssa_ResourceName := "";
  ssa_ResourceNamespace := "";
  ssa_Source := zero_SourceLocation
|}.
#[export] Instance SSAMPConflict_eq_dec : EqDecision SSAMPConflict.
Proof. solve_decision. Defined.

Record IgnoreDiffEntry : Type := MkIgnoreDiffEntry {
  ide_AppName : string;
  ide_Group : string;
  ide_Kind : string;
  ide_JSONPointer : string;
  ide_JQPath : string;
  ide_ManagedFieldsManagers : list string;
}.
Definition zero_IgnoreDiffEntry : IgnoreDiffEntry := {|
  ide_AppName := "";
  ide_Group := "";
  ide_Kind := "";
  ide_JSONPointer := "";
  ide_JQPath := "";
  ide_ManagedFieldsManagers := []
|}.
#[export] Instance IgnoreDiffEntry_eq_dec : EqDecision IgnoreDiffEntry.
Proof. solve_decision. Defined.

Record DeterminismResult : Type := MkDeterminismResult {
  dr_AppName : string;
  dr_RendererKind : string;
  dr_Mismatch : bool;
  dr_DiffSummary : string;
  dr_Source : SourceLocation;
}.
Definition zero_DeterminismResult : DeterminismResult := {|
  dr_AppName := "";
  dr_RendererKind := "";
  dr_Mismatch := false;
  dr_DiffSummary := "";
  dr_Source := zero_SourceLocation
|}.
#[export] Instance DeterminismResult_eq_dec : EqDecision DeterminismResult.
Proof. solve_decision. Defined.

Record CPDeletionPolicyFact : Type := MkCPDeletionPolicyFact {
  cp_Group : string;
  cp_Kind : string;
  cp_Name : string;
  cp_Namespace : string;
  cp_DeletionPolicy : string;
  cp_Bypass : bool;
  cp_Source : SourceLocation;
}.
Definition zero_CPDeletionPolicyFact : CPDeletionPolicyFact := {|
  cp_Group := "";
  cp_Kind := "";
  cp_Name := "";
  cp_Namespace := "";
  cp_DeletionPolicy := "";
  cp_Bypass := false;
  cp_Source := zero_SourceLocation
|}.
#[export] Instance CPDeletionPolicyFact_eq_dec : EqDecision CPDeletionPolicyFact.
Proof. solve_decision. Defined.

Record BypassKeySet : Type := MkBypassKeySet {
  bks_AllowDelete : option (list string);
  bks_AllowImmutableChange : option (list string);
}.
Definition zero_BypassKeySet : BypassKeySet := {|
  bks_AllowDelete := None;
  bks_AllowImmutableChange := None
|}.
#[export] Instance BypassKeySet_eq_dec : EqDecision BypassKeySet.
Proof. solve_decision. Defined.

Record World : Type := MkWorld {
  w_CRDs : list CRDInfo;
  w_XRDs : list CRDInfo;
  w_Compositions : list CompositionInfo;
  w_Functions : list FunctionInfo;
  w_Providers : list ProviderInfo;
  w_Configurations : list ConfigurationInfo;
  w_Resources : list ResourceInfo;
  w_ArgoApps : list ArgoApplication;
  w_ArgoProjects : list ArgoAppProject;
  w_ArgoAppSets : list ArgoApplicationSet;
  w_Schemas : gmap string SchemaInfo;
  w_MountRefs : list MountRef;
  w_SARefs : list SARef;
  w_RBACBindings : list RBACBinding;
  w_RBACRules : list RBACRule;
  w_ImmutableFields : option (list ImmutableField);
  w_SelectorMappings : list SelectorMapping;
  w_SelectorUsages : list SelectorUsage;
  w_LateInitMappings : list LateInitMapping;
  w_LateInitUsages : list LateInitUsage;
  w_CanonicalFormMappings : list CanonicalFormMapping;
  w_CanonicalFormUsages : list CanonicalFormUsage;
  w_CanonicalFormTemplateFindings : list CanonicalFormTemplateFinding;
  w_DuplicateEnvFindings : list DuplicateEnvFinding;
  w_ComputedBlockAliasFindings : list ComputedBlockAliasFinding;
  w_ExternalNameAdoptFindings : list ExternalNameAdoptFinding;
  w_OrphanSGRefFindings : list OrphanSGRefFinding;
  w_FixedPointUsages : list FixedPointUsage;
  w_ResourceFieldFacts : list ResourceFieldFact;
  w_RenderResults : list RenderResult;
  w_DeterminismResults : list DeterminismResult;
  w_SSAMPConflicts : list SSAMPConflict;
  w_SSAMPMode : string;
  w_CPDeletionPolicyFacts : list CPDeletionPolicyFact;
  w_StateBearingKinds : option (list ArgoGroupKind);
  w_ESOAllowedStoreNames : list string;
  w_EnvLabelKey : string;
  w_EnvLabelClaimKinds : list string;
  w_EnvLabelAllowedValues : list string;
  w_AllowedProviderConfigs : list string;
  w_ProdPatterns : option (list string);
  w_NameCarveouts : option (gmap string (list string));
  w_BypassKeys : BypassKeySet;
  w_SchemaIndex : option (gmap (string * string) raw);
  w_IgnoreDiffEntries : option (list IgnoreDiffEntry);
}.
Definition zero_World : World := {|
  w_CRDs := [];
  w_XRDs := [];
  w_Compositions := [];
  w_Functions := [];
  w_Providers := [];
  w_Configurations := [];
  w_Resources := [];
  w_ArgoApps := [];
  w_ArgoProjects := [];
  w_ArgoAppSets := [];
  w_Schemas := ∅;
  w_MountRefs := [];
  w_SARefs := [];
  w_RBACBindings := [];
  w_RBACRules := [];
  w_ImmutableFields := None;
  w_SelectorMappings := [];
  w_SelectorUsages := [];
  w_LateInitMappings := [];
  w_LateInitUsages := [];
  w_CanonicalFormMappings := [];
  w_CanonicalFormUsages := [];
  w_CanonicalFormTemplateFindings := [];
  w_DuplicateEnvFindings := [];
  w_ComputedBlockAliasFindings := [];
  w_ExternalNameAdoptFindings := [];
  w_OrphanSGRefFindings := [];
  w_FixedPointUsages := [];
  w_ResourceFieldFacts := [];
  w_RenderResults := [];
  w_DeterminismResults := [];
  w_SSAMPConflicts := [];
  w_SSAMPMode := "";
  w_CPDeletionPolicyFacts := [];
  w_StateBearingKinds := None;
  w_ESOAllowedStoreNames := [];
  w_EnvLabelKey := "";
  w_EnvLabelClaimKinds := [];
  w_EnvLabelAllowedValues := [];
  w_AllowedProviderConfigs := [];
  w_ProdPatterns := None;
  w_NameCarveouts := None;
  w_BypassKeys := zero_BypassKeySet;
  w_SchemaIndex := None;
  w_IgnoreDiffEntries := None
|}.

Record ObligationRef : Type := MkObligationRef {
  ob_ID : string;
  ob_Category : string;
  ob_Generator : string;
}.
Definition zero_ObligationRef : ObligationRef := {|
  ob_ID := "";
  ob_Category := "";
  ob_Generator := ""
|}.
#[export] Instance ObligationRef_eq_dec : EqDecision ObligationRef.
Proof. solve_decision. Defined.

Record Diagnostic : Type := MkDiagnostic {
  dg_Code : string;
  dg_Severity : Severity;
  dg_Message : string;
  dg_Source : SourceLocation;
  dg_Detail : string;
  dg_Fix : string;
  dg_Related : list SourceLocation;
  dg_Obligation : option ObligationRef;
}.
Definition zero_Diagnostic : Diagnostic := {|
  dg_Code := "";
  dg_Severity := SeverityError;
  dg_Message := "";
  dg_Source := zero_SourceLocation;
  dg_Detail := "";
  dg_Fix := "";
  dg_Related := [];
  dg_Obligation := None
|}.
#[export] Instance Diagnostic_eq_dec : EqDecision Diagnostic.
Proof. solve_decision. Defined.

(** ** Operations of types.go *)

(** CRDInfo.StorageVersion and CRDInfo.ServesVersion. *)
Definition StorageVersion (c : CRDInfo) : string :=
  match find_first cv_Storage (crd_Versions c) with
  | Some v => cv_Name v
  | None => ""
  end.
Definition ServesVersion (c : CRDInfo) (version : string) : bool :=
  existsb (λ v, String.eqb (cv_Name v) version && cv_Served v) (crd_Versions c).

(** The logical bypasses; [keysFor] selects their keys (a nil slice ranges as
    the empty one). *)
Inductive BypassSlot : Type := BypassAllowDelete | BypassAllowImmutableChange.

Definition keysFor (s : BypassKeySet) (slot : BypassSlot) : list string :=
  match slot with
  | BypassAllowDelete => default [] (bks_AllowDelete s)
  | BypassAllowImmutableChange => default [] (bks_AllowImmutableChange s)
  end.
Definition Has (s : BypassKeySet) (annotations : gmap string string) (slot : BypassSlot) : bool :=
  existsb (λ k, String.eqb (default "" (annotations !! k)) "true") (keysFor s slot).
Definition HasRaw (s : BypassKeySet) (annotations : obj) (slot : BypassSlot) : bool :=
  existsb (λ k, match lookup_key annotations k with
                | Some (VStr v) => String.eqb v "true"
                | _ => false
                end) (keysFor s slot).

Definition NewWorld : World := zero_World.

Lemma Has_spec s ann slot :
  Has s ann slot = true ↔ ∃ k, k ∈ keysFor s slot ∧ ann !! k = Some "true".
Proof.
  unfold Has. rewrite existsb_elem_of. f_equiv. intros k. f_equiv.
  destruct (ann !! k) as [v|]; simpl; rewrite ?String.eqb_eq; split; congruence.
Qed.
Lemma HasRaw_spec s ann slot :
  HasRaw s ann slot = true ↔ ∃ k, k ∈ keysFor s slot ∧ lookup_key ann k = Some (VStr "true").
Proof.
  unfold HasRaw. rewrite existsb_elem_of. f_equiv. intros k. f_equiv.
  destruct (lookup_key ann k) as [[]|]; rewrite ?String.eqb_eq; split; congruence.
Qed.

(** The zero value is the default element. *)
#[export] Instance World_inhabited : Inhabited World := populate zero_World.
