(* ===== verification/Registries.v ===== *)
(** The static registries of src/pkg/ir/*_registry.go: the (group, kind, field)
    tables the trajectory extraction, the plan rules and the configuration
    overlay consult.  One definition per Go function, one row per entry. *)
From S2P Require Import Prelude GoStrings Types.

#[local] Open Scope string_scope.

(** The double quote. *)
#[local] Notation dq := (String (byte 34) "").

(** ImmutableFieldRegistry. *)
Definition ImmutableFieldRegistry : list ImmutableField := [
  {| im_Group := ""; im_Kind := "Service"; im_FieldPath := "spec.clusterIP"; im_Reason := "Service ClusterIP is immutable after create; changing it requires recreate" |};
  {| im_Group := ""; im_Kind := "Service"; im_FieldPath := "spec.type"; im_Reason := "Service type changes from/to ExternalName are not allowed in-place" |};
  {| im_Group := ""; im_Kind := "PersistentVolumeClaim"; im_FieldPath := "spec.storageClassName"; im_Reason := "PVC StorageClassName is immutable after create" |};
  {| im_Group := ""; im_Kind := "PersistentVolumeClaim"; im_FieldPath := "spec.accessModes"; im_Reason := "PVC AccessModes are immutable after create" |};
  {| im_Group := "batch"; im_Kind := "Job"; im_FieldPath := "spec.selector"; im_Reason := "Job Selector is immutable after create" |};
  {| im_Group := "batch"; im_Kind := "Job"; im_FieldPath := "spec.template"; im_Reason := "Job Template is immutable after create" |};
  {| im_Group := "apps"; im_Kind := "StatefulSet"; im_FieldPath := "spec.serviceName"; im_Reason := "StatefulSet ServiceName is immutable after create" |};
  {| im_Group := "apps"; im_Kind := "StatefulSet"; im_FieldPath := "spec.volumeClaimTemplates"; im_Reason := "StatefulSet VolumeClaimTemplates are immutable after create" |};
  {| im_Group := "rds.aws.upbound.io"; im_Kind := "Cluster"; im_FieldPath := "spec.forProvider.engine"; im_Reason := "RDS Cluster engine is immutable after create; changing it requires DeleteCluster + CreateCluster (data loss)" |};
  {| im_Group := "rds.aws.upbound.io"; im_Kind := "Cluster"; im_FieldPath := "spec.forProvider.engineMode"; im_Reason := "RDS Cluster engineMode (provisioned/serverless) is immutable after create" |};
  {| im_Group := "rds.aws.upbound.io"; im_Kind := "Cluster"; im_FieldPath := "spec.forProvider.dbClusterIdentifier"; im_Reason := "RDS Cluster dbClusterIdentifier is the external name; changing it detaches the CR from the live cluster" |};
  {| im_Group := "rds.aws.upbound.io"; im_Kind := "Cluster"; im_FieldPath := "spec.forProvider.masterUsername"; im_Reason := "RDS Cluster masterUsername is immutable after create" |};
  {| im_Group := "rds.aws.upbound.io"; im_Kind := "Cluster"; im_FieldPath := "spec.forProvider.storageEncrypted"; im_Reason := "RDS Cluster storageEncrypted is immutable after create; toggling requires full recreate" |};
  {| im_Group := "rds.aws.upbound.io"; im_Kind := "Cluster"; im_FieldPath := "spec.forProvider.kmsKeyId"; im_Reason := "RDS Cluster kmsKeyId is immutable after create; re-keying requires snapshot + restore" |};
  {| im_Group := "rds.aws.upbound.io"; im_Kind := "ClusterInstance"; im_FieldPath := "spec.forProvider.clusterIdentifier"; im_Reason := "RDS ClusterInstance clusterIdentifier pins the instance to its cluster; changing it is a destructive re-parent" |};
  {| im_Group := "rds.aws.upbound.io"; im_Kind := "ClusterInstance"; im_FieldPath := "spec.forProvider.engine"; im_Reason := "RDS ClusterInstance engine must match its Cluster; changing it requires recreate" |};
  {| im_Group := "docdb.aws.upbound.io"; im_Kind := "Cluster"; im_FieldPath := "spec.forProvider.engine"; im_Reason := "DocDB Cluster engine is immutable after create; changing it requires DeleteCluster + CreateCluster (data loss)" |};
  {| im_Group := "docdb.aws.upbound.io"; im_Kind := "Cluster"; im_FieldPath := "spec.forProvider.engineMode"; im_Reason := "DocDB Cluster engineMode is immutable after create" |};
  {| im_Group := "docdb.aws.upbound.io"; im_Kind := "Cluster"; im_FieldPath := "spec.forProvider.dbClusterIdentifier"; im_Reason := "DocDB Cluster dbClusterIdentifier is the external name; changing it detaches the CR from the live cluster" |};
  {| im_Group := "docdb.aws.upbound.io"; im_Kind := "Cluster"; im_FieldPath := "spec.forProvider.masterUsername"; im_Reason := "DocDB Cluster masterUsername is immutable after create" |};
  {| im_Group := "docdb.aws.upbound.io"; im_Kind := "Cluster"; im_FieldPath := "spec.forProvider.storageEncrypted"; im_Reason := "DocDB Cluster storageEncrypted is immutable after create; toggling requires full recreate" |};
  {| im_Group := "docdb.aws.upbound.io"; im_Kind := "Cluster"; im_FieldPath := "spec.forProvider.kmsKeyId"; im_Reason := "DocDB Cluster kmsKeyId is immutable after create" |};
  {| im_Group := "docdb.aws.upbound.io"; im_Kind := "ClusterInstance"; im_FieldPath := "spec.forProvider.clusterIdentifier"; im_Reason := "DocDB ClusterInstance clusterIdentifier pins the instance to its cluster; changing it is a destructive re-parent" |};
  {| im_Group := "docdb.aws.upbound.io"; im_Kind := "ClusterInstance"; im_FieldPath := "spec.forProvider.engine"; im_Reason := "DocDB ClusterInstance engine must match its Cluster; changing it requires recreate" |};
  {| im_Group := "s3.aws.upbound.io"; im_Kind := "Bucket"; im_FieldPath := "spec.forProvider.bucket"; im_Reason := "S3 Bucket name is globally unique and immutable after create; changing it means DeleteBucket + CreateBucket" |};
  {| im_Group := "s3.aws.upbound.io"; im_Kind := "Bucket"; im_FieldPath := "spec.forProvider.region"; im_Reason := "S3 Bucket region is immutable after create; a region change is a destructive rehost" |};
  {| im_Group := "s3.aws.upbound.io"; im_Kind := "Bucket"; im_FieldPath := "spec.forProvider.objectLockEnabled"; im_Reason := "S3 Bucket objectLockEnabled can only be set at create time; flipping it requires bucket recreate" |};
  {| im_Group := "kms.aws.upbound.io"; im_Kind := "Key"; im_FieldPath := "spec.forProvider.keyUsage"; im_Reason := "KMS Key keyUsage (ENCRYPT_DECRYPT vs SIGN_VERIFY) is immutable after create" |};
  {| im_Group := "kms.aws.upbound.io"; im_Kind := "Key"; im_FieldPath := "spec.forProvider.customerMasterKeySpec"; im_Reason := "KMS Key customerMasterKeySpec is immutable after create; re-speccing requires a new key" |};
  {| im_Group := "ec2.aws.upbound.io"; im_Kind := "VPC"; im_FieldPath := "spec.forProvider.cidrBlock"; im_Reason := "VPC cidrBlock is the network identity and is immutable after create" |};
  {| im_Group := "ec2.aws.upbound.io"; im_Kind := "VPC"; im_FieldPath := "spec.forProvider.instanceTenancy"; im_Reason := "VPC instanceTenancy is immutable after create (default vs dedicated)" |};
  {| im_Group := "mysql.sql.crossplane.io"; im_Kind := "Database"; im_FieldPath := "spec.forProvider.name"; im_Reason := "mysql Database name is the external identity; changing it drops the database and creates a fresh empty one" |}
].

(** StateBearingKindsRegistry. *)
Definition StateBearingKindsRegistry : list ArgoGroupKind := [
  {| gk_Group := "rds.aws.upbound.io"; gk_Kind := "Cluster" |};
  {| gk_Group := "rds.aws.upbound.io"; gk_Kind := "ClusterInstance" |};
  {| gk_Group := "docdb.aws.upbound.io"; gk_Kind := "Cluster" |};
  {| gk_Group := "docdb.aws.upbound.io"; gk_Kind := "ClusterInstance" |};
  {| gk_Group := "mysql.sql.crossplane.io"; gk_Kind := "Database" |};
  {| gk_Group := "mysql.sql.crossplane.io"; gk_Kind := "User" |};
  {| gk_Group := "mysql.sql.crossplane.io"; gk_Kind := "Grant" |};
  {| gk_Group := "kms.aws.upbound.io"; gk_Kind := "Key" |};
  {| gk_Group := "s3.aws.upbound.io"; gk_Kind := "Bucket" |};
  {| gk_Group := "ec2.aws.upbound.io"; gk_Kind := "VPC" |}
].

(** SelectorRegistry. *)
Definition SelectorRegistry : list SelectorMapping := [
  {| sm_Group := "autoscaling.aws.upbound.io"; sm_Kind := "AutoscalingGroup"; sm_SelectorPath := "spec.forProvider.vpcZoneIdentifierSelector"; sm_ResolvedPath := "spec.forProvider.vpcZoneIdentifier"; sm_Reason := "Crossplane resolves selector to subnet-ID list; Argo sees it as 'added' and fights forever. commit 3ea4b28d0 (!1344)" |};
  {| sm_Group := "autoscaling.aws.upbound.io"; sm_Kind := "AutoscalingGroup"; sm_SelectorPath := "spec.forProvider.vpcZoneIdentifierSelector"; sm_ResolvedPath := "spec.forProvider.vpcZoneIdentifierRefs"; sm_Reason := "Sibling Refs array also populated by Crossplane; same drift as the primitive. commit 037988f54 (!1250)" |};
  {| sm_Group := "autoscaling.aws.upbound.io"; sm_Kind := "AutoscalingGroup"; sm_SelectorPath := "spec.forProvider.launchTemplate[].idSelector"; sm_ResolvedPath := "spec.forProvider.launchTemplate[].id"; sm_Reason := "Selector resolves to LaunchTemplate ID; Argo fights the resolved literal. commit 7aa6deb4e (!1341)" |};
  {| sm_Group := "autoscaling.aws.upbound.io"; sm_Kind := "AutoscalingGroup"; sm_SelectorPath := "spec.forProvider.launchTemplate[].idSelector"; sm_ResolvedPath := "spec.forProvider.launchTemplate[].idRef"; sm_Reason := "Sibling Ref field populated alongside the ID; drift observed. commit 7ac5a5f14 (!883)" |};
  {| sm_Group := "autoscaling.aws.upbound.io"; sm_Kind := "AutoscalingGroup"; sm_SelectorPath := "spec.forProvider.launchTemplate[].idSelector"; sm_ResolvedPath := "spec.forProvider.launchTemplate[].name"; sm_Reason := "Upbound sometimes late-inits the name field when ID is selector-resolved. commit 7887c0510" |};
  {| sm_Group := "autoscaling.aws.upbound.io"; sm_Kind := "Attachment"; sm_SelectorPath := "spec.forProvider.autoscalingGroupNameSelector"; sm_ResolvedPath := "spec.forProvider.autoscalingGroupName"; sm_Reason := "Selector resolves to ASG name; Argo drift on attachment. CRD-doc (egress-proxy-prod.yaml)" |};
  {| sm_Group := "autoscaling.aws.upbound.io"; sm_Kind := "Attachment"; sm_SelectorPath := "spec.forProvider.lbTargetGroupArnSelector"; sm_ResolvedPath := "spec.forProvider.lbTargetGroupArn"; sm_Reason := "Selector resolves to target-group ARN on ASG→LB attachment. CRD-doc (egress-proxy-prod.yaml)" |};
  {| sm_Group := "ec2.aws.upbound.io"; sm_Kind := "LaunchTemplate"; sm_SelectorPath := "spec.forProvider.networkInterfaces[].subnetIdSelector"; sm_ResolvedPath := "spec.forProvider.networkInterfaces[].subnetId"; sm_Reason := "Late-init resolves subnet selector into concrete ID on network interface. commit 36ca77765 (!890)" |};
  {| sm_Group := "ec2.aws.upbound.io"; sm_Kind := "LaunchTemplate"; sm_SelectorPath := "spec.forProvider.networkInterfaces[].subnetIdSelector"; sm_ResolvedPath := "spec.forProvider.networkInterfaces[].subnetIdRef"; sm_Reason := "Ref sibling populated by same resolution. commit 36ca77765 (!890)" |};
  {| sm_Group := "ec2.aws.upbound.io"; sm_Kind := "LaunchTemplate"; sm_SelectorPath := "spec.forProvider.networkInterfaces[].securityGroupSelector"; sm_ResolvedPath := "spec.forProvider.networkInterfaces[].securityGroups"; sm_Reason := "Resolves selector to securityGroups (real field, not 'groups'). commit 36ca77765 / bf4d9244e (!890)" |};
  {| sm_Group := "ec2.aws.upbound.io"; sm_Kind := "LaunchTemplate"; sm_SelectorPath := "spec.forProvider.networkInterfaces[].securityGroupSelector"; sm_ResolvedPath := "spec.forProvider.networkInterfaces[].securityGroupRefs"; sm_Reason := "Sibling Refs array populated. commit 36ca77765 (!890)" |};
  {| sm_Group := "ec2.aws.upbound.io"; sm_Kind := "LaunchTemplate"; sm_SelectorPath := "spec.forProvider.iamInstanceProfile[].nameSelector"; sm_ResolvedPath := "spec.forProvider.iamInstanceProfile[].name"; sm_Reason := "Late-init resolves IAM instance profile reference. commit 36ca77765 (!890)" |};
  {| sm_Group := "ec2.aws.upbound.io"; sm_Kind := "LaunchTemplate"; sm_SelectorPath := "spec.forProvider.iamInstanceProfile[].nameSelector"; sm_ResolvedPath := "spec.forProvider.iamInstanceProfile[].nameRef"; sm_Reason := "Ref sibling. commit 36ca77765 (!890)" |};
  {| sm_Group := "ec2.aws.upbound.io"; sm_Kind := "LaunchTemplate"; sm_SelectorPath := "spec.forProvider.iamInstanceProfile[].arnSelector"; sm_ResolvedPath := "spec.forProvider.iamInstanceProfile[].arn"; sm_Reason := "Upbound also resolves the sibling ARN path. commit 36ca77765 (!890)" |};
  {| sm_Group := "ec2.aws.upbound.io"; sm_Kind := "VPCEndpoint"; sm_SelectorPath := "spec.forProvider.vpcIdSelector"; sm_ResolvedPath := "spec.forProvider.vpcId"; sm_Reason := "Selector resolves to VPC ID; removed from live spec after reconcile. commit 7ac5a5f14 (!1250)" |};
  {| sm_Group := "ec2.aws.upbound.io"; sm_Kind := "VPCEndpoint"; sm_SelectorPath := "spec.forProvider.subnetIdSelector"; sm_ResolvedPath := "spec.forProvider.subnetIds"; sm_Reason := "Selector → plural subnet IDs on Interface endpoints; Argo sees list as added. commit 7ac5a5f14 (!1250)" |};
  {| sm_Group := "ec2.aws.upbound.io"; sm_Kind := "VPCEndpoint"; sm_SelectorPath := "spec.forProvider.routeTableIdSelector"; sm_ResolvedPath := "spec.forProvider.routeTableIds"; sm_Reason := "Selector → plural route-table IDs on Gateway endpoints. commit 7ac5a5f14 (!1250)" |};
  {| sm_Group := "ec2.aws.upbound.io"; sm_Kind := "VPCEndpoint"; sm_SelectorPath := "spec.forProvider.securityGroupIdSelector"; sm_ResolvedPath := "spec.forProvider.securityGroupIds"; sm_Reason := "Selector → plural SG IDs on Interface endpoints. commit 7ac5a5f14 (!1250)" |};
  {| sm_Group := "ec2.aws.upbound.io"; sm_Kind := "SecurityGroup"; sm_SelectorPath := "spec.forProvider.vpcIdSelector"; sm_ResolvedPath := "spec.forProvider.vpcId"; sm_Reason := "Selector resolves to concrete VPC ID. CRD-doc (securitygroups-prod.yaml)" |};
  {| sm_Group := "ec2.aws.upbound.io"; sm_Kind := "SecurityGroupRule"; sm_SelectorPath := "spec.forProvider.securityGroupIdSelector"; sm_ResolvedPath := "spec.forProvider.securityGroupId"; sm_Reason := "Selector resolves to the referenced SG's ID. CRD-doc (securitygroups-prod.yaml)" |};
  {| sm_Group := "ec2.aws.upbound.io"; sm_Kind := "SecurityGroupRule"; sm_SelectorPath := "spec.forProvider.sourceSecurityGroupIdSelector"; sm_ResolvedPath := "spec.forProvider.sourceSecurityGroupId"; sm_Reason := "Cross-SG reference selector → concrete ID. CRD-doc (securitygroups-prod.yaml)" |};
  {| sm_Group := "ec2.aws.upbound.io"; sm_Kind := "Route"; sm_SelectorPath := "spec.forProvider.routeTableIdSelector"; sm_ResolvedPath := "spec.forProvider.routeTableId"; sm_Reason := "Route's parent table selector → ID. CRD-doc (vpc-prod.yaml)" |};
  {| sm_Group := "ec2.aws.upbound.io"; sm_Kind := "Route"; sm_SelectorPath := "spec.forProvider.gatewayIdSelector"; sm_ResolvedPath := "spec.forProvider.gatewayId"; sm_Reason := "IGW/VGW selector → concrete gateway ID. CRD-doc (vpc-prod.yaml)" |};
  {| sm_Group := "ec2.aws.upbound.io"; sm_Kind := "Route"; sm_SelectorPath := "spec.forProvider.natGatewayIdSelector"; sm_ResolvedPath := "spec.forProvider.natGatewayId"; sm_Reason := "NAT-gateway selector → concrete ID. CRD-doc (vpc-prod.yaml)" |};
  {| sm_Group := "ec2.aws.upbound.io"; sm_Kind := "Route"; sm_SelectorPath := "spec.forProvider.vpcPeeringConnectionIdSelector"; sm_ResolvedPath := "spec.forProvider.vpcPeeringConnectionId"; sm_Reason := "Peering-connection selector → concrete ID. CRD-doc (vpc-peering-ops-preview.yaml)" |};
  {| sm_Group := "ec2.aws.upbound.io"; sm_Kind := "RouteTableAssociation"; sm_SelectorPath := "spec.forProvider.routeTableIdSelector"; sm_ResolvedPath := "spec.forProvider.routeTableId"; sm_Reason := "RT association selector → ID. CRD-doc (vpc-prod.yaml)" |};
  {| sm_Group := "ec2.aws.upbound.io"; sm_Kind := "RouteTableAssociation"; sm_SelectorPath := "spec.forProvider.subnetIdSelector"; sm_ResolvedPath := "spec.forProvider.subnetId"; sm_Reason := "Subnet assoc selector → ID. CRD-doc (vpc-prod.yaml)" |};
  {| sm_Group := "ec2.aws.upbound.io"; sm_Kind := "NATGateway"; sm_SelectorPath := "spec.forProvider.allocationIdSelector"; sm_ResolvedPath := "spec.forProvider.allocationId"; sm_Reason := "EIP allocation selector → concrete allocation ID. CRD-doc (vpc-prod.yaml)" |};
  {| sm_Group := "ec2.aws.upbound.io"; sm_Kind := "NATGateway"; sm_SelectorPath := "spec.forProvider.subnetIdSelector"; sm_ResolvedPath := "spec.forProvider.subnetId"; sm_Reason := "NAT placement subnet selector → ID. CRD-doc (vpc-prod.yaml)" |};
  {| sm_Group := "elbv2.aws.upbound.io"; sm_Kind := "LB"; sm_SelectorPath := "spec.forProvider.securityGroupSelector"; sm_ResolvedPath := "spec.forProvider.securityGroups"; sm_Reason := "Selector → plural SG IDs; Argo sees list as added. commit 3ea4b28d0 ALB block (!1344)" |};
  {| sm_Group := "elbv2.aws.upbound.io"; sm_Kind := "LB"; sm_SelectorPath := "spec.forProvider.subnetMapping[].subnetIdSelector"; sm_ResolvedPath := "spec.forProvider.subnetMapping[].subnetId"; sm_Reason := "Subnet-mapping selector → ID (ALB subnet list). commit 3ea4b28d0 ALB block (!1344)" |};
  {| sm_Group := "elbv2.aws.upbound.io"; sm_Kind := "LB"; sm_SelectorPath := "spec.forProvider.subnetMapping[].subnetIdSelector"; sm_ResolvedPath := "spec.forProvider.subnetMapping[].subnetIdRef"; sm_Reason := "Sibling Ref field populated. commit 3ea4b28d0 ALB block (!1344)" |};
  {| sm_Group := "elbv2.aws.upbound.io"; sm_Kind := "LB"; sm_SelectorPath := "spec.forProvider.subnetSelector"; sm_ResolvedPath := "spec.forProvider.subnets"; sm_Reason := "Shorthand subnet selector on LB → plural subnets. commit 3ea4b28d0 ALB block (!1344)" |};
  {| sm_Group := "elbv2.aws.upbound.io"; sm_Kind := "LBListener"; sm_SelectorPath := "spec.forProvider.loadBalancerArnSelector"; sm_ResolvedPath := "spec.forProvider.loadBalancerArn"; sm_Reason := "Listener's parent LB selector → concrete ARN. CRD-doc (alb-prod.yaml)" |};
  {| sm_Group := "elbv2.aws.upbound.io"; sm_Kind := "LBListenerCertificate"; sm_SelectorPath := "spec.forProvider.listenerArnSelector"; sm_ResolvedPath := "spec.forProvider.listenerArn"; sm_Reason := "Listener ref selector → ARN. CRD-doc (alb-prod.yaml)" |};
  {| sm_Group := "elbv2.aws.upbound.io"; sm_Kind := "LBListenerRule"; sm_SelectorPath := "spec.forProvider.action[].targetGroupArnSelector"; sm_ResolvedPath := "spec.forProvider.action[].targetGroupArn"; sm_Reason := "Forward-action target-group selector → ARN. CRD-doc (composition-fargateapp-prod.yaml)" |};
  {| sm_Group := "rds.aws.upbound.io"; sm_Kind := "ClusterInstance"; sm_SelectorPath := "spec.forProvider.clusterIdentifierSelector"; sm_ResolvedPath := "spec.forProvider.clusterIdentifier"; sm_Reason := "ClusterInstance's parent Cluster selector → identifier. CRD-doc (cluster-instance.yaml)" |};
  {| sm_Group := "rds.aws.upbound.io"; sm_Kind := "ClusterInstance"; sm_SelectorPath := "spec.forProvider.monitoringRoleArnSelector"; sm_ResolvedPath := "spec.forProvider.monitoringRoleArn"; sm_Reason := "IAM role ARN selector → concrete ARN. CRD-doc (cluster-instance.yaml)" |};
  {| sm_Group := "rds.aws.upbound.io"; sm_Kind := "Cluster"; sm_SelectorPath := "spec.forProvider.vpcSecurityGroupIdSelector"; sm_ResolvedPath := "spec.forProvider.vpcSecurityGroupIds"; sm_Reason := "Selector → plural SG IDs on Aurora cluster. CRD-doc (aurora-prod-cluster.yaml)" |};
  {| sm_Group := "rds.aws.upbound.io"; sm_Kind := "ProxyDefaultTargetGroup"; sm_SelectorPath := "spec.forProvider.dbProxyNameSelector"; sm_ResolvedPath := "spec.forProvider.dbProxyName"; sm_Reason := "RDS proxy name selector → concrete name. commit 7ac5a5f14 (!1250)" |};
  {| sm_Group := "rds.aws.upbound.io"; sm_Kind := "ProxyTarget"; sm_SelectorPath := "spec.forProvider.dbProxyNameSelector"; sm_ResolvedPath := "spec.forProvider.dbProxyName"; sm_Reason := "Same as ProxyDefaultTargetGroup. commit 7ac5a5f14 (!1250)" |};
  {| sm_Group := "rds.aws.upbound.io"; sm_Kind := "Proxy"; sm_SelectorPath := "spec.forProvider.roleArnSelector"; sm_ResolvedPath := "spec.forProvider.roleArn"; sm_Reason := "IAM role ARN selector → concrete ARN. CRD-doc (rds-proxy-prod.yaml)" |};
  {| sm_Group := "rds.aws.upbound.io"; sm_Kind := "Proxy"; sm_SelectorPath := "spec.forProvider.vpcSecurityGroupIdSelector"; sm_ResolvedPath := "spec.forProvider.vpcSecurityGroupIds"; sm_Reason := "VPC SG selector → plural IDs. CRD-doc (rds-proxy-prod.yaml)" |};
  {| sm_Group := "elasticache.aws.upbound.io"; sm_Kind := "ReplicationGroup"; sm_SelectorPath := "spec.forProvider.subnetGroupNameSelector"; sm_ResolvedPath := "spec.forProvider.subnetGroupName"; sm_Reason := "Subnet-group selector → concrete name. CRD-doc (elasticache-prod-cluster.yaml)" |};
  {| sm_Group := "elasticache.aws.upbound.io"; sm_Kind := "ReplicationGroup"; sm_SelectorPath := "spec.forProvider.parameterGroupNameSelector"; sm_ResolvedPath := "spec.forProvider.parameterGroupName"; sm_Reason := "ParameterGroup selector drift; fg-manifold inlined literal name in 5e855ea4b (!1366)" |};
  {| sm_Group := "dms.aws.upbound.io"; sm_Kind := "ReplicationInstance"; sm_SelectorPath := "spec.forProvider.replicationSubnetGroupIdSelector"; sm_ResolvedPath := "spec.forProvider.replicationSubnetGroupId"; sm_Reason := "DMS subnet-group selector → concrete ID. CRD-doc (dms-prod-replication-instance.yaml)" |};
  {| sm_Group := "dms.aws.upbound.io"; sm_Kind := "ReplicationInstance"; sm_SelectorPath := "spec.forProvider.vpcSecurityGroupIdSelector"; sm_ResolvedPath := "spec.forProvider.vpcSecurityGroupIds"; sm_Reason := "VPC SG selector → plural IDs. CRD-doc (dms-prod-replication-instance.yaml)" |};
  {| sm_Group := "iam.aws.upbound.io"; sm_Kind := "RolePolicyAttachment"; sm_SelectorPath := "spec.forProvider.policyArnSelector"; sm_ResolvedPath := "spec.forProvider.policyArn"; sm_Reason := "Policy ARN selector → concrete ARN. CRD-doc (irsa-role.yaml)" |};
  {| sm_Group := "iam.aws.upbound.io"; sm_Kind := "RolePolicyAttachment"; sm_SelectorPath := "spec.forProvider.roleSelector"; sm_ResolvedPath := "spec.forProvider.role"; sm_Reason := "Role name selector → concrete name. CRD-doc (irsa-role.yaml)" |};
  {| sm_Group := "kms.aws.upbound.io"; sm_Kind := "Alias"; sm_SelectorPath := "spec.forProvider.targetKeyIdSelector"; sm_ResolvedPath := "spec.forProvider.targetKeyId"; sm_Reason := "KMS key-ID selector → concrete ID. CRD-doc (kms-key.yaml)" |};
  {| sm_Group := "secretsmanager.aws.upbound.io"; sm_Kind := "SecretVersion"; sm_SelectorPath := "spec.forProvider.secretIdSelector"; sm_ResolvedPath := "spec.forProvider.secretId"; sm_Reason := "Secret selector → concrete secret ID/ARN. CRD-doc (aurora-prod-app-user.yaml)" |};
  {| sm_Group := "wafv2.aws.upbound.io"; sm_Kind := "WebACLAssociation"; sm_SelectorPath := "spec.forProvider.webAclArnSelector"; sm_ResolvedPath := "spec.forProvider.webAclArn"; sm_Reason := "WAF WebACL selector → concrete ARN. CRD-doc (alb-prod.yaml)" |};
  {| sm_Group := "projects.gitlab.m.crossplane.io"; sm_Kind := "Project"; sm_SelectorPath := "spec.forProvider.namespaceIdSelector"; sm_ResolvedPath := "spec.forProvider.namespaceId"; sm_Reason := "GitLab namespace selector → concrete numeric ID. CRD-doc (projects/fg-ai.yaml); convention from !36" |}
].

(** LateInitRegistry. *)
Definition LateInitRegistry : list LateInitMapping := [
  {| lm_Group := "elbv2.aws.upbound.io"; lm_Kind := "LB"; lm_FieldPath := "spec.forProvider.clientKeepAlive"; lm_FixPattern := "ignoreDifferences"; lm_Reason := "ALB clientKeepAlive late-init from AWS state; MR !1048" |};
  {| lm_Group := "elbv2.aws.upbound.io"; lm_Kind := "LB"; lm_FieldPath := "spec.forProvider.idleTimeout"; lm_FixPattern := "ignoreDifferences"; lm_Reason := "ALB idleTimeout late-init from AWS state; MR !1048" |};
  {| lm_Group := "elbv2.aws.upbound.io"; lm_Kind := "LB"; lm_FieldPath := "spec.forProvider.enableHttp2"; lm_FixPattern := "ignoreDifferences"; lm_Reason := "ALB enableHttp2 late-init from AWS state; MR !1048" |};
  {| lm_Group := "elbv2.aws.upbound.io"; lm_Kind := "LB"; lm_FieldPath := "spec.forProvider.ipAddressType"; lm_FixPattern := "ignoreDifferences"; lm_Reason := "ALB ipAddressType late-init from AWS state; MR !1048" |};
  {| lm_Group := "ec2.aws.upbound.io"; lm_Kind := "LaunchTemplate"; lm_FieldPath := "spec.forProvider.name"; lm_FixPattern := "ignoreDifferences"; lm_Reason := "LaunchTemplate name late-init from AWS state; MR !893" |};
  {| lm_Group := "ec2.aws.upbound.io"; lm_Kind := "LaunchTemplate"; lm_FieldPath := "spec.forProvider.tags"; lm_FixPattern := "ignoreDifferences"; lm_Reason := "LaunchTemplate tags late-init from AWS state; MR !893" |};
  {| lm_Group := "ecs.aws.upbound.io"; lm_Kind := "Service"; lm_FieldPath := "spec.forProvider.iamRole"; lm_FixPattern := "omit-late-initialize"; lm_Reason := "Fargate Service iamRole late-init breaks rotation; MR !1502" |}
].

(** CanonicalFormRegistry. *)
Definition CanonicalFormRegistry : list CanonicalFormMapping := [
  {| cm_Group := "ecs.aws.upbound.io"; cm_Kind := "Service"; cm_FieldPath := "spec.forProvider.taskDefinition"; cm_Detector := "arn-requires-revision"; cm_Canonical := "family:revision (or .../task-definition/family:revision), resolved from the observed TaskDefinition status.atProvider.arn"; cm_Reason := "ECS Service taskDefinition bare family name → permanent upjet diff → reconcile storm; MR !2232" |}
].

(** ExternalNameAdoptRegistry. *)
Definition ExternalNameAdoptRegistry : list ExternalNameAdoptMapping := [
  {| enm_Group := "alert.signoz.crossplane.io"; enm_Kind := "Alert"; enm_Reason := ("provider-signoz Alert create path is broken against the custom signoz build (returns HTML → " +:+ dq +:+ "invalid character '<'" +:+ dq +:+ "); the rule must be adopted via crossplane.io/external-name (created out-of-band via the SigNoz API), not created; MR abd5aa10ed / INC-8") |}
].


(** ComputedBlockAliasRegistry. *)
Definition ComputedBlockAliasRegistry : list ComputedBlockAliasMapping := [
  {| cbm_Group := "elbv2.aws.upbound.io"; cbm_Kind := "LBListenerRule"; cbm_ActionType := "forward"; cbm_AliasFieldPattern := "(?m)^[ \t]*(targetGroupArn(?:Ref|Selector)?):"; cbm_CanonicalBlockKey := "forward"; cbm_Reason := "LBListenerRule forward action uses the simple targetGroupArn form; AWS always computes a full action.forward{} block + order:1, so forProvider perpetually diffs → upjet async-update storm on provider-aws-elbv2; MR !2336" |};
  {| cbm_Group := "elbv2.aws.upbound.io"; cbm_Kind := "LBListener"; cbm_ActionType := "forward"; cbm_AliasFieldPattern := "(?m)^[ \t]*(targetGroupArn(?:Ref|Selector)?):"; cbm_CanonicalBlockKey := "forward"; cbm_Reason := "LBListener defaultAction forward uses the simple targetGroupArn form; AWS always computes a full action.forward{} block + order:1, so forProvider perpetually diffs → upjet async-update storm on provider-aws-elbv2; MR !2336" |}
].

(** OrphanSGRefRegistry. *)
Definition OrphanSGRefRegistry : list OrphanSGRefMapping := [
  {| osm_Group := "ec2.aws.upbound.io"; osm_Kind := "SecurityGroupRule"; osm_RefGroup := "ec2.aws.upbound.io"; osm_RefKind := "SecurityGroup"; osm_AttachFieldPattern := "(?m)^[ \t]*(securityGroupId(?:Ref|Selector)?):"; osm_RefFieldPattern := "(?m)^[ \t]*((?:source|referenced)SecurityGroupId(?:Ref|Selector)?):"; osm_Reason := "SecurityGroupRule attached to a long-lived/shared SG but referencing a short-lived per-env SG: on teardown the referenced SG is deleted while the rule is not, so the reference dangles → DeleteSecurityGroup DependencyViolation at 0 ENIs → SG stuck Terminating → recreate InvalidGroup.Duplicate; commit d144aa739b" |}
].
