(* ===== verification/Config.v ===== *)
(** The xpc.yaml configuration (src/pkg/config): its schema, the semantic
    validation the loader runs after decoding, and the resolution functions
    that overlay the user's settings on the built-in tables.  The loader itself is
    ConfigFile.v. *)
From Stdlib Require Import ZArith.
From S2P Require Import Prelude GoStrings Types Registries.

#[local] Open Scope string_scope.
#[local] Open Scope list_scope.
#[local] Open Scope nat_scope.

(** ** The schema: config.go *)

Record ProdPatternsConfig : Type := MkProdPatternsConfig {
  pp_AppSetNameSubstrings : list string;
}.
Record ImmutableFieldEntry : Type := MkImmutableFieldEntry {
  ie_GVK : string;
  ie_Paths : list string;
  ie_Reason : string;
  ie_Suppress : bool;
}.
Record StateBearingKindEntry : Type := MkStateBearingKindEntry {
  sk_Group : string;
  sk_Kind : string;
}.
Record StateBearingKindsConfig : Type := MkStateBearingKindsConfig {
  sbk_Append : list StateBearingKindEntry;
  sbk_Suppress : list StateBearingKindEntry;
}.
Record BypassKeyConfig : Type := MkBypassKeyConfig {
  bk_Primary : string;
  bk_Aliases : list string;
}.
Record BypassAnnotationsConfig : Type := MkBypassAnnotationsConfig {
  ba_AllowDelete : BypassKeyConfig;
  ba_AllowImmutableChange : BypassKeyConfig;
}.
Record NameCarveoutsConfig : Type := MkNameCarveoutsConfig {
  nc_CrossplaneStateNeedsOrphan : list string;
}.
Record ExternalSecretStoresConfig : Type := MkExternalSecretStoresConfig {
  es_AllowedNames : list string;
}.
Record EnvLabelConfig : Type := MkEnvLabelConfig {
  el_Key : string;
  el_ClaimKinds : list string;
  el_AllowedValues : list string;
}.
Record Config : Type := MkConfig {
  cfg_Version : Z;
  cfg_ProdPatterns : ProdPatternsConfig;
  cfg_ImmutableFields : list ImmutableFieldEntry;
  cfg_StateBearingKinds : StateBearingKindsConfig;
  cfg_BypassAnnotations : BypassAnnotationsConfig;
  cfg_NameCarveouts : NameCarveoutsConfig;
  cfg_ExternalSecretStores : ExternalSecretStoresConfig;
  cfg_EnvLabel : EnvLabelConfig;
  cfg_AllowedProviderConfigs : list string;
}.
Definition zero_BypassKeyConfig : BypassKeyConfig := MkBypassKeyConfig "" [].
(** [&Config{}] *)
Definition zero_Config : Config := {|
  cfg_Version := 0;
  cfg_ProdPatterns := MkProdPatternsConfig [];
  cfg_ImmutableFields := [];
  cfg_StateBearingKinds := MkStateBearingKindsConfig [] [];
  cfg_BypassAnnotations := MkBypassAnnotationsConfig zero_BypassKeyConfig zero_BypassKeyConfig;
  cfg_NameCarveouts := MkNameCarveoutsConfig [];
  cfg_ExternalSecretStores := MkExternalSecretStoresConfig [];
  cfg_EnvLabel := MkEnvLabelConfig "" [] [];
  cfg_AllowedProviderConfigs := [];
|}.

(** ** Built-in defaults: defaults.go *)

Definition defaultProdAppSetNameSubstrings : list string := ["-prod"; "prod-"].
Definition defaultAllowDeletePrimary : string := "xpc.io/allow-delete".
Definition defaultAllowDeleteAliases : list string := [].
Definition defaultAllowImmutableChangePrimary : string := "xpc.io/allow-immutable-change".
Definition defaultAllowImmutableChangeAliases : list string := [].
Definition defaultCrossplaneStateNeedsOrphanCarveouts : list string := ["alb-logs"].

Definition Default : Config := {| zero_Config with
  cfg_Version := 1;
  cfg_ProdPatterns := MkProdPatternsConfig defaultProdAppSetNameSubstrings;
  cfg_BypassAnnotations := MkBypassAnnotationsConfig
    (MkBypassKeyConfig defaultAllowDeletePrimary defaultAllowDeleteAliases)
    (MkBypassKeyConfig defaultAllowImmutableChangePrimary defaultAllowImmutableChangeAliases);
  cfg_NameCarveouts := MkNameCarveoutsConfig defaultCrossplaneStateNeedsOrphanCarveouts;
|}.

(** ** Resolution: resolve.go.  A [*Config] is an option. *)

Definition ResolveProdPatterns (cfg : option Config) : list string :=
  match cfg with
  | Some c =>
      match pp_AppSetNameSubstrings (cfg_ProdPatterns c) with
      | [] => defaultProdAppSetNameSubstrings
      | l => l
      end
  | None => defaultProdAppSetNameSubstrings
  end.

(** [for _, s := range l { if s == "" || containsString(out, s) { continue }
    out = append(out, s) }] *)
Definition add_string (out : list string) (s : string) : list string :=
  if String.eqb s "" || contains_string out s then out else out ++ [s].
Definition add_strings (out : list string) (l : list string) : list string :=
  foldl add_string out l.

Definition ResolveExternalSecretStoreNames (cfg : option Config) : list string :=
  match cfg with
  | Some c => add_strings [] (es_AllowedNames (cfg_ExternalSecretStores c))
  | None => []
  end.

Definition defaultEnvLabelKey : string := "app.facilitygrid.io/environment".
Definition defaultEnvLabelClaimKinds : list string := ["FargateApp"; "FargateWorker"; "FargateService"].
Definition defaultEnvLabelAllowedValues : list string := ["prod"; "preview"; "ops"].

Definition ResolveEnvLabel (cfg : option Config) : string * list string * list string :=
  match cfg with
  | None => (defaultEnvLabelKey, defaultEnvLabelClaimKinds, defaultEnvLabelAllowedValues)
  | Some c =>
      let e := cfg_EnvLabel c in
      (if String.eqb (el_Key e) "" then defaultEnvLabelKey else el_Key e,
       match el_ClaimKinds e with [] => defaultEnvLabelClaimKinds | l => l end,
       match el_AllowedValues e with [] => defaultEnvLabelAllowedValues | l => l end)
  end.

Definition ResolveAllowedProviderConfigs (cfg : option Config) : list string :=
  match cfg with
  | Some c => add_strings [] (cfg_AllowedProviderConfigs c)
  | None => []
  end.

Definition mergeBypass (builtinPrimary : string) (builtinAliases : list string)
    (user : BypassKeyConfig) : list string :=
  let primary := if String.eqb (bk_Primary user) "" then builtinPrimary else bk_Primary user in
  let out := if String.eqb primary "" then [] else [primary] in
  add_strings (add_strings out builtinAliases) (bk_Aliases user).

Definition ResolveAllowDeleteKeys (cfg : option Config) : list string :=
  mergeBypass defaultAllowDeletePrimary defaultAllowDeleteAliases
    (match cfg with
     | Some c => ba_AllowDelete (cfg_BypassAnnotations c)
     | None => zero_BypassKeyConfig
     end).
Definition ResolveAllowImmutableChangeKeys (cfg : option Config) : list string :=
  mergeBypass defaultAllowImmutableChangePrimary defaultAllowImmutableChangeAliases
    (match cfg with
     | Some c => ba_AllowImmutableChange (cfg_BypassAnnotations c)
     | None => zero_BypassKeyConfig
     end).

Definition ResolveCrossplaneStateNeedsOrphanCarveouts (cfg : option Config) : list string :=
  match cfg with
  | Some c => add_strings defaultCrossplaneStateNeedsOrphanCarveouts
                (nc_CrossplaneStateNeedsOrphan (cfg_NameCarveouts c))
  | None => defaultCrossplaneStateNeedsOrphanCarveouts
  end.

(** [splitGVK]: (group, version, kind). *)
Definition splitGVK (gvk : string) : string * string * string :=
  match split_on "/" gvk with
  | [] => ("", "", "")
  | [k] => ("", "", k)
  | [v; k] => ("", v, k)
  | g :: v :: rest => (g, v, join "/" rest)
  end.

Definition im_matches (group kind path : string) (f : ImmutableField) : bool :=
  String.eqb (im_Group f) group && String.eqb (im_Kind f) kind && String.eqb (im_FieldPath f) path.

Definition removeImmutable (l : list ImmutableField) (group kind path : string)
  : list ImmutableField :=
  filter (λ f, im_matches group kind path f = false) l.

Fixpoint upsertImmutable (l : list ImmutableField) (entry : ImmutableField)
  : list ImmutableField :=
  match l with
  | [] => [entry]
  | f :: l =>
      if im_matches (im_Group entry) (im_Kind entry) (im_FieldPath entry) f then
        (if String.eqb (im_Reason entry) "" then f else {| f with im_Reason := im_Reason entry |}) :: l
      else f :: upsertImmutable l entry
  end.

(** The two passes of [ResolveImmutableFields], one overlay entry at a time. *)
Definition suppress_entry (out : list ImmutableField) (e : ImmutableFieldEntry) :=
  if ie_Suppress e then
    let '(group, _, kind) := splitGVK (ie_GVK e) in
    foldl (λ out path, removeImmutable out group kind path) out (ie_Paths e)
  else out.
Definition append_entry (out : list ImmutableField) (e : ImmutableFieldEntry) :=
  if ie_Suppress e then out
  else
    let '(group, _, kind) := splitGVK (ie_GVK e) in
    foldl (λ out path,
             if String.eqb path "" then out
             else upsertImmutable out {| im_Group := group; im_Kind := kind;
                                         im_FieldPath := path; im_Reason := ie_Reason e |})
          out (ie_Paths e).

Definition ResolveImmutableFields (cfg : option Config) (builtins : list ImmutableField)
  : list ImmutableField :=
  match cfg with
  | None => builtins
  | Some c =>
      foldl append_entry (foldl suppress_entry builtins (cfg_ImmutableFields c))
            (cfg_ImmutableFields c)
  end.

Definition gk_matches (group kind : string) (gk : ArgoGroupKind) : bool :=
  String.eqb (gk_Group gk) group && String.eqb (gk_Kind gk) kind.
Definition removeStateBearing (l : list ArgoGroupKind) (group kind : string) : list ArgoGroupKind :=
  filter (λ gk, gk_matches group kind gk = false) l.
Definition containsStateBearing (l : list ArgoGroupKind) (group kind : string) : bool :=
  existsb (gk_matches group kind) l.

Definition ResolveStateBearingKinds (cfg : option Config) (defaults : list ArgoGroupKind)
  : list ArgoGroupKind :=
  match cfg with
  | None => defaults
  | Some c =>
      let out := foldl (λ out e, removeStateBearing out (sk_Group e) (sk_Kind e))
                       defaults (sbk_Suppress (cfg_StateBearingKinds c)) in
      foldl (λ out e,
               if containsStateBearing out (sk_Group e) (sk_Kind e) then out
               else out ++ [{| gk_Group := sk_Group e; gk_Kind := sk_Kind e |}])
            out (sbk_Append (cfg_StateBearingKinds c))
  end.

(** ** Validation: load.go.  One constructor per [fmt.Errorf]. *)

Definition CurrentVersion : Z := 1.

Inductive ConfigError : Type :=
  | UnsupportedVersion (got : Z)
  | GvkRequired (i : nat)
  | PathsRequired (i : nat) (gvk : string)
  | GvkTooManySegments (i : nat) (gvk : string)
  | GvkTwoSegments (i : nat) (gvk : string)
  | EmptyPath (i : nat) (gvk : string)
  | KindRequired (block : string) (i : nat)
  | KindBlank (block : string) (i : nat)
  | GroupBlank (block : string) (i : nat) (kind : string).

Fixpoint str_forall (f : ascii → bool) (s : string) : bool :=
  match s with "" => true | String c s => f c && str_forall f s end.
(** The digits [i < len(s) && isDigit(s[i])] skips, and the rest. *)
Fixpoint skip_digits (s : string) : string :=
  match s with String c t => if is_digit c then skip_digits t else s | "" => "" end.

(** The loop over {"alpha", "beta"}: decided by the first suffix that is a prefix. *)
Fixpoint version_suffix (suffixes : list string) (s : string) : bool :=
  match suffixes with
  | [] => false
  | suffix :: rest =>
      if has_prefix suffix s then
        let t := str_drop (String.length suffix) s in
        negb (String.eqb t "") && str_forall is_digit t
      else version_suffix rest s
  end.
Definition looksLikeVersion (s : string) : bool :=
  match s with
  | String v (String d t) =>
      if Ascii.eqb v "v" && is_digit d then
        let r := skip_digits t in
        if String.eqb r "" then true else version_suffix ["alpha"; "beta"] r
      else false
  | _ => false
  end.

(** One iteration of each loop of [validate]; [None] is "no error". *)
Definition validate_immutable (i : nat) (e : ImmutableFieldEntry) : option ConfigError :=
  if String.eqb (ie_GVK e) "" then Some (GvkRequired i)
  else if Nat.eqb (length (ie_Paths e)) 0 then Some (PathsRequired i (ie_GVK e))
  else
    let parts := split_on "/" (ie_GVK e) in
    if Nat.ltb 3 (length parts) then Some (GvkTooManySegments i (ie_GVK e))
    else if Nat.eqb (length parts) 2 && negb (looksLikeVersion (hd "" parts))
    then Some (GvkTwoSegments i (ie_GVK e))
    else if existsb (λ p, String.eqb p "") (ie_Paths e) then Some (EmptyPath i (ie_GVK e))
    else None.
Definition validate_kind (block : string) (i : nat) (e : StateBearingKindEntry)
  : option ConfigError :=
  if String.eqb (sk_Kind e) "" then Some (KindRequired block i)
  else if String.eqb (trim_space (sk_Kind e)) "" then Some (KindBlank block i)
  else if negb (String.eqb (sk_Group e) "") && String.eqb (trim_space (sk_Group e)) ""
  then Some (GroupBlank block i (sk_Kind e))
  else None.

(** [for i, entry := range l { ... return err }]: the first error. *)
Fixpoint first_error {A} (f : nat → A → option ConfigError) (i : nat) (l : list A)
  : option ConfigError :=
  match l with
  | [] => None
  | x :: l => match f i x with Some e => Some e | None => first_error f (S i) l end
  end.

(** [validate] writes the default version back into the config it accepts. *)
Definition validate (c : Config) : ConfigError + Config :=
  let cfg := if Z.eqb (cfg_Version c) 0 then {| c with cfg_Version := CurrentVersion |} else c in
  if negb (Z.eqb (cfg_Version cfg) CurrentVersion) then inl (UnsupportedVersion (cfg_Version cfg))
  else
    match first_error validate_immutable 0 (cfg_ImmutableFields cfg) with
    | Some e => inl e
    | None =>
    match first_error (validate_kind "append") 0 (sbk_Append (cfg_StateBearingKinds cfg)) with
    | Some e => inl e
    | None =>
    match first_error (validate_kind "suppress") 0 (sbk_Suppress (cfg_StateBearingKinds cfg)) with
    | Some e => inl e
    | None => inr cfg
    end end end.

(** ** Discovery: discover.go.  The file system is a parameter: [is_file] is
    "stat succeeds and it is not a directory". *)

Definition CanonicalFileName : string := "xpc.yaml".

(** The ancestors [searchUpward] visits; [fuel] bounds the climb. *)
Fixpoint searchUpward (is_file : string → bool) (fuel : nat) (dir : string) : option string :=
  match fuel with
  | 0 => None
  | S fuel =>
      let candidate := path_join [dir; CanonicalFileName] in
      if is_file candidate then Some candidate
      else let parent := path_dir dir in
           if String.eqb parent dir then None else searchUpward is_file fuel parent
  end.

(** [Discover]: [abs] is filepath.Abs, [exe] the resolved executable path. *)
Definition Discover (is_file : string → bool) (abs : string → option string)
    (exe : option string) (fuel : nat) (start : string) : option (option (string * bool)) :=
  match abs start with
  | None => None
  | Some a =>
      match searchUpward is_file fuel a with
      | Some p => Some (Some (p, false))
      | None =>
          match exe with
          | Some e =>
              match searchUpward is_file fuel (path_dir e) with
              | Some p => Some (Some (p, true))
              | None => Some None
              end
          | None => Some None
          end
      end
  end.

(** [Resolve]: flag, then environment, then discovery, then the defaults. The
    result is the config with its path and the via-executable flag. *)
Definition Resolve (load : string → option Config) (discover : string → option (option (string * bool)))
    (flagPath envPath start : string) : option (Config * string * bool) :=
  let load_at p via := option_map (λ c, (c, p, via)) (load p) in
  if negb (String.eqb flagPath "") then load_at flagPath false
  else if negb (String.eqb envPath "") then load_at envPath false
  else match discover start with
       | None => None
       | Some None => Some (Default, "", false)
       | Some (Some (p, via)) => load_at p via
       end.

(** ** Lemmas: the string accumulators *)

Lemma elem_of_add_string out s x :
  x ∈ add_string out s ↔ x ∈ out ∨ (x = s ∧ s ≠ "").
Proof.
  unfold add_string. destruct (String.eqb_spec s "") as [->|Hs]; simpl; [naive_solver|].
  destruct (contains_string out s) eqn:E.
  - apply contains_string_spec in E. naive_solver.
  - rewrite elem_of_app, list_elem_of_singleton. naive_solver.
Qed.
Lemma elem_of_add_strings out l x :
  x ∈ add_strings out l ↔ x ∈ out ∨ (x ∈ l ∧ x ≠ "").
Proof.
  revert out. induction l as [|s l IH]; intros out; simpl.
  - split; [auto|]. intros [?|[?%not_elem_of_nil _]]; done.
  - fold (add_strings (add_string out s) l). rewrite IH, elem_of_add_string, elem_of_cons.
    naive_solver.
Qed.
Lemma NoDup_add_strings out l : NoDup out → NoDup (add_strings out l).
Proof.
  revert out. induction l as [|s l IH]; intros out Hd; simpl; [done|].
  apply IH. unfold add_string. destruct (String.eqb s ""); simpl; [done|].
  destruct (contains_string out s) eqn:E; [done|]. apply contains_string_false in E.
  apply NoDup_app. repeat split; [done| |apply NoDup_singleton].
  intros x Hx ->%list_elem_of_singleton. done.
Qed.
Lemma prefix_add_strings out l : out `prefix_of` add_strings out l.
Proof.
  revert out. induction l as [|s l IH]; intros out; simpl; [done|].
  etrans; [|apply IH]. unfold add_string. destruct (_ || _); [done|]. by apply prefix_app_r.
Qed.

(** ** Lemmas: the immutable-field overlay as an operation on a finite map *)

(** The registry read as a map: the reason of the first row for a key. *)
Definition im_lookup (l : list ImmutableField) (g k p : string) : option string :=
  option_map im_Reason (find_first (im_matches g k p) l).

Lemma im_matches_true g k p f :
  im_matches g k p f = true ↔ im_Group f = g ∧ im_Kind f = k ∧ im_FieldPath f = p.
Proof. unfold im_matches. rewrite !andb_true_iff, !String.eqb_eq. tauto. Qed.

Definition same_key (g k p g' k' p' : string) : bool :=
  String.eqb g g' && String.eqb k k' && String.eqb p p'.
Lemma same_key_true g k p g' k' p' : same_key g k p g' k' p' = true ↔ g = g' ∧ k = k' ∧ p = p'.
Proof. unfold same_key. rewrite !andb_true_iff, !String.eqb_eq. tauto. Qed.

(** A row matches two keys only if they are the same. *)
Lemma im_matches_same g k p g' k' p' f :
  im_matches g' k' p' f = true → im_matches g k p f = same_key g k p g' k' p'.
Proof.
  rewrite im_matches_true. intros (<- & <- & <-). apply eq_true_iff_eq.
  rewrite im_matches_true, same_key_true. naive_solver.
Qed.

Lemma im_lookup_remove l g k p g' k' p' :
  im_lookup (removeImmutable l g' k' p') g k p =
  if same_key g k p g' k' p' then None else im_lookup l g k p.
Proof.
  unfold im_lookup, removeImmutable. induction l as [|f l IH].
  - simpl. by destruct (same_key _ _ _ _ _ _).
  - rewrite filter_cons. destruct (decide (im_matches g' k' p' f = false)) as [E|E].
    + simpl. destruct (im_matches g k p f) eqn:F; [|done].
      destruct (same_key g k p g' k' p') eqn:G; [|done].
      apply same_key_true in G as (-> & -> & ->). congruence.
    + rewrite IH. apply not_false_is_true in E. simpl.
      rewrite (im_matches_same g k p g' k' p' f) by done.
      by destruct (same_key g k p g' k' p').
Qed.

(** How an appended reason combines with the one already registered. *)
Definition merge_reason (old : option string) (r : string) : option string :=
  Some (match old with Some o => if String.eqb r "" then o else r | None => r end).

Lemma im_lookup_upsert l e g k p :
  im_lookup (upsertImmutable l e) g k p =
  if same_key g k p (im_Group e) (im_Kind e) (im_FieldPath e)
  then merge_reason (im_lookup l g k p) (im_Reason e) else im_lookup l g k p.
Proof.
  unfold im_lookup. induction l as [|f l IH]; simpl.
  - rewrite (im_matches_same g k p _ _ _ e) by (by apply im_matches_true).
    by destruct (same_key _ _ _ _ _ _).
  - destruct (im_matches (im_Group e) (im_Kind e) (im_FieldPath e) f) eqn:E.
    + set (f' := if String.eqb (im_Reason e) "" then f else _).
      assert (E' : im_matches (im_Group e) (im_Kind e) (im_FieldPath e) f' = true)
        by (by subst f'; destruct (String.eqb (im_Reason e) "")).
      simpl. rewrite (im_matches_same g k p _ _ _ f E), (im_matches_same g k p _ _ _ f' E').
      destruct (same_key g k p _ _ _); [|done]. simpl. unfold merge_reason. f_equal. subst f'.
      by destruct (String.eqb (im_Reason e) "").
    + simpl. destruct (im_matches g k p f) eqn:F; [|by rewrite IH].
      destruct (same_key g k p _ _ _) eqn:G; [|done].
      apply same_key_true in G as (-> & -> & ->). congruence.
Qed.

(** What one overlay entry says about one key. *)
Definition entry_key (e : ImmutableFieldEntry) (g k : string) : bool :=
  let '(group, _, kind) := splitGVK (ie_GVK e) in String.eqb g group && String.eqb k kind.
Definition suppresses (e : ImmutableFieldEntry) (g k p : string) : bool :=
  ie_Suppress e && entry_key e g k && contains_string (ie_Paths e) p.
Definition overlay_suppresses (l : list ImmutableFieldEntry) (g k p : string) : bool :=
  existsb (λ e, suppresses e g k p) l.
(** The reasons the overlay appends for a key, in file order. *)
Definition entry_reasons (g k p : string) (e : ImmutableFieldEntry) : list string :=
  if negb (ie_Suppress e) && entry_key e g k && negb (String.eqb p "")
  then map (λ _, ie_Reason e) (filter (λ q, q = p) (ie_Paths e)) else [].
Definition overlay_reasons (l : list ImmutableFieldEntry) (g k p : string) : list string :=
  flat_map (entry_reasons g k p) l.

Lemma im_lookup_suppress_entry out e g k p :
  im_lookup (suppress_entry out e) g k p =
  if suppresses e g k p then None else im_lookup out g k p.
Proof.
  unfold suppress_entry, suppresses, entry_key. destruct (ie_Suppress e); [|done].
  destruct (splitGVK (ie_GVK e)) as [[group v] kind]. simpl.
  revert out. induction (ie_Paths e) as [|q l IH]; intros out; simpl.
  - by rewrite andb_false_r.
  - rewrite IH, im_lookup_remove. unfold same_key.
    destruct (String.eqb g group), (String.eqb k kind), (String.eqb p q); simpl; try done.
    by destruct (contains_string l p).
Qed.

Lemma im_lookup_append_entry out e g k p :
  im_lookup (append_entry out e) g k p =
  foldl merge_reason (im_lookup out g k p) (entry_reasons g k p e).
Proof.
  unfold append_entry, entry_reasons, entry_key. destruct (ie_Suppress e); [done|].
  destruct (splitGVK (ie_GVK e)) as [[group v] kind]. simpl.
  revert out. induction (ie_Paths e) as [|q l IH]; intros out.
  - simpl. by destruct (_ && negb _).
  - simpl. rewrite IH, filter_cons.
    destruct (String.eqb_spec g group) as [Hg|Hg]; simpl.
    2: { destruct (String.eqb q ""); [done|]. rewrite im_lookup_upsert. unfold same_key. simpl.
         by rewrite (proj2 (String.eqb_neq g group) Hg). }
    destruct (String.eqb_spec k kind) as [Hk|Hk]; simpl.
    2: { destruct (String.eqb q ""); [done|]. rewrite im_lookup_upsert. unfold same_key. simpl.
         by rewrite (proj2 (String.eqb_neq k kind) Hk), andb_false_r. }
    destruct (String.eqb_spec p "") as [Hp|Hp]; simpl.
    + destruct (String.eqb_spec q "") as [Hq|Hq]; [done|]. rewrite im_lookup_upsert. unfold same_key.
      simpl. rewrite (proj2 (String.eqb_neq p q)) by congruence. by rewrite andb_false_r.
    + destruct (decide (q = p)) as [->|Hqp].
      * rewrite (proj2 (String.eqb_neq p "") Hp), im_lookup_upsert. unfold same_key. simpl.
        subst. by rewrite !String.eqb_refl.
      * destruct (String.eqb q ""); [done|]. rewrite im_lookup_upsert. unfold same_key. simpl.
        rewrite (proj2 (String.eqb_neq p q)) by congruence. by rewrite andb_false_r.
Qed.

Lemma im_lookup_suppress_all l out g k p :
  im_lookup (foldl suppress_entry out l) g k p =
  if overlay_suppresses l g k p then None else im_lookup out g k p.
Proof.
  revert out. induction l as [|e l IH]; intros out; simpl; [done|].
  rewrite IH, im_lookup_suppress_entry. unfold overlay_suppresses. simpl.
  by destruct (suppresses e g k p), (existsb _ l).
Qed.
Lemma im_lookup_append_all l out g k p :
  im_lookup (foldl append_entry out l) g k p =
  foldl merge_reason (im_lookup out g k p) (overlay_reasons l g k p).
Proof.
  revert out. induction l as [|e l IH]; intros out; simpl; [done|].
  unfold overlay_reasons. simpl. by rewrite IH, im_lookup_append_entry, foldl_app.
Qed.

(** ** Lemmas: validation *)

Lemma first_error_None {A} (f : nat → A → option ConfigError) i l :
  first_error f i l = None ↔ ∀ j x, l !! j = Some x → f (i + j) x = None.
Proof.
  revert i. induction l as [|x l IH]; intros i; simpl; [by split|].
  destruct (f i x) eqn:E.
  - split; [done|]. intros H. specialize (H 0 x eq_refl). rewrite Nat.add_0_r in H. congruence.
  - rewrite IH. split.
    + intros H [|j] y Hj; simplify_eq/=; [by rewrite Nat.add_0_r|].
      rewrite Nat.add_succ_r. by apply (H j).
    + intros H j y Hj. rewrite <- (H (S j) y Hj). f_equal. lia.
Qed.

(** What [validate] asks of an overlay entry and of a kind entry. *)
Definition valid_immutable (e : ImmutableFieldEntry) : Prop :=
  ie_GVK e ≠ "" ∧ ie_Paths e ≠ [] ∧ "" ∉ ie_Paths e ∧
  length (split_on "/" (ie_GVK e)) ≤ 3 ∧
  (length (split_on "/" (ie_GVK e)) = 2 → looksLikeVersion (hd "" (split_on "/" (ie_GVK e))) = true).
Definition valid_kind (e : StateBearingKindEntry) : Prop :=
  trim_space (sk_Kind e) ≠ "" ∧ (sk_Group e = "" ∨ trim_space (sk_Group e) ≠ "").

Lemma validate_immutable_None i e : validate_immutable i e = None ↔ valid_immutable e.
Proof.
  unfold validate_immutable, valid_immutable.
  destruct (String.eqb_spec (ie_GVK e) "") as [|Hg]; [naive_solver|].
  destruct (Nat.eqb_spec (length (ie_Paths e)) 0) as [Hl|Hl].
  { apply length_zero_iff_nil in Hl. naive_solver. }
  assert (ie_Paths e ≠ []) by (by destruct (ie_Paths e)).
  destruct (Nat.ltb_spec 3 (length (split_on "/" (ie_GVK e)))) as [H3|H3]; [split; [done|lia]|].
  assert (Hex : existsb (λ p, String.eqb p "") (ie_Paths e) = true ↔ "" ∈ ie_Paths e).
  { rewrite existsb_elem_of. setoid_rewrite String.eqb_eq. naive_solver. }
  destruct (Nat.eqb_spec (length (split_on "/" (ie_GVK e))) 2) as [H2|H2]; simpl;
    [destruct (looksLikeVersion _) eqn:V; simpl; [|naive_solver]|];
    destruct (existsb _ _); naive_solver.
Qed.

Lemma trim_space_empty : trim_space "" = "".
Proof. reflexivity. Qed.

Lemma validate_kind_None block i e : validate_kind block i e = None ↔ valid_kind e.
Proof.
  unfold validate_kind, valid_kind. pose proof trim_space_empty.
  destruct (String.eqb_spec (sk_Kind e) "") as [->|]; [naive_solver|].
  destruct (String.eqb_spec (trim_space (sk_Kind e)) ""); [naive_solver|].
  destruct (String.eqb_spec (sk_Group e) ""); simpl; [naive_solver|].
  destruct (String.eqb_spec (trim_space (sk_Group e)) ""); naive_solver.
Qed.

Lemma first_error_valid {A} (f : nat → A → option ConfigError) (P : A → Prop) l :
  (∀ i x, f i x = None ↔ P x) → first_error f 0 l = None ↔ Forall P l.
Proof.
  intros H. rewrite first_error_None, Forall_lookup. setoid_rewrite H. done.
Qed.

(** ** Lemmas: versions *)

Lemma str_forall_digits s : str_forall is_digit s = all_digits s.
Proof. induction s as [|c s IH]; simpl; [done|]. by rewrite IH. Qed.

Lemma skip_digits_spec s : ∃ d, s = d +:+ skip_digits s ∧ all_digits d = true.
Proof.
  induction s as [|c s [d [E Hd]]]; simpl; [by exists ""|].
  destruct (is_digit c) eqn:C; [|by exists ""].
  exists (String c d). simpl. by rewrite C, Hd, <- E.
Qed.
Lemma skip_digits_app d r : all_digits d = true → skip_digits (d +:+ r) = skip_digits r.
Proof.
  induction d as [|c d IH]; simpl; [done|]. intros [Hc Hd]%andb_true_iff. rewrite Hc. auto.
Qed.

(** The shape of a Kubernetes API version. *)
Definition version_shape (s : string) : Prop :=
  ∃ d, d ≠ "" ∧ all_digits d = true ∧
    (s = "v" +:+ d ∨
     ∃ stage n, stage ∈ ["alpha"; "beta"] ∧ n ≠ "" ∧ all_digits n = true ∧
       s = "v" +:+ d +:+ stage +:+ n).

Lemma version_suffix_spec r : version_suffix ["alpha"; "beta"] r = true ↔
  ∃ stage n, stage ∈ ["alpha"; "beta"] ∧ n ≠ "" ∧ all_digits n = true ∧ r = stage +:+ n.
Proof.
  unfold version_suffix. rewrite !str_forall_digits.
  destruct (has_prefix "alpha" r) eqn:A; [|destruct (has_prefix "beta" r) eqn:B].
  - apply has_prefix_spec in A as [n ->]. rewrite str_drop_app, andb_true_iff, negb_true_iff, String.eqb_neq.
    split; [intros []; exists "alpha", n; repeat split; try done; by left|].
    intros (st & n' & [->|[->|[]%elem_of_nil]%elem_of_cons]%elem_of_cons & ? & ? & E); [|done].
    by injection E as ->.
  - apply has_prefix_spec in B as [n ->]. rewrite str_drop_app, andb_true_iff, negb_true_iff, String.eqb_neq.
    split; [intros []; exists "beta", n; repeat split; try done; right; by left|].
    intros (st & n' & [->|[->|[]%elem_of_nil]%elem_of_cons]%elem_of_cons & ? & ? & E); [done|].
    by injection E as ->.
  - split; [done|].
    intros (st & n' & [->|[->|[]%elem_of_nil]%elem_of_cons]%elem_of_cons & ? & ? & ->).
    + by rewrite has_prefix_app in A.
    + by rewrite has_prefix_app in B.
Qed.

Lemma stage_skip stage n : stage ∈ ["alpha"; "beta"] → skip_digits (stage +:+ n) = stage +:+ n.
Proof. by intros [->|[->|[]%elem_of_nil]%elem_of_cons]%elem_of_cons. Qed.

(** ** Properties *)

(** ResolveImmutableFields, read as a map from (group, kind, path) to the
    reason: a key the overlay suppresses loses its built-in row, then the
    appended entries for it are merged in file order, a non-empty reason
    replacing the one registered so far. *)
Theorem ResolveImmutableFields_lookup (c : Config) (builtins : list ImmutableField) (g k p : string) :
  im_lookup (ResolveImmutableFields (Some c) builtins) g k p =
  foldl merge_reason
    (if overlay_suppresses (cfg_ImmutableFields c) g k p then None else im_lookup builtins g k p)
    (overlay_reasons (cfg_ImmutableFields c) g k p).
Proof. simpl. by rewrite im_lookup_append_all, im_lookup_suppress_all. Qed.

Lemma elem_of_remove_all l out gk :
  gk ∈ foldl (λ out e, removeStateBearing out (sk_Group e) (sk_Kind e)) out l ↔
  gk ∈ out ∧ ∀ e, e ∈ l → gk_matches (sk_Group e) (sk_Kind e) gk = false.
Proof.
  revert out. induction l as [|e l IH]; intros out; simpl.
  - split; [|naive_solver]. intros ?. split; [done|]. by intros e ?%not_elem_of_nil.
  - rewrite IH. unfold removeStateBearing. rewrite list_elem_of_filter.
    setoid_rewrite elem_of_cons. naive_solver.
Qed.
Lemma NoDup_remove_all l out : NoDup out →
  NoDup (foldl (λ out e, removeStateBearing out (sk_Group e) (sk_Kind e)) out l).
Proof. revert out. induction l as [|e l IH]; intros out H; simpl; [done|]. by apply IH, NoDup_filter. Qed.

Lemma gk_matches_true g k gk : gk_matches g k gk = true ↔ gk = {| gk_Group := g; gk_Kind := k |}.
Proof.
  unfold gk_matches. rewrite andb_true_iff, !String.eqb_eq. destruct gk; simpl.
  split; [intros [-> ->]; done|by intros [= -> ->]].
Qed.
Lemma containsStateBearing_spec l g k :
  containsStateBearing l g k = true ↔ {| gk_Group := g; gk_Kind := k |} ∈ l.
Proof.
  unfold containsStateBearing. rewrite existsb_elem_of. setoid_rewrite gk_matches_true. naive_solver.
Qed.

Definition entry_gk (e : StateBearingKindEntry) : ArgoGroupKind :=
  {| gk_Group := sk_Group e; gk_Kind := sk_Kind e |}.

Lemma append_all_spec l out :
  let r := foldl (λ out e,
               if containsStateBearing out (sk_Group e) (sk_Kind e) then out
               else out ++ [{| gk_Group := sk_Group e; gk_Kind := sk_Kind e |}]) out l in
  (∀ gk, gk ∈ r ↔ gk ∈ out ∨ gk ∈ entry_gk <$> l) ∧ (NoDup out → NoDup r).
Proof.
  revert out. induction l as [|e l IH]; intros out; simpl.
  - split; [|done]. intros gk. rewrite elem_of_nil. tauto.
  - destruct (containsStateBearing out (sk_Group e) (sk_Kind e)) eqn:E.
    + destruct (IH out) as [H1 H2]. split; [|done]. intros gk. rewrite H1, elem_of_cons.
      apply containsStateBearing_spec in E. unfold entry_gk at 2. naive_solver.
    + destruct (IH (out ++ [entry_gk e])) as [H1 H2]. split.
      * intros gk. rewrite H1, elem_of_app, list_elem_of_singleton, elem_of_cons. tauto.
      * intros Hd. apply H2, NoDup_app. repeat split; [done| |apply NoDup_singleton].
        intros x Hx ->%list_elem_of_singleton. apply containsStateBearing_spec in Hx. congruence.
Qed.

(** ResolveStateBearingKinds yields exactly the built-ins that are not
    suppressed and the appended kinds, without duplicates: an entry that is
    both suppressed and appended IS in the result. *)
Theorem ResolveStateBearingKinds_spec (c : Config) (defaults : list ArgoGroupKind) :
  let r := ResolveStateBearingKinds (Some c) defaults in
  let overlay := cfg_StateBearingKinds c in
  NoDup defaults →
  NoDup r ∧
  ∀ gk, gk ∈ r ↔
    (gk ∈ defaults ∧ gk ∉ entry_gk <$> sbk_Suppress overlay) ∨ gk ∈ entry_gk <$> sbk_Append overlay.
Proof.
  intros r overlay Hd. subst r. unfold ResolveStateBearingKinds.
  destruct (append_all_spec (sbk_Append overlay)
    (foldl (λ out e, removeStateBearing out (sk_Group e) (sk_Kind e)) defaults (sbk_Suppress overlay)))
    as [H1 H2].
  split; [by apply H2, NoDup_remove_all|].
  intros gk. etrans; [apply H1|]. rewrite elem_of_remove_all. f_equiv. f_equiv.
  rewrite list_elem_of_fmap. split.
  - intros H (e & -> & He). apply H in He. pose proof (proj2 (gk_matches_true _ _ (entry_gk e)) eq_refl).
    unfold entry_gk in *. simpl in *. congruence.
  - intros H e He. apply not_true_iff_false. rewrite gk_matches_true. intros ->. apply H. by exists e.
Qed.
Definition kms_key : StateBearingKindEntry := MkStateBearingKindEntry "kms.aws.upbound.io" "Key".
Definition readd_config : Config :=
  {| zero_Config with cfg_StateBearingKinds := MkStateBearingKindsConfig [kms_key] [kms_key] |}.
Lemma ResolveStateBearingKinds_spec_witness :
  entry_gk kms_key ∈ ResolveStateBearingKinds (Some readd_config) StateBearingKindsRegistry.
Proof.
  destruct (ResolveStateBearingKinds_spec readd_config StateBearingKindsRegistry) as [_ H].
  - apply (bool_decide_eq_true_1 _). vm_compute. reflexivity.
  - apply H. right. apply list_elem_of_singleton. reflexivity.
Defined.

(** the resolved bypass keys have no duplicate and no empty key; they are
    the effective primary (the user's, if set, in place of the built-in) and
    every alias, and the primary comes first. *)
Theorem mergeBypass_spec (builtinPrimary : string) (builtinAliases : list string) (user : BypassKeyConfig) :
  let primary := if String.eqb (bk_Primary user) "" then builtinPrimary else bk_Primary user in
  let r := mergeBypass builtinPrimary builtinAliases user in
  NoDup r ∧
  (∀ s, s ∈ r ↔ s ≠ "" ∧ (s = primary ∨ s ∈ builtinAliases ∨ s ∈ bk_Aliases user)) ∧
  (primary ≠ "" → hd "" r = primary).
Proof.
  intros primary r. subst r. unfold mergeBypass. fold primary.
  set (out := if String.eqb primary "" then [] else [primary]).
  assert (Hout : ∀ s, s ∈ out ↔ s = primary ∧ s ≠ "").
  { intros s. subst out. destruct (String.eqb_spec primary "") as [->|];
      rewrite ?elem_of_nil, ?list_elem_of_singleton; naive_solver. }
  repeat split.
  - apply NoDup_add_strings, NoDup_add_strings. subst out.
    destruct (String.eqb primary ""); repeat constructor. by intros ?%not_elem_of_nil.
  - apply elem_of_add_strings in H as [H|[_ ?]]; [|done].
    apply elem_of_add_strings in H as [H|[_ ?]]; [|done]. by apply Hout in H as [_ ?].
  - apply elem_of_add_strings in H as [H|[? _]]; [|auto].
    apply elem_of_add_strings in H as [H|[? _]]; [|auto]. left. by apply Hout in H as [? _].
  - intros [Hs [?|[?|?]]]; rewrite !elem_of_add_strings; rewrite Hout; auto.
  - intros Hp. subst out. rewrite (proj2 (String.eqb_neq primary "") Hp).
    destruct (prefix_add_strings [primary] builtinAliases) as [k1 ->].
    by destruct (prefix_add_strings ([primary] ++ k1) (bk_Aliases user)) as [k2 ->].
Qed.

(** the documented contract of the loader's fall-back: Default(), an empty
    Config{} and a nil config resolve to the same settings everywhere. *)
Theorem Default_resolves_as_nil (imm : list ImmutableField) (kinds : list ArgoGroupKind) (cfg : Config) :
  cfg = Default ∨ cfg = zero_Config →
  ResolveProdPatterns (Some cfg) = ResolveProdPatterns None ∧
  ResolveExternalSecretStoreNames (Some cfg) = ResolveExternalSecretStoreNames None ∧
  ResolveEnvLabel (Some cfg) = ResolveEnvLabel None ∧
  ResolveAllowedProviderConfigs (Some cfg) = ResolveAllowedProviderConfigs None ∧
  ResolveAllowDeleteKeys (Some cfg) = ResolveAllowDeleteKeys None ∧
  ResolveAllowImmutableChangeKeys (Some cfg) = ResolveAllowImmutableChangeKeys None ∧
  ResolveCrossplaneStateNeedsOrphanCarveouts (Some cfg) =
    ResolveCrossplaneStateNeedsOrphanCarveouts None ∧
  ResolveImmutableFields (Some cfg) imm = ResolveImmutableFields None imm ∧
  ResolveStateBearingKinds (Some cfg) kinds = ResolveStateBearingKinds None kinds.
Proof. intros [-> | ->]; done. Qed.
Lemma Default_resolves_as_nil_witness :
  ResolveAllowDeleteKeys (Some Default) = ResolveAllowDeleteKeys None.
Proof. apply (Default_resolves_as_nil [] [] Default). by left. Defined.

(** validate accepts a config exactly when its version is omitted or
    current, every overlay entry has a well-formed GVK and non-empty paths, and
    every kind entry is non-blank; what it returns is the config with the
    version filled in. *)
Theorem validate_accepts (c c' : Config) :
  validate c = inr c' ↔
  (cfg_Version c = 0%Z ∨ cfg_Version c = CurrentVersion) ∧
  Forall valid_immutable (cfg_ImmutableFields c) ∧
  Forall valid_kind (sbk_Append (cfg_StateBearingKinds c)) ∧
  Forall valid_kind (sbk_Suppress (cfg_StateBearingKinds c)) ∧
  c' = {| c with cfg_Version := CurrentVersion |}.
Proof.
  unfold validate.
  rewrite <- (first_error_valid validate_immutable) by apply validate_immutable_None.
  rewrite <- (first_error_valid (validate_kind "append")) by apply validate_kind_None.
  rewrite <- (first_error_valid (validate_kind "suppress")) by apply validate_kind_None.
  set (cfg := if Z.eqb (cfg_Version c) 0 then _ else c).
  assert (Hf : cfg_ImmutableFields cfg = cfg_ImmutableFields c ∧
               cfg_StateBearingKinds cfg = cfg_StateBearingKinds c)
    by (subst cfg; by destruct (Z.eqb _ _)).
  destruct Hf as [-> ->].
  destruct (Z.eqb_spec (cfg_Version cfg) CurrentVersion) as [Hv|Hv]; simpl.
  - assert (cfg_Version c = 0%Z ∨ cfg_Version c = CurrentVersion).
    { subst cfg. destruct (Z.eqb_spec (cfg_Version c) 0); auto. }
    assert (Hc : cfg = {| c with cfg_Version := CurrentVersion |}).
    { subst cfg. destruct c; simpl in *. destruct (Z.eqb_spec cfg_Version0 0); simpl in *; congruence. }
    destruct (first_error validate_immutable _ _); [naive_solver|].
    destruct (first_error (validate_kind "append") _ _); [naive_solver|].
    destruct (first_error (validate_kind "suppress") _ _); [naive_solver|].
    rewrite <- Hc. naive_solver.
  - split; [done|]. intros [[H|H] _]; destruct Hv; subst cfg; rewrite H; done.
Qed.

(** looksLikeVersion accepts exactly v<digits>, v<digits>alpha<digits> and
    v<digits>beta<digits>. *)
Theorem looksLikeVersion_spec (s : string) : looksLikeVersion s = true ↔ version_shape s.
Proof.
  unfold version_shape. split.
  - unfold looksLikeVersion. destruct s as [|v [|d t]]; try done.
    destruct (Ascii.eqb_spec v "v") as [->|]; [simpl|done].
    destruct (is_digit d) eqn:Hd; [|done].
    destruct (skip_digits_spec t) as (ds & E & Hds). intros H.
    exists (String d ds). simpl. rewrite Hd, Hds. repeat split; [done|].
    destruct (String.eqb_spec (skip_digits t) "") as [Hr|Hr].
    + left. rewrite Hr, app_str_nil_r in E. by subst t.
    + right. apply version_suffix_spec in H as (st & n & Hst & Hn & Hn' & Hr').
      exists st, n. repeat split; try done. by rewrite E, Hr'.
  - intros (d & Hd & Had & Hs). destruct d as [|d ds]; [done|].
    simpl in Had. apply andb_true_iff in Had as [Hd0 Had].
    assert (Hgen : ∀ r, looksLikeVersion ("v" +:+ String d ds +:+ r) =
      if String.eqb (skip_digits r) "" then true else version_suffix ["alpha"; "beta"] (skip_digits r)).
    { intros r. simpl. by rewrite Hd0, skip_digits_app. }
    destruct Hs as [->|(st & n & Hst & Hn & Hn' & ->)].
    + rewrite <- (app_str_nil_r (String d ds)), Hgen. done.
    + rewrite Hgen, stage_skip by done. destruct (String.eqb_spec (st +:+ n) ""); [done|].
      apply version_suffix_spec. eauto 6.
Qed.
