(* ===== verification/PathWalk.v ===== *)
(** Field paths over decoded documents (src/pkg/ir/path_walk.go): parsing
    "spec.xs[*].k", walking it with wildcards ([WalkPath]) and reading a plain
    dotted path ([ReadPath]). *)
From Stdlib Require Import ZArith.
From S2P Require Import Prelude GoStrings Yaml.

#[local] Open Scope string_scope.
#[local] Open Scope list_scope.
#[local] Open Scope nat_scope.

(** ** Data *)

Record PathHit : Type := MkPathHit { ph_Path : string; ph_Value : value }.

Record pathSegment : Type := MkPathSegment {
  ps_key : string;
  ps_index : Z;
  ps_isIndex : bool;
  ps_isWildcard : bool;
}.
(** The three shapes the parser builds. *)
Definition key_seg (k : string) : pathSegment := MkPathSegment k 0 false false.
Definition index_seg (i : Z) : pathSegment := MkPathSegment "" i true false.
Definition wild_seg : pathSegment := MkPathSegment "" 0 true true.

(** ** Parsing *)

(** The body of one bracket: the [switch inside]. *)
Definition bracket_seg (inside : string) : option pathSegment :=
  if String.eqb inside "" || String.eqb inside "*" then Some wild_seg
  else match atoi inside with
       | Some n => if (n <? 0)%Z then None else Some (index_seg n)
       | None => None
       end.

(** [for len(rest) > 0 { ... }]: every iteration drops at least two bytes. *)
Fixpoint parse_brackets (fuel : nat) (rest : string) : option (list pathSegment) :=
  match fuel with
  | 0 => if String.eqb rest "" then Some [] else None
  | S fuel =>
      match rest with
      | "" => Some []
      | String c body =>
          if negb (Ascii.eqb c "[") then None
          else match cut_char "]" body with
               | None => None
               | Some (inside, rest') =>
                   match bracket_seg inside with
                   | None => None
                   | Some seg => option_map (cons seg) (parse_brackets fuel rest')
                   end
               end
      end
  end.

(** One dot-separated chunk: a key, then brackets. *)
Definition parse_part (p : string) : option (list pathSegment) :=
  if String.eqb p "" then None
  else match cut_char "[" p with
       | Some (k, rest) =>
           option_map (app (if String.eqb k "" then [] else [key_seg k]))
             (parse_brackets (String.length p) (String "[" rest))
       | None => Some [key_seg p]
       end.

Fixpoint parse_parts (parts : list string) : option (list pathSegment) :=
  match parts with
  | [] => Some []
  | p :: parts =>
      match parse_part p with
      | Some segs => option_map (app segs) (parse_parts parts)
      | None => None
      end
  end.
Definition parsePath (path : string) : option (list pathSegment) := parse_parts (split_on "." path).

(** ** Walking *)

Definition bracketed (i : Z) : string := "[" +:+ itoa i +:+ "]".
Definition sub_key (concretePath key : string) : string :=
  if String.eqb concretePath "" then key else concretePath +:+ "." +:+ key.

Fixpoint walkSegments (segments : list pathSegment) (concretePath : string) (val : value)
  : list PathHit :=
  match segments with
  | [] => match val with VNull => [] | _ => [MkPathHit concretePath val] end
  | seg :: segments =>
      if ps_isIndex seg then
        match val with
        | VList arr =>
            if ps_isWildcard seg then
              mjoin (imap (λ i el,
                walkSegments segments (concretePath +:+ bracketed (Z.of_nat i)) el) arr)
            else if (Z.of_nat (length arr) <=? ps_index seg)%Z then []
            else match arr !! Z.to_nat (ps_index seg) with
                 | Some el => walkSegments segments (concretePath +:+ bracketed (ps_index seg)) el
                 | None => []
                 end
        | _ => []
        end
      else
        match val with
        | VMap m =>
            match lookup_key m (ps_key seg) with
            | Some next => walkSegments segments (sub_key concretePath (ps_key seg)) next
            | None => []
            end
        | _ => []
        end
  end.

Definition WalkPath (r : raw) (path : string) : list PathHit :=
  match r with
  | None => []
  | Some m =>
      if String.eqb path "" then []
      else match parsePath path with
           | Some segments => walkSegments segments "" (VMap m)
           | None => []
           end
  end.

(** [ReadPath]: named keys only. *)
Fixpoint read_segments (segments : list string) (cur : value) : option value :=
  match segments with
  | [] => None
  | seg :: rest =>
      if String.eqb seg "" then None
      else match cur with
           | VMap m =>
               match lookup_key m seg with
               | Some next => match rest with [] => Some next | _ => read_segments rest next end
               | None => None
               end
           | _ => None
           end
  end.
Definition ReadPath (r : raw) (dottedPath : string) : option value :=
  match r with
  | None => None
  | Some m =>
      if String.eqb dottedPath "" then None else read_segments (split_on "." dottedPath) (VMap m)
  end.

Example parse_ex : parsePath "spec.xs[0].k[*][]" =
  Some [key_seg "spec"; key_seg "xs"; index_seg 0; key_seg "k"; wild_seg; wild_seg].
Proof. reflexivity. Qed.
Example parse_bad : map parsePath ["a..b"; "a[-1]"; "a[0]b"; "a[x]"; "a[0"; "a[0.b]"] =
  [None; None; None; None; None; None].
Proof. reflexivity. Qed.

(** ** Lemmas: concrete paths print and parse back *)

Definition key_ok (k : string) : Prop :=
  k ≠ "" ∧ has_char "." k = false ∧ has_char "[" k = false.
Definition index_ok (i : Z) : Prop := (0 <= i < 2 ^ 63)%Z.

(** The text a concrete segment list appends to a non-empty prefix. *)
Fixpoint render_rest (segs : list pathSegment) : string :=
  match segs with
  | [] => ""
  | s :: segs =>
      (if ps_isIndex s then bracketed (ps_index s) else "." +:+ ps_key s) +:+ render_rest segs
  end.
Inductive concrete : pathSegment → Prop :=
  | concrete_key k : key_ok k → concrete (key_seg k)
  | concrete_index i : index_ok i → concrete (index_seg i).

Definition brackets (ix : list Z) : string := foldr (λ i s, bracketed i +:+ s) "" ix.

Lemma brackets_app ix jx : brackets (ix ++ jx) = brackets ix +:+ brackets jx.
Proof. induction ix as [|i ix IH]; [done|]. cbn [app brackets foldr]. rewrite app_str_assoc. f_equal. apply IH. Qed.

Lemma bracket_seg_itoa i : index_ok i → bracket_seg (itoa i) = Some (index_seg i).
Proof.
  intros [H0 H1]. unfold bracket_seg. destruct (itoa_digits i H0) as [Hne Hd].
  rewrite (proj2 (String.eqb_neq _ _) Hne).
  destruct (String.eqb_spec (itoa i) "*") as [E|_]; [by rewrite E in Hd|]. simpl.
  rewrite atoi_itoa by done. by rewrite (proj2 (Z.ltb_ge i 0) H0).
Qed.

Lemma parse_brackets_brackets ix fuel :
  Forall index_ok ix → length ix ≤ fuel → parse_brackets fuel (brackets ix) = Some (map index_seg ix).
Proof.
  intros H. revert fuel. induction H as [|i ix Hi _ IH]; intros fuel Hf; [by destruct fuel|].
  destruct fuel as [|fuel]; simpl in *; [lia|].
  rewrite app_str_assoc. change ("]" +:+ ?s) with (String "]" s).
  rewrite cut_char_app by (apply itoa_no_char; [apply Hi|done]).
  rewrite bracket_seg_itoa, IH by (done || lia). done.
Qed.

Lemma length_brackets ix : length ix ≤ String.length (brackets ix).
Proof. induction ix as [|i ix IH]; simpl; [done|]. rewrite !length_app_str. simpl. lia. Qed.

Lemma has_char_bracketed c i : is_digit c = false → Ascii.eqb c "[" = false →
  Ascii.eqb c "]" = false → index_ok i → has_char c (bracketed i) = false.
Proof.
  intros Hd H1 H2 Hi. unfold bracketed.
  rewrite !has_char_app, (itoa_no_char c i) by (done || apply Hi).
  by rewrite !has_char_cons, H1, H2.
Qed.

Lemma has_char_brackets c ix : is_digit c = false → Ascii.eqb c "[" = false →
  Ascii.eqb c "]" = false → Forall index_ok ix → has_char c (brackets ix) = false.
Proof.
  intros Hd H1 H2. induction 1 as [|i ix Hi _ IH]; [done|].
  cbn [brackets foldr]. fold (brackets ix). by rewrite has_char_app, has_char_bracketed.
Qed.

Lemma parse_part_concrete k ix : key_ok k → Forall index_ok ix →
  parse_part (k +:+ brackets ix) = Some (key_seg k :: map index_seg ix).
Proof.
  intros (Hk & _ & Hb) Hi. unfold parse_part.
  destruct (String.eqb_spec (k +:+ brackets ix) "") as [[-> _]%app_str_eq_nil|_]; [done|].
  destruct ix as [|i ix].
  - simpl. rewrite app_str_nil_r. by rewrite cut_char_None.
  - pose proof (parse_brackets_brackets (i :: ix) (String.length (k +:+ brackets (i :: ix))) Hi) as HP.
    cbn [brackets foldr] in *. unfold bracketed in *. change ("[" +:+ ?s) with (String "[" s) in *.
    cbn [String.append] in *. rewrite cut_char_app by done.
    rewrite HP, (proj2 (String.eqb_neq k "") Hk); [done|].
    rewrite length_app_str. pose proof (length_brackets (i :: ix)) as HL.
    cbn [brackets foldr] in HL. unfold bracketed in HL. change ("[" +:+ ?s) with (String "[" s) in HL.
    cbn [String.append] in HL. lia.
Qed.

Lemma parse_parts_render segs k ix :
  Forall concrete segs → key_ok k → Forall index_ok ix →
  parse_parts (split_on "." (k +:+ brackets ix +:+ render_rest segs)) =
  Some (key_seg k :: map index_seg ix ++ segs).
Proof.
  intros H. revert k ix. induction H as [|s segs Hs _ IH]; intros k ix Hk Hi; cbn [render_rest].
  - rewrite app_str_nil_r, split_on_no_char.
    + simpl. rewrite parse_part_concrete by done. simpl. by rewrite !app_nil_r.
    + rewrite has_char_app, has_char_brackets by done. by rewrite (proj1 (proj2 Hk)).
  - destruct Hs as [k' Hk'|i Hi']; cbn [ps_isIndex ps_key ps_index key_seg index_seg].
    + rewrite app_str_assoc, <- (app_str_assoc k). change ("." +:+ ?s) with (String "." s).
      rewrite split_on_app.
      * cbn [parse_parts]. rewrite parse_part_concrete by done.
        change (k' +:+ render_rest segs) with (k' +:+ brackets [] +:+ render_rest segs).
        rewrite (IH k' [] Hk') by constructor. done.
      * rewrite has_char_app, has_char_brackets by done. by rewrite (proj1 (proj2 Hk)).
    + rewrite <- (app_str_assoc (brackets ix)).
      replace (brackets ix +:+ bracketed i) with (brackets (ix ++ [i]))
        by (rewrite brackets_app; simpl; by rewrite app_str_nil_r).
      rewrite IH; [|done|by apply Forall_app; split; [|constructor]].
      by rewrite map_app, <- app_assoc.
Qed.

Lemma parsePath_render k segs : key_ok k → Forall concrete segs →
  parsePath (k +:+ render_rest segs) = Some (key_seg k :: segs).
Proof.
  intros Hk Hs. unfold parsePath. apply (parse_parts_render segs k []); [done..|constructor].
Qed.

(** ** Lemmas: what the parser builds *)

Inductive parsed : pathSegment → Prop :=
  | parsed_key k : key_ok k → parsed (key_seg k)
  | parsed_index i : index_ok i → parsed (index_seg i)
  | parsed_wild : parsed wild_seg.

Lemma atoi_range s n : atoi s = Some n → (n < 2 ^ 63)%Z.
Proof.
  unfold atoi. destruct (match s with "" => None | String _ _ => _ end) as [z|]; [|done].
  destruct (in_int64 z) eqn:E; [|done]. intros [= <-]. unfold in_int64 in E.
  apply andb_true_iff in E as [_ ?%Z.ltb_lt]. done.
Qed.
Lemma bracket_seg_parsed s seg : bracket_seg s = Some seg → parsed seg.
Proof.
  unfold bracket_seg. destruct (_ || _); [intros [= <-]; constructor|].
  destruct (atoi s) as [n|] eqn:E; [|done]. destruct (Z.ltb_spec n 0); [done|].
  intros [= <-]. constructor. split; [done|]. by eapply atoi_range.
Qed.
Lemma parse_brackets_parsed fuel s segs : parse_brackets fuel s = Some segs → Forall parsed segs.
Proof.
  revert s segs. induction fuel as [|fuel IH]; intros s segs; simpl.
  - destruct (String.eqb s ""); [|done]. intros [= <-]. constructor.
  - destruct s as [|c body]; [intros [= <-]; constructor|].
    destruct (negb _); [done|]. destruct (cut_char "]" body) as [[inside rest']|]; [|done].
    destruct (bracket_seg inside) as [seg|] eqn:E; [|done].
    destruct (parse_brackets fuel rest') as [segs'|] eqn:E'; [|done].
    intros [= <-]. constructor; [by eapply bracket_seg_parsed|eauto].
Qed.
Lemma parse_part_parsed p segs : has_char "." p = false → parse_part p = Some segs → Forall parsed segs.
Proof.
  unfold parse_part. intros Hp. destruct (String.eqb_spec p ""); [done|].
  destruct (cut_char "[" p) as [[k rest]|] eqn:E.
  - destruct (parse_brackets _ _) as [segs'|] eqn:E'; [|done]. intros [= <-].
    apply cut_char_Some in E as [-> Hk]. rewrite has_char_app, orb_false_iff in Hp. destruct Hp.
    apply Forall_app; split; [|by eapply parse_brackets_parsed].
    destruct (String.eqb_spec k ""); repeat constructor; done.
  - intros [= <-]. repeat constructor; [done|done|].
    unfold has_char. by rewrite E.
Qed.
Lemma parsePath_parsed path segs : parsePath path = Some segs → Forall parsed segs.
Proof.
  unfold parsePath. pose proof (split_on_parts "." path) as H. revert segs.
  induction H as [|p ps Hp _ IH]; intros segs; simpl; [intros [= <-]; constructor|].
  destruct (parse_part p) as [s1|] eqn:E1; [|done].
  destruct (parse_parts ps) as [s2|]; [|done]. intros [= <-].
  apply Forall_app; split; [by eapply parse_part_parsed|auto].
Qed.

(** ** The resolutions of a path: the specification of the walk *)

Definition at_index (arr : list value) (i : Z) (el : value) : Prop :=
  (0 <= i)%Z ∧ arr !! Z.to_nat i = Some el.

(** [Resolves segs v cs w]: replacing wildcards of [segs] by indices gives the
    concrete segments [cs], which lead from [v] to the non-nil value [w]. *)
Inductive Resolves : list pathSegment → value → list pathSegment → value → Prop :=
  | Resolves_nil v : v ≠ VNull → Resolves [] v [] v
  | Resolves_key k segs m next cs w :
      lookup_key m k = Some next → Resolves segs next cs w →
      Resolves (key_seg k :: segs) (VMap m) (key_seg k :: cs) w
  | Resolves_index i segs arr el cs w :
      at_index arr i el → Resolves segs el cs w →
      Resolves (index_seg i :: segs) (VList arr) (index_seg i :: cs) w
  | Resolves_wild i segs arr el cs w :
      at_index arr i el → Resolves segs el cs w →
      Resolves (wild_seg :: segs) (VList arr) (index_seg i :: cs) w.

Definition render_step (p : string) (s : pathSegment) : string :=
  if ps_isIndex s then p +:+ bracketed (ps_index s) else sub_key p (ps_key s).
Definition render (p : string) (cs : list pathSegment) : string := foldl render_step p cs.

Lemma render_nonempty p cs : p ≠ "" → render p cs = p +:+ render_rest cs.
Proof.
  revert p. induction cs as [|s cs IH]; intros p Hp; simpl; [by rewrite app_str_nil_r|].
  unfold render in IH. unfold render_step, sub_key. rewrite (proj2 (String.eqb_neq p "") Hp).
  destruct (ps_isIndex s); rewrite IH by (rewrite app_str_eq_nil; tauto); by rewrite ?app_str_assoc.
Qed.

Lemma at_index_length arr i el : at_index arr i el → (Z.of_nat (length arr) <=? i)%Z = false.
Proof. intros [H0 Hl%lookup_lt_Some]. apply Z.leb_gt. lia. Qed.

Lemma walk_resolves segs p v h : Forall parsed segs →
  h ∈ walkSegments segs p v ↔
  ∃ cs, Resolves segs v cs (ph_Value h) ∧ ph_Path h = render p cs.
Proof.
  intros Hs. revert p v. induction Hs as [|s segs Hs _ IH]; intros p v.
  - simpl. split.
    + destruct v; intros H; try (by apply not_elem_of_nil in H); apply list_elem_of_singleton in H as ->;
        exists []; (split; [by constructor|done]).
    + intros (cs & H & E). inversion H; subst. destruct h as [q w]; simpl in *; subst.
      destruct w; try done; by left.
  - destruct Hs as [k Hk|i Hi|]; simpl.
    + split.
      * destruct v; try by intros ?%not_elem_of_nil. destruct (lookup_key m k) as [next|] eqn:E;
          [|by intros ?%not_elem_of_nil]. intros (cs & H & E')%IH.
        exists (key_seg k :: cs). split; [by econstructor|done].
      * intros (cs & H & E). inversion H; subst. match goal with H : lookup_key _ _ = _ |- _ => rewrite H end.
        apply IH. eauto.
    + split.
      * destruct v; try by intros ?%not_elem_of_nil. destruct (Z.leb_spec (Z.of_nat (length l)) i);
          [by intros ?%not_elem_of_nil|]. destruct (l !! Z.to_nat i) as [el|] eqn:E;
          [|by intros ?%not_elem_of_nil]. intros (cs & H' & E')%IH.
        exists (index_seg i :: cs). split; [econstructor; [split|]; try done; apply Hi|done].
      * intros (cs & H & E). inversion H; subst.
        match goal with H : at_index _ _ _ |- _ => rewrite (at_index_length _ _ _ H), (proj2 H) end.
        apply IH. eauto.
    + split.
      * destruct v; try by intros ?%not_elem_of_nil.
        intros (hs & Hh & Hhs)%list_elem_of_join. apply elem_of_lookup_imap in Hhs as (i & el & -> & Hel).
        apply IH in Hh as (cs & H' & E').
        exists (index_seg (Z.of_nat i) :: cs). split; [|done].
        econstructor; [split; [lia|by rewrite Nat2Z.id]|done].
      * intros (cs & H & E). inversion H; subst.
        match goal with H : at_index _ _ _ |- _ => destruct H end.
        apply list_elem_of_join. eexists. split; [apply IH; eauto|].
        apply elem_of_lookup_imap. eexists (Z.to_nat i), _. split; [|done]. by rewrite Z2Nat.id.
Qed.

Lemma walk_concrete segs v cs w p : Resolves segs v cs w →
  walkSegments cs p v = [MkPathHit (render p cs) w].
Proof.
  intros H. revert p. induction H as [v Hv|k segs m next cs w E _ IH|i segs arr el cs w E _ IH|i segs arr el cs w E _ IH];
    intros p; simpl.
  - by destruct v.
  - by rewrite E, IH.
  - by rewrite (at_index_length _ _ _ E), (proj2 E), IH.
  - by rewrite (at_index_length _ _ _ E), (proj2 E), IH.
Qed.

(** Slices have fewer than 2^63 elements, as on every 64-bit Go platform. *)
Fixpoint lists_fit (v : value) : Prop :=
  match v with
  | VList l => (Z.of_nat (length l) < 2 ^ 63)%Z ∧
      (fix go l := match l with [] => True | v :: l => lists_fit v ∧ go l end) l
  | VMap m => (fix go m := match m with [] => True | (_, v) :: m => lists_fit v ∧ go m end) m
  | _ => True
  end.
Lemma lists_fit_lookup m k v : lists_fit (VMap m) → lookup_key m k = Some v → lists_fit v.
Proof.
  intros H E%lookup_key_elem_of. simpl in H. induction m as [|[k' v'] m IH]; [by apply not_elem_of_nil in E|].
  destruct H. apply elem_of_cons in E as [[= -> ->]|]; auto.
Qed.
Lemma lists_fit_elem l i v : lists_fit (VList l) → l !! i = Some v → lists_fit v.
Proof.
  intros [_ H] E. revert i E. induction l as [|x l IH]; intros i E; [done|].
  destruct H, i; simplify_eq/=; eauto.
Qed.

Lemma resolves_concrete segs v cs w :
  Resolves segs v cs w → Forall parsed segs → lists_fit v → Forall concrete cs.
Proof.
  induction 1 as [v Hv|k segs m next cs w E _ IH|i segs arr el cs w E _ IH|i segs arr el cs w E _ IH];
    intros Hp Hf; constructor; inversion_clear Hp as [|? ? Hp0 Hp1].
  - inversion Hp0; subst; by constructor.
  - apply IH; [done|]. by eapply lists_fit_lookup.
  - inversion Hp0; subst; by constructor.
  - apply IH; [done|]. eapply lists_fit_elem; [done|apply E].
  - constructor. destruct E as [H0 Hl%lookup_lt_Some]. destruct Hf as [Hf _]. split; lia.
  - apply IH; [done|]. eapply lists_fit_elem; [done|apply E].
Qed.

Lemma parsePath_nonempty path segs : parsePath path = Some segs → path ≠ "".
Proof. by intros H ->. Qed.

Lemma parse_brackets_cons fuel c s segs : parse_brackets fuel (String c s) = Some segs → segs ≠ [].
Proof.
  destruct fuel as [|fuel]; simpl; [done|]. destruct (negb _); [done|].
  destruct (cut_char "]" s) as [[i r]|]; [|done]. destruct (bracket_seg i); [|done].
  destruct (parse_brackets fuel r); [|done]. by intros [= <-].
Qed.
Lemma parse_part_cons p segs : parse_part p = Some segs → segs ≠ [].
Proof.
  unfold parse_part. destruct (String.eqb p ""); [done|].
  destruct (cut_char "[" p) as [[k r]|]; [|by intros [= <-]].
  destruct (parse_brackets _ _) as [s|] eqn:E; [|done]. apply parse_brackets_cons in E.
  intros [= <-]. by destruct (String.eqb k ""), s.
Qed.
Lemma parsePath_cons path segs : parsePath path = Some segs → segs ≠ [].
Proof.
  unfold parsePath. pose proof (split_on_nonempty "." path). destruct (split_on "." path) as [|p ps]; [done|].
  simpl. destruct (parse_part p) as [s1|] eqn:E; [|done]. apply parse_part_cons in E.
  destruct (parse_parts ps); [|done]. intros [= <-]. by destruct s1.
Qed.

Lemma render_key k cs : k ≠ "" → render "" (key_seg k :: cs) = k +:+ render_rest cs.
Proof. intros Hk. by rewrite <- render_nonempty. Qed.

Lemma elem_of_WalkPath (m : obj) (path : string) (h : PathHit) :
  h ∈ WalkPath (Some m) path ↔
  ∃ segs cs, parsePath path = Some segs ∧ Resolves segs (VMap m) cs (ph_Value h) ∧
             ph_Path h = render "" cs.
Proof.
  simpl. destruct (String.eqb_spec path "") as [->|Hne].
  - split; [by intros ?%not_elem_of_nil|]. intros (segs & cs & H & _). by apply parsePath_nonempty in H.
  - destruct (parsePath path) as [segs|] eqn:E.
    + rewrite walk_resolves by (by eapply parsePath_parsed). naive_solver.
    + split; [by intros ?%not_elem_of_nil|]. by intros (? & ? & ? & _).
Qed.

(** ** Properties *)

(** C28: the hits of WalkPath are exactly the resolutions of the parsed path:
    each wildcard replaced by an index within bounds, every key present, the
    final value not nil, and the reported path the rendering of those concrete
    segments. *)
Theorem WalkPath_spec (m : obj) (path : string) (h : PathHit) :
  h ∈ WalkPath (Some m) path ↔
  ∃ segs cs, parsePath path = Some segs ∧ Resolves segs (VMap m) cs (ph_Value h) ∧
             ph_Path h = render "" cs.
Proof. apply elem_of_WalkPath. Qed.

Lemma walk_hit_concrete m path h : lists_fit (VMap m) → h ∈ WalkPath (Some m) path →
  ∃ k cs, key_ok k ∧ Forall concrete cs ∧ (∃ segs, Resolves segs (VMap m) (key_seg k :: cs) (ph_Value h)) ∧
          ph_Path h = k +:+ render_rest cs.
Proof.
  intros Hf (segs & cs & Hp & Hr & E)%elem_of_WalkPath.
  pose proof (resolves_concrete _ _ _ _ Hr (parsePath_parsed _ _ Hp) Hf) as Hc.
  apply parsePath_cons in Hp. inversion Hr; subst; [done|].
  inversion_clear Hc as [|? ? Hk Hc']. inversion Hk; subst.
  exists k, cs0. repeat split; try done; try apply H1; [by exists (key_seg k :: segs0)|].
  rewrite E. apply render_key, H1.
Qed.

(** the concrete path a hit reports is a path to exactly that hit: walking
    it again yields the hit and nothing else. *)
Theorem WalkPath_rewalk (m : obj) (path : string) (h : PathHit) :
  lists_fit (VMap m) → h ∈ WalkPath (Some m) path → WalkPath (Some m) (ph_Path h) = [h].
Proof.
  intros Hf Hh. apply walk_hit_concrete in Hh as (k & cs & Hk & Hc & Hr & E); [|done].
  destruct Hr as [segs Hr]. unfold WalkPath. rewrite E.
  pose proof Hk as [Hne _]. destruct (String.eqb_spec (k +:+ render_rest cs) "") as [H0|_].
  { by apply app_str_eq_nil in H0 as [? _]. }
  rewrite parsePath_render, (walk_concrete _ _ _ _ "" Hr), render_key, <- E by done. by destruct h.
Qed.
Definition sample_doc : obj :=
  [("spec", VMap [("xs", VList [VMap [("k", VInt 1)]; VMap [("k", VInt 2)]])])].
Lemma WalkPath_rewalk_witness :
  WalkPath (Some sample_doc) "spec.xs[1].k" = [MkPathHit "spec.xs[1].k" (VInt 2)].
Proof.
  apply (WalkPath_rewalk sample_doc "spec.xs[].k" (MkPathHit "spec.xs[1].k" (VInt 2))).
  - simpl. repeat split.
  - vm_compute. right. left.
Defined.

(** ** ReadPath *)

Lemma parse_parts_keys parts : Forall (λ p, has_char "[" p = false) parts →
  parse_parts parts = if contains_string parts "" then None else Some (map key_seg parts).
Proof.
  unfold contains_string. induction 1 as [|p ps Hp _ IH]; [done|]. cbn [parse_parts existsb map].
  unfold parse_part. rewrite String.eqb_sym. destruct (String.eqb_spec "" p) as [|_]; [done|].
  rewrite cut_char_None, IH by done. cbn [orb]. by destruct (existsb (String.eqb "") ps).
Qed.
Lemma read_empty parts v : "" ∈ parts → read_segments parts v = None.
Proof.
  intros H. revert v. induction parts as [|p ps IH]; intros v; [done|]. simpl.
  destruct (String.eqb_spec p "") as [|Hp]; [done|].
  apply elem_of_cons in H as [?|H]; [congruence|]. destruct v; try done.
  destruct (lookup_key m p) as [next|]; [|done]. destruct ps; [by apply not_elem_of_nil in H|].
  by apply IH.
Qed.
Lemma walk_keys parts p v : parts ≠ [] → "" ∉ parts →
  walkSegments (map key_seg parts) p v =
  match read_segments parts v with
  | Some w => walkSegments [] (render p (map key_seg parts)) w
  | None => []
  end.
Proof.
  revert p v. induction parts as [|k ps IH]; intros p v Hne Hin; [done|].
  apply not_elem_of_cons in Hin as [Hk Hin]. simpl map. cbn [walkSegments read_segments].
  rewrite (proj2 (String.eqb_neq k "")) by congruence. simpl ps_isIndex. cbv iota.
  destruct v; try done. simpl ps_key. destruct (lookup_key m k) as [next|]; [|done].
  destruct ps as [|k' ps']; [done|]. rewrite IH by done. done.
Qed.

Lemma render_rest_keys k ps : k +:+ render_rest (map key_seg ps) = join "." (k :: ps).
Proof.
  revert k. induction ps as [|q ps IH]; intros k; [apply app_str_nil_r|].
  change (join "." (k :: q :: ps)) with (k +:+ "." +:+ join "." (q :: ps)).
  by rewrite <- IH.
Qed.

(** on a path without brackets the two readers agree: WalkPath yields the
    value ReadPath returns, under the path itself, unless that value is nil. *)
Theorem WalkPath_ReadPath (r : raw) (path : string) :
  has_char "[" path = false →
  WalkPath r path =
  match ReadPath r path with
  | Some VNull | None => []
  | Some v => [MkPathHit path v]
  end.
Proof.
  intros Hb. destruct r as [m|]; [|done]. simpl. destruct (String.eqb_spec path "") as [|Hne]; [done|].
  unfold parsePath. pose proof (join_split_on "." path) as Hj.
  pose proof (split_on_nonempty "." path) as Hs.
  assert (HF : Forall (λ p, has_char "[" p = false) (split_on "." path)) by (by apply split_on_other).
  destruct (split_on "." path) as [|k ps]; [done|].
  rewrite parse_parts_keys by done. destruct (contains_string (k :: ps) "") eqn:E.
  - apply contains_string_spec in E. by rewrite read_empty.
  - apply contains_string_false in E. rewrite walk_keys by done.
    rewrite map_cons, render_key by (intros ->; apply E; by left).
    rewrite render_rest_keys, Hj. by destruct (read_segments (k :: ps) (VMap m)) as [[]|].
Qed.
Lemma WalkPath_ReadPath_witness :
  WalkPath (Some sample_doc) "spec.xs" =
  [MkPathHit "spec.xs" (VList [VMap [("k", VInt 1)]; VMap [("k", VInt 2)]])].
Proof. rewrite (WalkPath_ReadPath (Some sample_doc) "spec.xs"); reflexivity. Defined.
