(* ===== verification/Plan.v ===== *)
(** The variant diff (src/pkg/plan): indexing two Worlds by resource identity,
    their delta ([Diff]), the plan rules on it (R26 destructive deletes, R27
    immutable changes) and the selection of plan diagnostics for the outputs. *)
From Stdlib Require Import ZArith.
From stdpp Require Import countable fin_maps.
From S2P Require Import Prelude GoStrings Yaml Types Registries Config PathWalk.

#[local] Open Scope string_scope.
#[local] Open Scope list_scope.
#[local] Open Scope nat_scope.

(** ** Data: plan.go *)

Record ResourceIdentity : Type := MkResourceIdentity {
  id_APIVersion : string;
  id_Kind : string;
  id_Namespace : string;
  id_Name : string;
  id_AppName : string;
}.
#[export] Instance ResourceIdentity_eq_dec : EqDecision ResourceIdentity.
Proof. solve_decision. Defined.
#[export] Instance ResourceIdentity_countable : Countable ResourceIdentity.
Proof.
  refine (inj_countable'
    (λ i, (id_APIVersion i, id_Kind i, id_Namespace i, id_Name i, id_AppName i))
    (λ '(a, k, ns, n, app), MkResourceIdentity a k ns n app) _).
  by intros [].
Defined.

Record ResourceChange : Type := MkResourceChange {
  rc_Identity : ResourceIdentity;
  rc_BaseSource : SourceLocation;
  rc_HeadSource : SourceLocation;
  rc_BaseRaw : raw;
  rc_HeadRaw : raw;
}.
Record ResourceDelta : Type := MkResourceDelta {
  rd_Added : list ResourceChange;
  rd_Removed : list ResourceChange;
  rd_Modified : list ResourceChange;
}.
Record indexedResource : Type := MkIndexedResource { ir_Source : SourceLocation; ir_Raw : raw }.

(** ** Indexing: diff.go *)

Definition resource_id (res : ResourceInfo) : ResourceIdentity := {|
  id_APIVersion := ri_APIVersion res;
  id_Kind := ri_Kind res;
  id_Namespace := ri_Namespace res;
  id_Name := ri_Name res;
  id_AppName := ri_OwningApp res;
|}.
(** Later entries overwrite earlier ones. *)
Definition indexByIdentity (w : World) : gmap ResourceIdentity ResourceInfo :=
  foldl (λ out res, <[resource_id res := res]> out) ∅ (w_Resources w).

(** The map literal [argoAppVirtualRaw] returns; [map_to_list] is one iteration
    order of the annotations. *)
Definition argoAppVirtualRaw (app : ArgoApplication) : raw :=
  let meta := [("name", VStr (app_Name app))]
    ++ (if String.eqb (app_Namespace app) "" then [] else [("namespace", VStr (app_Namespace app))])
    ++ (match app_Finalizers app with [] => [] | l => [("finalizers", VList (map VStr l))] end)
    ++ (if decide (app_Annotations app = ∅) then []
        else [("annotations", VMap (prod_map id VStr <$> map_to_list (app_Annotations app)))]) in
  let sp := if sp_PreserveResourcesOnDeletion (app_SyncPolicy app)
            then [("preserveResourcesOnDeletion", VBool true)] else [] in
  let spec := match sp with [] => [] | _ => [("syncPolicy", VMap sp)] end in
  Some [("apiVersion", VStr "argoproj.io/v1alpha1"); ("kind", VStr "Application");
        ("metadata", VMap meta); ("spec", VMap spec)].

Definition app_id (app : ArgoApplication) : ResourceIdentity := {|
  id_APIVersion := "argoproj.io/v1alpha1";
  id_Kind := "Application";
  id_Namespace := app_Namespace app;
  id_Name := app_Name app;
  id_AppName := "";
|}.
Definition index_resource (res : ResourceInfo) : indexedResource :=
  MkIndexedResource (ri_Source res) (ri_Raw res).
Definition index_app (app : ArgoApplication) : indexedResource :=
  MkIndexedResource (app_Source app) (argoAppVirtualRaw app).
Definition indexAll (w : World) : gmap ResourceIdentity indexedResource :=
  foldl (λ out app, <[app_id app := index_app app]> out)
        (index_resource <$> indexByIdentity w) (w_ArgoApps w).

(** ** The delta *)

Definition identity_less (a b : ResourceIdentity) : bool :=
  key_less [(id_AppName a, id_AppName b); (id_APIVersion a, id_APIVersion b);
            (id_Kind a, id_Kind b); (id_Namespace a, id_Namespace b); (id_Name a, id_Name b)].
Definition change_less (a b : ResourceChange) : bool := identity_less (rc_Identity a) (rc_Identity b).
Definition sortChanges (changes : list ResourceChange) : list ResourceChange :=
  sort_slice change_less changes.

Definition removed_change (id : ResourceIdentity) (b : indexedResource) : ResourceChange :=
  MkResourceChange id (ir_Source b) zero_SourceLocation (ir_Raw b) None.
Definition added_change (id : ResourceIdentity) (h : indexedResource) : ResourceChange :=
  MkResourceChange id zero_SourceLocation (ir_Source h) None (ir_Raw h).
Definition modified_change (id : ResourceIdentity) (b h : indexedResource) : ResourceChange :=
  MkResourceChange id (ir_Source b) (ir_Source h) (ir_Raw b) (ir_Raw h).

(** The two range loops of [Diff], over the enumerations [be] and [he] of the
    two index maps. *)
Definition diff_loops (baseMap headMap : gmap ResourceIdentity indexedResource)
    (be he : list (ResourceIdentity * indexedResource)) : ResourceDelta :=
  let removed := flat_map (λ '(id, b), match headMap !! id with
                                       | None => [removed_change id b]
                                       | Some _ => [] end) be in
  let modified := flat_map (λ '(id, b), match headMap !! id with
                                        | None => []
                                        | Some h => if raw_equal (ir_Raw b) (ir_Raw h) then []
                                                    else [modified_change id b h] end) be in
  let added := flat_map (λ '(id, h), match baseMap !! id with
                                     | None => [added_change id h]
                                     | Some _ => [] end) he in
  {| rd_Added := sortChanges added; rd_Removed := sortChanges removed;
     rd_Modified := sortChanges modified |}.
Definition Diff (base head : World) : ResourceDelta :=
  let baseMap := indexAll base in
  let headMap := indexAll head in
  diff_loops baseMap headMap (map_to_list baseMap) (map_to_list headMap).

(** ** R26: destructive deletes *)

(** [for i, c := range apiVersion { if c == '/' { return apiVersion[:i] } }] *)
Definition groupFromAPIVersion (apiVersion : string) : string :=
  match cut_char "/" apiVersion with Some (g, _) => g | None => "" end.
Definition qualifiedName (id : ResourceIdentity) : string :=
  if String.eqb (id_Namespace id) "" then id_Name id else id_Namespace id +:+ "/" +:+ id_Name id.
Definition primaryOr (keys : list string) (fallback : string) : string :=
  match keys with k :: _ => if String.eqb k "" then fallback else k | [] => fallback end.

Definition buildStateBearingSet (resolved : option (list ArgoGroupKind)) : gset string :=
  list_to_set (map (λ gk, gk_Group gk +:+ "/" +:+ gk_Kind gk)
                   (default StateBearingKindsRegistry resolved)).

Definition annotations_of (r : raw) : raw :=
  match get_map r "metadata" with Some m => get_map (Some m) "annotations" | None => None end.
Definition hasBypassAnnotation (r : raw) (bypassKeys : BypassKeySet) : bool :=
  match annotations_of r with
  | Some ann => HasRaw bypassKeys ann BypassAllowDelete
  | None => false
  end.
Definition readDeletionPolicy (r : raw) : string := get_str (get_map r "spec") "deletionPolicy".
Definition deletionPolicyPhrase (policy : string) : string :=
  if String.eqb policy "" then "spec.deletionPolicy is absent (Crossplane default is Delete)"
  else "spec.deletionPolicy is " +:+ policy +:+ " (not Orphan)".
Definition hasCascadeFinalizer (r : raw) : bool :=
  match get_slice (get_map r "metadata") "finalizers" with
  | Some fins =>
      existsb (λ f, match f with
                    | VStr s => String.eqb s "resources-finalizer.argocd.argoproj.io" ||
                                String.eqb s "resources-finalizer.argocd.argoproj.io/foreground"
                    | _ => false
                    end) fins
  | None => false
  end.
Definition preserveResourcesOnDeletion (r : raw) : bool :=
  match lookup_raw (get_map (get_map r "spec") "syncPolicy") "preserveResourcesOnDeletion" with
  | Some (VBool v) => v
  | _ => false
  end.

Definition destructive_diag (bypassKeys : BypassKeySet) (c : ResourceChange) : Diagnostic :=
  let id := rc_Identity c in
  let group := groupFromAPIVersion (id_APIVersion id) in
  {| zero_Diagnostic with
     dg_Code := "XPC.P.destructive-delete";
     dg_Severity := SeverityError;
     dg_Message := id_Kind id +:+ " " +:+ qualifiedName id +:+ " would be removed";
     dg_Detail := id_Kind id +:+ " is state-bearing (Group=" +:+ group +:+ "). Base-side " +:+
       deletionPolicyPhrase (readDeletionPolicy (rc_BaseRaw c)) +:+
       ". Applying this change will run a real destructive call against the external object. " +:+
       "This is the INC-6 failure shape.";
     dg_Fix := "Either (a) keep the resource on HEAD (revert the removal), " +:+
       "(b) set spec.deletionPolicy: Orphan on the base side before removing the CR, or " +:+
       "(c) add annotation " +:+ primaryOr (keysFor bypassKeys BypassAllowDelete) "xpc.io/allow-delete" +:+
       ": " +:+ quote "true" +:+ " to the base manifest if the destruction is genuinely intended.";
     dg_Source := rc_BaseSource c;
  |}.
Definition cascade_diag (c : ResourceChange) : Diagnostic :=
  {| zero_Diagnostic with
     dg_Code := "XPC.P.cascade-risk";
     dg_Severity := SeverityError;
     dg_Message := "ArgoCD Application " +:+ qualifiedName (rc_Identity c) +:+
       " would be removed with cascading finalizer present";
     dg_Detail := "Base manifest carries resources-finalizer.argocd.argoproj.io without " +:+
       "preserveResourcesOnDeletion: true. Removing the Application will cascade DELETE through " +:+
       "every resource it owns. This is the fg-synapse INC-6 trigger applied at the Application level.";
     dg_Fix := "Either set spec.syncPolicy.preserveResourcesOnDeletion: true on the Application " +:+
       "before removing it, or drop the resources-finalizer entry from metadata.finalizers, " +:+
       "or keep the Application on HEAD.";
     dg_Source := rc_BaseSource c;
  |}.

Definition is_argo_application (id : ResourceIdentity) : bool :=
  let gk := id_APIVersion id +:+ "/" +:+ id_Kind id in
  String.eqb gk "argoproj.io/v1alpha1/Application" || String.eqb gk "v1alpha1/Application" ||
  (String.eqb (id_Kind id) "Application" &&
   String.eqb (groupFromAPIVersion (id_APIVersion id)) "argoproj.io").

(** One iteration over [delta.Removed]. *)
Definition r26_change (bypassKeys : BypassKeySet) (stateBearing : gset string) (c : ResourceChange)
  : list Diagnostic :=
  if hasBypassAnnotation (rc_BaseRaw c) bypassKeys then []
  else
    let id := rc_Identity c in
    let group := groupFromAPIVersion (id_APIVersion id) in
    if bool_decide (group +:+ "/" +:+ id_Kind id ∈ stateBearing) then
      if String.eqb (readDeletionPolicy (rc_BaseRaw c)) "Orphan" then []
      else [destructive_diag bypassKeys c]
    else if is_argo_application id then
      if hasCascadeFinalizer (rc_BaseRaw c) && negb (preserveResourcesOnDeletion (rc_BaseRaw c))
      then [cascade_diag c] else []
    else [].
Definition R26DestructiveDelete (delta : ResourceDelta) (bypassKeys : BypassKeySet)
    (stateBearingKinds : option (list ArgoGroupKind)) : list Diagnostic :=
  let stateBearing := buildStateBearingSet stateBearingKinds in
  flat_map (r26_change bypassKeys stateBearing) (rd_Removed delta).

(** ** R27: immutable changes.  [sprint] is fmt's %v verb on a decoded value. *)

Definition gkForMessage (group kind : string) : string :=
  if String.eqb group "" then kind else group +:+ "/" +:+ kind.
Definition hasImmutableChangeBypass (r : raw) (bypassKeys : BypassKeySet) : bool :=
  match annotations_of r with
  | Some ann => HasRaw bypassKeys ann BypassAllowImmutableChange
  | None => false
  end.

Section r27.
Context (sprint : value → string).

Definition immutable_diag (bypassKeys : BypassKeySet) (c : ResourceChange) (entry : ImmutableField)
    (baseVal headVal : value) : Diagnostic :=
  let id := rc_Identity c in
  let group := groupFromAPIVersion (id_APIVersion id) in
  {| zero_Diagnostic with
     dg_Code := "XPC.P.immutable-change";
     dg_Severity := SeverityError;
     dg_Message := gkForMessage group (id_Kind id) +:+ " " +:+ qualifiedName id +:+
       ": immutable field " +:+ im_FieldPath entry +:+ " changed";
     dg_Detail := "Base value " +:+ sprint baseVal +:+ " → head value " +:+ sprint headVal +:+ ". " +:+
       im_Reason entry +:+ ". " +:+
       "Applying this change will require destroying and recreating the external object.";
     dg_Fix := "Either (a) revert the change to " +:+ im_FieldPath entry +:+ " on HEAD, " +:+
       "(b) recreate the resource under a new identity if the reshape is intentional, or " +:+
       "(c) add annotation " +:+
       primaryOr (keysFor bypassKeys BypassAllowImmutableChange) "xpc.io/allow-immutable-change" +:+
       ": " +:+ quote "true" +:+ " on the HEAD manifest to consent to the recreate.";
     dg_Source := rc_BaseSource c;
  |}.

(** One registry entry against one modified resource. *)
Definition r27_entry (bypassKeys : BypassKeySet) (c : ResourceChange) (entry : ImmutableField)
  : list Diagnostic :=
  if negb (String.eqb (im_Group entry) (groupFromAPIVersion (id_APIVersion (rc_Identity c)))) ||
     negb (String.eqb (im_Kind entry) (id_Kind (rc_Identity c))) then []
  else
    match ReadPath (rc_BaseRaw c) (im_FieldPath entry), ReadPath (rc_HeadRaw c) (im_FieldPath entry) with
    | Some baseVal, Some headVal =>
        if deep_equal baseVal headVal then []
        else [immutable_diag bypassKeys c entry baseVal headVal]
    | _, _ => []
    end.
Definition r27_change (registry : list ImmutableField) (bypassKeys : BypassKeySet)
    (c : ResourceChange) : list Diagnostic :=
  if hasImmutableChangeBypass (rc_HeadRaw c) bypassKeys then []
  else flat_map (r27_entry bypassKeys c) registry.

(** The nil fall-backs of [R27ImmutableChange]. *)
Definition r27_registry (registry : option (list ImmutableField)) : list ImmutableField :=
  default (ResolveImmutableFields None ImmutableFieldRegistry) registry.
Definition r27_keys (bypassKeys : BypassKeySet) : BypassKeySet :=
  match bks_AllowImmutableChange bypassKeys with
  | None => {| bypassKeys with bks_AllowImmutableChange :=
                 Some (ResolveAllowImmutableChangeKeys None) |}
  | Some _ => bypassKeys
  end.
Definition R27ImmutableChange (delta : ResourceDelta) (registry : option (list ImmutableField))
    (bypassKeys : BypassKeySet) : list Diagnostic :=
  flat_map (r27_change (r27_registry registry) (r27_keys bypassKeys)) (rd_Modified delta).

(** ** The plan: runner.go, after the two variants are checked *)

Record VariantResult : Type := MkVariantResult {
  vr_Ref : string;
  vr_ResolvedDir : string;
  vr_World : World;
  vr_Diagnostics : list Diagnostic;
}.
Record Plan : Type := MkPlan {
  pl_Base : VariantResult;
  pl_Head : VariantResult;
  pl_Delta : ResourceDelta;
  pl_Diagnostics : list Diagnostic;
}.
(** The tail of [Run]: the knobs come from the base World. *)
Definition plan_of (baseResult headResult : VariantResult) : Plan :=
  let delta := Diff (vr_World baseResult) (vr_World headResult) in
  let bypassKeys := w_BypassKeys (vr_World baseResult) in
  let immutables := w_ImmutableFields (vr_World baseResult) in
  let stateBearing := w_StateBearingKinds (vr_World baseResult) in
  {| pl_Base := baseResult; pl_Head := headResult; pl_Delta := delta;
     pl_Diagnostics := R26DestructiveDelete delta bypassKeys stateBearing ++
                       R27ImmutableChange delta immutables bypassKeys |}.
End r27.

(** ** Outputs: output.go *)

Definition filterPlanDiagnostics (diags : list Diagnostic) (codePrefix : string) : list Diagnostic :=
  filter (λ d, has_prefix codePrefix (dg_Code d) = true) diags.

Definition countBySeverity (diags : list Diagnostic) : nat * nat * nat :=
  let count s := length (filter (λ d, dg_Severity d = s) diags) in
  (count SeverityError, count SeverityWarning, count SeverityInfo).

Definition change_at (src : SourceLocation) (c : ResourceChange) : bool :=
  bool_decide (rc_BaseSource c = src) || bool_decide (rc_HeadSource c = src).
Definition findChangeBySource (delta : ResourceDelta) (src : SourceLocation) : option ResourceChange :=
  if bool_decide (src = zero_SourceLocation) then None
  else match find_first (change_at src) (rd_Removed delta) with
       | Some c => Some c
       | None =>
           match find_first (change_at src) (rd_Modified delta) with
           | Some c => Some c
           | None => find_first (change_at src) (rd_Added delta)
           end
       end.

Record jsonChange : Type := MkJsonChange {
  jc_Code : string; jc_Message : string; jc_APIVersion : string; jc_Kind : string;
  jc_Namespace : string; jc_Name : string; jc_App : string; jc_Reason : string;
  jc_Source : SourceLocation;
}.
Definition jsonChangeFromDiagnostic (delta : ResourceDelta) (d : Diagnostic) : jsonChange :=
  let id := match findChangeBySource delta (dg_Source d) with
            | Some c => rc_Identity c
            | None => MkResourceIdentity "" "" "" "" ""
            end in
  {| jc_Code := dg_Code d; jc_Message := dg_Message d; jc_APIVersion := id_APIVersion id;
     jc_Kind := id_Kind id; jc_Namespace := id_Namespace id; jc_Name := id_Name id;
     jc_App := id_AppName id; jc_Reason := dg_Detail d; jc_Source := dg_Source d |}.
(** The envelope [WriteJSON] encodes. *)
Record jsonPlan : Type := MkJsonPlan {
  jp_Base : string; jp_Head : string; jp_Delta : nat * nat * nat;
  jp_Destructive : list jsonChange; jp_Diagnostics : list Diagnostic * list Diagnostic;
}.
Definition WriteJSON (p : Plan) : jsonPlan :=
  let d := pl_Delta p in
  {| jp_Base := vr_Ref (pl_Base p); jp_Head := vr_Ref (pl_Head p);
     jp_Delta := (length (rd_Added d), length (rd_Removed d), length (rd_Modified d));
     jp_Destructive := map (jsonChangeFromDiagnostic d)
       (filterPlanDiagnostics (pl_Diagnostics p) "XPC.P.");
     jp_Diagnostics := (vr_Diagnostics (pl_Base p), vr_Diagnostics (pl_Head p)) |}.
Definition SummarizeDelta (d : ResourceDelta) : string :=
  "added " +:+ itoa (Z.of_nat (length (rd_Added d))) +:+
  ", removed " +:+ itoa (Z.of_nat (length (rd_Removed d))) +:+
  ", modified " +:+ itoa (Z.of_nat (length (rd_Modified d))).

(** ** The comment target: comment.go.  [getenv] is os.Getenv. *)

Record CommentTarget : Type := MkCommentTarget { ct_VCS : string; ct_Project : string; ct_MRorPR : Z }.
Inductive CommentError : Type := ErrCommentSpec | ErrAutoDetect.

(** [^([^/]+)/([^/]+)/pull/(\d+)$] *)
Definition githubPullSpec (rest : string) : option (string * string * string) :=
  match split_on "/" rest with
  | [owner; repo; pull; n] =>
      if negb (String.eqb owner "") && negb (String.eqb repo "") && String.eqb pull "pull" &&
         negb (String.eqb n "") && all_digits n
      then Some (owner, repo, n) else None
  | _ => None
  end.
(** [^refs/pull/(\d+)/merge$] *)
Definition githubRefPR (ref : string) : option string :=
  match split_on "/" ref with
  | [refs; pull; n; merge] =>
      if String.eqb refs "refs" && String.eqb pull "pull" && String.eqb merge "merge" &&
         negb (String.eqb n "") && all_digits n
      then Some n else None
  | _ => None
  end.

Section comment.
Context (getenv : string → string).

Definition inferAutoTarget : CommentError + CommentTarget :=
  let glProject := getenv "CI_PROJECT_PATH" in
  let glIID := getenv "CI_MERGE_REQUEST_IID" in
  if negb (String.eqb glProject "") && negb (String.eqb glIID "") then
    match atoi glIID with
    | Some iid => inr (MkCommentTarget "gitlab" glProject iid)
    | None => inl ErrAutoDetect
    end
  else
    let ghRepo := getenv "GITHUB_REPOSITORY" in
    if String.eqb ghRepo "" then inl ErrAutoDetect
    else match githubRefPR (getenv "GITHUB_REF") with
         | Some n =>
             match atoi n with
             | Some pr => inr (MkCommentTarget "github" ghRepo pr)
             | None => inl ErrAutoDetect
             end
         | None => inl ErrAutoDetect
         end.

Definition ParseCommentSpec (spec : string) : CommentError + CommentTarget :=
  if has_prefix "gitlab://" spec then
    match str_cut "/-/merge_requests/" (trim_prefix "gitlab://" spec) with
    | None => inl ErrCommentSpec
    | Some (project, mrStr) =>
        if String.eqb project "" || negb (contains project "/") then inl ErrCommentSpec
        else match atoi mrStr with
             | Some mr => inr (MkCommentTarget "gitlab" project mr)
             | None => inl ErrCommentSpec
             end
    end
  else if has_prefix "github://" spec then
    match githubPullSpec (trim_prefix "github://" spec) with
    | None => inl ErrCommentSpec
    | Some (owner, repo, n) =>
        match atoi n with
        | Some pr => inr (MkCommentTarget "github" (owner +:+ "/" +:+ repo) pr)
        | None => inl ErrCommentSpec
        end
    end
  else if String.eqb spec "auto" then inferAutoTarget
  else inl ErrCommentSpec.
End comment.

(** ** Lemmas: the index *)

(** The documents of a World are well formed. *)
Definition wf_world (w : World) : Prop := Forall (λ r, wf_raw (ri_Raw r)) (w_Resources w).
Definition no_nan_world (w : World) : Prop :=
  Forall (λ r, match ri_Raw r with Some m => no_nan (VMap m) | None => True end) (w_Resources w).

(** A well-formed value without NaN. *)
Definition ok_value (v : value) : Prop := wf_value v ∧ no_nan v.
Lemma ok_VMap m : NoDup m.*1 → Forall (λ kv, ok_value kv.2) m → ok_value (VMap m).
Proof.
  intros Hd H. split.
  - apply wf_VMap. split; [done|]. eapply Forall_impl; [exact H|]. by intros ? [].
  - simpl. clear Hd. induction H as [|[k v] m Hv _ IH]; [done|]. split; [apply Hv|done].
Qed.
Lemma ok_strings l : ok_value (VList (map VStr l)).
Proof. unfold ok_value. simpl. induction l; simpl; naive_solver. Qed.
Lemma ok_annotations (m : gmap string string) :
  ok_value (VMap (prod_map id VStr <$> map_to_list m)).
Proof.
  apply ok_VMap.
  - rewrite <- list_fmap_compose. change (fst ∘ prod_map id VStr) with (@fst string string).
    apply NoDup_fst_map_to_list.
  - rewrite Forall_fmap. apply Forall_true. done.
Qed.
(** Prove [ok_value] of a literal map with distinct keys. *)
Ltac solve_ok_map :=
  apply ok_VMap; [apply (bool_decide_eq_true_1 _); reflexivity
                 |repeat (apply Forall_cons_2 || apply Forall_nil_2); cbn [snd]; try done;
                  auto using ok_strings, ok_annotations].

Lemma virtual_raw_ok a :
  match argoAppVirtualRaw a with Some m => ok_value (VMap m) | None => False end.
Proof.
  unfold argoAppVirtualRaw. solve_ok_map.
  - destruct (String.eqb (app_Namespace a) ""), (app_Finalizers a) as [|f fs],
      (decide (app_Annotations a = ∅)); cbn [Datatypes.app]; solve_ok_map; apply (ok_strings (f :: fs)).
  - destruct (sp_PreserveResourcesOnDeletion (app_SyncPolicy a)); solve_ok_map. solve_ok_map.
Qed.

Lemma virtual_raw_wf a : wf_raw (argoAppVirtualRaw a).
Proof. pose proof (virtual_raw_ok a) as H. destruct (argoAppVirtualRaw a); [apply H|done]. Qed.
Lemma virtual_raw_refl a : raw_equal (argoAppVirtualRaw a) (argoAppVirtualRaw a) = true.
Proof.
  apply raw_equal_refl; [apply virtual_raw_wf|].
  pose proof (virtual_raw_ok a) as H. destruct (argoAppVirtualRaw a); [apply H|done].
Qed.

Lemma indexAll_spec w i :
  indexAll w !! i =
  match find_first (λ a, bool_decide (app_id a = i)) (rev (w_ArgoApps w)) with
  | Some a => Some (index_app a)
  | None => option_map index_resource
              (find_first (λ r, bool_decide (resource_id r = i)) (rev (w_Resources w)))
  end.
Proof.
  unfold indexAll. rewrite lookup_foldl_insert. destruct (find_first _ (rev (w_ArgoApps w))); [done|].
  rewrite lookup_fmap. unfold indexByIdentity.
  rewrite (lookup_foldl_insert resource_id (λ r, r)), lookup_empty.
  by destruct (find_first _ _).
Qed.

Lemma indexAll_ok w i x : wf_world w → indexAll w !! i = Some x → wf_raw (ir_Raw x).
Proof.
  intros Hw. rewrite indexAll_spec. destruct (find_first _ (rev (w_ArgoApps w))) as [a|].
  - intros [= <-]. apply virtual_raw_wf.
  - destruct (find_first _ _) as [r|] eqn:E; [|done]. intros [= <-].
    apply find_first_Some in E as [Hr _]. simpl. unfold wf_world in Hw. rewrite Forall_forall in Hw.
    apply Hw. rewrite <- (rev_involutive (w_Resources w)). by rewrite list_elem_of_In, <- in_rev, <- list_elem_of_In.
Qed.
Lemma indexAll_refl w i x : wf_world w → no_nan_world w → indexAll w !! i = Some x →
  raw_equal (ir_Raw x) (ir_Raw x) = true.
Proof.
  intros Hw Hn. rewrite indexAll_spec. destruct (find_first _ (rev (w_ArgoApps w))) as [a|].
  - intros [= <-]. apply virtual_raw_refl.
  - destruct (find_first _ _) as [r|] eqn:E; [|done]. intros [= <-].
    apply find_first_Some in E as [Hr _]. simpl. unfold wf_world, no_nan_world in *.
    rewrite Forall_forall in Hw, Hn.
    assert (r ∈ w_Resources w).
    { rewrite <- (rev_involutive (w_Resources w)). by rewrite list_elem_of_In, <- in_rev, <- list_elem_of_In. }
    apply raw_equal_refl; [by apply Hw|by apply Hn].
Qed.

(** ** Lemmas: the delta lists *)

Definition change_key (c : ResourceChange) : list string :=
  let i := rc_Identity c in [id_AppName i; id_APIVersion i; id_Kind i; id_Namespace i; id_Name i].
#[export] Instance change_less_order : KeyOrder change_less change_key.
Proof. solve_less_order. Qed.
Lemma change_key_inj c d : change_key c = change_key d → rc_Identity c = rc_Identity d.
Proof.
  unfold change_key. destruct (rc_Identity c), (rc_Identity d). simpl. by intros [= -> -> -> -> ->].
Qed.

(** The changes one side contributes: at most one per index entry. *)
Section pick.
Context (f : ResourceIdentity * indexedResource → list ResourceChange).
Context (Hf : ∀ p, f p = [] ∨ ∃ c, f p = [c] ∧ rc_Identity c = p.1).

Lemma pick_identities l : (rc_Identity <$> flat_map f l) `sublist_of` l.*1.
Proof using Hf.
  induction l as [|p l IH]; simpl; [done|]. destruct (Hf p) as [->|(c & -> & E)]; simpl.
  - by constructor.
  - rewrite E. by constructor.
Qed.
Lemma pick_NoDup l : NoDup l.*1 → NoDup (rc_Identity <$> flat_map f l).
Proof using Hf. intros H. eapply sublist_NoDup; [done|apply pick_identities]. Qed.
End pick.

Lemma sortChanges_unique l l' : NoDup (rc_Identity <$> l) → l ≡ₚ l' → sortChanges l = sortChanges l'.
Proof.
  intros Hd Hp. unfold sortChanges. apply sort_slice_perm_eq; [apply _| |done].
  intros x y Hx Hy H1 H2. apply (NoDup_fmap_elem rc_Identity l); try done.
  apply change_key_inj. by apply (key_order_tie change_less change_key).
Qed.

Lemma sortChanges_NoDup l : NoDup (rc_Identity <$> l) → NoDup (rc_Identity <$> sortChanges l).
Proof. intros. unfold sortChanges. by rewrite sort_slice_perm. Qed.

Ltac solve_pick := intros [? ?]; simpl; repeat case_match; simplify_eq; eauto.

Definition sorted_changes (l : list ResourceChange) : Prop :=
  StronglySorted (not_after change_less) l ∧ NoDup (rc_Identity <$> l).

Lemma diff_loops_sorted B H be he : NoDup be.*1 → NoDup he.*1 →
  let d := diff_loops B H be he in
  sorted_changes (rd_Added d) ∧ sorted_changes (rd_Removed d) ∧ sorted_changes (rd_Modified d).
Proof.
  intros Hb Hh. simpl. repeat split; try (apply sort_slice_sorted; apply _);
    apply sortChanges_NoDup, pick_NoDup; try done; solve_pick.
Qed.

Lemma diff_loops_perm B H be he be' he' : NoDup be.*1 → NoDup he.*1 → be ≡ₚ be' → he ≡ₚ he' →
  diff_loops B H be he = diff_loops B H be' he'.
Proof.
  intros Hb Hh Hbe Hhe. unfold diff_loops. f_equal; apply sortChanges_unique;
    try (apply pick_NoDup; [solve_pick|done]); by apply flat_map_perm.
Qed.

Lemma elem_of_added base head c : c ∈ rd_Added (Diff base head) ↔
  indexAll base !! rc_Identity c = None ∧
  ∃ h, indexAll head !! rc_Identity c = Some h ∧ c = added_change (rc_Identity c) h.
Proof.
  simpl. unfold sortChanges. rewrite elem_of_sort_slice, elem_of_flat_map. split.
  - intros ([k h] & Hin%elem_of_map_to_list & Hc). destruct (indexAll base !! k) eqn:E;
      [by apply not_elem_of_nil in Hc|]. apply list_elem_of_singleton in Hc as ->. simpl. eauto.
  - intros (E & h & Hh & Hc). exists (rc_Identity c, h). rewrite elem_of_map_to_list, E.
    split; [done|]. by apply list_elem_of_singleton.
Qed.
Lemma elem_of_removed base head c : c ∈ rd_Removed (Diff base head) ↔
  indexAll head !! rc_Identity c = None ∧
  ∃ b, indexAll base !! rc_Identity c = Some b ∧ c = removed_change (rc_Identity c) b.
Proof.
  simpl. unfold sortChanges. rewrite elem_of_sort_slice, elem_of_flat_map. split.
  - intros ([k h] & Hin%elem_of_map_to_list & Hc). destruct (indexAll head !! k) eqn:E;
      [by apply not_elem_of_nil in Hc|]. apply list_elem_of_singleton in Hc as ->. simpl. eauto.
  - intros (E & h & Hh & Hc). exists (rc_Identity c, h). rewrite elem_of_map_to_list, E.
    split; [done|]. by apply list_elem_of_singleton.
Qed.
Lemma elem_of_modified base head c : c ∈ rd_Modified (Diff base head) ↔
  ∃ b h, indexAll base !! rc_Identity c = Some b ∧ indexAll head !! rc_Identity c = Some h ∧
    raw_equal (ir_Raw b) (ir_Raw h) = false ∧ c = modified_change (rc_Identity c) b h.
Proof.
  simpl. unfold sortChanges. rewrite elem_of_sort_slice, elem_of_flat_map. split.
  - intros ([k b] & Hin%elem_of_map_to_list & Hc). destruct (indexAll head !! k) as [h|] eqn:E;
      [|by apply not_elem_of_nil in Hc]. destruct (raw_equal _ _) eqn:R; [by apply not_elem_of_nil in Hc|].
    apply list_elem_of_singleton in Hc as ->. simpl. eauto 6.
  - intros (b & h & Hb & Hh & R & Hc). exists (rc_Identity c, b). rewrite elem_of_map_to_list, Hh, R.
    split; [done|]. by apply list_elem_of_singleton.
Qed.
Lemma Diff_sorted base head : let d := Diff base head in
  sorted_changes (rd_Added d) ∧ sorted_changes (rd_Removed d) ∧ sorted_changes (rd_Modified d).
Proof. apply diff_loops_sorted; apply NoDup_fst_map_to_list. Qed.

(** ** Properties of the diff *)

(** C3: Diff is exactly the set difference of the two indexes: a change is
    Added (Removed) iff its identity is indexed on the head (base) side only,
    Modified iff it is indexed on both sides with unequal documents; each list
    is sorted by (app, apiVersion, kind, namespace, name) and lists an identity
    at most once. *)
Theorem Diff_spec (base head : World) (c : ResourceChange) :
  let d := Diff base head in
  let B := indexAll base in
  let H := indexAll head in
  let i := rc_Identity c in
  (c ∈ rd_Added d ↔ B !! i = None ∧ ∃ h, H !! i = Some h ∧ c = added_change i h) ∧
  (c ∈ rd_Removed d ↔ H !! i = None ∧ ∃ b, B !! i = Some b ∧ c = removed_change i b) ∧
  (c ∈ rd_Modified d ↔ ∃ b h, B !! i = Some b ∧ H !! i = Some h ∧
     raw_equal (ir_Raw b) (ir_Raw h) = false ∧ c = modified_change i b h) ∧
  sorted_changes (rd_Added d) ∧ sorted_changes (rd_Removed d) ∧ sorted_changes (rd_Modified d).
Proof.
  intros d B H i. subst d B H i.
  split; [apply elem_of_added|split; [apply elem_of_removed|split; [apply elem_of_modified|]]].
  apply Diff_sorted.
Qed.

(** the result of Diff does not depend on Go's map iteration order: any
    enumerations of the two index maps give the same delta. *)
Theorem Diff_iteration_order (base head : World) (be he : list (ResourceIdentity * indexedResource)) :
  be ≡ₚ map_to_list (indexAll base) → he ≡ₚ map_to_list (indexAll head) →
  diff_loops (indexAll base) (indexAll head) be he = Diff base head.
Proof.
  intros Hb Hh. apply diff_loops_perm; try done.
  - rewrite Hb. apply NoDup_fst_map_to_list.
  - rewrite Hh. apply NoDup_fst_map_to_list.
Qed.

(** The delta of the reverse comparison, and the empty delta. *)
Definition swap_change (c : ResourceChange) : ResourceChange :=
  MkResourceChange (rc_Identity c) (rc_HeadSource c) (rc_BaseSource c) (rc_HeadRaw c) (rc_BaseRaw c).
Definition swap_delta (d : ResourceDelta) : ResourceDelta := {|
  rd_Added := swap_change <$> rd_Removed d;
  rd_Removed := swap_change <$> rd_Added d;
  rd_Modified := swap_change <$> rd_Modified d |}.

Lemma sortChanges_swap l : sortChanges (swap_change <$> l) = swap_change <$> sortChanges l.
Proof. unfold sortChanges. by apply sort_slice_map. Qed.

Lemma flat_map_change_swap {A} (f g : A → list ResourceChange) l :
  (∀ x, x ∈ l → g x = swap_change <$> f x) → flat_map g l = swap_change <$> flat_map f l.
Proof.
  induction l as [|x l IH]; intros H; [done|]. simpl. rewrite fmap_app, H by (by left).
  f_equal. apply IH. intros. apply H. by right.
Qed.

Lemma sorted_changes_unique l l' : sorted_changes l → sorted_changes l' →
  (∀ c, c ∈ l ↔ c ∈ l') → l = l'.
Proof.
  intros [Hs Hd] [Hs' Hd'] Hm. apply (sorted_perm_unique change_less); try done.
  - intros x y Hx Hy H1 H2. apply (NoDup_fmap_elem rc_Identity l); try done.
    apply change_key_inj. by apply (key_order_tie change_less change_key).
  - apply NoDup_Permutation; [by eapply NoDup_fmap_1..|done].
Qed.

Lemma swap_sorted (l : list ResourceChange) : sorted_changes l → sorted_changes (swap_change <$> l).
Proof.
  intros [Hs Hd]. split; [|by rewrite <- list_fmap_compose].
  induction Hs as [|c l Hs IH Hc]; simpl; constructor.
  - inversion_clear Hd. auto.
  - rewrite Forall_fmap. exact Hc.
Qed.

Lemma swap_involutive c : swap_change (swap_change c) = c.
Proof. by destruct c. Qed.
Lemma elem_of_swap c (l : list ResourceChange) : c ∈ swap_change <$> l ↔ swap_change c ∈ l.
Proof.
  rewrite list_elem_of_fmap. split.
  - intros (x & -> & Hx). by rewrite swap_involutive.
  - intros H. exists (swap_change c). by rewrite swap_involutive.
Qed.

(** comparing the variants the other way round swaps Added and Removed and
    turns every change around: nothing is lost in either direction. *)
Theorem Diff_swap (base head : World) :
  wf_world base → wf_world head → Diff head base = swap_delta (Diff base head).
Proof.
  intros Hb Hh. unfold swap_delta. destruct (Diff head base) as [a r m] eqn:E.
  assert (Ha : a = swap_change <$> rd_Removed (Diff base head)).
  { change a with (rd_Added {| rd_Added := a; rd_Removed := r; rd_Modified := m |}). rewrite <- E.
    simpl. rewrite <- sortChanges_swap. f_equal. apply flat_map_change_swap. intros [k x] _. by case_match. }
  assert (Hr : r = swap_change <$> rd_Added (Diff base head)).
  { change r with (rd_Removed {| rd_Added := a; rd_Removed := r; rd_Modified := m |}). rewrite <- E.
    simpl. rewrite <- sortChanges_swap. f_equal. apply flat_map_change_swap. intros [k x] _. by case_match. }
  rewrite Ha, Hr. f_equal.
  change m with (rd_Modified {| rd_Added := a; rd_Removed := r; rd_Modified := m |}). rewrite <- E.
  apply sorted_changes_unique.
  - apply (Diff_sorted head base).
  - apply swap_sorted, Diff_sorted.
  - intros c. rewrite elem_of_swap, !elem_of_modified.
    change (rc_Identity (swap_change c)) with (rc_Identity c).
    split; intros (b & h & H1 & H2 & R & Hc); exists h, b;
      (split; [exact H2|]); (split; [exact H1|]); (split; [rewrite raw_equal_sym; [done|eauto using indexAll_ok..]|]).
    + by rewrite Hc.
    + rewrite <- (swap_involutive c), Hc. done.
Qed.
Definition bucket (policy : string) : ResourceInfo := {| zero_ResourceInfo with
  ri_APIVersion := "s3.aws.upbound.io/v1beta1"; ri_Kind := "Bucket"; ri_Name := "logs";
  ri_Source := {| sl_File := "a.yaml"; sl_Line := 3; sl_Column := 1 |};
  ri_Raw := Some [("spec", VMap [("deletionPolicy", VStr policy)])] |}.
Definition bucket_world (policy : string) : World :=
  {| zero_World with w_Resources := [bucket policy] |}.
Lemma bucket_world_wf policy : wf_world (bucket_world policy).
Proof.
  repeat constructor; simpl; try (by intros ?%not_elem_of_nil).
Defined.
Lemma Diff_swap_witness :
  rd_Added (Diff zero_World (bucket_world "Delete")) =
  swap_change <$> rd_Removed (Diff (bucket_world "Delete") zero_World).
Proof.
  pose proof (Diff_swap (bucket_world "Delete") zero_World (bucket_world_wf _) ltac:(constructor)) as H.
  rewrite H. reflexivity.
Defined.
Lemma Diff_iteration_order_witness :
  diff_loops (indexAll (bucket_world "Delete")) (indexAll zero_World)
    (map_to_list (indexAll (bucket_world "Delete"))) [] = Diff (bucket_world "Delete") zero_World.
Proof. apply Diff_iteration_order; reflexivity. Defined.

(** a variant does not differ from itself: with well-formed documents and
    no NaN, Diff of a World with itself is empty. *)
Theorem Diff_self (w : World) :
  wf_world w → no_nan_world w → Diff w w = {| rd_Added := []; rd_Removed := []; rd_Modified := [] |}.
Proof.
  intros Hw Hn. destruct (Diff w w) as [a r m] eqn:E.
  assert (He : ∀ l : list ResourceChange, (∀ c, c ∉ l) → l = []).
  { intros [|c l] H; [done|]. destruct (H c). by left. }
  f_equal; apply He; intros c Hc.
  - assert (c ∈ rd_Added (Diff w w)) as (? & ? & ? & _)%elem_of_added by by rewrite E. congruence.
  - assert (c ∈ rd_Removed (Diff w w)) as (? & ? & ? & _)%elem_of_removed by by rewrite E. congruence.
  - assert (c ∈ rd_Modified (Diff w w)) as (b & h & ? & ? & R & _)%elem_of_modified by by rewrite E.
    simplify_eq. rewrite (indexAll_refl w (rc_Identity c)) in R; done.
Qed.
Lemma Diff_self_witness : rd_Modified (Diff (bucket_world "Delete") (bucket_world "Delete")) = [].
Proof.
  rewrite (Diff_self (bucket_world "Delete") (bucket_world_wf _)); [reflexivity|].
  repeat constructor.
Defined.

(** ** Properties of the rules *)

(** A resource's own opt-out: one of the keys of the slot is set to "true". *)
Definition bypassed (keys : BypassKeySet) (slot : BypassSlot) (r : raw) : Prop :=
  ∃ ann k, annotations_of r = Some ann ∧ k ∈ keysFor keys slot ∧ lookup_key ann k = Some (VStr "true").

Lemma hasBypass_spec r keys : hasBypassAnnotation r keys = true ↔ bypassed keys BypassAllowDelete r.
Proof.
  unfold hasBypassAnnotation, bypassed. destruct (annotations_of r) as [ann|]; [|naive_solver].
  rewrite HasRaw_spec. naive_solver.
Qed.
Lemma hasImmutableBypass_spec r keys :
  hasImmutableChangeBypass r keys = true ↔ bypassed keys BypassAllowImmutableChange r.
Proof.
  unfold hasImmutableChangeBypass, bypassed. destruct (annotations_of r) as [ann|]; [|naive_solver].
  rewrite HasRaw_spec. naive_solver.
Qed.

Lemma group_no_slash a : has_char "/" (groupFromAPIVersion a) = false.
Proof.
  unfold groupFromAPIVersion. destruct (cut_char "/" a) as [[g v]|] eqn:E; [|done].
  by apply cut_char_Some in E as [_ ?].
Qed.

(** Kinds whose group holds no slash, as every registry group. *)
Definition plain_groups (l : list ArgoGroupKind) : Prop :=
  Forall (λ gk, has_char "/" (gk_Group gk) = false) l.

Lemma buildStateBearingSet_spec kinds g k : plain_groups (default StateBearingKindsRegistry kinds) →
  has_char "/" g = false →
  g +:+ "/" +:+ k ∈ buildStateBearingSet kinds ↔
  {| gk_Group := g; gk_Kind := k |} ∈ default StateBearingKindsRegistry kinds.
Proof.
  intros Hp Hg. unfold buildStateBearingSet. rewrite elem_of_list_to_set.
  unfold plain_groups in Hp. rewrite Forall_forall in Hp. split.
  - intros (gk & E & Hin)%list_elem_of_fmap. specialize (Hp gk Hin).
    assert (H : cut_char "/" (g +:+ "/" +:+ k) = Some (g, k)) by by apply cut_char_app.
    rewrite E in H. assert (H' : cut_char "/" (gk_Group gk +:+ "/" +:+ gk_Kind gk) = Some (gk_Group gk, gk_Kind gk))
      by by apply cut_char_app. rewrite H' in H. injection H as <- <-. by destruct gk.
  - intros H. apply list_elem_of_fmap. eexists. split; [|exact H]. done.
Qed.

(** What R26 reports for the base document [b] of the removed identity [i]. *)
Inductive destructive (keys : BypassKeySet) (kinds : list ArgoGroupKind)
    (i : ResourceIdentity) (b : indexedResource) : Diagnostic → Prop :=
  | destructive_state :
      {| gk_Group := groupFromAPIVersion (id_APIVersion i); gk_Kind := id_Kind i |} ∈ kinds →
      readDeletionPolicy (ir_Raw b) ≠ "Orphan" →
      destructive keys kinds i b (destructive_diag keys (removed_change i b))
  | destructive_cascade :
      {| gk_Group := groupFromAPIVersion (id_APIVersion i); gk_Kind := id_Kind i |} ∉ kinds →
      is_argo_application i = true →
      hasCascadeFinalizer (ir_Raw b) = true → preserveResourcesOnDeletion (ir_Raw b) = false →
      destructive keys kinds i b (cascade_diag (removed_change i b)).

Lemma r26_change_spec keys kinds i b d : plain_groups (default StateBearingKindsRegistry kinds) →
  d ∈ r26_change keys (buildStateBearingSet kinds) (removed_change i b) ↔
  ¬ bypassed keys BypassAllowDelete (ir_Raw b) ∧
  destructive keys (default StateBearingKindsRegistry kinds) i b d.
Proof.
  intros Hp. unfold r26_change. cbn [rc_BaseRaw rc_Identity removed_change].
  destruct (hasBypassAnnotation (ir_Raw b) keys) eqn:Hb.
  { apply hasBypass_spec in Hb. split; [by intros ?%not_elem_of_nil|by intros []]. }
  assert (Hnb : ¬ bypassed keys BypassAllowDelete (ir_Raw b)) by (rewrite <- hasBypass_spec; congruence).
  pose proof (buildStateBearingSet_spec kinds (groupFromAPIVersion (id_APIVersion i)) (id_Kind i) Hp
                (group_no_slash _)) as HS.
  case_bool_decide as Hin; [apply HS in Hin|rewrite HS in Hin].
  - destruct (String.eqb_spec (readDeletionPolicy (ir_Raw b)) "Orphan").
    + split; [by intros ?%not_elem_of_nil|]. by intros [_ []].
    + rewrite list_elem_of_singleton. split.
      * intros ->. split; [done|]. by constructor.
      * by intros [_ []].
  - destruct (is_argo_application i) eqn:Ha.
    2: { split; [by intros ?%not_elem_of_nil|]. intros [_ []]; congruence. }
    destruct (hasCascadeFinalizer (ir_Raw b)) eqn:Hc; simpl.
    2: { split; [by intros ?%not_elem_of_nil|]. intros [_ []]; congruence. }
    destruct (preserveResourcesOnDeletion (ir_Raw b)) eqn:Hpr; simpl.
    { split; [by intros ?%not_elem_of_nil|]. intros [_ []]; congruence. }
    rewrite list_elem_of_singleton. split.
    + intros ->. split; [done|]. by constructor.
    + by intros [_ []].
Qed.

Lemma elem_of_R26 (base head : World) (keys : BypassKeySet) (kinds : option (list ArgoGroupKind))
    (d : Diagnostic) :
  plain_groups (default StateBearingKindsRegistry kinds) →
  d ∈ R26DestructiveDelete (Diff base head) keys kinds ↔
  ∃ i b, indexAll base !! i = Some b ∧ indexAll head !! i = None ∧
    ¬ bypassed keys BypassAllowDelete (ir_Raw b) ∧
    destructive keys (default StateBearingKindsRegistry kinds) i b d.
Proof.
  intros Hp. unfold R26DestructiveDelete. rewrite elem_of_flat_map. split.
  - intros (c & (Hh & b & Hb & Hc)%elem_of_removed & Hd).
    rewrite Hc in Hd. apply r26_change_spec in Hd; [|done]. eauto 10.
  - intros (i & b & Hb & Hh & Hd). exists (removed_change i b). split.
    + apply elem_of_removed. eauto.
    + by apply r26_change_spec.
Qed.
(** C9: R26 on the delta of two Worlds reports exactly the resources that
    disappear from head, are not opted out by an allow-delete annotation on
    the base document, and are either of a state-bearing kind without
    deletionPolicy Orphan, or an Argo Application with the cascading finalizer
    and no preserveResourcesOnDeletion. *)
Theorem R26_spec (base head : World) (keys : BypassKeySet) (kinds : option (list ArgoGroupKind))
    (d : Diagnostic) :
  plain_groups (default StateBearingKindsRegistry kinds) →
  d ∈ R26DestructiveDelete (Diff base head) keys kinds ↔
  ∃ i b, indexAll base !! i = Some b ∧ indexAll head !! i = None ∧
    ¬ bypassed keys BypassAllowDelete (ir_Raw b) ∧
    destructive keys (default StateBearingKindsRegistry kinds) i b d.
Proof. apply elem_of_R26. Qed.
Lemma R26_spec_witness :
  destructive_diag zero_BypassKeySet (removed_change (resource_id (bucket "Delete")) (index_resource (bucket "Delete")))
  ∈ R26DestructiveDelete (Diff (bucket_world "Delete") zero_World) zero_BypassKeySet None.
Proof.
  apply R26_spec.
  - apply (bool_decide_eq_true_1 _). vm_compute. reflexivity.
  - exists (resource_id (bucket "Delete")), (index_resource (bucket "Delete")).
    split; [vm_compute; reflexivity|]. split; [vm_compute; reflexivity|]. split.
    + intros (ann & k & H & _). vm_compute in H. discriminate H.
    + apply destructive_state; [|discriminate].
      apply (bool_decide_eq_true_1 _). vm_compute. reflexivity.
Defined.

(** Deeply equal documents read equal at every path. *)
Lemma read_deep_equal segs a b v :
  deep_equal a b = true → read_segments segs a = Some v →
  ∃ v', read_segments segs b = Some v' ∧ deep_equal v v' = true.
Proof.
  revert a b. induction segs as [|s segs IH]; intros a b He Hr; [done|]. simpl in *.
  destruct (String.eqb s ""); [done|]. destruct a as [| | | | | | |m|]; try done.
  destruct b as [| | | | | | |n|]; try (by destruct m). apply deep_equal_map in He as [_ He].
  destruct (lookup_key m s) as [x|] eqn:E; [|done]. apply lookup_key_elem_of in E.
  destruct (He _ _ E) as (y & -> & Hxy). destruct segs as [|s' segs].
  - injection Hr as <-. eauto.
  - by apply (IH x y).
Qed.
Lemma ReadPath_changed a b path v v' :
  ReadPath a path = Some v → ReadPath b path = Some v' → deep_equal v v' = false → raw_equal a b = false.
Proof.
  unfold ReadPath. destruct a as [m|], b as [n|]; try done. destruct (String.eqb path ""); [done|].
  intros H1 H2 Hd. apply not_true_iff_false. intros He.
  destruct (read_deep_equal _ _ _ _ He H1) as (v'' & H2' & Hd'). simplify_eq. congruence.
Qed.

Lemma elem_of_R27 (sprint : value → string) (base head : World) (registry : option (list ImmutableField))
    (keys : BypassKeySet) (d : Diagnostic) :
  d ∈ R27ImmutableChange sprint (Diff base head) registry keys ↔
  ∃ i b h entry bv hv,
    indexAll base !! i = Some b ∧ indexAll head !! i = Some h ∧
    ¬ bypassed (r27_keys keys) BypassAllowImmutableChange (ir_Raw h) ∧
    entry ∈ r27_registry registry ∧
    im_Group entry = groupFromAPIVersion (id_APIVersion i) ∧ im_Kind entry = id_Kind i ∧
    ReadPath (ir_Raw b) (im_FieldPath entry) = Some bv ∧
    ReadPath (ir_Raw h) (im_FieldPath entry) = Some hv ∧
    deep_equal bv hv = false ∧
    d = immutable_diag sprint (r27_keys keys) (modified_change i b h) entry bv hv.
Proof.
  unfold R27ImmutableChange. rewrite elem_of_flat_map. split.
  - intros (c & (b & h & Hb & Hh & _ & Hc)%elem_of_modified & Hd).
    rewrite Hc in Hd. unfold r27_change in Hd. cbn [rc_HeadRaw modified_change] in Hd.
    destruct (hasImmutableChangeBypass _ _) eqn:Hby; [by apply not_elem_of_nil in Hd|].
    apply elem_of_flat_map in Hd as (entry & He & Hd). unfold r27_entry in Hd.
    cbn [rc_BaseRaw rc_HeadRaw rc_Identity modified_change] in Hd.
    destruct (_ || _) eqn:Hgk; [by apply not_elem_of_nil in Hd|]. bool_props.
    destruct (ReadPath (ir_Raw b) _) as [bv|] eqn:Hbv; [|by apply not_elem_of_nil in Hd].
    destruct (ReadPath (ir_Raw h) _) as [hv|] eqn:Hhv; [|by apply not_elem_of_nil in Hd].
    destruct (deep_equal bv hv) eqn:Hne; [by apply not_elem_of_nil in Hd|].
    apply list_elem_of_singleton in Hd. exists (rc_Identity c), b, h, entry, bv, hv.
    repeat split; try done. rewrite <- hasImmutableBypass_spec. congruence.
  - intros (i & b & h & entry & bv & hv & Hb & Hh & Hby & He & Hg & Hk & Hbv & Hhv & Hne & ->).
    exists (modified_change i b h). split.
    + apply elem_of_modified. exists b, h. repeat split; try done. by eapply ReadPath_changed.
    + unfold r27_change. cbn [rc_HeadRaw modified_change].
      destruct (hasImmutableChangeBypass _ _) eqn:E; [by apply hasImmutableBypass_spec in E|].
      apply elem_of_flat_map. exists entry. split; [done|]. unfold r27_entry.
      cbn [rc_BaseRaw rc_HeadRaw rc_Identity modified_change].
      rewrite Hg, Hk, !String.eqb_refl, Hbv, Hhv, Hne. simpl. by left.
Qed.
(** C10: R27 reports exactly the registered immutable fields that both variants
    set and set differently: for an identity indexed on both sides whose head
    document does not opt out, a registry row of its group and kind whose path
    reads deeply unequal values.  (That the document differs as a whole, which
    puts it in Modified, is implied.) *)
Theorem R27_spec (sprint : value → string) (base head : World) (registry : option (list ImmutableField))
    (keys : BypassKeySet) (d : Diagnostic) :
  d ∈ R27ImmutableChange sprint (Diff base head) registry keys ↔
  ∃ i b h entry bv hv,
    indexAll base !! i = Some b ∧ indexAll head !! i = Some h ∧
    ¬ bypassed (r27_keys keys) BypassAllowImmutableChange (ir_Raw h) ∧
    entry ∈ r27_registry registry ∧
    im_Group entry = groupFromAPIVersion (id_APIVersion i) ∧ im_Kind entry = id_Kind i ∧
    ReadPath (ir_Raw b) (im_FieldPath entry) = Some bv ∧
    ReadPath (ir_Raw h) (im_FieldPath entry) = Some hv ∧
    deep_equal bv hv = false ∧
    d = immutable_diag sprint (r27_keys keys) (modified_change i b h) entry bv hv.
Proof. apply elem_of_R27. Qed.

(** Every diagnostic of a plan is an error of the XPC.P. family. *)
Lemma plan_errors (sprint : value → string) (baseResult headResult : VariantResult) :
  Forall (λ d, has_prefix "XPC.P." (dg_Code d) = true ∧ dg_Severity d = SeverityError)
    (pl_Diagnostics (plan_of sprint baseResult headResult)).
Proof.
  apply Forall_app. split; apply Forall_forall; intros d.
  - intros (c & _ & Hd)%elem_of_flat_map. unfold r26_change in Hd.
    repeat case_match; (by apply not_elem_of_nil in Hd) || (apply list_elem_of_singleton in Hd as ->; done).
  - intros (c & _ & Hd)%elem_of_flat_map. unfold r27_change in Hd.
    case_match; [by apply not_elem_of_nil in Hd|]. apply elem_of_flat_map in Hd as (e & _ & Hd).
    unfold r27_entry in Hd.
    repeat case_match; (by apply not_elem_of_nil in Hd) || (apply list_elem_of_singleton in Hd as ->; done).
Qed.
(** no plan diagnostic is lost by the outputs: every diagnostic of a plan
    has an XPC.P. code and error severity, so the JSON envelope's destructive
    list, the SARIF selection and the markdown section carry all of them. *)
Theorem plan_outputs_complete (sprint : value → string) (baseResult headResult : VariantResult) :
  let p := plan_of sprint baseResult headResult in
  filterPlanDiagnostics (pl_Diagnostics p) "XPC.P." = pl_Diagnostics p ∧
  map jc_Message (jp_Destructive (WriteJSON p)) = map dg_Message (pl_Diagnostics p) ∧
  countBySeverity (pl_Diagnostics p) = (length (pl_Diagnostics p), 0, 0).
Proof.
  intros p.
  pose proof (plan_errors sprint baseResult headResult) as H. fold p in H.
  assert (Hf : filterPlanDiagnostics (pl_Diagnostics p) "XPC.P." = pl_Diagnostics p).
  { unfold filterPlanDiagnostics. apply filter_all. by eapply Forall_impl; [exact H|intros ? []]. }
  split; [done|]. split.
  - unfold WriteJSON. cbn [jp_Destructive]. rewrite Hf, map_map. apply map_ext. done.
  - unfold countBySeverity. revert H. generalize (pl_Diagnostics p). clear.
    induction 1 as [|d l [_ Hd] _ IH]; [done|]. rewrite !filter_cons, Hd.
    injection IH as IH1 IH2 IH3. simpl. by rewrite IH1, IH2, IH3.
Qed.

(** a GitHub target prints to a spec that parses back to it, and an
    accepted gitlab:// spec is split at its first separator into a project that
    holds a slash and a decimal merge request number. *)
Theorem ParseCommentSpec_roundtrip (getenv : string → string) :
  (∀ owner repo n, owner ≠ "" → repo ≠ "" → has_char "/" owner = false → has_char "/" repo = false →
     (0 <= n < 2 ^ 63)%Z →
     ParseCommentSpec getenv ("github://" +:+ owner +:+ "/" +:+ repo +:+ "/pull/" +:+ itoa n) =
     inr (MkCommentTarget "github" (owner +:+ "/" +:+ repo) n)) ∧
  (∀ rest t, ParseCommentSpec getenv ("gitlab://" +:+ rest) = inr t →
     ∃ mr, rest = ct_Project t +:+ "/-/merge_requests/" +:+ mr ∧ atoi mr = Some (ct_MRorPR t) ∧
           contains (ct_Project t) "/" = true ∧ ct_VCS t = "gitlab").
Proof.
  split.
  - intros owner repo n Ho Hr Hos Hrs Hn. unfold ParseCommentSpec.
    change (has_prefix "gitlab://" _) with false.
    change (has_prefix "github://" _) with true. cbv iota.
    change (trim_prefix "github://" ("github://" +:+ ?r)) with r. unfold githubPullSpec.
    change (owner +:+ "/" +:+ ?r) with (owner +:+ String "/" r).
    rewrite split_on_app by done. change (repo +:+ "/pull/" +:+ ?r) with (repo +:+ String "/" ("pull" +:+ String "/" r)).
    rewrite split_on_app by done. rewrite split_on_app by done.
    destruct (itoa_digits n) as [Hne Hd]; [lia|].
    rewrite split_on_no_char by (apply itoa_no_char; [lia|done]).
    rewrite (proj2 (String.eqb_neq owner "") Ho), (proj2 (String.eqb_neq repo "") Hr),
      (proj2 (String.eqb_neq _ "") Hne), Hd. simpl. by rewrite atoi_itoa by lia.
  - intros rest t. unfold ParseCommentSpec. rewrite has_prefix_app.
    unfold trim_prefix. rewrite has_prefix_app, str_drop_app.
    destruct (str_cut _ rest) as [[project mr]|] eqn:E; [|done].
    destruct (String.eqb project "" || _) eqn:E'; [done|]. bool_props.
    destruct (atoi mr) as [n|] eqn:Ea; [|done]. intros [= <-].
    exists mr. apply str_cut_Some in E. eauto.
Qed.
Lemma ParseCommentSpec_roundtrip_witness :
  ParseCommentSpec (λ _, "") "github://acme/infra/pull/42" = inr (MkCommentTarget "github" "acme/infra" 42).
Proof. apply (proj1 (ParseCommentSpec_roundtrip (λ _, "")) "acme" "infra" 42%Z); done. Defined.
