(* ===== verification/Schemas.v ===== *)
(** Validation of manifests against CRD/XRD schemas (src/pkg/schemas): the
    walk over a schema and a document ([ValidateManifest]), the schema index,
    and the pass that fills World.ResourceFieldFacts
    (src/pkg/ir/field_validation.go).

    Go's [==] on two interfaces that hold slices or maps panics; a function
    that can reach it returns an [option], [None] being the panic.  The walk
    recurses on the document; its fuel is the document's nesting depth, which
    [walk_field_total] shows is never exhausted. *)
From Stdlib Require Import ZArith Floats.SpecFloat.
From stdpp Require Import fin_maps.
From S2P Require Import Prelude GoStrings Yaml Types PathWalk.

#[local] Open Scope string_scope.
#[local] Open Scope list_scope.
#[local] Open Scope nat_scope.

(** ** Scalars *)

(** [f == float64(int64(f))] on amd64, where a conversion out of range gives
    -2^63: the float is integral and fits an int64. *)
Definition float_integral (f : spec_float) : bool :=
  match f with
  | S754_zero _ => true
  | S754_finite s m e =>
      let d := (2 ^ (- e))%Z in
      if (0 <=? e)%Z || (Z.pos m mod d =? 0)%Z then
        let z := if (0 <=? e)%Z then (Z.pos m * 2 ^ e)%Z else (Z.pos m / d)%Z in
        in_int64 (if s then (- z)%Z else z)
      else false
  | _ => false
  end.

Definition jsonType (v : value) : string :=
  match v with
  | VStr _ => "string"
  | VBool _ => "boolean"
  | VInt _ | VUint _ => "integer"
  | VFloat f => if float_integral f then "integer" else "number"
  | VMap _ => "object"
  | VList _ => "array"
  | VNull => "null"
  | VOther _ => "unknown"
  end.

Definition typeCompatible (actual want : string) : bool :=
  String.eqb actual want || (String.eqb actual "integer" && String.eqb want "number").

(** [float64(x)] rounds to nearest even. *)
Definition toFloat (v : value) : option spec_float :=
  match v with
  | VInt z => Some (binary_normalize 53 1024 z 0 false)
  | VFloat f => Some f
  | _ => None
  end.

Definition equalScalar (a b : value) : option bool :=
  match go_eq a b with
  | None => None
  | Some true => Some true
  | Some false =>
      match a, b with
      | VStr x, VStr y => Some (String.eqb x y)
      | _, _ => match toFloat a, toFloat b with
                | Some x, Some y => Some (SFeqb x y)
                | _, _ => Some false
                end
      end
  end.

Definition additionalPropertiesFalse (schema : obj) : bool :=
  match lookup_key schema "additionalProperties" with Some (VBool b) => negb b | _ => false end.

Definition is_null (v : value) : bool := match v with VNull => true | _ => false end.

(** ** The walk.  [sprint] is fmt's %v verb on a decoded value. *)
Section walk.
Context (sprint : value → string).

Definition field_fact (path : string) (violation : ViolationKind) (message : string)
  : ResourceFieldFact :=
  {| zero_ResourceFieldFact with
     rf_Path := path; rf_Violation := violation; rf_Message := message |}.
Definition missing_fact (path : string) : ResourceFieldFact :=
  field_fact path ViolationMissingRequired ("required field " +:+ quote path +:+ " is missing").
Definition unknown_fact (path : string) : ResourceFieldFact :=
  field_fact path ViolationUnknownField
    ("unknown field " +:+ quote path +:+ " (schema has additionalProperties: false)").
Definition type_fact (path : string) (schema : obj) (val : value) : ResourceFieldFact :=
  field_fact path ViolationWrongType
    ("field " +:+ quote path +:+ " has type " +:+ jsonType val +:+ ", want " +:+
     get_str (Some schema) "type").
Definition enum_fact (path : string) (schema : obj) (val : value) : ResourceFieldFact :=
  field_fact path ViolationInvalidEnum
    ("field " +:+ quote path +:+ " value " +:+ sprint val +:+ " not in enum " +:+
     sprint (default VNull (lookup_key schema "enum"))).

Definition checkRequired (schema m : obj) (parentPath : string) : list ResourceFieldFact :=
  match get_slice (Some schema) "required" with
  | None => []
  | Some req =>
      flat_map (λ r, match r with
                     | VStr name => if has_key m name then []
                                    else [missing_fact (sub_key parentPath name)]
                     | _ => []
                     end) req
  end.

(** The type check passes, and (if it ran) so does the enum check. *)
Definition type_ok (schema : obj) (val : value) : bool :=
  let schemaType := get_str (Some schema) "type" in
  String.eqb schemaType "" || is_null val || typeCompatible (jsonType val) schemaType.
Fixpoint enum_matched (enum : list value) (val : value) : option bool :=
  match enum with
  | [] => Some false
  | e :: enum =>
      match equalScalar e val with
      | None => None
      | Some true => Some true
      | Some false => enum_matched enum val
      end
  end.
Definition enum_ok (schema : obj) (val : value) : option bool :=
  match get_slice (Some schema) "enum" with
  | Some enum => if is_null val then Some true else enum_matched enum val
  | None => Some true
  end.

(** [additionalProperties: false]: the keys of [m] that are not properties. *)
Definition unknown_fields (schema m : obj) (path : string) : list ResourceFieldFact :=
  if additionalPropertiesFalse schema then
    flat_map (λ '(key, _),
                match lookup_raw (get_map (Some schema) "properties") key with
                | Some _ => []
                | None => [unknown_fact (sub_key path key)]
                end) m
  else [].

(** Concatenation of the results of a loop body that can panic. *)
Definition collect {A B} (f : A → option (list B)) (l : list A) : option (list B) :=
  mjoin <$> mapM f l.

(** The loop over [properties]: each declared property the manifest sets. *)
Definition property_facts (walk : string → obj → value → option (list ResourceFieldFact))
    (props m : obj) : option (list ResourceFieldFact) :=
  collect (λ '(fname, fschema),
             match fschema, lookup_key m fname with
             | VMap fs, Some sub => walk fname fs sub
             | _, _ => Some []
             end) props.

Fixpoint walkField (fuel : nat) (path : string) (schema : obj) (val : value)
  : option (list ResourceFieldFact) :=
  match fuel with
  | 0 => None
  | S fuel =>
      if negb (type_ok schema val) then Some [type_fact path schema val]
      else
        match enum_ok schema val with
        | None => None
        | Some false => Some [enum_fact path schema val]
        | Some true =>
            let schemaType := get_str (Some schema) "type" in
            if String.eqb schemaType "object" then
              match val with
              | VMap m =>
                  match property_facts (λ fname, walkField fuel (sub_key path fname))
                          (default [] (get_map (Some schema) "properties")) m with
                  | Some facts => Some (checkRequired schema m path ++ facts ++ unknown_fields schema m path)
                  | None => None
                  end
              | _ => Some []
              end
            else if String.eqb schemaType "array" then
              match val, get_map (Some schema) "items" with
              | VList arr, Some items =>
                  collect (λ '(i, el), walkField fuel (path +:+ bracketed (Z.of_nat i)) items el)
                    (imap pair arr)
              | _, _ => Some []
              end
            else Some []
        end
  end.

Definition structural_key (key : string) : bool :=
  contains_string ["apiVersion"; "kind"; "metadata"; "status"] key.

(** The schema node [ValidateManifest] starts from. *)
Definition schema_root (schema : obj) : obj :=
  default schema (get_map (Some schema) "openAPIV3Schema").

Definition ValidateManifest (schema r : raw) : option (list ResourceFieldFact) :=
  match schema, r with
  | Some schema, Some m =>
      let root := schema_root schema in
      let req := checkRequired root m "" in
      match get_map (Some root) "properties" with
      | None => Some req
      | Some props =>
          match property_facts (λ fname fs val, walkField (S (depth val)) fname fs val) props m with
          | None => None
          | Some facts =>
              Some (req ++ facts ++
                    if additionalPropertiesFalse root then
                      flat_map (λ '(key, _),
                        if has_key props key || structural_key key then [] else [unknown_fact key]) m
                    else [])
          end
      end
  | _, _ => Some []
  end.

(** ** The pass over the World: field_validation.go *)

(** The schema entries [BuildSchemaIndex] writes, in order. *)
Definition version_entry (w : World) (c : CRDInfo) (v : CRDVersion) : list (SchemaKey * raw) :=
  if String.eqb (cv_SchemaDigest v) "" then []
  else match w_Schemas w !! cv_SchemaDigest v with
       | Some si => [((crd_Group c +:+ "/" +:+ cv_Name v, crd_Kind c), si_Schema si)]
       | None => []
       end.
Definition xrd_entries (w : World) : list (SchemaKey * raw) :=
  flat_map (λ x, flat_map (λ v, if cv_Referenceable v then version_entry w x v else [])
                          (crd_Versions x)) (w_XRDs w).
Definition crd_entries (w : World) : list (SchemaKey * raw) :=
  flat_map (λ c, flat_map (λ v, if cv_Served v || cv_Storage v then version_entry w c v else [])
                          (crd_Versions c)) (w_CRDs w).
(** The result and the World with its cache filled. *)
Definition BuildSchemaIndex (w : World) : gmap (string * string) raw * World :=
  match w_SchemaIndex w with
  | Some index => (index, w)
  | None =>
      let out := foldl (λ out '(k, s), <[k := s]> out) ∅ (xrd_entries w ++ crd_entries w) in
      (out, {| w with w_SchemaIndex := Some out |})
  end.

Definition tag_fact (res : ResourceInfo) (f : ResourceFieldFact) : ResourceFieldFact :=
  {| f with rf_APIVersion := ri_APIVersion res; rf_Kind := ri_Kind res; rf_Name := ri_Name res;
            rf_Namespace := ri_Namespace res; rf_Source := ri_Source res |}.
Definition resource_facts (index : gmap (string * string) raw) (res : ResourceInfo)
  : option (list ResourceFieldFact) :=
  match index !! (ri_APIVersion res, ri_Kind res) with
  | None => Some []
  | Some schema => map (tag_fact res) <$> ValidateManifest schema (ri_Raw res)
  end.
Definition EnrichFieldValidation (w : World) : option World :=
  let '(index, w) := BuildSchemaIndex w in
  if decide (index = ∅) then Some w
  else match collect (resource_facts index) (w_Resources w) with
       | Some facts => Some {| w with w_ResourceFieldFacts := w_ResourceFieldFacts w ++ facts |}
       | None => None
       end.
End walk.

(** ** Lemmas: collecting *)

Lemma collect_Some {A B} (f : A → option (list B)) l out :
  collect f l = Some out →
  (∀ x, x ∈ l → is_Some (f x)) ∧
  ∀ y, y ∈ out ↔ ∃ x o, x ∈ l ∧ f x = Some o ∧ y ∈ o.
Proof.
  unfold collect. destruct (mapM f l) as [outs|] eqn:E; [|done]. intros [= <-].
  apply mapM_Some_1 in E. split.
  - intros x Hx. apply list_elem_of_lookup in Hx as [i Hi].
    destruct (Forall2_lookup_l _ _ _ _ _ E Hi) as (o & _ & Ho). eauto.
  - intros y. rewrite list_elem_of_join. split.
    + intros (o & Hy & Ho). apply list_elem_of_lookup in Ho as [i Hi].
      destruct (Forall2_lookup_r _ _ _ _ _ E Hi) as (x & Hx & Hf).
      exists x, o. split; [by eapply list_elem_of_lookup_2|done].
    + intros (x & o & Hx & Hf & Hy). apply list_elem_of_lookup in Hx as [i Hi].
      destruct (Forall2_lookup_l _ _ _ _ _ E Hi) as (o' & Ho' & Hf'). simplify_eq.
      exists o. split; [done|by eapply list_elem_of_lookup_2].
Qed.
Lemma collect_total {A B} (f : A → option (list B)) l :
  (∀ x, x ∈ l → is_Some (f x)) → is_Some (collect f l).
Proof.
  intros H. unfold collect. rewrite fmap_is_Some. apply mapM_is_Some. by apply Forall_forall.
Qed.

Lemma elem_of_imap_pair {A} (l : list A) i x : (i, x) ∈ imap pair l ↔ l !! i = Some x.
Proof.
  rewrite elem_of_lookup_imap. split.
  - by intros (j & y & [= -> ->] & H).
  - intros H. eauto.
Qed.

Section spec.
Context (sprint : value → string).

(** ** The specification: which facts a value violates *)

(** The value passes its own type and enum checks, and its schema has a type. *)
Definition checked (schema : obj) (v : value) (ty : string) : Prop :=
  type_ok schema v = true ∧ enum_ok schema v = Some true ∧ get_str (Some schema) "type" = ty.

Definition property_schema (schema : obj) (k : string) (fs : obj) : Prop :=
  ∃ props, get_map (Some schema) "properties" = Some props ∧ lookup_key props k = Some (VMap fs).
Definition declared (schema : obj) (k : string) : Prop :=
  ∃ props v, get_map (Some schema) "properties" = Some props ∧ lookup_key props k = Some v.
Definition requires (schema : obj) (name : string) : Prop :=
  ∃ req, get_slice (Some schema) "required" = Some req ∧ VStr name ∈ req.

Inductive Violates : string → obj → value → ResourceFieldFact → Prop :=
  | Violates_type p s v :
      type_ok s v = false → Violates p s v (type_fact p s v)
  | Violates_enum p s v :
      type_ok s v = true → enum_ok s v = Some false → Violates p s v (enum_fact sprint p s v)
  | Violates_required p s m name :
      checked s (VMap m) "object" → requires s name → lookup_key m name = None →
      Violates p s (VMap m) (missing_fact (sub_key p name))
  | Violates_property p s m name fs sub f :
      checked s (VMap m) "object" → property_schema s name fs → lookup_key m name = Some sub →
      Violates (sub_key p name) fs sub f → Violates p s (VMap m) f
  | Violates_unknown p s m name sub :
      checked s (VMap m) "object" → additionalPropertiesFalse s = true →
      lookup_key m name = Some sub → ¬ declared s name →
      Violates p s (VMap m) (unknown_fact (sub_key p name))
  | Violates_item p s arr items i el f :
      checked s (VList arr) "array" → get_map (Some s) "items" = Some items → arr !! i = Some el →
      Violates (p +:+ bracketed (Z.of_nat i)) items el f → Violates p s (VList arr) f.

Lemma elem_of_checkRequired s m p f :
  f ∈ checkRequired s m p ↔
  ∃ name, requires s name ∧ lookup_key m name = None ∧ f = missing_fact (sub_key p name).
Proof.
  unfold checkRequired, requires. destruct (get_slice (Some s) "required") as [req|].
  - rewrite elem_of_flat_map. split.
    + intros (r & Hr & Hf). destruct r; try by apply not_elem_of_nil in Hf.
      unfold has_key in Hf. destruct (lookup_key m s0) eqn:E; [by apply not_elem_of_nil in Hf|].
      apply list_elem_of_singleton in Hf. eauto 10.
    + intros (name & (req' & [= <-] & Hr) & E & ->). exists (VStr name). split; [done|].
      unfold has_key. rewrite E. by left.
  - split; [by intros ?%not_elem_of_nil|]. by intros (? & (? & ? & _) & _).
Qed.

Lemma elem_of_unknown s m p f : wf_map m →
  f ∈ unknown_fields s m p ↔
  additionalPropertiesFalse s = true ∧
  ∃ name sub, lookup_key m name = Some sub ∧ ¬ declared s name ∧ f = unknown_fact (sub_key p name).
Proof.
  intros Hw. unfold unknown_fields, declared.
  destruct (additionalPropertiesFalse s); [|split; [by intros ?%not_elem_of_nil|by intros []]].
  rewrite elem_of_flat_map. split.
  - intros ([name sub] & Hin & Hf). split; [done|]. exists name, sub.
    destruct (get_map (Some s) "properties") as [props|] eqn:E; simpl in Hf.
    + destruct (lookup_key props name) eqn:E'; [by apply not_elem_of_nil in Hf|].
      apply list_elem_of_singleton in Hf. repeat split; [by apply elem_of_lookup_key| |done].
      intros (? & ? & [= <-] & ?). congruence.
    + apply list_elem_of_singleton in Hf. repeat split; [by apply elem_of_lookup_key| |done].
      by intros (? & ? & ? & _).
  - intros (_ & name & sub & Hl & Hd & ->). exists (name, sub). split; [by apply lookup_key_elem_of|].
    destruct (get_map (Some s) "properties") as [props|] eqn:E; simpl; [|by left].
    destruct (lookup_key props name) eqn:E'; [destruct Hd; eauto|by left].
Qed.

Lemma wf_get_map s k m : wf_value (VMap s) → get_map (Some s) k = Some m → wf_value (VMap m).
Proof.
  unfold get_map, lookup_raw. intros Hw. destruct (lookup_key s k) as [v|] eqn:E; [|done].
  intros H. destruct v; try done. injection H as ->. by eapply wf_lookup.
Qed.

Lemma property_facts_spec walk s m out f :
  wf_value (VMap s) → property_facts walk (default [] (get_map (Some s) "properties")) m = Some out →
  f ∈ out ↔ ∃ name fs sub o, property_schema s name fs ∧ lookup_key m name = Some sub ∧
                             walk name fs sub = Some o ∧ f ∈ o.
Proof.
  intros Hs [Ht E]%collect_Some. rewrite E. unfold property_schema. split.
  - intros ([name fschema] & o & Hin & Hf & Hy).
    destruct fschema as [| | | | | | |fs|]; try (injection Hf as <-; by apply not_elem_of_nil in Hy).
    destruct (lookup_key m name) as [sub|] eqn:Hsub; [|injection Hf as <-; by apply not_elem_of_nil in Hy].
    destruct (get_map (Some s) "properties") as [props|] eqn:Hp; [|by apply not_elem_of_nil in Hin].
    exists name, fs, sub, o. repeat split; try done. exists props. split; [done|].
    apply elem_of_lookup_key; [|done]. by apply (wf_get_map s) in Hp; [apply wf_VMap in Hp as []|].
  - intros (name & fs & sub & o & (props & Hp & Hl) & Hsub & Hw & Hf). rewrite Hp.
    exists (name, VMap fs), o. rewrite Hsub. split; [|done]. by apply lookup_key_elem_of.
Qed.
Lemma property_facts_walked walk s m out name fs sub :
  property_facts walk (default [] (get_map (Some s) "properties")) m = Some out →
  property_schema s name fs → lookup_key m name = Some sub → is_Some (walk name fs sub).
Proof.
  intros [Ht _]%collect_Some (props & Hp & Hl) Hsub. rewrite Hp in Ht.
  specialize (Ht (name, VMap fs) (lookup_key_elem_of _ _ _ Hl)). simpl in Ht. by rewrite Hsub in Ht.
Qed.
Lemma wf_property s name fs : wf_value (VMap s) → property_schema s name fs → wf_value (VMap fs).
Proof.
  intros Hs (props & Hp & Hl). eapply wf_lookup; [|exact Hl]. by eapply wf_get_map.
Qed.

(** ** The walk implements the specification *)

Ltac contra_violates :=
  inversion 1; subst; try done; unfold checked in *; destruct_and?; congruence.

Lemma walkField_spec fuel p s v out f :
  wf_value (VMap s) → wf_value v → walkField sprint fuel p s v = Some out →
  f ∈ out ↔ Violates p s v f.
Proof.
  revert p s v out f. induction fuel as [|fuel IH]; intros p s v out f Hs Hv; [done|].
  cbn [walkField]. destruct (type_ok s v) eqn:Ht; cbn [negb].
  2: { intros [= <-]. rewrite list_elem_of_singleton. split; [intros ->; by constructor|contra_violates]. }
  destruct (enum_ok s v) as [[]|] eqn:He; [|intros [= <-]|done].
  2: { rewrite list_elem_of_singleton. split; [intros ->; by constructor|contra_violates]. }
  destruct (String.eqb_spec (get_str (Some s) "type") "object") as [Ho|Ho];
    [|destruct (String.eqb_spec (get_str (Some s) "type") "array") as [Ha|Ha]].
  - destruct v as [| | | | | | |m|];
      try (intros [= <-]; split; [by intros ?%not_elem_of_nil|contra_violates]).
    assert (Hc : checked s (VMap m) "object") by done.
    destruct (property_facts _ _ _) as [facts|] eqn:E; [|done]. intros [= <-].
    rewrite !elem_of_app, elem_of_checkRequired, elem_of_unknown by (by apply wf_VMap in Hv as []).
    rewrite (property_facts_spec _ s m facts f Hs E). split.
    + intros [(name & Hr & Hl & ->)|[(name & fs & sub & o & Hp & Hl & Hw & Hf)|(Hap & name & sub & Hl & Hd & ->)]].
      * by apply Violates_required.
      * apply (Violates_property p s m name fs sub f Hc Hp Hl).
        apply (IH _ _ _ o); eauto using wf_property, wf_lookup.
      * by eapply Violates_unknown.
    + inversion 1 as [|? ? ? H1 H2|? ? ? name Hc' Hr Hl|? ? ? name fs sub ? Hc' Hp Hl Hv'|? ? ? name sub Hc' Hap Hl Hd|];
        subst; try congruence; [left; eauto| |right; right; eauto 10].
      right. left. destruct (property_facts_walked _ _ _ _ _ _ _ E Hp Hl) as [o Ho'].
      exists name, fs, sub, o. repeat split; try done.
      apply (IH _ _ _ o) in Hv'; eauto using wf_property, wf_lookup.
  - destruct v as [| | | | | |arr| |];
      try (intros [= <-]; split; [by intros ?%not_elem_of_nil|contra_violates]).
    destruct (get_map (Some s) "items") as [items|] eqn:Hi.
    2: { intros [= <-]. split; [by intros ?%not_elem_of_nil|]. contra_violates. }
    intros [Ht' E]%collect_Some. rewrite E. split.
    + intros ([i el] & o & Hin%elem_of_imap_pair & Hw & Hf).
      apply (Violates_item p s arr items i el f); try done.
      apply (IH _ _ _ o); eauto using wf_get_map, wf_elem.
    + inversion 1 as [|? ? ? H1 H2| | | |? ? ? items' i el ? Hc' Hi' Hl Hv']; subst; try congruence.
      assert (items' = items) as -> by congruence.
      assert (Hin : (i, el) ∈ imap pair arr) by by apply elem_of_imap_pair.
      destruct (Ht' _ Hin) as [o Ho']. exists (i, el), o. repeat split; try done.
      apply (IH _ _ _ o) in Hv'; eauto using wf_get_map, wf_elem.
  - intros [= <-]. split; [by intros ?%not_elem_of_nil|contra_violates].
Qed.

(** ** Termination and absence of panics *)

Inductive sub_schema : obj → obj → Prop :=
  | sub_schema_refl s : sub_schema s s
  | sub_schema_property s name fs s' : property_schema s name fs → sub_schema fs s' → sub_schema s s'
  | sub_schema_items s items s' : get_map (Some s) "items" = Some items → sub_schema items s' →
      sub_schema s s'.

Definition scalar (v : value) : Prop := match v with VList _ | VMap _ => False | _ => True end.
(** Every enum the walk can reach lists scalars only. *)
Definition scalar_enums (s : obj) : Prop :=
  ∀ s' enum, sub_schema s s' → get_slice (Some s') "enum" = Some enum → Forall scalar enum.

Lemma equalScalar_total e v : scalar e → is_Some (equalScalar e v).
Proof.
  unfold equalScalar. intros He.
  assert (H : is_Some (go_eq e v)) by (destruct e, v; try done; eauto).
  destruct H as [[] ->]; [eauto|]. destruct e, v; simpl; try done; eauto.
Qed.
Lemma enum_matched_total enum v : Forall scalar enum → is_Some (enum_matched enum v).
Proof.
  induction 1 as [|e enum He _ IH]; simpl; [eauto|].
  destruct (equalScalar_total e v He) as [[] ->]; eauto.
Qed.
Lemma enum_ok_total s v : scalar_enums s → is_Some (enum_ok s v).
Proof.
  intros H. unfold enum_ok. destruct (get_slice (Some s) "enum") as [enum|] eqn:E; [|eauto].
  destruct (is_null v); [eauto|]. apply enum_matched_total. eapply H; [constructor|done].
Qed.

Lemma property_facts_total walk s m :
  wf_value (VMap s) →
  (∀ name fs sub, property_schema s name fs → lookup_key m name = Some sub → is_Some (walk name fs sub)) →
  is_Some (property_facts walk (default [] (get_map (Some s) "properties")) m).
Proof.
  intros Hs H. apply collect_total. intros [name fschema] Hin.
  destruct fschema as [| | | | | | |fs|]; try by eexists.
  destruct (lookup_key m name) as [sub|] eqn:E; [|by eexists]. apply H; [|done].
  destruct (get_map (Some s) "properties") as [props|] eqn:Hp; [|by apply not_elem_of_nil in Hin].
  exists props. split; [done|]. apply elem_of_lookup_key; [|done].
  by apply (wf_get_map s) in Hp; [apply wf_VMap in Hp as []|].
Qed.

Lemma walk_field_total fuel p s v :
  wf_value (VMap s) → scalar_enums s → depth v < fuel → is_Some (walkField sprint fuel p s v).
Proof.
  revert p s v. induction fuel as [|fuel IH]; intros p s v Hw He Hd; [lia|]. cbn [walkField].
  destruct (negb (type_ok s v)); [by eexists|].
  destruct (enum_ok_total s v He) as [[] ->]; [|by eexists].
  destruct (String.eqb _ "object"); [|destruct (String.eqb _ "array"); [|by eexists]].
  - destruct v as [| | | | | | |m|]; try by eexists.
    destruct (property_facts_total (λ fname, walkField sprint fuel (sub_key p fname)) s m Hw) as [o Ho].
    + intros name fs sub Hp Hl. apply IH.
      * by eapply wf_property.
      * intros s' enum Hs'. apply He. by eapply sub_schema_property.
      * pose proof (depth_lookup _ _ _ Hl). lia.
    + rewrite Ho. by eexists.
  - destruct v as [| | | | | |arr| |]; try by eexists.
    destruct (get_map (Some s) "items") as [items|] eqn:Hi; [|by eexists].
    apply collect_total. intros [i el] Hin%elem_of_imap_pair. apply IH.
    + by eapply wf_get_map.
    + intros s' enum Hs'. apply He. by eapply sub_schema_items.
    + pose proof (depth_elem arr el (list_elem_of_lookup_2 _ _ _ Hin)). lia.
Qed.

Inductive ManifestViolates (schema m : obj) : ResourceFieldFact → Prop :=
  | Manifest_required name :
      requires (schema_root schema) name → lookup_key m name = None →
      ManifestViolates schema m (missing_fact name)
  | Manifest_property name fs v f :
      property_schema (schema_root schema) name fs → lookup_key m name = Some v →
      Violates name fs v f → ManifestViolates schema m f
  | Manifest_unknown name v :
      is_Some (get_map (Some (schema_root schema)) "properties") →
      additionalPropertiesFalse (schema_root schema) = true →
      lookup_key m name = Some v → ¬ declared (schema_root schema) name →
      structural_key name = false → ManifestViolates schema m (unknown_fact name).

Lemma wf_schema_root s : wf_value (VMap s) → wf_value (VMap (schema_root s)).
Proof.
  unfold schema_root. intros H. destruct (get_map (Some s) "openAPIV3Schema") as [r|] eqn:E; [|done].
  by eapply wf_get_map.
Qed.

Lemma elem_of_ValidateManifest (schema m : obj) (out : list ResourceFieldFact) (f : ResourceFieldFact) :
  wf_value (VMap schema) → wf_value (VMap m) →
  ValidateManifest sprint (Some schema) (Some m) = Some out →
  f ∈ out ↔ ManifestViolates schema m f.
Proof.
  intros Hs%wf_schema_root Hm. unfold ValidateManifest.
  destruct (get_map (Some (schema_root schema)) "properties") as [props|] eqn:Hp.
  - destruct (property_facts _ props m) as [facts|] eqn:E; [|done]. intros [= <-].
    change props with (default [] (Some props)) in E. rewrite <- Hp in E.
    rewrite !elem_of_app, elem_of_checkRequired, (property_facts_spec _ _ m facts f Hs E). split.
    + intros [(name & Hr & Hl & ->)|[(name & fs & sub & o & Hps & Hl & Hw & Hf)|Hf]].
      * by apply Manifest_required.
      * eapply Manifest_property; [done..|].
        apply (walkField_spec (S (depth sub)) name fs sub o) in Hf; eauto using wf_property, wf_lookup.
      * destruct (additionalPropertiesFalse _) eqn:Ha; [|by apply not_elem_of_nil in Hf].
        apply elem_of_flat_map in Hf as ([name v] & Hin & Hf).
        destruct (has_key props name) eqn:Hk; [by apply not_elem_of_nil in Hf|].
        destruct (structural_key name) eqn:Hst; [by apply not_elem_of_nil in Hf|].
        apply list_elem_of_singleton in Hf as ->. apply (Manifest_unknown schema m name v); [by exists props|done| | |done].
        -- apply elem_of_lookup_key; [by apply wf_VMap in Hm as []|done].
        -- intros (props' & v' & Hp' & Hv'). unfold has_key in Hk. simplify_eq. by rewrite Hv' in Hk.
    + inversion 1 as [name Hr Hl|name fs v ? Hps Hl Hv|name v _ Ha Hl Hd Hst]; subst; [left; eauto| |].
      * right. left. destruct (property_facts_walked _ _ _ _ _ _ _ E Hps Hl) as [o Ho].
        exists name, fs, v, o. repeat split; try done.
        apply (walkField_spec (S (depth v)) name fs v o) in Hv; eauto using wf_property, wf_lookup.
      * right. right. rewrite Ha. apply elem_of_flat_map. exists (name, v).
        split; [by apply lookup_key_elem_of|]. destruct (has_key props name) eqn:Hk.
        { apply has_key_spec in Hk as [v' Hv']. destruct Hd. exists props, v'. done. }
        rewrite Hst. by left.
  - intros [= <-]. rewrite elem_of_checkRequired. split.
    + intros (name & Hr & Hl & ->). by apply Manifest_required.
    + inversion 1 as [name Hr Hl|name fs v ? Hps Hl Hv|name v [? Hsome]]; subst; [eauto| |congruence].
      destruct Hps as (? & ? & ?). congruence.
Qed.

(** ** Properties *)

(** C4: ValidateManifest reports exactly the violations of the schema: missing
    required fields, wrong types, values outside an enum and unknown fields
    under additionalProperties: false, each at its dotted, indexed path,
    whatever order Go iterates the maps in. *)
Theorem ValidateManifest_spec (schema m : obj) (out : list ResourceFieldFact) (f : ResourceFieldFact) :
  wf_value (VMap schema) → wf_value (VMap m) →
  ValidateManifest sprint (Some schema) (Some m) = Some out →
  f ∈ out ↔ ManifestViolates schema m f.
Proof. apply elem_of_ValidateManifest. Qed.

(** C40: with scalar enums the validation always returns: the depth of a value
    is enough fuel for the walk and no comparison panics. *)
Theorem ValidateManifest_total (schema m : obj) :
  wf_value (VMap schema) → scalar_enums (schema_root schema) →
  is_Some (ValidateManifest sprint (Some schema) (Some m)).
Proof.
  intros Hs%wf_schema_root He. unfold ValidateManifest.
  destruct (get_map (Some (schema_root schema)) "properties") as [props|] eqn:Hp; [|by eexists].
  change props with (default [] (Some props)). rewrite <- Hp.
  destruct (property_facts_total (λ fname fs val, walkField sprint (S (depth val)) fname fs val)
              (schema_root schema) m Hs) as [o Ho].
  - intros name fs sub Hps Hl. apply walk_field_total; [by eapply wf_property| |lia].
    intros s' enum Hs'. apply He. by eapply sub_schema_property.
  - rewrite Ho. by eexists.
Qed.
End spec.

(** A CRD whose schema types spec.size and bounds spec.color. *)
Definition sample_schema : obj :=
  [("openAPIV3Schema", VMap [("properties", VMap [("spec", VMap [
     ("type", VStr "object"); ("required", VList [VStr "size"]);
     ("additionalProperties", VBool false);
     ("properties", VMap [("size", VMap [("type", VStr "integer")]);
                          ("color", VMap [("enum", VList [VStr "red"])])])])])])].
Definition sample_manifest : obj :=
  [("kind", VStr "Widget"); ("spec", VMap [("size", VStr "big"); ("colour", VNull)])].

(** Decide the well-formedness of a literal document. *)
Ltac solve_wf :=
  repeat match goal with
  | |- wf_value (VMap _) => apply wf_VMap; split; [apply (bool_decide_eq_true_1 _); reflexivity|]
  | |- wf_value (VList _) => apply wf_VList
  | |- Forall _ [] => apply Forall_nil_2
  | |- Forall _ (_ :: _) => apply Forall_cons_2; cbn [snd]
  | |- wf_value _ => exact I
  end.

Definition print_value (v : value) : string := match v with VStr s => s | _ => "" end.
Lemma ValidateManifest_spec_witness :
  ManifestViolates print_value sample_schema sample_manifest (unknown_fact "spec.colour").
Proof.
  apply (ValidateManifest_spec print_value sample_schema sample_manifest
           [type_fact "spec.size" [("type", VStr "integer")] (VStr "big"); unknown_fact "spec.colour"]).
  - unfold sample_schema. solve_wf.
  - unfold sample_manifest. solve_wf.
  - reflexivity.
  - right. left.
Defined.

Definition open_schema : obj := [("properties", VMap [])].
Lemma ValidateManifest_total_witness :
  is_Some (ValidateManifest print_value (Some open_schema) (Some sample_manifest)).
Proof.
  apply ValidateManifest_total.
  - unfold open_schema. solve_wf.
  - intros s' enum Hs. inversion Hs as [|? ? ? ? (props & Hp & Hl)|? items ? Hi]; subst.
    + discriminate.
    + injection Hp as <-. discriminate Hl.
    + discriminate Hi.
Defined.

(** An enum that lists a list makes Go's interface comparison panic on a list
    value: the check crashes on such a CRD. *)
Lemma enum_of_lists_panics :
  ValidateManifest print_value
    (Some [("properties", VMap [("spec", VMap [("enum", VList [VList [VInt 1]])])])])
    (Some [("spec", VList [VInt 1])]) = None.
Proof. reflexivity. Qed.

Lemma foldl_pair_insert (l : list (SchemaKey * raw)) (m : gmap (string * string) raw) :
  foldl (λ out '(k, s), <[k := s]> out) m l = foldl (λ out a, <[a.1 := a.2]> out) m l.
Proof. revert m. induction l as [|[k s] l IH]; intros m; simpl; [done|]. apply IH. Qed.

(** the schema index maps (apiVersion, kind) to the schema of the last
    matching entry, CRD versions after XRD versions, and the cache makes every
    later call return the same index without recomputing it. *)
Theorem BuildSchemaIndex_spec (w : World) (k : SchemaKey) :
  let '(index, w') := BuildSchemaIndex w in
  BuildSchemaIndex w' = (index, w') ∧
  (w_SchemaIndex w = None →
   index !! k = option_map snd (find_first (λ e, bool_decide (e.1 = k)) (rev (xrd_entries w ++ crd_entries w)))).
Proof.
  unfold BuildSchemaIndex. destruct (w_SchemaIndex w) as [index|] eqn:E.
  - rewrite E. done.
  - split; [done|]. intros _. rewrite foldl_pair_insert, (lookup_foldl_insert fst snd), lookup_empty.
    by destruct (find_first _ _).
Qed.
Lemma BuildSchemaIndex_spec_witness :
  fst (BuildSchemaIndex zero_World) !! ("v1", "Widget") = None.
Proof. apply (BuildSchemaIndex_spec zero_World ("v1", "Widget")). reflexivity. Defined.

(** EnrichFieldValidation keeps the facts it finds and adds, for every
    resource with a schema, exactly the violations of its document, tagged with
    the resource's identity and source; nothing else of the World changes but
    the index cache. *)
Theorem EnrichFieldValidation_spec (sprint : value → string) (w w' : World) (f : ResourceFieldFact) :
  let index := fst (BuildSchemaIndex w) in
  Forall (λ r, wf_raw (ri_Raw r)) (w_Resources w) →
  map_Forall (λ _ s, wf_raw s) index →
  EnrichFieldValidation sprint w = Some w' →
  (f ∈ w_ResourceFieldFacts w' ↔
   f ∈ w_ResourceFieldFacts w ∨
   ∃ res schema m f0, res ∈ w_Resources w ∧ index !! (ri_APIVersion res, ri_Kind res) = Some (Some schema) ∧
     ri_Raw res = Some m ∧ ManifestViolates sprint schema m f0 ∧ f = tag_fact res f0) ∧
  w' = {| w with w_ResourceFieldFacts := w_ResourceFieldFacts w'; w_SchemaIndex := Some index |}.
Proof.
  intros index Hres Hidx. unfold EnrichFieldValidation.
  assert (Hb : BuildSchemaIndex w = (index, {| w with w_SchemaIndex := Some index |})).
  { subst index. unfold BuildSchemaIndex. destruct (w_SchemaIndex w) eqn:E; [|done].
    simpl. f_equal. destruct w; simpl in *. by rewrite E. }
  rewrite Hb. clearbody index. cbn [w_Resources w_ResourceFieldFacts].
  destruct (decide (index = ∅)) as [H0|H0].
  { intros [= <-]. simpl. split; [|done]. split; [auto|]. intros [?|(? & ? & ? & ? & _ & Hl & _)]; [done|].
    by rewrite H0, lookup_empty in Hl. }
  destruct (collect _ _) as [facts|] eqn:Hc; [|done]. intros [= <-]. simpl. split; [|done].
  rewrite elem_of_app. f_equiv. apply collect_Some in Hc as [Ht Hc]. rewrite Hc. split.
  - intros (res & o & Hin & Hf & Hy). unfold resource_facts in Hf.
    destruct (index !! _) as [schema|] eqn:Hl; [|injection Hf as <-; by apply not_elem_of_nil in Hy].
    destruct (ValidateManifest sprint schema (ri_Raw res)) as [fs|] eqn:Hv; [|done]. injection Hf as <-.
    apply list_elem_of_fmap in Hy as (f0 & -> & Hf0).
    destruct schema as [schema|]; [|injection Hv as <-; by apply not_elem_of_nil in Hf0].
    destruct (ri_Raw res) as [m|] eqn:Hm; [|injection Hv as <-; by apply not_elem_of_nil in Hf0].
    exists res, schema, m, f0. repeat split; try done.
    rewrite Forall_forall in Hres. specialize (Hres _ Hin). rewrite Hm in Hres.
    by apply (elem_of_ValidateManifest sprint schema m fs f0 (Hidx _ _ Hl) Hres Hv).
  - intros (res & schema & m & f0 & Hin & Hl & Hm & Hviol & ->).
    destruct (Ht res Hin) as [o Ho]. exists res, o. repeat split; try done.
    unfold resource_facts in Ho. rewrite Hl, Hm in Ho.
    destruct (ValidateManifest sprint (Some schema) (Some m)) as [fs|] eqn:Hv; [|done]. injection Ho as <-.
    apply list_elem_of_fmap. exists f0. split; [done|].
    rewrite Forall_forall in Hres. specialize (Hres _ Hin). rewrite Hm in Hres.
    by apply (elem_of_ValidateManifest sprint schema m fs f0 (Hidx _ _ Hl) Hres Hv).
Qed.
Definition widget_world : World := {| zero_World with
  w_Resources := [{| zero_ResourceInfo with ri_APIVersion := "acme.io/v1"; ri_Kind := "Widget";
                     ri_Name := "w"; ri_Raw := Some sample_manifest |}];
  w_SchemaIndex := Some {[("acme.io/v1", "Widget") := Some sample_schema]} |}.
Lemma EnrichFieldValidation_spec_witness :
  ∃ w', EnrichFieldValidation print_value widget_world = Some w' ∧
        length (w_ResourceFieldFacts w') = 2 ∧
        w_Resources w' = w_Resources widget_world.
Proof.
  eexists. split; [vm_compute; reflexivity|]. split; [reflexivity|].
  match goal with |- w_Resources ?w' = _ =>
    destruct (EnrichFieldValidation_spec print_value widget_world w' zero_ResourceFieldFact) as [_ H] end.
  - apply Forall_singleton. unfold wf_raw. simpl ri_Raw. cbv beta iota. unfold sample_manifest. solve_wf.
  - apply map_Forall_singleton. unfold wf_raw, sample_schema. solve_wf.
  - vm_compute. reflexivity.
  - rewrite H. reflexivity.
Defined.
