(* ===== verification/Trajectory.v ===== *)
(** The sync trajectory simulator (src/pkg/trajectory): resources grouped by
    sync wave, applied wave by wave, hook resources deleted at the end of their
    own wave.  [simulateApp] is the code's loops; [cluster_at] is the abstract
    specification of the cluster contents at a wave, and the theorems show the
    loops implement it. *)
From Stdlib Require Import ZArith.
From stdpp Require Import countable fin_maps fin_sets.
From S2P Require Import Prelude GoStrings Types.

#[local] Open Scope string_scope.
#[local] Open Scope list_scope.
#[local] Open Scope nat_scope.

(** ** Data *)

Record ResourceKey : Type := MkResourceKey {
  rk_APIVersion : string;
  rk_Kind : string;
  rk_Namespace : string;
  rk_Name : string;
}.
#[export] Instance ResourceKey_eq_dec : EqDecision ResourceKey.
Proof. solve_decision. Defined.
#[export] Instance ResourceKey_countable : Countable ResourceKey.
Proof.
  refine (inj_countable' (λ k, (rk_APIVersion k, rk_Kind k, rk_Namespace k, rk_Name k))
    (λ '(a, k, ns, n), MkResourceKey a k ns n) _).
  by intros [].
Defined.

Record Delta : Type := MkDelta {
  de_Created : list ResourceKey;
  de_Updated : list ResourceKey;
  de_Deleted : list ResourceKey;
}.
(** State: the keys present. *)
Record Step : Type := MkStep {
  st_AppName : string;
  st_Wave : Z;
  st_Delta : Delta;
  st_State : gset ResourceKey;
}.
Record waveBucket : Type := MkWaveBucket {
  wb_creates : list ResourceInfo;
  wb_deletes : list ResourceInfo;
}.

(** ** Operations *)

Definition KeyOf (r : ResourceInfo) : ResourceKey := {|
  rk_APIVersion := ri_APIVersion r; rk_Kind := ri_Kind r;
  rk_Namespace := ri_Namespace r; rk_Name := ri_Name r |}.

(** [ParseSyncWave] of builder.go: 0 when absent or not an [int]. *)
Definition ParseSyncWave (annotations : gmap string string) : Z :=
  match annotations !! "argocd.argoproj.io/sync-wave" with
  | None => 0
  | Some wave => default 0%Z (atoi wave)
  end.

Definition hookDeletes (r : ResourceInfo) : bool :=
  let policy := default "" (ri_Annotations r !! "argocd.argoproj.io/hook-delete-policy") in
  String.eqb policy "HookSucceeded" || String.eqb policy "HookFailed".

Definition scopeToApp (app : ArgoApplication) (resources : list ResourceInfo) : list ResourceInfo :=
  let ns := dest_Namespace (app_Destination app) in
  if String.eqb ns "" then resources
  else filter (λ r, ri_Namespace r = "" ∨ ri_Namespace r = ns) resources.

Definition key_lt (a b : ResourceKey) : bool :=
  key_less [(rk_Kind a, rk_Kind b); (rk_Namespace a, rk_Namespace b); (rk_Name a, rk_Name b)].
Definition sortKeys (keys : list ResourceKey) : list ResourceKey := sort_slice key_lt keys.

Definition orNew (b : option waveBucket) : waveBucket := default (MkWaveBucket [] []) b.

(** The first loop of [simulateApp]: fill the buckets. *)
Definition add_to_bucket (buckets : gmap Z waveBucket) (r : ResourceInfo) : gmap Z waveBucket :=
  let wave := ParseSyncWave (ri_Annotations r) in
  let b := orNew (buckets !! wave) in
  <[wave := MkWaveBucket (wb_creates b ++ [r])
                         (if hookDeletes r then wb_deletes b ++ [r] else wb_deletes b)]> buckets.
Definition fill_buckets (scope : list ResourceInfo) : gmap Z waveBucket :=
  foldl add_to_bucket ∅ scope.

(** The two inner loops over one wave. *)
Definition create_key (acc : list ResourceKey * gset ResourceKey) (r : ResourceInfo) :=
  let '(createdKeys, state) := acc in
  let key := KeyOf r in
  (if decide (key ∈ state) then createdKeys else createdKeys ++ [key], {[key]} ∪ state).
Definition delete_key (acc : list ResourceKey * gset ResourceKey) (r : ResourceInfo) :=
  let '(deletedKeys, state) := acc in
  let key := KeyOf r in
  if decide (key ∈ state) then (deletedKeys ++ [key], state ∖ {[key]}) else (deletedKeys, state).

Definition apply_wave (appName : string) (b : waveBucket) (w : Z) (state : gset ResourceKey) : Step :=
  let '(createdKeys, state1) := foldl create_key ([], state) (wb_creates b) in
  let '(deletedKeys, state2) := foldl delete_key ([], state1) (wb_deletes b) in
  {| st_AppName := appName; st_Wave := w;
     st_Delta := {| de_Created := sortKeys createdKeys; de_Updated := [];
                    de_Deleted := sortKeys deletedKeys |};
     st_State := state2 |}.

(** The loop over the sorted waves. *)
Fixpoint run_waves (appName : string) (buckets : gmap Z waveBucket) (sorted : list Z)
    (state : gset ResourceKey) : list Step :=
  match sorted with
  | [] => []
  | w :: sorted =>
      let step := apply_wave appName (orNew (buckets !! w)) w state in
      step :: run_waves appName buckets sorted (st_State step)
  end.

(** [sort.Ints] of the keys of the [waves] map. *)
Definition sorted_waves (buckets : gmap Z waveBucket) : list Z :=
  sort_slice Z.ltb (map_to_list buckets).*1.

Definition simulateApp (app : ArgoApplication) (resources : list ResourceInfo) : list Step :=
  let buckets := fill_buckets (scopeToApp app resources) in
  run_waves (app_Name app) buckets (sorted_waves buckets) ∅.

Definition Simulate (w : World) : list Step :=
  flat_map (λ app, simulateApp app (w_Resources w))
    (sort_slice (λ a b, str_lt (app_Name a) (app_Name b)) (w_ArgoApps w)).

(** ** Specification *)

(** [k] is created (deleted by its hook policy) in wave [v]. *)
Definition created (scope : list ResourceInfo) (k : ResourceKey) (v : Z) : Prop :=
  ∃ r, r ∈ scope ∧ KeyOf r = k ∧ ParseSyncWave (ri_Annotations r) = v.
Definition hook_deleted (scope : list ResourceInfo) (k : ResourceKey) (v : Z) : Prop :=
  ∃ r, r ∈ scope ∧ KeyOf r = k ∧ ParseSyncWave (ri_Annotations r) = v ∧ hookDeletes r = true.

(** The cluster contents after wave [w]: the last wave up to [w] that created
    [k] did not delete it again. *)
Definition cluster_at (scope : list ResourceInfo) (w : Z) (k : ResourceKey) : Prop :=
  ∃ v, (v <= w)%Z ∧ created scope k v ∧ ¬ hook_deleted scope k v ∧
       ∀ v', (v < v' <= w)%Z → ¬ created scope k v'.

(** ** Lemmas *)

#[export] Instance Zltb_weak : StrictWeak Z.ltb.
Proof.
  split; intros *; rewrite ?Z.ltb_lt, ?Z.ltb_ge; lia.
Qed.

Definition wave_creates (scope : list ResourceInfo) (w : Z) : list ResourceInfo :=
  filter (λ r, ParseSyncWave (ri_Annotations r) = w) scope.
Definition wave_deletes (scope : list ResourceInfo) (w : Z) : list ResourceInfo :=
  filter (λ r, ParseSyncWave (ri_Annotations r) = w ∧ hookDeletes r = true) scope.

Lemma fill_buckets_spec scope w :
  (is_Some (fill_buckets scope !! w) ↔ ∃ r, r ∈ scope ∧ ParseSyncWave (ri_Annotations r) = w) ∧
  orNew (fill_buckets scope !! w) = MkWaveBucket (wave_creates scope w) (wave_deletes scope w).
Proof.
  unfold fill_buckets. induction scope as [|r scope IH] using rev_ind.
  - simpl. rewrite lookup_empty. split; [|done].
    split; [by intros [? ?]|by intros (? & ?%not_elem_of_nil & _)].
  - rewrite foldl_app. simpl. unfold wave_creates, wave_deletes in *.
    rewrite !filter_app, !filter_cons, !filter_nil. destruct IH as [IH1 IH2].
    setoid_rewrite elem_of_app. setoid_rewrite list_elem_of_singleton. unfold add_to_bucket at 1 3.
    destruct (decide (ParseSyncWave (ri_Annotations r) = w)) as [<-|Hw].
    + rewrite !lookup_insert_eq. split; [split; [eauto|by eexists]|]. simpl. rewrite IH2. simpl.
      destruct (hookDeletes r); [by rewrite decide_True|]. rewrite decide_False by naive_solver.
      by rewrite app_nil_r.
    + rewrite !lookup_insert_ne by done. rewrite decide_False, !app_nil_r by naive_solver.
      split; [|done]. rewrite IH1. naive_solver.
Qed.

Lemma create_state rs keys st :
  (foldl create_key (keys, st) rs).2 = list_to_set (KeyOf <$> rs) ∪ st.
Proof.
  revert keys st. induction rs as [|r rs IH]; intros keys st; simpl; [set_solver|].
  destruct (decide (KeyOf r ∈ st)); rewrite IH; set_solver.
Qed.
Lemma create_keys rs keys st k :
  k ∈ (foldl create_key (keys, st) rs).1 ↔ k ∈ keys ∨ (k ∉ st ∧ k ∈ KeyOf <$> rs).
Proof.
  revert keys st. induction rs as [|r rs IH]; intros keys st; simpl.
  - rewrite elem_of_nil. tauto.
  - rewrite IH, elem_of_cons, elem_of_union, elem_of_singleton.
    destruct (decide (KeyOf r ∈ st)) as [H|H]; rewrite ?elem_of_app, ?list_elem_of_singleton.
    + destruct (decide (k = KeyOf r)) as [->|]; tauto.
    + destruct (decide (k = KeyOf r)) as [->|]; tauto.
Qed.
Lemma create_NoDup rs keys st :
  NoDup keys → (∀ k, k ∈ keys → k ∈ st) → NoDup (foldl create_key (keys, st) rs).1.
Proof.
  revert keys st. induction rs as [|r rs IH]; intros keys st Hd Hs; simpl; [done|].
  apply IH; destruct (decide (KeyOf r ∈ st)) as [H|H].
  - done.
  - apply NoDup_app. repeat split; [done| |apply NoDup_singleton].
    intros k Hk ->%list_elem_of_singleton. auto.
  - set_solver.
  - set_solver.
Qed.
Lemma delete_state rs keys st :
  (foldl delete_key (keys, st) rs).2 = st ∖ list_to_set (KeyOf <$> rs).
Proof.
  revert keys st. induction rs as [|r rs IH]; intros keys st; simpl; [set_solver|].
  destruct (decide (KeyOf r ∈ st)); rewrite IH; set_solver.
Qed.
Lemma delete_keys rs keys st k :
  k ∈ (foldl delete_key (keys, st) rs).1 ↔ k ∈ keys ∨ (k ∈ st ∧ k ∈ KeyOf <$> rs).
Proof.
  revert keys st. induction rs as [|r rs IH]; intros keys st; simpl.
  - rewrite elem_of_nil. tauto.
  - destruct (decide (KeyOf r ∈ st)) as [H|H]; rewrite IH, elem_of_cons, ?elem_of_app,
      ?list_elem_of_singleton, ?elem_of_difference, ?elem_of_singleton;
      destruct (decide (k = KeyOf r)) as [->|]; tauto.
Qed.
Lemma delete_NoDup rs keys st :
  NoDup keys → (∀ k, k ∈ keys → k ∉ st) → NoDup (foldl delete_key (keys, st) rs).1.
Proof.
  revert keys st. induction rs as [|r rs IH]; intros keys st Hd Hs; simpl; [done|].
  destruct (decide (KeyOf r ∈ st)) as [H|H]; apply IH; try done; [|set_solver].
  apply NoDup_app. repeat split; [done| |apply NoDup_singleton].
  intros k Hk ->%list_elem_of_singleton. by apply (Hs _ Hk).
Qed.

(** One wave, as operations on key sets. *)
Lemma apply_wave_spec appName b w st :
  let step := apply_wave appName b w st in
  let creates := list_to_set (KeyOf <$> wb_creates b) in
  let deletes := list_to_set (KeyOf <$> wb_deletes b) in
  st_State step = (creates ∪ st) ∖ deletes ∧
  (∀ k, k ∈ de_Created (st_Delta step) ↔ k ∈ creates ∧ k ∉ st) ∧
  (∀ k, k ∈ de_Deleted (st_Delta step) ↔ k ∈ creates ∪ st ∧ k ∈ deletes) ∧
  NoDup (de_Created (st_Delta step)) ∧ NoDup (de_Deleted (st_Delta step)).
Proof.
  unfold apply_wave. pose proof (create_state (wb_creates b) [] st) as C1.
  pose proof (create_keys (wb_creates b) [] st) as C2.
  pose proof (create_NoDup (wb_creates b) [] st (NoDup_nil_2) ltac:(by intros ? ?%not_elem_of_nil)) as C3.
  destruct (foldl create_key ([], st) (wb_creates b)) as [ck st1]. simpl in *.
  pose proof (delete_state (wb_deletes b) [] st1) as D1.
  pose proof (delete_keys (wb_deletes b) [] st1) as D2.
  pose proof (delete_NoDup (wb_deletes b) [] st1 (NoDup_nil_2) ltac:(by intros ? ?%not_elem_of_nil)) as D3.
  destruct (foldl delete_key ([], st1) (wb_deletes b)) as [dk st2]. simpl in *. subst st1 st2.
  unfold sortKeys. split; [done|]. split; [|split; [|split]].
  - intros k. rewrite elem_of_sort_slice, C2, elem_of_list_to_set, elem_of_nil. tauto.
  - intros k. rewrite elem_of_sort_slice, D2, !elem_of_union, !elem_of_list_to_set, elem_of_nil. tauto.
  - by rewrite sort_slice_perm.
  - by rewrite sort_slice_perm.
Qed.

Lemma elem_of_creates scope w k :
  k ∈ KeyOf <$> wave_creates scope w ↔ created scope k w.
Proof.
  unfold wave_creates, created. rewrite list_elem_of_fmap. setoid_rewrite list_elem_of_filter.
  split; [intros (r & -> & ? & ?)|intros (r & ? & <- & ?)]; eauto.
Qed.
Lemma elem_of_deletes scope w k :
  k ∈ KeyOf <$> wave_deletes scope w ↔ hook_deleted scope k w.
Proof.
  unfold wave_deletes, hook_deleted. rewrite list_elem_of_fmap. setoid_rewrite list_elem_of_filter.
  split; [intros (r & -> & [? ?] & ?)|intros (r & ? & <- & ? & ?)]; eauto 6.
Qed.

(** The waves of the steps: the sorted list itself. *)
Lemma run_waves_waves name buckets l st : st_Wave <$> run_waves name buckets l st = l.
Proof.
  revert st. induction l as [|w l IH]; intros st; simpl; [done|].
  rewrite IH. unfold apply_wave. by destruct (foldl create_key _ _), (foldl delete_key _ _).
Qed.

Definition ascending (l : list Z) : Prop := StronglySorted Z.lt l.

Lemma sorted_waves_spec scope :
  ascending (sorted_waves (fill_buckets scope)) ∧
  ∀ w, w ∈ sorted_waves (fill_buckets scope) ↔ ∃ r, r ∈ scope ∧ ParseSyncWave (ri_Annotations r) = w.
Proof.
  unfold sorted_waves, ascending. split.
  - pose proof (sort_slice_sorted Z.ltb (map_to_list (fill_buckets scope)).*1) as Hs.
    assert (Hd : NoDup (sort_slice Z.ltb (map_to_list (fill_buckets scope)).*1)).
    { rewrite sort_slice_perm. apply NoDup_fst_map_to_list. }
    induction Hs as [|w l Hs IH Hw]; [constructor|]. apply NoDup_cons in Hd as [Hn Hd].
    constructor; [auto|]. rewrite Forall_forall in Hw |- *. intros v Hv. specialize (Hw v Hv).
    unfold not_after in Hw. apply Z.ltb_ge in Hw. assert (w ≠ v) by (by intros ->). lia.
  - intros w. rewrite elem_of_sort_slice, <- (proj1 (fill_buckets_spec scope w)), list_elem_of_fmap.
    split.
    + intros ([w' b] & -> & Hb%elem_of_map_to_list). by eexists.
    + intros [b Hb]. exists (w, b). by rewrite elem_of_map_to_list.
Qed.

(** The state before each wave: what the previous step left. *)
Definition state_before (steps : list Step) (i : nat) : gset ResourceKey :=
  match i with 0 => ∅ | S i => match steps !! i with Some s => st_State s | None => ∅ end end.

Lemma run_waves_step name buckets l st i s :
  run_waves name buckets l st !! i = Some s →
  s = apply_wave name (orNew (buckets !! st_Wave s)) (st_Wave s)
        (match i with 0 => st | S i =>
           match run_waves name buckets l st !! i with Some s => st_State s | None => ∅ end end).
Proof.
  assert (Hw : ∀ b w st, st_Wave (apply_wave name b w st) = w).
  { intros. unfold apply_wave. by destruct (foldl create_key _ _), (foldl delete_key _ _). }
  revert st i. induction l as [|w l IH]; intros st i; simpl; [done|]. destruct i as [|i]; simpl.
  - intros [= <-]. by rewrite Hw.
  - intros H. rewrite (IH _ _ H) at 1. by destruct i.
Qed.

(** Under ascending waves, the wave-by-wave fold computes [cluster_at]. *)
Section ascending_waves.
Context (scope : list ResourceInfo) (waves : list Z).
Context (Hasc : ascending waves).
Context (Hwaves : ∀ w, w ∈ waves ↔ ∃ r, r ∈ scope ∧ ParseSyncWave (ri_Annotations r) = w).

Lemma created_wave k v : created scope k v → v ∈ waves.
Proof using Hwaves. intros (r & ? & _ & ?). apply Hwaves. eauto. Qed.

(** Between two consecutive waves nothing is created. *)
Lemma cluster_at_step w k : w ∈ waves →
  (∀ u, (∀ v, v ∈ waves → (v < w)%Z → (v <= u)%Z) → (u < w)%Z →
   cluster_at scope w k ↔ (created scope k w ∨ cluster_at scope u k) ∧ ¬ hook_deleted scope k w).
Proof using Hwaves.
  intros Hw u Hu Huw. split.
  - intros (v & Hv & Hc & Hh & Hlast).
    assert (Hnh : ¬ hook_deleted scope k w ∨ v ≠ w) by (destruct (decide (v = w)); naive_solver).
    destruct (decide (v = w)) as [->|Hne]; [tauto|].
    assert (Hncw : ¬ created scope k w) by (apply Hlast; lia).
    split; [|by intros (r & ? & ? & ? & _); apply Hncw; exists r].
    right. exists v. split; [|split; [done|split; [done|]]].
    + apply Hu; [by eapply created_wave|lia].
    + intros v' Hv'. apply Hlast. lia.
  - intros [[Hc|(v & Hv & Hc & Hh & Hlast)] Hn].
    + exists w. repeat split; try done; lia.
    + destruct (decide (k ∈ KeyOf <$> wave_creates scope w)) as [Hcw|Hcw]; rewrite elem_of_creates in Hcw.
      * exists w. repeat split; try done; lia.
      * exists v. split; [lia|split; [done|split; [done|]]]. intros v' Hv' Hc'.
        destruct (decide (v' = w)) as [->|]; [done|].
        assert (v' <= u)%Z by (apply Hu; [by eapply created_wave|lia]).
        apply (Hlast v'); [lia|done].
Qed.

Lemma run_waves_cluster name l1 l2 st u i s :
  waves = l1 ++ l2 →
  (∀ v, v ∈ l1 → (v <= u)%Z) → (∀ v, v ∈ l2 → (u < v)%Z) →
  (∀ k, k ∈ st ↔ cluster_at scope u k) →
  run_waves name (fill_buckets scope) l2 st !! i = Some s →
  ∀ k, k ∈ st_State s ↔ cluster_at scope (st_Wave s) k.
Proof using Hasc Hwaves.
  revert l1 st u i. induction l2 as [|w l2 IH]; intros l1 st u i Hw H1 H2 Hst; simpl; [done|].
  set (step := apply_wave name (orNew (fill_buckets scope !! w)) w st).
  assert (Hstep : st_Wave step = w ∧ ∀ k, k ∈ st_State step ↔ cluster_at scope w k).
  { split; [subst step; unfold apply_wave; by destruct (foldl create_key _ _), (foldl delete_key _ _)|].
    intros k. destruct (apply_wave_spec name (orNew (fill_buckets scope !! w)) w st) as [E _].
    fold step in E. rewrite E.
    rewrite (proj2 (fill_buckets_spec scope w)). cbn [wb_creates wb_deletes].
    rewrite elem_of_difference, elem_of_union, !elem_of_list_to_set, elem_of_creates, elem_of_deletes, Hst.
    symmetry. apply cluster_at_step.
    - rewrite Hw. set_solver.
    - intros v Hv Hlt. rewrite Hw, elem_of_app, elem_of_cons in Hv.
      destruct Hv as [Hv|[->|Hv]]; [auto|lia|]. exfalso.
      pose proof Hasc as Ha. rewrite Hw in Ha. apply StronglySorted_app in Ha as (_ & _ & Ha).
      apply StronglySorted_inv in Ha as [_ Ha]. rewrite Forall_forall in Ha. specialize (Ha v Hv). lia.
    - apply H2. by left. }
  destruct Hstep as [Hsw Hs]. destruct i as [|i]; simpl.
  - intros [= <-]. rewrite Hsw. done.
  - apply (IH (l1 ++ [w]) (st_State step) w).
    + by rewrite <- app_assoc.
    + intros v Hv. apply elem_of_app in Hv as [Hv| ->%list_elem_of_singleton]; [|lia].
      specialize (H1 v Hv). specialize (H2 w ltac:(by left)). lia.
    + intros v Hv. pose proof Hasc as Ha. rewrite Hw in Ha. apply StronglySorted_app in Ha as (_ & _ & Ha).
      apply StronglySorted_inv in Ha as [_ Ha]. rewrite Forall_forall in Ha. by apply Ha.
    + done.
Qed.
End ascending_waves.

Lemma cluster_at_below scope u :
  (∀ r, r ∈ scope → (u < ParseSyncWave (ri_Annotations r))%Z) → ∀ k, ¬ cluster_at scope u k.
Proof. intros H k (v & Hv & (r & Hr & _ & E) & _). specialize (H r Hr). lia. Qed.

(** A wave below every wave of the list. *)
Lemma lower_bound (l : list Z) : ∃ u, ∀ v, v ∈ l → (u < v)%Z.
Proof.
  induction l as [|x l [u Hu]]; [exists 0%Z; by intros v ?%not_elem_of_nil|].
  exists (Z.min u (x - 1)). intros v [->|Hv]%elem_of_cons; [lia|]. specialize (Hu v Hv). lia.
Qed.

#[export] Instance app_name_less : StrictWeak (λ a b, str_lt (app_Name a) (app_Name b)).
Proof. split; intros *; [apply str_lt_asym|apply (less_ntrans (less := str_lt))]. Qed.

(** ** Properties *)

(** C5: the steps of an Application are its in-scope waves in strictly
    ascending order, each wave once; the state of a step is exactly the cluster
    contents the specification gives for its wave. *)
Theorem simulateApp_state (app : ArgoApplication) (resources : list ResourceInfo) (i : nat) (s : Step) :
  let scope := scopeToApp app resources in
  let steps := simulateApp app resources in
  ascending (st_Wave <$> steps) ∧
  (∀ w, w ∈ st_Wave <$> steps ↔ ∃ r, r ∈ scope ∧ ParseSyncWave (ri_Annotations r) = w) ∧
  (steps !! i = Some s → ∀ k, k ∈ st_State s ↔ cluster_at scope (st_Wave s) k).
Proof.
  intros scope steps. subst steps. unfold simulateApp. fold scope. rewrite run_waves_waves.
  destruct (sorted_waves_spec scope) as [Ha Hw]. split; [done|]. split; [done|].
  destruct (lower_bound (sorted_waves (fill_buckets scope))) as [u Hu].
  intros Hs. apply (run_waves_cluster scope (sorted_waves (fill_buckets scope)) Ha Hw (app_Name app)
           [] (sorted_waves (fill_buckets scope)) ∅ u i s); try done.
  - by intros v ?%not_elem_of_nil.
  - intros k. split; [set_solver|]. intros H. exfalso. revert H. apply cluster_at_below.
    intros r Hr. apply Hu, Hw. eauto.
Qed.

(** each delta replays its state: the state after a step is the state
    before it plus what was created minus what was deleted; Created lists keys
    that were not there, Deleted keys that are gone, without duplicates, and
    Updated is empty. *)
Theorem simulateApp_delta (app : ArgoApplication) (resources : list ResourceInfo) (i : nat) (s : Step) :
  let steps := simulateApp app resources in
  let before := state_before steps i in
  steps !! i = Some s →
  st_State s = (before ∪ list_to_set (de_Created (st_Delta s))) ∖ list_to_set (de_Deleted (st_Delta s)) ∧
  (∀ k, k ∈ de_Created (st_Delta s) → k ∉ before) ∧
  (∀ k, k ∈ de_Deleted (st_Delta s) → k ∈ before ∪ list_to_set (de_Created (st_Delta s))) ∧
  NoDup (de_Created (st_Delta s)) ∧ NoDup (de_Deleted (st_Delta s)) ∧
  de_Updated (st_Delta s) = [].
Proof.
  intros steps before Hs. pose proof (run_waves_step _ _ _ _ _ _ Hs) as E.
  assert (Hb : before = match i with 0 => ∅ | S i =>
    match run_waves (app_Name app) (fill_buckets (scopeToApp app resources))
            (sorted_waves (fill_buckets (scopeToApp app resources))) ∅ !! i with
    | Some s => st_State s | None => ∅ end end) by by destruct i.
  rewrite <- Hb in E. clear Hb. clearbody before.
  destruct (apply_wave_spec (app_Name app)
    (orNew (fill_buckets (scopeToApp app resources) !! st_Wave s)) (st_Wave s) before)
    as (H1 & H2 & H3 & H4 & H5).
  rewrite <- E in H1, H2, H3, H4, H5. split; [|split; [|split; [|split; [done|split; [done|]]]]].
  - rewrite H1. apply leibniz_equiv. intros k.
    rewrite !elem_of_difference, !elem_of_union, !elem_of_list_to_set, H2, H3, !elem_of_union, !elem_of_list_to_set.
    destruct (decide (k ∈ before)); destruct (decide (k ∈ KeyOf <$> wb_creates (orNew (fill_buckets (scopeToApp app resources) !! st_Wave s))));
      rewrite ?elem_of_list_to_set in *; tauto.
  - intros k Hk%H2. tauto.
  - intros k Hk%H3. rewrite elem_of_union in Hk. rewrite elem_of_union, elem_of_list_to_set, H2.
    destruct (decide (k ∈ before)); tauto.
  - rewrite E. unfold apply_wave. by destruct (foldl create_key _ _), (foldl delete_key _ _).
Qed.

Definition hook_job : ResourceInfo := {| zero_ResourceInfo with
  ri_APIVersion := "batch/v1"; ri_Kind := "Job"; ri_Name := "migrate";
  ri_Annotations := {["argocd.argoproj.io/sync-wave" := "-1";
                      "argocd.argoproj.io/hook-delete-policy" := "HookSucceeded"]} |}.
Definition web : ResourceInfo := {| zero_ResourceInfo with
  ri_APIVersion := "apps/v1"; ri_Kind := "Deployment"; ri_Name := "web" |}.
Example simulate_ex :
  map (λ s, (st_Wave s, length (de_Created (st_Delta s)), length (de_Deleted (st_Delta s))))
    (simulateApp zero_ArgoApplication [web; hook_job]) = [((-1)%Z, 1, 1); (0%Z, 1, 0)].
Proof. vm_compute. reflexivity. Qed.

Definition web_step : Step := MkStep "" 0 (MkDelta [KeyOf web] [] []) {[KeyOf web]}.
Lemma simulateApp_state_witness :
  cluster_at (scopeToApp zero_ArgoApplication [web; hook_job]) 0 (KeyOf web).
Proof.
  destruct (simulateApp_state zero_ArgoApplication [web; hook_job] 1 web_step) as (_ & _ & H).
  apply (H ltac:(vm_compute; reflexivity) (KeyOf web)). simpl. by apply elem_of_singleton.
Defined.
Lemma simulateApp_delta_witness : NoDup (de_Created (st_Delta web_step)).
Proof.
  apply (simulateApp_delta zero_ArgoApplication [web; hook_job] 1 web_step).
  vm_compute. reflexivity.
Defined.

(** Steps by (AppName, Wave). *)
Definition step_lt (a b : Step) : Prop :=
  str_lt (st_AppName a) (st_AppName b) = true ∨
  st_AppName a = st_AppName b ∧ (st_Wave a < st_Wave b)%Z.

Lemma simulateApp_name app resources s : s ∈ simulateApp app resources → st_AppName s = app_Name app.
Proof.
  unfold simulateApp. generalize (sorted_waves (fill_buckets (scopeToApp app resources))) as l.
  generalize (∅ : gset ResourceKey) as st. intros st l. revert st.
  induction l as [|w l IH]; intros st; simpl; [by intros ?%not_elem_of_nil|].
  intros [->|H]%elem_of_cons; [|eauto]. unfold apply_wave.
  by destruct (foldl create_key _ _), (foldl delete_key _ _).
Qed.

Lemma simulateApp_sorted app resources : StronglySorted step_lt (simulateApp app resources).
Proof.
  destruct (sorted_waves_spec (scopeToApp app resources)) as [Ha _].
  pose proof (λ s, simulateApp_name app resources s) as Hn.
  unfold ascending in Ha. rewrite <- (run_waves_waves (app_Name app) (fill_buckets (scopeToApp app resources)) _ ∅) in Ha.
  change (run_waves _ _ _ _) with (simulateApp app resources) in Ha.
  induction (simulateApp app resources) as [|s l IH]; [constructor|].
  apply StronglySorted_inv in Ha as [Ha Hs]. constructor.
  - apply IH; [exact Ha|intros x Hx; apply Hn; by right].
  - rewrite Forall_forall in Hs. apply Forall_forall. intros x Hx. right.
    rewrite (Hn s), (Hn x) by (by constructor). split; [done|]. apply Hs, list_elem_of_fmap. eauto.
Qed.

Lemma flat_map_sorted {A} (f : A → list Step) (l : list A) :
  StronglySorted (λ x y, ∀ a b, a ∈ f x → b ∈ f y → step_lt a b) l →
  (∀ x, x ∈ l → StronglySorted step_lt (f x)) → StronglySorted step_lt (flat_map f l).
Proof.
  induction 1 as [|x l _ IH Hx]; intros Hf; simpl; [constructor|].
  apply StronglySorted_app. split; [|split].
  - intros a b Ha (y & Hy & Hb)%elem_of_flat_map. rewrite Forall_forall in Hx. eauto.
  - apply Hf. by left.
  - apply IH. intros y Hy. apply Hf. by right.
Qed.

Definition app_less (a b : ArgoApplication) : bool := str_lt (app_Name a) (app_Name b).

(** when no two Applications share a name, the output of Simulate is
    strictly sorted by (AppName, Wave) and does not depend on the order in
    which the World lists the Applications. *)
Theorem Simulate_order (w w' : World) :
  NoDup (app_Name <$> w_ArgoApps w) →
  StronglySorted step_lt (Simulate w) ∧
  (w_ArgoApps w' ≡ₚ w_ArgoApps w → w_Resources w' = w_Resources w → Simulate w' = Simulate w).
Proof.
  intros Hnd. unfold Simulate. fold app_less.
  assert (Hd : NoDup (app_Name <$> sort_slice app_less (w_ArgoApps w))).
  { by rewrite sort_slice_perm. }
  split.
  - apply flat_map_sorted; [|intros; apply simulateApp_sorted].
    pose proof (sort_slice_sorted app_less (w_ArgoApps w)) as Hs.
    induction Hs as [|x l Hs IH Hx]; [constructor|]. apply NoDup_cons in Hd as [Hn Hd].
    constructor; [auto|]. rewrite Forall_forall in Hx |- *.
    intros y Hy a b Ha%simulateApp_name Hb%simulateApp_name. left. rewrite Ha, Hb.
    apply not_false_iff_true. intros E. apply Hn.
    rewrite (str_lt_total (app_Name x) (app_Name y)); [|done|by apply (Hx y)].
    apply list_elem_of_fmap. eauto.
  - intros Hp ->. f_equal. apply sort_slice_perm_eq; [apply _| |done].
    intros x y Hx Hy H1 H2. pose proof (str_lt_total _ _ H1 H2) as E.
    rewrite Hp in Hx, Hy. apply list_elem_of_lookup in Hx as [i Hi], Hy as [j Hj].
    assert (i = j) as ->; [|congruence].
    eapply (NoDup_lookup _ _ _ (app_Name x) Hnd); rewrite list_lookup_fmap; rewrite ?Hi, ?Hj; simpl; congruence.
Qed.

Definition two_apps (swap : bool) : World :=
  let a := {| zero_ArgoApplication with app_Name := "api" |} in
  let b := {| zero_ArgoApplication with app_Name := "web" |} in
  {| zero_World with w_ArgoApps := if swap then [b; a] else [a; b]; w_Resources := [web; hook_job] |}.
Lemma Simulate_order_witness : Simulate (two_apps true) = Simulate (two_apps false).
Proof.
  apply (Simulate_order (two_apps false) (two_apps true)).
  - apply (bool_decide_unpack _). vm_compute. exact I.
  - apply Permutation_swap.
  - reflexivity.
Defined.
