(* ===== verification/Waiver.v ===== *)
(** The accepted-risk register (src/pkg/waiver): which waiver covers a finding,
    when a waiver has expired, what Validate demands of an entry and how Apply
    partitions the diagnostics of a run.

    A [time.Time] enters only through its civil date, a [date]; [parse_date] is
    time.Parse with the layout 2006-01-02. *)
From Stdlib Require Import ZArith.
From S2P Require Import Prelude GoStrings Types.

#[local] Open Scope string_scope.
#[local] Open Scope list_scope.
#[local] Open Scope nat_scope.

(** ** Dates *)

Record date : Type := MkDate { d_year : Z; d_month : Z; d_day : Z }.
#[export] Instance date_eq_dec : EqDecision date.
Proof. solve_decision. Defined.

Definition is_leap (y : Z) : bool :=
  (y mod 4 =? 0)%Z && (negb (y mod 100 =? 0)%Z || (y mod 400 =? 0)%Z).
Definition days_in (m y : Z) : Z :=
  if (m =? 2)%Z then if is_leap y then 29 else 28
  else if (m =? 4)%Z || (m =? 6)%Z || (m =? 9)%Z || (m =? 11)%Z then 30 else 31.

(** The digits of a fixed-width field. *)
Fixpoint parse_fixed (n : nat) (s : string) (acc : Z) : option (Z * string) :=
  match n with
  | 0 => Some (acc, s)
  | S n =>
      match s with
      | String c s => if is_digit c then parse_fixed n s (10 * acc + digit_value c)%Z else None
      | "" => None
      end
  end.
Definition parse_date (s : string) : option date :=
  match parse_fixed 4 s 0 with
  | Some (y, String "-" s) =>
      match parse_fixed 2 s 0 with
      | Some (m, String "-" s) =>
          match parse_fixed 2 s 0 with
          | Some (d, "") =>
              if (1 <=? m)%Z && (m <=? 12)%Z && (1 <=? d)%Z && (d <=? days_in m y)%Z
              then Some (MkDate y m d) else None
          | _ => None
          end
      | _ => None
      end
  | _ => None
  end.

(** [time.After] on midnights of two civil dates. *)
Definition date_after (a b : date) : bool :=
  (d_year b <? d_year a)%Z ||
  ((d_year b =? d_year a)%Z &&
   ((d_month b <? d_month a)%Z ||
    ((d_month b =? d_month a)%Z && (d_day b <? d_day a)%Z))).

Example parse_date_ex :
  map parse_date ["2026-06-01"; "2024-02-29"; "2023-02-29"; "2026-6-1"; "2026-06-01 "; "26-06-01"] =
  [Some (MkDate 2026 6 1); Some (MkDate 2024 2 29); None; None; None; None].
Proof. reflexivity. Qed.

(** ** Data *)

Record Waiver : Type := MkWaiver {
  wv_Rule : string;
  wv_File : string;
  wv_Kind : string;
  wv_Name : string;
  wv_Namespace : string;
  wv_Reason : string;
  wv_AddedBy : string;
  wv_AddedAt : string;
  wv_ExpiresAt : string;
}.
Record Set_ : Type := MkSet { set_Waivers : list Waiver; set_Source : string }.
Record Result : Type := MkResult {
  res_Active : list Diagnostic;
  res_Waived : list Diagnostic;
  res_ExpiredCount : nat;
  res_UnusedCount : nat;
}.
Definition CodeWaiverExpired : string := "XPC.W.waiver-expired".
Definition CodeWaiverUnused : string := "XPC.W.waiver-unused".

(** ** Matching *)

(** [filepath.ToSlash] is the identity on Unix. *)
Definition fileMatches (diagFile waiverFile : string) : bool :=
  if String.eqb waiverFile "" then true
  else
    let d := path_clean diagFile in
    let w := path_clean waiverFile in
    String.eqb d w || has_suffix ("/" +:+ w) d || String.eqb (path_base d) w.

Definition matches (w : Waiver) (d : Diagnostic) : bool :=
  if negb (String.eqb (dg_Code d) (wv_Rule w)) then false
  else if negb (fileMatches (sl_File (dg_Source d)) (wv_File w)) then false
  else if negb (String.eqb (wv_Name w) "") && negb (contains (dg_Message d) (wv_Name w)) then false
  else if negb (String.eqb (wv_Kind w) "") && negb (contains (dg_Message d) (wv_Kind w)) then false
  else true.

(** The first matching waiver ([None] for -1). *)
Fixpoint match_from (i : nat) (l : list Waiver) (d : Diagnostic) : option nat :=
  match l with
  | [] => None
  | w :: l => if matches w d then Some i else match_from (S i) l d
  end.
Definition matchIndex (s : Set_) (d : Diagnostic) : option nat := match_from 0 (set_Waivers s) d.

Definition expired (w : Waiver) (now : date) : bool :=
  match parse_date (wv_ExpiresAt w) with
  | None => true
  | Some exp => date_after now exp
  end.

Definition identity (w : Waiver) : string :=
  if negb (String.eqb (wv_Kind w) "") && negb (String.eqb (wv_Name w) "")
  then wv_Kind w +:+ "/" +:+ wv_Name w
  else if negb (String.eqb (wv_Name w) "") then wv_Name w
  else wv_File w.

(** ** Validation.  One constructor per error, with the entry's index. *)
Inductive WaiverError : Type :=
  | MissingRule (i : nat) | NoFileOrName (i : nat) | MissingReason (i : nat)
  | MissingExpiry (i : nat) | BadExpiry (i : nat).
Definition validate_waiver (i : nat) (w : Waiver) : option WaiverError :=
  if String.eqb (trim_space (wv_Rule w)) "" then Some (MissingRule i)
  else if String.eqb (wv_File w) "" && String.eqb (wv_Name w) "" then Some (NoFileOrName i)
  else if String.eqb (trim_space (wv_Reason w)) "" then Some (MissingReason i)
  else if String.eqb (wv_ExpiresAt w) "" then Some (MissingExpiry i)
  else match parse_date (wv_ExpiresAt w) with None => Some (BadExpiry i) | Some _ => None end.
Fixpoint validate_from (i : nat) (l : list Waiver) : option WaiverError :=
  match l with
  | [] => None
  | w :: l => match validate_waiver i w with Some e => Some e | None => validate_from (S i) l end
  end.
Definition Validate (s : Set_) : option WaiverError := validate_from 0 (set_Waivers s).

(** ** Apply *)

(** The loop over the diagnostics: the [used] and [expiredMatched] flags and
    the two result lists. *)
Record apply_state : Type := MkApplyState {
  as_used : list bool;
  as_expiredMatched : list bool;
  as_active : list Diagnostic;
  as_waived : list Diagnostic;
}.
Definition apply_diag (s : Set_) (now : date) (st : apply_state) (d : Diagnostic) : apply_state :=
  match matchIndex s d with
  | None => {| st with as_active := as_active st ++ [d] |}
  | Some wi =>
      let st := {| st with as_used := <[wi := true]> (as_used st) |} in
      match set_Waivers s !! wi with
      | Some w =>
          if expired w now then
            {| st with as_active := as_active st ++ [d];
                       as_expiredMatched := <[wi := true]> (as_expiredMatched st) |}
          else {| st with as_waived := as_waived st ++ [d] |}
      | None => st
      end
  end.

Definition expired_diag (s : Set_) (w : Waiver) : Diagnostic :=
  {| zero_Diagnostic with
     dg_Code := CodeWaiverExpired; dg_Severity := SeverityWarning;
     dg_Message := "waiver for " +:+ wv_Rule w +:+ " (" +:+ identity w +:+ ") expired on " +:+
       wv_ExpiresAt w +:+ " — re-justify or fix the finding";
     dg_Source := {| sl_File := set_Source s; sl_Line := 0; sl_Column := 0 |} |}.
Definition unused_diag (s : Set_) (w : Waiver) : Diagnostic :=
  {| zero_Diagnostic with
     dg_Code := CodeWaiverUnused; dg_Severity := SeverityInfo;
     dg_Message := "waiver for " +:+ wv_Rule w +:+ " (" +:+ identity w +:+
       ") matched no finding — remove it from " +:+ path_base (set_Source s);
     dg_Source := {| sl_File := set_Source s; sl_Line := 0; sl_Column := 0 |} |}.

(** One iteration of the loop over the waivers. *)
Definition report_waiver (s : Set_) (used expiredMatched : list bool) (res : Result) (iw : nat * Waiver)
  : Result :=
  let '(i, w) := iw in
  let res :=
    if default false (expiredMatched !! i)
    then {| res with res_ExpiredCount := S (res_ExpiredCount res);
                     res_Active := res_Active res ++ [expired_diag s w] |}
    else res in
  if negb (default false (used !! i))
  then {| res with res_UnusedCount := S (res_UnusedCount res);
                   res_Active := res_Active res ++ [unused_diag s w] |}
  else res.

Definition Apply (s : Set_) (diags : list Diagnostic) (now : date) : Result :=
  let n := length (set_Waivers s) in
  let st := foldl (apply_diag s now)
              (MkApplyState (replicate n false) (replicate n false) [] []) diags in
  foldl (report_waiver s (as_used st) (as_expiredMatched st))
        (MkResult (as_active st) (as_waived st) 0 0) (imap pair (set_Waivers s)).

(** Resolution of the register's path: the flag, else the upward search. *)
Definition Resolve {E} (load : string → E + Set_) (abs : string → option string)
    (searchUpward : string → option string) (flagPath start : string) : E + Set_ :=
  if negb (String.eqb flagPath "") then load flagPath
  else match abs start with
       | None => inr (MkSet [] "")
       | Some a => match searchUpward a with Some p => load p | None => inr (MkSet [] "") end
       end.

(** ** Lemmas: matching *)

Lemma match_from_Some i l d j : match_from i l d = Some j →
  ∃ k w, j = i + k ∧ l !! k = Some w ∧ matches w d = true ∧
         ∀ k' w', k' < k → l !! k' = Some w' → matches w' d = false.
Proof.
  revert i. induction l as [|w l IH]; intros i; simpl; [done|].
  destruct (matches w d) eqn:E.
  - intros [= <-]. exists 0, w. repeat split; [lia|done|lia].
  - intros (k & w' & -> & Hl & Hm & Hf)%IH. exists (S k), w'. repeat split; [lia|done|done|].
    intros [|k'] w'' Hk' Hw''; simpl in *; [congruence|]. apply (Hf k'); [lia|done].
Qed.
Lemma matchIndex_Some s d i : matchIndex s d = Some i →
  ∃ w, set_Waivers s !! i = Some w ∧ matches w d = true ∧
       ∀ j w', j < i → set_Waivers s !! j = Some w' → matches w' d = false.
Proof. intros (k & w & -> & ?)%match_from_Some. eauto. Qed.

(** A finding is suppressed iff its first matching waiver is live. *)
Definition suppressed (s : Set_) (now : date) (d : Diagnostic) : bool :=
  match matchIndex s d with
  | Some i => match set_Waivers s !! i with Some w => negb (expired w now) | None => false end
  | None => false
  end.
(** Waiver [i] is the first match of some finding. *)
Definition hit (s : Set_) (diags : list Diagnostic) (i : nat) : bool :=
  existsb (λ d, bool_decide (matchIndex s d = Some i)) diags.

Lemma hit_snoc s diags d i :
  hit s (diags ++ [d]) i = hit s diags i || bool_decide (matchIndex s d = Some i).
Proof. unfold hit. rewrite existsb_app. simpl. by rewrite orb_false_r. Qed.

(** The invariant of the loop over the diagnostics. *)
Lemma apply_loop s now diags :
  let n := length (set_Waivers s) in
  let st := foldl (apply_diag s now)
              (MkApplyState (replicate n false) (replicate n false) [] []) diags in
  (∀ i, as_used st !! i = (λ _, hit s diags i) <$> set_Waivers s !! i) ∧
  (∀ i, as_expiredMatched st !! i = (λ w, hit s diags i && expired w now) <$> set_Waivers s !! i) ∧
  as_active st = filter (λ d, suppressed s now d = false) diags ∧
  as_waived st = filter (λ d, suppressed s now d = true) diags.
Proof.
  induction diags as [|d diags IH] using rev_ind; simpl.
  - assert (H : ∀ i, replicate (length (set_Waivers s)) false !! i =
                     (λ _ : Waiver, false) <$> set_Waivers s !! i).
    { intros i. destruct (set_Waivers s !! i) eqn:E; simpl.
      - apply lookup_replicate_2. by eapply lookup_lt_Some.
      - apply lookup_replicate_None. by apply lookup_ge_None. }
    repeat split; try done; intros i; rewrite H; by destruct (set_Waivers s !! i).
  - rewrite foldl_app. simpl in *. destruct IH as (Hu & He & Ha & Hw).
    set (st := foldl _ _ diags) in *. clearbody st.
    rewrite !filter_app, !filter_cons, !filter_nil, <- Ha, <- Hw.
    pose proof (hit_snoc s diags d) as Hs. unfold apply_diag, suppressed.
    destruct (matchIndex s d) as [wi|] eqn:E.
    + apply matchIndex_Some in E as (w & Hl & Hm & _). rewrite Hl.
      assert (Hlt : wi < length (set_Waivers s)) by by eapply lookup_lt_Some.
      assert (Hul : wi < length (as_used st)).
      { apply lookup_lt_is_Some. rewrite Hu, Hl. by eexists. }
      assert (Hel : wi < length (as_expiredMatched st)).
      { apply lookup_lt_is_Some. rewrite He, Hl. by eexists. }
      assert (Hu' : ∀ i, <[wi:=true]> (as_used st) !! i =
        (λ _ : Waiver, hit s diags i || bool_decide (Some wi = Some i)) <$> set_Waivers s !! i).
      { intros i. destruct (decide (wi = i)) as [<-|Hne].
        - rewrite list_lookup_insert_eq, Hl, bool_decide_true by done. simpl. by rewrite orb_true_r.
        - rewrite list_lookup_insert_ne, Hu, bool_decide_false by congruence. by rewrite orb_false_r. }
      destruct (expired w now) eqn:Hx; simpl; rewrite ?app_nil_r;
        (split; [intros i; rewrite Hs; apply Hu'|]); (split; [|done]);
        intros i; rewrite Hs; (destruct (decide (wi = i)) as [<-|Hne];
          [|rewrite bool_decide_false, orb_false_r by congruence]).
      * rewrite list_lookup_insert_eq, Hl, bool_decide_true by done. simpl. by rewrite orb_true_r, Hx.
      * by rewrite list_lookup_insert_ne.
      * rewrite He, Hl. simpl. by rewrite Hx, !andb_false_r.
      * done.
    + simpl. rewrite app_nil_r. split; [|split; [|done]]; intros i;
        rewrite Hs, bool_decide_false, orb_false_r by done; done.
Qed.

(** What the register itself reports: the matched but expired waivers and the
    waivers that are nobody's first match. *)
Definition report_of (s : Set_) (now : date) (diags : list Diagnostic) (iw : nat * Waiver)
  : list Diagnostic :=
  let '(i, w) := iw in
  (if hit s diags i && expired w now then [expired_diag s w] else []) ++
  (if hit s diags i then [] else [unused_diag s w]).
Definition waiver_reports (s : Set_) (now : date) (diags : list Diagnostic) : list Diagnostic :=
  flat_map (report_of s now diags) (imap pair (set_Waivers s)).

Lemma report_loop s now diags used em l res :
  (∀ i w, (i, w) ∈ l → used !! i = Some (hit s diags i) ∧
                       em !! i = Some (hit s diags i && expired w now)) →
  foldl (report_waiver s used em) res l =
  {| res_Active := res_Active res ++ flat_map (report_of s now diags) l;
     res_Waived := res_Waived res;
     res_ExpiredCount := res_ExpiredCount res +
       length (filter (λ iw : nat * Waiver, hit s diags iw.1 && expired iw.2 now = true) l);
     res_UnusedCount := res_UnusedCount res +
       length (filter (λ iw : nat * Waiver, hit s diags iw.1 = false) l) |}.
Proof.
  revert res. induction l as [|[i w] l IH]; intros res H.
  - destruct res. simpl. by rewrite app_nil_r, !Nat.add_0_r.
  - cbn [foldl flat_map]. rewrite IH by (intros; apply H; by right).
    destruct (H i w) as [Hu He]; [by left|]. unfold report_waiver, report_of. rewrite Hu, He.
    rewrite !filter_cons. cbn [fst snd default].
    destruct (hit s diags i), (expired w now); simpl; repeat case_decide; try done; simpl;
      rewrite <- ?app_assoc; f_equal; lia.
Qed.

(** ** Properties *)

Lemma Apply_waived s diags now :
  res_Waived (Apply s diags now) = filter (λ d, suppressed s now d = true) diags ∧
  res_Active (Apply s diags now) =
    filter (λ d, suppressed s now d = false) diags ++ waiver_reports s now diags ∧
  res_ExpiredCount (Apply s diags now) =
    length (filter (λ iw : nat * Waiver, hit s diags iw.1 && expired iw.2 now = true)
                   (imap pair (set_Waivers s))) ∧
  res_UnusedCount (Apply s diags now) =
    length (filter (λ iw : nat * Waiver, hit s diags iw.1 = false) (imap pair (set_Waivers s))).
Proof.
  unfold Apply. destruct (apply_loop s now diags) as (Hu & He & Ha & Hw).
  rewrite (report_loop s now diags).
  - cbn [res_Active res_Waived res_ExpiredCount res_UnusedCount]. by rewrite Ha, Hw.
  - intros i w (j & w' & [= -> ->] & Hl)%elem_of_lookup_imap. by rewrite Hu, He, Hl.
Qed.

(** The reports about the register have codes of their own, and an empty register has
    none and suppresses nothing. *)
Lemma waiver_reports_codes s now diags d : d ∈ waiver_reports s now diags → dg_Code d ∈ [CodeWaiverExpired; CodeWaiverUnused].
Proof.
  unfold waiver_reports. intros ([i w] & _ & H)%elem_of_flat_map. revert H. unfold report_of.
  intros [H|H]%elem_of_app; repeat case_match; try (by apply not_elem_of_nil in H); apply list_elem_of_singleton in H as ->;
    cbn; rewrite !elem_of_cons; auto.
Qed.
Lemma no_waivers_suppressed s now d : set_Waivers s = [] → suppressed s now d = false.
Proof. intros E. unfold suppressed, matchIndex. by rewrite E. Qed.
Lemma no_waivers_reports s now diags : set_Waivers s = [] → waiver_reports s now diags = [].
Proof. intros E. unfold waiver_reports. by rewrite E. Qed.

(** Apply partitions the findings: Waived is the findings whose first
    matching waiver is live, in order; Active is the others, in order, followed
    by one warning per matched waiver that has expired and one info per waiver
    that is no finding's first match, and the two counters count those. *)
Theorem Apply_partition (s : Set_) (diags : list Diagnostic) (now : date) :
  let res := Apply s diags now in
  res_Waived res = filter (λ d, suppressed s now d = true) diags ∧
  res_Active res = filter (λ d, suppressed s now d = false) diags ++ waiver_reports s now diags ∧
  res_ExpiredCount res =
    length (filter (λ iw : nat * Waiver, hit s diags iw.1 && expired iw.2 now = true) (imap pair (set_Waivers s))) ∧
  res_UnusedCount res =
    length (filter (λ iw : nat * Waiver, hit s diags iw.1 = false) (imap pair (set_Waivers s))).
Proof.
  apply Apply_waived.
Qed.

(** [a] is not later than [b]. *)
Definition date_le (a b : date) : Prop :=
  (d_year a < d_year b ∨
   d_year a = d_year b ∧ (d_month a < d_month b ∨ d_month a = d_month b ∧ d_day a <= d_day b))%Z.
Lemma date_after_false a b : date_after a b = false ↔ date_le a b.
Proof.
  unfold date_after, date_le. rewrite !orb_false_iff, !andb_false_iff, !orb_false_iff, !andb_false_iff.
  rewrite !Z.ltb_ge, !Z.eqb_neq. lia.
Qed.

Lemma validate_from_None i l : validate_from i l = None → ∀ w, w ∈ l → ∃ j, validate_waiver j w = None.
Proof.
  revert i. induction l as [|w l IH]; intros i; simpl; [by intros _ w ?%not_elem_of_nil|].
  destruct (validate_waiver i w) eqn:E; [done|]. intros H w' [->|Hw']%elem_of_cons; eauto.
Qed.

(** A suppressed finding of a validated register has its reasons. *)
Lemma suppressed_justified s now d : Validate s = None → suppressed s now d = true →
  ∃ w exp, w ∈ set_Waivers s ∧ dg_Code d = wv_Rule w ∧
    ((wv_File w ≠ "" ∧ fileMatches (sl_File (dg_Source d)) (wv_File w) = true) ∨
     (wv_Name w ≠ "" ∧ contains (dg_Message d) (wv_Name w) = true)) ∧
    trim_space (wv_Reason w) ≠ "" ∧
    parse_date (wv_ExpiresAt w) = Some exp ∧ date_le now exp.
Proof.
  intros Hv Hs.
  unfold suppressed in Hs. destruct (matchIndex s d) as [i|] eqn:E; [|done].
  apply matchIndex_Some in E as (w & Hl & Hm & _). rewrite Hl in Hs.
  apply negb_true_iff in Hs. assert (Hw : w ∈ set_Waivers s) by by eapply list_elem_of_lookup_2.
  destruct (validate_from_None _ _ Hv w Hw) as [j Hj]. unfold validate_waiver in Hj.
  unfold expired in Hs. destruct (parse_date (wv_ExpiresAt w)) as [exp|] eqn:Hp; [|done].
  apply date_after_false in Hs. exists w, exp. split; [done|].
  unfold matches in Hm. destruct (String.eqb_spec (dg_Code d) (wv_Rule w)) as [Hc|]; [|done].
  destruct (fileMatches _ _) eqn:Hf; [|done]. simpl in Hm.
  destruct (String.eqb (trim_space (wv_Rule w)) ""); [done|].
  destruct (String.eqb_spec (wv_File w) "") as [Hfe|Hfe], (String.eqb_spec (wv_Name w) "") as [Hne|Hne];
    simpl in *; try done; (destruct (String.eqb_spec (trim_space (wv_Reason w)) ""); [done|]);
    repeat split; try done; auto.
  - right. split; [done|]. by destruct (contains (dg_Message d) (wv_Name w)).
Qed.

(** C17: with a validated register nothing is suppressed silently: a waived
    finding has a first matching waiver of its own rule that is constrained by
    a file or a name (so never the whole rule), states a reason, and expires on
    a well-formed date that is today or later (the expiry day is included). *)
Theorem waived_justified (s : Set_) (diags : list Diagnostic) (now : date) (d : Diagnostic) :
  Validate s = None → d ∈ res_Waived (Apply s diags now) →
  d ∈ diags ∧
  ∃ w exp, w ∈ set_Waivers s ∧ dg_Code d = wv_Rule w ∧
    ((wv_File w ≠ "" ∧ fileMatches (sl_File (dg_Source d)) (wv_File w) = true) ∨
     (wv_Name w ≠ "" ∧ contains (dg_Message d) (wv_Name w) = true)) ∧
    trim_space (wv_Reason w) ≠ "" ∧
    parse_date (wv_ExpiresAt w) = Some exp ∧ date_le now exp.
Proof.
  intros Hv Hd. rewrite (proj1 (Apply_waived s diags now)) in Hd.
  apply list_elem_of_filter in Hd as [Hs Hd]. split; [done|]. by apply suppressed_justified.
Qed.

Definition finding : Diagnostic := {| zero_Diagnostic with
  dg_Code := "XPC002"; dg_Severity := SeverityError; dg_Message := "CRD Widget is broken";
  dg_Source := {| sl_File := "/repo/apps/crd.yaml"; sl_Line := 1; sl_Column := 1 |} |}.
Definition widget_waiver (expires : string) : Waiver := {|
  wv_Rule := "XPC002"; wv_File := "apps/crd.yaml"; wv_Kind := ""; wv_Name := ""; wv_Namespace := "";
  wv_Reason := "known"; wv_AddedBy := ""; wv_AddedAt := ""; wv_ExpiresAt := expires |}.
Definition register (l : list Waiver) : Set_ := MkSet l "/repo/.xpc-waivers.yaml".
Lemma waived_justified_witness :
  finding ∈ [finding] ∧ Validate (register [widget_waiver "2026-06-01"]) = None.
Proof.
  split; [|reflexivity].
  apply (waived_justified (register [widget_waiver "2026-06-01"]) [finding] (MkDate 2026 6 1)).
  - reflexivity.
  - vm_compute. left.
Defined.

(** the first matching waiver decides alone: an expired entry shadows a
    later live one for the same finding, so the finding fires although a live
    waiver covers it, and the live waiver is reported as matching no finding. *)
Theorem expired_shadows_live (s : Set_) (now : date) (d : Diagnostic) (w1 w2 : Waiver) :
  set_Waivers s = [w1; w2] → matches w1 d = true → expired w1 now = true →
  res_Active (Apply s [d] now) = [d; expired_diag s w1; unused_diag s w2] ∧
  res_Waived (Apply s [d] now) = [].
Proof.
  intros Hs Hm He. destruct (Apply_waived s [d] now) as (Hw & Ha & _). rewrite Hw, Ha.
  assert (Hi : matchIndex s d = Some 0) by (unfold matchIndex; rewrite Hs; simpl; by rewrite Hm).
  unfold waiver_reports. rewrite !filter_cons, !filter_nil. unfold suppressed. rewrite Hi, Hs. simpl.
  rewrite He. simpl. unfold hit. simpl. by rewrite Hi.
Qed.
Lemma expired_shadows_live_witness :
  res_Waived (Apply (register [widget_waiver "2020-01-01"; widget_waiver "2030-01-01"])
                    [finding] (MkDate 2026 6 1)) = [].
Proof.
  apply (expired_shadows_live (register [widget_waiver "2020-01-01"; widget_waiver "2030-01-01"])
           (MkDate 2026 6 1) finding (widget_waiver "2020-01-01") (widget_waiver "2030-01-01"));
    reflexivity.
Defined.
