(* ===== verification/Bisect.v ===== *)
(** The rule bisection (src/pkg/bisect): validation of rule codes, the binary
    search over the commit list and the whole [Run], with git and the rule
    check as parameters; and the detector's scan of a check's JSON output. *)
From Stdlib Require Import ZArith.
From S2P Require Import Prelude GoStrings.

#[local] Open Scope string_scope.
#[local] Open Scope list_scope.
#[local] Open Scope nat_scope.

(** ** Rule codes: [^XPC(?:\d{3,}|\.[A-Z]\.[a-zA-Z0-9._-]+)$] *)

Definition is_upper (c : ascii) : bool :=
  let n := N_of_ascii c in (65 <=? n)%N && (n <=? 90)%N.
Definition is_lower (c : ascii) : bool :=
  let n := N_of_ascii c in (97 <=? n)%N && (n <=? 122)%N.
Definition code_char (c : ascii) : bool :=
  is_upper c || is_lower c || is_digit c || Ascii.eqb c "." || Ascii.eqb c "_" || Ascii.eqb c "-".
Fixpoint all_chars (f : ascii → bool) (s : string) : bool :=
  match s with "" => true | String c s => f c && all_chars f s end.

Definition ruleCodePattern (code : string) : bool :=
  if has_prefix "XPC" code then
    let rest := str_drop 3 code in
    (Nat.leb 3 (String.length rest) && all_digits rest) ||
    match rest with
    | String d1 (String u (String d2 name)) =>
        Ascii.eqb d1 "." && is_upper u && Ascii.eqb d2 "." &&
        negb (String.eqb name "") && all_chars code_char name
    | _ => false
    end
  else false.

Inductive RunError : Type :=
  | NoCheckRule | RuleCodeEmpty | RuleCodeMalformed | NoGoodRef | NoBadRef
  | GitError | CheckError (commit : string)
  | ErrSameCommit | ErrRuleNeverChanged | NoCommitsInRange | DidNotConverge.

Definition ValidateRuleCode (code : string) : option RunError :=
  if String.eqb code "" then Some RuleCodeEmpty
  else if ruleCodePattern code then None else Some RuleCodeMalformed.

Example rule_codes :
  map ruleCodePattern ["XPC002"; "XPC.A.resource-field-valid"; "XPC02"; "XPC.a.x"; "XPC.A."; "xpc002"]
  = [true; true; false; false; false; false].
Proof. reflexivity. Qed.

(** ** Data *)

Inductive Direction : Type := StartedFiring | StoppedFiring.
Record Result : Type := MkResult {
  br_Commit : string;
  br_Subject : string;
  br_Direction : Direction;
  br_GoodSHA : string;
  br_BadSHA : string;
  br_Steps : nat;
}.

(** ** The search *)

(** [checkAtCommit]: the rule's state at a commit, [None] on an error. *)
Section search.
Context (check : string → option bool).

(** The loop [for lo < hi]: the final [lo] and the number of steps.  The fuel
    bounds the iterations; [None] in the inner option is fuel exhaustion. *)
Fixpoint search (commits : list string) (badFires : bool) (fuel lo hi steps : nat)
  : RunError + option (nat * nat) :=
  if Nat.ltb lo hi then
    match fuel with
    | 0 => inr None
    | S fuel =>
        let mid := lo + (hi - lo) / 2 in
        match commits !! mid with
        | None => inr None
        | Some c =>
            match check c with
            | None => inl (CheckError c)
            | Some fires =>
                if Bool.eqb fires badFires then search commits badFires fuel lo mid (S steps)
                else search commits badFires fuel (S mid) hi (S steps)
            end
        end
    end
  else inr (Some (lo, steps)).

Context (revParse : string → option string) (revList : string → string → option (list string))
  (commitSubject : string → option string).

(** [Run], after the option checks that only concern the process (the git
    binary and the working directory). *)
Definition Run (ruleCode goodRef badRef : string) : RunError + Result :=
  match ValidateRuleCode ruleCode with
  | Some e => inl e
  | None =>
  if String.eqb goodRef "" then inl NoGoodRef
  else if String.eqb badRef "" then inl NoBadRef
  else
  match revParse goodRef, revParse badRef with
  | Some goodSHA, Some badSHA =>
      if String.eqb goodSHA badSHA then inl ErrSameCommit
      else
      match check goodSHA with
      | None => inl (CheckError goodSHA)
      | Some goodFires =>
      match check badSHA with
      | None => inl (CheckError badSHA)
      | Some badFires =>
      if Bool.eqb goodFires badFires then inl ErrRuleNeverChanged
      else
      match revList goodSHA badSHA with
      | None => inl GitError
      | Some [] => inl NoCommitsInRange
      | Some commits =>
          match search commits badFires (length commits) 0 (length commits) 0 with
          | inl e => inl e
          | inr None => inl DidNotConverge
          | inr (Some (lo, steps)) =>
              match commits !! lo with
              | None => inl DidNotConverge
              | Some transitionSHA =>
                  match commitSubject transitionSHA with
                  | None => inl GitError
                  | Some subject =>
                      inr {| br_Commit := transitionSHA; br_Subject := subject;
                             br_Direction := if badFires then StartedFiring else StoppedFiring;
                             br_GoodSHA := goodSHA; br_BadSHA := badSHA; br_Steps := steps |}
                  end
              end
          end
      end end end
  | _, _ => inl GitError
  end end.
End search.

(** [short]: the 12-byte prefix of a SHA. *)
Definition short (sha : string) : string :=
  if Nat.leb (String.length sha) 12 then sha else str_take 12 sha.

(** ** The detector: detector.go *)

Definition isBenignNoManifests (stderr : string) : bool :=
  let s := to_lower stderr in
  contains s "no yaml documents found" || contains s "no such file or directory".
(** [ScanDiagnostics] on the decoded codes ([None]: invalid JSON). *)
Definition ScanDiagnostics (decode : string → option (list string)) (jsonOut ruleCode : string)
  : option bool :=
  if String.eqb jsonOut "" then Some false
  else match decode jsonOut with
       | None => None
       | Some codes => Some (existsb (λ c, String.eqb c ruleCode) codes)
       end.
(** [XPCCheckDetector]: the outcome of the subprocess. *)
Inductive Exec : Type :=
  | ExecOk (out : string)
  | ExecExit (out stderr : string)
  | ExecFailed.
Definition XPCCheckDetector (decode : string → option (list string)) (exec : string → Exec)
    (ruleCode workdir : string) : option bool :=
  match exec workdir with
  | ExecFailed => None
  | ExecExit "" stderr => if isBenignNoManifests stderr then Some false else None
  | ExecExit out _ => ScanDiagnostics decode out ruleCode
  | ExecOk out => ScanDiagnostics decode out ruleCode
  end.

(** ** Lemmas: the loop *)

Section loop.
Context (check : string → option bool) (commits : list string) (badFires : bool).

(** The state of the commit before index [i]; index 0 has good's state. *)
Definition before_is_good (i : nat) : Prop :=
  i = 0 ∨ ∃ c, commits !! (pred i) = Some c ∧ check c = Some (negb badFires).
Definition at_is_bad (i : nat) : Prop :=
  i = length commits ∨ ∃ c, commits !! i = Some c ∧ check c = Some badFires.

Lemma half_lt a : 0 < a → a / 2 < a.
Proof. intros. by apply Nat.div_lt; lia. Qed.

(** The loop neither exhausts its fuel nor leaves the list, keeps the invariant
    "good before lo, bad at hi" and halves the interval. *)
Lemma search_spec fuel lo hi steps :
  hi - lo ≤ fuel → lo ≤ hi → hi ≤ length commits → before_is_good lo → at_is_bad hi →
  match search check commits badFires fuel lo hi steps with
  | inl e => ∃ c, c ∈ commits ∧ check c = None ∧ e = CheckError c
  | inr None => False
  | inr (Some (i, n)) => lo ≤ i ≤ hi ∧ before_is_good i ∧ at_is_bad i ∧ steps ≤ n ∧
      (lo < hi → n ≤ steps + S (Nat.log2 (hi - lo))) ∧ (lo = hi → n = steps)
  end.
Proof.
  revert lo hi steps. induction fuel as [|fuel IH]; intros lo hi steps Hf Hle Hlen Hg Hb; cbn [search].
  - destruct (Nat.ltb_spec lo hi); [lia|]. assert (lo = hi) as -> by lia.
    repeat split; try done; lia.
  - destruct (Nat.ltb_spec lo hi) as [Hlt|Hge].
    2: { assert (lo = hi) as -> by lia. repeat split; try done; lia. }
    pose proof (half_lt (hi - lo) ltac:(lia)) as Hhalf.
    set (mid := lo + (hi - lo) / 2). assert (Hmid : mid < hi) by lia.
    destruct (lookup_lt_is_Some_2 commits mid ltac:(lia)) as [c Hc]. rewrite Hc.
    destruct (check c) as [fires|] eqn:E; [|exists c; split; [by eapply list_elem_of_lookup_2|done]].
    assert (Hlog : ∀ k, k ≤ (hi - lo) / 2 → 0 < k → S (Nat.log2 k) ≤ Nat.log2 (hi - lo)).
    { intros k Hk Hk0. etrans; [apply le_n_S, Nat.log2_le_mono, Hk|].
      destruct (Nat.Even_or_Odd (hi - lo)) as [[q Hq]|[q Hq]]; rewrite Hq in Hk |- *.
      - rewrite (Nat.mul_comm 2 q), Nat.div_mul in * by lia.
        rewrite (Nat.mul_comm q 2), Nat.log2_double by lia. done.
      - replace ((2 * q + 1) / 2) with q in *
          by (rewrite Nat.mul_comm, Nat.div_add_l by lia; simpl; lia).
        by rewrite Nat.log2_succ_double by lia. }
    destruct (Bool.eqb_spec fires badFires) as [->|Hne].
    + specialize (IH lo mid (S steps) ltac:(lia) ltac:(lia) ltac:(lia) Hg ltac:(right; eauto)).
      destruct (search _ _ _ _ _ _ _) as [e|[[i n]|]]; [done| |done].
      destruct IH as (? & ? & ? & ? & H1 & H2). repeat split; try done; try lia.
      intros _. destruct (decide (lo = mid)) as [Heq|Heq]; [rewrite (H2 Heq); lia|].
      specialize (H1 ltac:(lia)). specialize (Hlog (mid - lo) ltac:(lia) ltac:(lia)). lia.
    + assert (fires = negb badFires) as -> by by destruct fires, badFires.
      specialize (IH (S mid) hi (S steps) ltac:(lia) ltac:(lia) ltac:(lia) ltac:(right; simpl; eauto) Hb).
      destruct (search _ _ _ _ _ _ _) as [e|[[i n]|]]; [done| |done].
      destruct IH as (? & ? & ? & ? & H1 & H2). repeat split; try done; try lia.
      intros _. destruct (decide (S mid = hi)) as [Heq|Heq]; [rewrite (H2 Heq); lia|].
      specialize (H1 ltac:(lia)).
      assert (hi - S mid ≤ (hi - lo) / 2).
      { subst mid. pose proof (Nat.div_mod (hi - lo) 2 ltac:(lia)).
        pose proof (Nat.mod_upper_bound (hi - lo) 2 ltac:(lia)). lia. }
      specialize (Hlog (hi - S mid) ltac:(lia) ltac:(lia)). lia.
Qed.
End loop.

Section run.
Context (check : string → option bool).
Context (revParse : string → option string) (revList : string → string → option (list string))
  (commitSubject : string → option string).

(** The commit the search compares index [i] with: the one before it in the
    list, or good itself. *)
Definition predecessor (commits : list string) (goodSHA : string) (i : nat) : option string :=
  match i with 0 => Some goodSHA | S j => commits !! j end.

(** [commit] is where the state flips in [commits]: it has bad's state, the
    commit before it has good's. *)
Definition transition (commits : list string) (goodSHA : string) (badFires : bool)
    (i : nat) (commit : string) : Prop :=
  commits !! i = Some commit ∧ check commit = Some badFires ∧
  ∃ p, predecessor commits goodSHA i = Some p ∧ check p = Some (negb badFires).

Lemma search_transition commits goodSHA badFires i :
  check goodSHA = Some (negb badFires) → i < length commits →
  before_is_good check commits badFires i → at_is_bad check commits badFires i →
  ∃ c, transition commits goodSHA badFires i c.
Proof.
  intros Hg Hi Hb [->|(c & Hc & Hcb)]; [lia|]. exists c. split; [done|]. split; [done|].
  destruct Hb as [->|(p & Hp & Hpg)]; [by exists goodSHA|]. destruct i as [|i]; [by exists goodSHA|].
  simpl in Hp. exists p. done.
Qed.

Lemma Run_facts (ruleCode goodRef badRef : string) (res : Result) :
  Run check revParse revList commitSubject ruleCode goodRef badRef = inr res →
  ∃ commits badFires i,
    revParse goodRef = Some (br_GoodSHA res) ∧ revParse badRef = Some (br_BadSHA res) ∧
    check (br_GoodSHA res) = Some (negb badFires) ∧ check (br_BadSHA res) = Some badFires ∧
    revList (br_GoodSHA res) (br_BadSHA res) = Some commits ∧
    transition commits (br_GoodSHA res) badFires i (br_Commit res) ∧
    br_Direction res = (if badFires then StartedFiring else StoppedFiring) ∧
    br_Steps res ≤ S (Nat.log2 (length commits)).
Proof.
  unfold Run. destruct (ValidateRuleCode ruleCode); [done|].
  destruct (String.eqb goodRef ""), (String.eqb badRef ""); try done.
  destruct (revParse goodRef) as [goodSHA|], (revParse badRef) as [badSHA|]; try done.
  destruct (String.eqb goodSHA badSHA); [done|].
  destruct (check goodSHA) as [goodFires|] eqn:Eg; [|done].
  destruct (check badSHA) as [badFires|] eqn:Eb; [|done].
  destruct (Bool.eqb_spec goodFires badFires) as [|Hne]; [done|].
  assert (goodFires = negb badFires) as -> by by destruct goodFires, badFires.
  destruct (revList goodSHA badSHA) as [commits|] eqn:El; [|done].
  destruct commits as [|c0 cs]; [done|]. set (commits := c0 :: cs) in *.
  pose proof (search_spec check commits badFires (length commits) 0 (length commits) 0
    ltac:(lia) ltac:(lia) ltac:(lia) ltac:(by left) ltac:(by left)) as Hs.
  destruct (search _ _ _ _ _ _ _) as [e|[[lo steps]|]]; [done| |done].
  destruct Hs as (Hlo & Hbg & Hbb & _ & Hlog & _).
  destruct (commits !! lo) as [t|] eqn:Et; [|done].
  destruct (commitSubject t); [|done]. intros [= <-]. cbn [br_GoodSHA br_BadSHA br_Commit br_Direction br_Steps].
  destruct (search_transition commits goodSHA badFires lo Eg ltac:(by eapply lookup_lt_Some) Hbg Hbb) as [c Hc].
  exists commits, badFires, lo. rewrite Nat.sub_0_r in Hlog.
  assert (c = t) as -> by (destruct Hc as [Hc _]; congruence).
  repeat split; try done; try apply Hc. apply Hlog. simpl. lia.
Qed.

(** ** Properties *)

(** C25: a successful bisection returns a true transition: on the commit list
    of good..bad the reported commit has bad's state and the commit before it
    (or good itself) has good's state, whether or not the history is monotone;
    the direction is the one bad's state says and the number of checks is at
    most log2 of the number of commits plus one. *)
Theorem Run_transition (ruleCode goodRef badRef : string) (res : Result) :
  Run check revParse revList commitSubject ruleCode goodRef badRef = inr res →
  ∃ commits badFires i,
    revParse goodRef = Some (br_GoodSHA res) ∧ revParse badRef = Some (br_BadSHA res) ∧
    check (br_GoodSHA res) = Some (negb badFires) ∧ check (br_BadSHA res) = Some badFires ∧
    revList (br_GoodSHA res) (br_BadSHA res) = Some commits ∧
    transition commits (br_GoodSHA res) badFires i (br_Commit res) ∧
    br_Direction res = (if badFires then StartedFiring else StoppedFiring) ∧
    br_Steps res ≤ S (Nat.log2 (length commits)).
Proof. apply Run_facts. Qed.

(** on a monotone history (every commit before some index has good's state,
    every one from it on has bad's) the reported commit is the first with
    bad's state. *)
Theorem Run_first (ruleCode goodRef badRef : string) (res : Result) (commits : list string)
    (badFires : bool) (t : nat) :
  Run check revParse revList commitSubject ruleCode goodRef badRef = inr res →
  revList (br_GoodSHA res) (br_BadSHA res) = Some commits →
  check (br_BadSHA res) = Some badFires →
  (∀ i c, commits !! i = Some c → check c = Some (if Nat.ltb i t then negb badFires else badFires)) →
  commits !! t = Some (br_Commit res).
Proof.
  intros Hr Hl Hb Hmono. apply Run_facts in Hr as (commits' & bf & i & _ & _ & _ & Hb' & Hl' & (Hc & Hcb & p & Hp & Hpg) & _).
  rewrite Hl in Hl'. injection Hl' as <-. rewrite Hb in Hb'. injection Hb' as <-.
  pose proof (Hmono _ _ Hc) as Hi. rewrite Hcb in Hi.
  destruct (Nat.ltb_spec i t) as [|Hge]; [by destruct badFires|].
  destruct (decide (i = t)) as [->|]; [done|]. destruct i as [|i]; [lia|]. simpl in Hp.
  pose proof (Hmono _ _ Hp) as Hi'. rewrite Hpg in Hi'.
  destruct (Nat.ltb_spec i t) as [|_]; [lia|]. by destruct badFires.
Qed.

(** the search always converges: when git answers, every check succeeds,
    the boundary states differ and the commit list of good..bad ends with bad,
    Run returns a result, never the did-not-converge error. *)
Theorem Run_converges (ruleCode goodRef badRef goodSHA badSHA : string) (commits : list string)
    (badFires : bool) :
  ValidateRuleCode ruleCode = None → goodRef ≠ "" → badRef ≠ "" →
  revParse goodRef = Some goodSHA → revParse badRef = Some badSHA → goodSHA ≠ badSHA →
  check goodSHA = Some (negb badFires) → check badSHA = Some badFires →
  revList goodSHA badSHA = Some (commits ++ [badSHA]) →
  (∀ c, c ∈ commits → is_Some (check c)) → (∀ c, is_Some (commitSubject c)) →
  ∃ res, Run check revParse revList commitSubject ruleCode goodRef badRef = inr res.
Proof.
  intros Hv Hg0 Hb0 Hg Hb Hne Hcg Hcb Hl Hc Hsub. unfold Run.
  rewrite Hv, (proj2 (String.eqb_neq goodRef "") Hg0), (proj2 (String.eqb_neq badRef "") Hb0), Hg, Hb,
    (proj2 (String.eqb_neq goodSHA badSHA) Hne), Hcg, Hcb, Hl.
  rewrite (proj2 (Bool.eqb_false_iff (negb badFires) badFires)) by by destruct badFires.
  set (l := commits ++ [badSHA]).
  assert (Hlen : length l = S (length commits)) by (subst l; rewrite length_app; simpl; lia).
  assert (Hend : at_is_bad check l badFires (length commits)).
  { right. exists badSHA. split; [|done]. subst l. by rewrite lookup_app_r, Nat.sub_diag by lia. }
  pose proof (search_spec check l badFires (length l) 0 (length l) 0
    ltac:(lia) ltac:(lia) ltac:(lia) ltac:(by left) ltac:(by left)) as Hs.
  destruct l as [|c0 cs] eqn:El; [done|]. rewrite <- El in *.
  destruct (search _ _ _ _ _ _ _) as [e|[[lo steps]|]]; [| |done].
  - destruct Hs as (c & Hin & Hce & _). subst l. apply elem_of_app in Hin as [Hin| ->%list_elem_of_singleton].
    + destruct (Hc c Hin). congruence.
    + congruence.
  - destruct Hs as (Hlo & Hbg & _). assert (lo < length l).
    { destruct (decide (lo = length l)) as [->|]; [|lia]. exfalso.
      destruct Hbg as [?|(c & Hc' & Hcg')]; [lia|]. destruct Hend as [?|(c' & Hc'' & ?)]; [lia|].
      rewrite Hlen in Hc'. simpl in Hc'. simplify_eq. by destruct badFires. }
    destruct (lookup_lt_is_Some_2 l lo) as [t Ht]; [done|]. rewrite Ht.
    destruct (Hsub t) as [subject ->]. by eexists.
Qed.
End run.

(** A history of four commits where the rule starts firing at c3. *)
Definition sample_commits : list string := ["c1"; "c2"; "c3"; "bad"].
Definition sample_check (c : string) : option bool :=
  Some (String.eqb c "c3" || String.eqb c "bad").
Definition sample_run : RunError + Result :=
  Run sample_check (λ r, Some r) (λ _ _, Some sample_commits) (λ _, Some "subject") "XPC002" "good" "bad".
Definition sample_result : Result :=
  MkResult "c3" "subject" StartedFiring "good" "bad" 2.
Example sample_run_ex : sample_run = inr sample_result.
Proof. reflexivity. Qed.

Lemma Run_transition_witness : br_Steps sample_result ≤ 3.
Proof.
  destruct (Run_transition sample_check (λ r, Some r) (λ _ _, Some sample_commits) (λ _, Some "subject")
    "XPC002" "good" "bad" sample_result eq_refl) as (commits & bf & i & _ & _ & _ & _ & Hl & _ & _ & H).
  injection Hl as <-. exact H.
Defined.
Lemma Run_first_witness : sample_commits !! 2 = Some (br_Commit sample_result).
Proof.
  apply (Run_first sample_check (λ r, Some r) (λ _ _, Some sample_commits) (λ _, Some "subject")
    "XPC002" "good" "bad" sample_result sample_commits true 2); try reflexivity.
  intros i c Hc. repeat (destruct i as [|i]; [injection Hc as <-; reflexivity|]). discriminate Hc.
Defined.
Lemma Run_converges_witness : ∃ res, sample_run = inr res.
Proof.
  apply (Run_converges sample_check (λ r, Some r) (λ _ _, Some sample_commits) (λ _, Some "subject")
    "XPC002" "good" "bad" "good" "bad" ["c1"; "c2"; "c3"] true); try reflexivity; try discriminate.
  - intros c _. eexists. reflexivity.
  - intros c. eexists. reflexivity.
Defined.
