(* ===== verification/AppSet.v ===== *)
(** ApplicationSet expansion (src/pkg/ir/appset_template.go,
    appset_expand.go): the placeholder engine, the parameter generators and the
    instantiation of the Application template.  The file system of the git
    generator is a parameter. *)
From Stdlib Require Import ZArith.
From stdpp Require Import fin_maps.
From S2P Require Import Prelude GoStrings Yaml Types.

#[local] Open Scope string_scope.
#[local] Open Scope list_scope.
#[local] Open Scope nat_scope.

Notation params := (gmap string string).

(** ** The placeholder engine: appset_template.go *)

Definition unsupportedTemplateTokens : list string :=
  ["{{range"; "{{ range"; "{{if"; "{{ if"; "{{with"; "{{ with"; "{{define"; "{{ define";
   "{{block"; "{{ block"; "{{template"; "{{ template"; "|"; "printf"].

(** [inner := strings.TrimSpace(...)], [key := strings.TrimPrefix(inner, ".")]. *)
Definition placeholder_key (inner : string) : string := trim_prefix "." (trim_space inner).

(** [close := strings.Index(s[open:], "}}")], searched from the opening braces
    on; [s] is what follows them. *)
Definition find_close (s : string) : option (string * string) := str_cut "}}" s.

(** The loop over the input; every placeholder consumes at least four bytes. *)
Fixpoint substitute_loop (fuel : nat) (s : string) (p : params) : string :=
  match fuel with
  | 0 => s
  | S fuel =>
      match str_cut "{{" s with
      | None => s
      | Some (before, after) =>
          match find_close after with
          | None => before +:+ "{{" +:+ after
          | Some (inner, rest) =>
              before +:+
              (match p !! placeholder_key inner with
               | Some v => v
               | None => "{{" +:+ inner +:+ "}}"
               end) +:+ substitute_loop fuel rest p
          end
      end
  end.
(** The result, or [None] for "unsupported". *)
Definition substituteTemplate (s : string) (p : params) : option string :=
  if existsb (contains s) unsupportedTemplateTokens then None
  else Some (substitute_loop (String.length s) s p).

Example substitute_ex :
  substituteTemplate "{{ .env }}-{{region}}/{{ .missing }}-{{ x" {["env" := "prod"; "region" := "eu"]} =
  Some "prod-eu/{{ .missing }}-{{ x".
Proof. vm_compute. reflexivity. Qed.

(** ** Expansion: appset_expand.go *)

Record ExpansionContext : Type := MkExpansionContext {
  ec_PRFixtures : gmap string (list params);
  ec_Root : string;
}.
Record ExpansionResult : Type := MkExpansionResult {
  er_Applications : list ArgoApplication;
  er_Diagnostics : list Diagnostic;
}.

Definition appset_diag (source : SourceLocation) (message detail remedy : string) : Diagnostic :=
  {| zero_Diagnostic with
     dg_Code := "XPC.H.appset-unsupported-generator"; dg_Severity := SeverityInfo;
     dg_Source := source; dg_Message := message; dg_Detail := detail; dg_Fix := remedy |}.
Definition unsupportedGeneratorDiag (a : ArgoApplicationSet) (kind reason : string) : Diagnostic :=
  appset_diag (aset_Source a)
    (aset_Name a +:+ ": generator " +:+ quote kind +:+ " not expandable offline") reason
    "pass --appset-fixture=<file.yaml> with a parameter-set list for this ApplicationSet, or accept the coverage gap".
Definition unsupportedTemplateDiag (a : ArgoApplicationSet) : Diagnostic :=
  appset_diag (aset_Source a)
    (aset_Name a +:+ ": template uses non-trivial Go-template syntax we do not simulate")
    "ranges/conditionals/pipelines are not rendered offline; run Argo CD's appset controller for full coverage"
    "simplify the template to plain `{{ .key }}` placeholders, or accept coverage gap".

(** [mergeKey]: the values joined by a zero byte. *)
Definition mergeKey (m : params) (keys : list string) : string :=
  join (bytes [0]%N) (map (λ k, default "" (m !! k)) keys).

(** The cartesian product and the join, on parameter lists. *)
Definition matrix_product (aParams bParams : list params) : list params :=
  flat_map (λ ap, map (λ bp, bp ∪ ap) bParams) aParams.
Definition merge_index (keys : list string) (bParams : list params) : gmap string params :=
  foldl (λ out bp, <[mergeKey bp keys := bp]> out) ∅ bParams.
Definition merge_join (keys : list string) (aParams bParams : list params) : list params :=
  map (λ ap, match merge_index keys bParams !! mergeKey ap keys with
             | Some bp => ap ∪ bp
             | None => ap
             end) aParams.

Section expand.
(** The directories a pattern matches (filepath.Glob and os.Stat, in Glob's
    order); [None] is Glob's error. *)
Context (glob_dirs : string → option (list string)).

Definition expandGitDirs (a : ArgoApplicationSet) (g : ArgoAppSetGenerator) (ctx : ExpansionContext)
  : list params :=
  match gen_Git g with
  | None => []
  | Some git =>
      let root := if String.eqb (ec_Root ctx) "" then path_dir (sl_File (aset_Source a)) else ec_Root ctx in
      flat_map (λ dir,
        if gd_Exclude dir then []
        else match glob_dirs (path_join [root; gd_Path dir]) with
             | None => []
             | Some ms => map (λ m, {["path" := m; "path.basename" := path_base m]} : params) ms
             end) (gg_Directories git)
  end.

(** [expandGenerator], [expandMatrix] and [expandMerge] call each other; the
    recursion is on the generator. *)
Fixpoint expandGenerator (a : ArgoApplicationSet) (ctx : ExpansionContext) (g : ArgoAppSetGenerator)
  {struct g} : list params * list Diagnostic :=
  let kind := gen_Kind g in
  if String.eqb kind "list" then (gen_ListElements g, [])
  else if String.eqb kind "git" then (expandGitDirs a g ctx, [])
  else if String.eqb kind "matrix" then
    match g with
    | MkArgoAppSetGenerator _ _ _ _ (ga :: gb :: _) _ _ =>
        let '(aParams, aDiags) := expandGenerator a ctx ga in
        let '(bParams, bDiags) := expandGenerator a ctx gb in
        (matrix_product aParams bParams, aDiags ++ bDiags)
    | _ => ([], [])
    end
  else if String.eqb kind "merge" then
    match g with
    | MkArgoAppSetGenerator _ _ _ _ _ (ga :: gb :: _) (k :: ks) =>
        let '(aParams, aDiags) := expandGenerator a ctx ga in
        let '(bParams, bDiags) := expandGenerator a ctx gb in
        (merge_join (k :: ks) aParams bParams, aDiags ++ bDiags)
    | _ => ([], [])
    end
  else if String.eqb kind "pullRequest" || String.eqb kind "scmProvider" then
    match ec_PRFixtures ctx !! aset_Name a with
    | Some prs => (prs, [])
    | None => ([], [unsupportedGeneratorDiag a kind
                      "no --appset-fixture provided; this generator would hit a remote API"])
    end
  else if String.eqb kind "cluster" then
    ([], [unsupportedGeneratorDiag a kind "offline simulation does not include a cluster inventory"])
  else ([], [unsupportedGeneratorDiag a kind "generator kind not recognized"]).

Definition substituteHelm (h : ArgoHelmSource) (p : params) : option ArgoHelmSource :=
  values ← substituteTemplate (hs_Values h) p;
  release ← substituteTemplate (hs_ReleaseName h) p;
  files ← mapM (λ vf, substituteTemplate vf p) (hs_ValueFiles h);
  ps ← mapM (λ q, name ← substituteTemplate (hp_Name q) p;
                  val ← substituteTemplate (hp_Value q) p;
                  Some {| hp_Name := name; hp_Value := val |}) (hs_Parameters h);
  Some {| h with hs_Values := values; hs_ReleaseName := release; hs_ValueFiles := files;
                 hs_Parameters := ps |}.

Definition substituteSource (src : ArgoSource) (p : params) : option ArgoSource :=
  repo ← substituteTemplate (as_RepoURL src) p;
  path ← substituteTemplate (as_Path src) p;
  target ← substituteTemplate (as_TargetRevision src) p;
  chart ← substituteTemplate (as_Chart src) p;
  helm ← match as_Helm src with
         | None => Some None
         | Some h => Some <$> substituteHelm h p
         end;
  Some {| src with as_RepoURL := repo; as_Path := path; as_TargetRevision := target;
                   as_Chart := chart; as_Helm := helm |}.

(** The template's sources: the single source first. *)
Definition template_sources (t : ArgoAppSetTemplate) : list ArgoSource :=
  match tm_Source t with Some s => s :: tm_Sources t | None => tm_Sources t end.

Definition instantiateTemplate (a : ArgoApplicationSet) (p : params) : option ArgoApplication :=
  let t := aset_Template a in
  name ← substituteTemplate (tm_Name t) p;
  ns ← substituteTemplate (tm_Namespace t) p;
  project ← substituteTemplate (tm_Project t) p;
  destServer ← substituteTemplate (dest_Server (tm_Destination t)) p;
  destName ← substituteTemplate (dest_Name (tm_Destination t)) p;
  destNS ← substituteTemplate (dest_Namespace (tm_Destination t)) p;
  sources ← mapM (λ s, substituteSource s p) (template_sources t);
  Some {| zero_ArgoApplication with
          app_Name := if String.eqb name "" then aset_Name a +:+ "-expanded" else name;
          app_Namespace := ns;
          app_Project := project;
          app_TrackingMode := "annotation";
          app_Source := aset_Source a;
          app_Sources := sources;
          app_Destination := {| dest_Server := destServer; dest_Name := destName;
                                dest_Namespace := destNS |};
          app_SyncPolicy := tm_SyncPolicy t;
          app_IgnoreDifferences := tm_IgnoreDifferences t |}.

(** One parameter set: an Application or the unsupported-template diagnostic. *)
Definition expand_params (a : ArgoApplicationSet) (res : ExpansionResult) (p : params) : ExpansionResult :=
  match instantiateTemplate a p with
  | Some app => {| res with er_Applications := er_Applications res ++ [app] |}
  | None => {| res with er_Diagnostics := er_Diagnostics res ++ [unsupportedTemplateDiag a] |}
  end.
Definition expand_gen (a : ArgoApplicationSet) (ctx : ExpansionContext) (res : ExpansionResult)
    (g : ArgoAppSetGenerator) : ExpansionResult :=
  let '(ps, diags) := expandGenerator a ctx g in
  foldl (expand_params a) {| res with er_Diagnostics := er_Diagnostics res ++ diags |} ps.
Definition ExpandAppSet (a : ArgoApplicationSet) (ctx : ExpansionContext) : ExpansionResult :=
  foldl (expand_gen a ctx) (MkExpansionResult [] []) (aset_Generators a).
End expand.

(** ** What the placeholder engine computes

    A supported template splits into literals and placeholders: each literal
    runs to the first opening braces, each placeholder to the first closing
    braces after them. *)
Inductive chunk : Type :=
  | Literal (s : string)
  | Placeholder (inner : string).

Definition show_chunk (c : chunk) : string :=
  match c with Literal s => s | Placeholder inner => "{{" +:+ inner +:+ "}}" end.
Definition render_chunk (p : params) (c : chunk) : string :=
  match c with
  | Literal s => s
  | Placeholder inner => default (show_chunk c) (p !! placeholder_key inner)
  end.
Definition concat_map {A} (f : A → string) (l : list A) : string :=
  foldr (λ x s, f x +:+ s) "" l.

Inductive chunks : string → list chunk → Prop :=
  | chunks_last s : contains s "{{" = false → chunks s [Literal s]
  | chunks_open a s :
      contains (a +:+ "{") "{{" = false → contains s "}}" = false →
      chunks (a +:+ "{{" +:+ s) [Literal (a +:+ "{{" +:+ s)]
  | chunks_next a inner s cs :
      contains (a +:+ "{") "{{" = false → contains (inner +:+ "}") "}}" = false →
      chunks s cs →
      chunks (a +:+ "{{" +:+ inner +:+ "}}" +:+ s) (Literal a :: Placeholder inner :: cs).

Lemma chunks_show s cs : chunks s cs → concat_map show_chunk cs = s.
Proof.
  induction 1; simpl; rewrite ?app_str_nil_r; try done. by rewrite IHchunks, !app_str_assoc.
Qed.

(** The first occurrence of a doubled character. *)
Lemma str_cut_doubled c s a b :
  str_cut (String c (String c "")) s = Some (a, b) →
  contains (a +:+ String c "") (String c (String c "")) = false.
Proof.
  unfold contains. revert a b. induction s as [|d s IH]; intros a b; [done|]. simpl.
  destruct (_ && _) eqn:E.
  - intros [= <- <-]. simpl. by rewrite Ascii.eqb_refl.
  - destruct (str_cut _ s) as [[a' b']|] eqn:Ec; [|done]. intros [= <- <-]. simpl.
    specialize (IH a' b' eq_refl). destruct (str_cut _ (a' +:+ _)) eqn:Ea; [done|].
    destruct (Ascii.eqb c d) eqn:Ed; simpl; [|done]. destruct a' as [|e a']; simpl.
    + apply Ascii.eqb_eq in Ed as <-. apply str_cut_Some in Ec as ->. simpl in E.
      by rewrite Ascii.eqb_refl in E.
    + apply str_cut_Some in Ec as ->. simpl in E. by rewrite E.
Qed.

Lemma substitute_loop_chunks fuel s : String.length s ≤ fuel →
  ∃ cs, chunks s cs ∧ ∀ p, substitute_loop fuel s p = concat_map (render_chunk p) cs.
Proof.
  revert s. induction fuel as [|fuel IH]; intros s Hs.
  - destruct s; [|simpl in Hs; lia]. exists [Literal ""]. split; [by constructor|done].
  - cbn [substitute_loop]. destruct (str_cut "{{" s) as [[a r]|] eqn:Ea.
    + pose proof (str_cut_doubled _ _ _ _ Ea) as Ha. apply str_cut_Some in Ea as ->.
      unfold find_close. destruct (str_cut "}}" r) as [[inner t]|] eqn:Er.
      * pose proof (str_cut_doubled _ _ _ _ Er) as Hi. apply str_cut_Some in Er as ->.
        destruct (IH t) as (cs & Hcs & Hr).
        { rewrite !length_app_str in Hs. simpl in Hs. lia. }
        exists (Literal a :: Placeholder inner :: cs). split; [by constructor|].
        intros p. rewrite Hr. simpl. by destruct (p !! _).
      * exists [Literal (a +:+ "{{" +:+ r)]. split.
        { constructor; [done|]. unfold contains. by rewrite Er. }
        intros p. simpl. by rewrite app_str_nil_r.
    + exists [Literal s]. split; [constructor; unfold contains; by rewrite Ea|].
      intros p. simpl. by rewrite app_str_nil_r.
Qed.

(** the placeholder engine on every template.  A template with one of the
    unsupported tokens is refused whatever the parameters; any other template
    splits, independently of the parameters, into literals and placeholders
    that spell it out, and the result is the concatenation of the literals
    unchanged and of every placeholder's parameter, an unresolved placeholder
    standing for itself. *)
Theorem substituteTemplate_spec s :
  if existsb (contains s) unsupportedTemplateTokens
  then ∀ p, substituteTemplate s p = None
  else ∃ cs, chunks s cs ∧ concat_map show_chunk cs = s ∧
             ∀ p, substituteTemplate s p = Some (concat_map (render_chunk p) cs).
Proof.
  unfold substituteTemplate. destruct (existsb _ _); [done|].
  destruct (substitute_loop_chunks (String.length s) s) as (cs & Hcs & Hr); [done|].
  exists cs. split; [done|]. split; [by apply chunks_show|]. intros p. by rewrite Hr.
Qed.

(** ** Combining generators *)

Section expand_facts.
Context (glob_dirs : string → option (list string)) (a : ArgoApplicationSet) (ctx : ExpansionContext).

Local Notation gen := (expandGenerator glob_dirs a ctx).

Lemma expandGenerator_matrix g ga gb rest :
  gen_Kind g = "matrix" → gen_MatrixGenerators g = ga :: gb :: rest →
  gen g = (matrix_product (gen ga).1 (gen gb).1, (gen ga).2 ++ (gen gb).2).
Proof.
  destruct g as [kind le cs git mg mge mk]. simpl. intros -> ->. simpl.
  by destruct (gen ga), (gen gb).
Qed.

Lemma expandGenerator_merge g ga gb rest :
  gen_Kind g = "merge" → gen_MergeGenerators g = ga :: gb :: rest → gen_MergeKeys g ≠ [] →
  gen g = (merge_join (gen_MergeKeys g) (gen ga).1 (gen gb).1, (gen ga).2 ++ (gen gb).2).
Proof.
  destruct g as [kind le cs git mg mge mk]. simpl. intros -> -> Hk. simpl.
  destruct mk; [done|]. by destruct (gen ga), (gen gb).
Qed.

(** a matrix generator yields the cartesian product of its first two
    children in row order: one parameter set per pair, whose keys are those of
    both sides, the second child winning on a clash; its diagnostics are its
    children's. *)
Theorem expandGenerator_matrix_spec g ga gb rest :
  let G := expandGenerator glob_dirs a ctx in
  gen_Kind g = "matrix" → gen_MatrixGenerators g = ga :: gb :: rest →
  length (G g).1 = length (G ga).1 * length (G gb).1 ∧
  (∀ i j ap bp, (G ga).1 !! i = Some ap → (G gb).1 !! j = Some bp →
     ∃ p, (G g).1 !! (i * length (G gb).1 + j) = Some p ∧
          ∀ k, p !! k = match bp !! k with Some v => Some v | None => ap !! k end) ∧
  (G g).2 = (G ga).2 ++ (G gb).2.
Proof.
  intros G Hk Hm. subst G. cbv beta. rewrite (expandGenerator_matrix _ _ _ _ Hk Hm). cbn [fst snd].
  generalize (gen ga).1 as A, (gen gb).1 as B. intros A B. split; [|split; [|done]].
  - induction A as [|x A IH]; simpl; [done|]. by rewrite length_app, length_map, IH.
  - induction A as [|x A IH]; intros i j ap bp Hi Hj; [done|].
    pose proof (lookup_lt_Some _ _ _ Hj) as Hlt. destruct i as [|i]; simpl in *; simplify_eq.
    + exists (bp ∪ ap). split.
      * rewrite lookup_app_l by by rewrite length_map. change (map ?f B) with (f <$> B).
        by rewrite list_lookup_fmap, Hj.
      * intros k. rewrite lookup_union. by destruct (bp !! k), (ap !! k).
    + destruct (IH i j ap bp Hi Hj) as (p & Hp & Hlk). exists p. split; [|done].
      rewrite lookup_app_r; rewrite length_map; [|lia].
      rewrite <- Hp. f_equal. lia.
Qed.

(** a merge generator keeps exactly the parameter sets of its primary
    (first) child, in order: each keeps all its own values and gains the
    missing keys of the last secondary set that agrees with it on the merge
    keys, or is unchanged when none does. *)
Theorem expandGenerator_merge_spec g ga gb rest :
  let G := expandGenerator glob_dirs a ctx in
  gen_Kind g = "merge" → gen_MergeGenerators g = ga :: gb :: rest → gen_MergeKeys g ≠ [] →
  length (G g).1 = length (G ga).1 ∧
  (∀ i ap, (G ga).1 !! i = Some ap →
     ∃ p, (G g).1 !! i = Some p ∧
       let partner := find_first (λ bp, bool_decide (mergeKey bp (gen_MergeKeys g) = mergeKey ap (gen_MergeKeys g)))
                                 (rev (G gb).1) in
       ∀ k, p !! k = match ap !! k with Some v => Some v | None => bp ← partner; bp !! k end) ∧
  (G g).2 = (G ga).2 ++ (G gb).2.
Proof.
  intros G Hk Hm Hks. subst G. cbv beta. rewrite (expandGenerator_merge _ _ _ _ Hk Hm Hks). cbn [fst snd].
  split; [by unfold merge_join; rewrite length_map|]. split; [|done]. intros i ap Hi.
  unfold merge_join. change (map ?f ?l) with (f <$> l). rewrite list_lookup_fmap, Hi.
  eexists. split; [done|]. unfold merge_index.
  rewrite (lookup_foldl_insert (λ bp, mergeKey bp (gen_MergeKeys g)) id), lookup_empty.
  destruct (find_first _ _) as [bp|]; intros k; simpl.
  - rewrite lookup_union. by destruct (ap !! k), (bp !! k).
  - by destruct (ap !! k).
Qed.
End expand_facts.

(** ** The whole expansion *)

Section expand_all.
Context (glob_dirs : string → option (list string)) (a : ArgoApplicationSet) (ctx : ExpansionContext).

Local Notation gen := (expandGenerator glob_dirs a ctx).

(** The one diagnostic family of the expansion. *)
Definition is_gap (d : Diagnostic) : Prop :=
  dg_Code d = "XPC.H.appset-unsupported-generator" ∧ dg_Severity d = SeverityInfo ∧
  dg_Source d = aset_Source a.

Lemma gap_generator kind reason : is_gap (unsupportedGeneratorDiag a kind reason).
Proof. done. Qed.

Lemma expandGenerator_gaps g : Forall is_gap (gen g).2.
Proof.
  revert g. fix IH 1. intros [kind le cs git mg mge mk]. simpl.
  repeat case_match; simpl; repeat constructor; simplify_eq; apply Forall_app; split;
    match goal with
    | H : expandGenerator _ _ _ ?g = (_, ?d) |- Forall _ ?d =>
        specialize (IH g); rewrite H in IH; exact IH
    end.
Qed.

(** The diagnostics one generator contributes. *)
Definition gen_gaps (g : ArgoAppSetGenerator) : list Diagnostic :=
  (gen g).2 ++ flat_map (λ p, match instantiateTemplate a p with
                              | Some _ => [] | None => [unsupportedTemplateDiag a] end) (gen g).1.

Lemma expand_params_foldl ps res :
  foldl (expand_params a) res ps =
  {| er_Applications := er_Applications res ++ omap (instantiateTemplate a) ps;
     er_Diagnostics := er_Diagnostics res ++ flat_map (λ p, match instantiateTemplate a p with
                              | Some _ => [] | None => [unsupportedTemplateDiag a] end) ps |}.
Proof.
  revert res. induction ps as [|p ps IH]; intros [apps ds]; simpl.
  - by rewrite !app_nil_r.
  - rewrite IH. unfold expand_params. destruct (instantiateTemplate a p); simpl;
      by rewrite <- ?app_assoc.
Qed.

Lemma expand_gen_foldl gs res :
  foldl (expand_gen glob_dirs a ctx) res gs =
  {| er_Applications := er_Applications res ++
       omap (instantiateTemplate a) (flat_map (λ g, (gen g).1) gs);
     er_Diagnostics := er_Diagnostics res ++ flat_map gen_gaps gs |}.
Proof.
  revert res. induction gs as [|g gs IH]; intros [apps ds].
  - simpl. by rewrite !app_nil_r.
  - cbn [foldl]. rewrite IH. cbn [flat_map]. unfold expand_gen, gen_gaps at 2.
    destruct (gen g) as [ps diags]. rewrite expand_params_foldl. simpl.
    by rewrite omap_app, <- !app_assoc.
Qed.

Lemma instantiateTemplate_fields p app : instantiateTemplate a p = Some app →
  app_Source app = aset_Source a ∧ app_Name app ≠ "" ∧ app_Finalizers app = [] ∧
  app_SyncPolicy app = tm_SyncPolicy (aset_Template a) ∧
  length (app_Sources app) = length (template_sources (aset_Template a)).
Proof.
  unfold instantiateTemplate. intros H. simplify_option_eq.
  split; [done|]. split; [|repeat split; symmetry; by eapply length_mapM].
  case_match; [by destruct (aset_Name a)|]. by apply String.eqb_neq.
Qed.

(** C31: the expansion of an ApplicationSet accounts for every parameter set
    of every generator, in order: it is either an Application or one
    unsupported-template diagnostic.  Every Application points at the
    ApplicationSet's file, has a name, the template's sync policy and as many
    sources as the template, and carries no finalizers, whatever the template
    declares; every diagnostic is the informational coverage-gap code at the
    same file. *)
Theorem ExpandAppSet_spec :
  let G := expandGenerator glob_dirs a ctx in
  let res := ExpandAppSet glob_dirs a ctx in
  let all := flat_map (λ g, (G g).1) (aset_Generators a) in
  er_Applications res = omap (instantiateTemplate a) all ∧
  er_Diagnostics res = flat_map gen_gaps (aset_Generators a) ∧
  length all + length (flat_map (λ g, (G g).2) (aset_Generators a)) =
    length (er_Applications res) + length (er_Diagnostics res) ∧
  Forall (λ app, app_Source app = aset_Source a ∧ app_Name app ≠ "" ∧ app_Finalizers app = [] ∧
                 app_SyncPolicy app = tm_SyncPolicy (aset_Template a) ∧
                 length (app_Sources app) = length (template_sources (aset_Template a)))
         (er_Applications res) ∧
  Forall is_gap (er_Diagnostics res).
Proof.
  intros G res all. subst res G. cbv beta in *. unfold ExpandAppSet. rewrite expand_gen_foldl. cbn [er_Applications er_Diagnostics].
  rewrite !app_nil_l. split; [done|]. split; [done|]. split; [|split].
  - subst all. induction (aset_Generators a) as [|g gs IH]; [done|]. cbn [flat_map].
    rewrite omap_app, !length_app. unfold gen_gaps at 1. rewrite length_app.
    assert (H : ∀ ps, length ps = length (omap (instantiateTemplate a) ps) +
      length (flat_map (λ p, match instantiateTemplate a p with
                             | Some _ => [] | None => [unsupportedTemplateDiag a] end) ps)).
    { clear. induction ps as [|p ps IHp]; [done|]. csimpl.
      destruct (instantiateTemplate a p); csimpl; lia. }
    specialize (H (gen g).1). lia.
  - apply Forall_forall. intros app (p & _ & Hp)%list_elem_of_omap.
    by eapply instantiateTemplate_fields.
  - apply Forall_flat_map. apply Forall_forall. intros g _. apply Forall_app.
    split; [apply expandGenerator_gaps|]. apply Forall_flat_map, Forall_forall. intros p _.
    destruct (instantiateTemplate a p); repeat constructor.
Qed.
End expand_all.

(** A matrix of regions and environments, a merge keyed on the region, and a
    template over both. *)
Definition ex_list (ps : list params) : ArgoAppSetGenerator :=
  {| zero_ArgoAppSetGenerator with gen_Kind := "list"; gen_ListElements := ps |}.
Definition ex_regions := ex_list [{["region" := "eu"]}; {["region" := "us"]}].
Definition ex_envs := ex_list [{["env" := "dev"]}; {["env" := "prod"; "region" := "ap"]}].
Definition ex_sizes := ex_list [{["region" := "us"; "size" := "xl"]}].
Definition ex_matrix :=
  {| zero_ArgoAppSetGenerator with gen_Kind := "matrix"; gen_MatrixGenerators := [ex_regions; ex_envs] |}.
Definition ex_merge :=
  {| zero_ArgoAppSetGenerator with gen_Kind := "merge"; gen_MergeGenerators := [ex_regions; ex_sizes];
     gen_MergeKeys := ["region"] |}.

Definition ex_appset : ArgoApplicationSet :=
  {| zero_ArgoApplicationSet with aset_Name := "set"; aset_Generators := [ex_matrix];
     aset_Template := {| zero_ArgoAppSetTemplate with tm_Name := "app-{{ .env }}-{{region}}" |} |}.

Example ExpandAppSet_ex :
  map app_Name (er_Applications (ExpandAppSet (λ _, None) ex_appset (MkExpansionContext ∅ ""))) =
  ["app-dev-eu"; "app-prod-ap"; "app-dev-us"; "app-prod-ap"].
Proof. vm_compute. reflexivity. Qed.

Lemma expandGenerator_matrix_spec_witness :
  ∃ p, (expandGenerator (λ _, None) ex_appset (MkExpansionContext ∅ "") ex_matrix).1 !! 1 = Some p ∧
       p !! "region" = Some "ap".
Proof.
  destruct (expandGenerator_matrix_spec (λ _, None) ex_appset (MkExpansionContext ∅ "") ex_matrix
              ex_regions ex_envs [] eq_refl eq_refl) as (_ & H & _).
  destruct (H 0 1 {["region" := "eu"]} {["env" := "prod"; "region" := "ap"]} eq_refl eq_refl)
    as (p & Hp & Hk).
  exists p. split; [exact Hp|]. rewrite Hk. vm_compute. reflexivity.
Defined.

Lemma expandGenerator_merge_spec_witness :
  ∃ p, (expandGenerator (λ _, None) ex_appset (MkExpansionContext ∅ "") ex_merge).1 !! 1 = Some p ∧
       p !! "size" = Some "xl".
Proof.
  destruct (expandGenerator_merge_spec (λ _, None) ex_appset (MkExpansionContext ∅ "") ex_merge
              ex_regions ex_sizes [] eq_refl eq_refl) as (_ & H & _); [discriminate|].
  destruct (H 1 {["region" := "us"]} eq_refl) as (p & Hp & Hk).
  exists p. split; [exact Hp|]. rewrite Hk. vm_compute. reflexivity.
Defined.
