(* ===== verification/Sha256.v ===== *)
(** SHA-256 (FIPS 180-4), the standard-library hash behind every digest of the
    program, on byte strings, and the textual form the source uses for it,
    [sha256:] followed by 64 lower-case hexadecimal digits.

    Words are [N] below 2^32, every sum reduced.  Nothing is assumed of the
    function: a theorem that needs it to be injective has, as the other
    alternative, the colliding pair among the strings the code hashed. *)
From Stdlib Require Import NArith.
From S2P Require Import Prelude GoStrings.

#[local] Open Scope string_scope.
#[local] Open Scope list_scope.
#[local] Open Scope nat_scope.

(** ** Words *)

Definition word_mask : N := 4294967295.
Definition add32 (a b : N) : N := N.land (a + b) word_mask.
Definition not32 (a : N) : N := N.lxor a word_mask.
Definition rotr (n x : N) : N := N.lor (N.shiftr x n) (N.land (N.shiftl x (32 - n)) word_mask).

Definition big_sigma0 (x : N) : N := N.lxor (rotr 2 x) (N.lxor (rotr 13 x) (rotr 22 x)).
Definition big_sigma1 (x : N) : N := N.lxor (rotr 6 x) (N.lxor (rotr 11 x) (rotr 25 x)).
Definition small_sigma0 (x : N) : N := N.lxor (rotr 7 x) (N.lxor (rotr 18 x) (N.shiftr x 3)).
Definition small_sigma1 (x : N) : N := N.lxor (rotr 17 x) (N.lxor (rotr 19 x) (N.shiftr x 10)).
Definition choose (x y z : N) : N := N.lxor (N.land x y) (N.land (not32 x) z).
Definition majority (x y z : N) : N := N.lxor (N.land x y) (N.lxor (N.land x z) (N.land y z)).

(** The constants are the first 32 bits of the fractional parts of the cube
    roots of the first 64 primes, and of the square roots of the first eight. *)
Definition is_prime (n : nat) : bool :=
  Nat.leb 2 n && forallb (λ d, negb (Nat.eqb (n mod d) 0)) (seq 2 (n - 2)).
Definition primes : list N := Eval vm_compute in map N.of_nat (List.filter is_prime (seq 2 310)).
(** The integer cube root, bit by bit from the highest. *)
Definition cube_root (bits : nat) (n : N) : N :=
  foldr (λ i r, let r' := N.lor r (N.shiftl 1 (N.of_nat i)) in
                if (r' * r' * r' <=? n)%N then r' else r) 0%N (seq 0 bits).
Definition round_constants : list N :=
  Eval vm_compute in map (λ p, N.land (cube_root 36 (p * 2 ^ 96)) word_mask) primes.

(** ** The compression function *)

Record hash_state : Type := MkHash { h_a : N; h_b : N; h_c : N; h_d : N; h_e : N; h_f : N; h_g : N; h_h : N }.
Definition initial_words : list N :=
  Eval vm_compute in map (λ p, N.land (N.sqrt (p * 2 ^ 64)) word_mask) (take 8 primes).
Definition initial_hash : hash_state :=
  let w i := nth i initial_words 0%N in MkHash (w 0) (w 1) (w 2) (w 3) (w 4) (w 5) (w 6) (w 7).

Definition hash_round (s : hash_state) (kw : N * N) : hash_state :=
  let '(k, w) := kw in
  let t1 := add32 (h_h s) (add32 (big_sigma1 (h_e s)) (add32 (choose (h_e s) (h_f s) (h_g s)) (add32 k w))) in
  let t2 := add32 (big_sigma0 (h_a s)) (majority (h_a s) (h_b s) (h_c s)) in
  MkHash (add32 t1 t2) (h_a s) (h_b s) (h_c s) (add32 (h_d s) t1) (h_e s) (h_f s) (h_g s).

(** The message schedule: the window holds the last sixteen words, oldest
    first. *)
Fixpoint schedule (n : nat) (window : list N) : list N :=
  match n with
  | 0 => []
  | S n =>
      match window with
      | [] => []
      | w :: rest =>
          let next := add32 (small_sigma1 (nth 13 rest 0%N))
                        (add32 (nth 8 rest 0%N) (add32 (small_sigma0 (nth 0 rest 0%N)) w)) in
          w :: schedule n (rest ++ [next])
      end
  end.
Definition compress (s : hash_state) (block : list N) : hash_state :=
  let r := foldl hash_round s (zip round_constants (schedule 64 block)) in
  MkHash (add32 (h_a s) (h_a r)) (add32 (h_b s) (h_b r)) (add32 (h_c s) (h_c r)) (add32 (h_d s) (h_d r))
         (add32 (h_e s) (h_e r)) (add32 (h_f s) (h_f r)) (add32 (h_g s) (h_g r)) (add32 (h_h s) (h_h r)).

(** ** Padding and blocks *)

Fixpoint big_endian (k : nat) (n : N) : list N :=
  match k with
  | 0 => []
  | S k => N.land (N.shiftr n (N.of_nat (8 * k))) 255 :: big_endian k n
  end.
Definition pad (msg : list N) : list N :=
  let n := length msg in
  let zeros := (119 - n mod 64) mod 64 in
  msg ++ [128%N] ++ replicate zeros 0%N ++ big_endian 8 (8 * N.of_nat n).
Fixpoint words_of (l : list N) : list N :=
  match l with
  | a :: b :: c :: d :: l =>
      N.lor (N.shiftl a 24) (N.lor (N.shiftl b 16) (N.lor (N.shiftl c 8) d)) :: words_of l
  | _ => []
  end.
Fixpoint compress_all (fuel : nat) (s : hash_state) (ws : list N) : hash_state :=
  match fuel, ws with
  | S fuel, _ :: _ => compress_all fuel (compress s (take 16 ws)) (drop 16 ws)
  | _, _ => s
  end.
Definition sha256_words (msg : string) : hash_state :=
  let ws := words_of (pad (map N_of_ascii (String.list_ascii_of_string msg))) in
  compress_all (length ws) initial_hash ws.

(** ** The textual digest *)

Fixpoint hex_of (k : nat) (n : N) : string :=
  match k with
  | 0 => ""
  | S k => String (hex_digit (N.land (N.shiftr n (N.of_nat (4 * k))) 15)) (hex_of k n)
  end.
Definition hex_state (s : hash_state) : string :=
  hex_of 8 (h_a s) +:+ hex_of 8 (h_b s) +:+ hex_of 8 (h_c s) +:+ hex_of 8 (h_d s) +:+
  hex_of 8 (h_e s) +:+ hex_of 8 (h_f s) +:+ hex_of 8 (h_g s) +:+ hex_of 8 (h_h s).
Definition hashBytes (data : string) : string := "sha256:" +:+ hex_state (sha256_words data).

Example sha256_abc :
  hashBytes "abc" = "sha256:ba7816bf8f01cfea414140de5dae2223b00361a396177a9cb410ff61f20015ad".
Proof. vm_compute. reflexivity. Qed.
Example sha256_two_blocks :
  hashBytes "abcdbcdecdefdefgefghfghighijhijkijkljklmklmnlmnomnopnopq" =
  "sha256:248d6a61d20638b8e5c026930c3e6039a33ce45964ff2167f6ecedd419db06c1".
Proof. vm_compute. reflexivity. Qed.

(** ** Lemmas *)

Lemma length_hex_of k n : String.length (hex_of k n) = k.
Proof. induction k as [|k IH]; simpl; [done|]. by rewrite IH. Qed.

(** Every digest has the same length, so digests can be concatenated without a
    separator. *)
Lemma length_hashBytes data : String.length (hashBytes data) = 71.
Proof.
  unfold hashBytes, hex_state. rewrite !length_app_str, !length_hex_of. reflexivity.
Qed.

#[global] Opaque hashBytes.
