(* ===== verification/Json.v ===== *)
(** The text encoding/json writes: string escaping with HTML escapes on, and
    objects with their members in declaration order; [json.Marshal] of decoded documents,
    map keys sorted. *)
From Stdlib Require Import NArith ZArith Floats.SpecFloat.
From S2P Require Import Prelude GoStrings Yaml.

#[local] Open Scope string_scope.
#[local] Open Scope list_scope.
#[local] Open Scope nat_scope.

Definition u_escape (hi lo : N) : string :=
  "\u00" +:+ String (hex_digit hi) (String (hex_digit lo) "").
(** One byte below 128. *)
Definition json_ascii (n : N) : string :=
  if (n =? 34)%N then bytes [92; 34]%N
  else if (n =? 92)%N then bytes [92; 92]%N
  else match find_first (λ p : N * string, N.eqb (fst p) n)
               [(8, "\b"); (9, "\t"); (10, "\n"); (12, "\f"); (13, "\r")]%N with
       | Some (_, e) => e
       | None =>
           if (n <? 32)%N || (n =? 60)%N || (n =? 62)%N || (n =? 38)%N
           then u_escape (n / 16) (n mod 16) else bytes [n]
       end.
(** [skip] bytes of the current rune are left; they are copied unless an
    escape already stands for them. *)
Fixpoint json_body (skip : nat) (copy : bool) (l : list N) : string :=
  match l with
  | [] => ""
  | n :: rest =>
      match skip with
      | S skip => (if copy then bytes [n] else "") +:+ json_body skip copy rest
      | 0 =>
          if (n <? 128)%N then json_ascii n +:+ json_body 0 true rest
          else match rune_len l with
               | None => "\ufffd" +:+ json_body 0 true rest
               | Some k =>
                   match l with
                   | 226%N :: 128%N :: 168%N :: _ => "\u2028" +:+ json_body (k - 1) false rest
                   | 226%N :: 128%N :: 169%N :: _ => "\u2029" +:+ json_body (k - 1) false rest
                   | _ => bytes [n] +:+ json_body (k - 1) true rest
                   end
               end
      end
  end.
Definition json_string (s : string) : string :=
  String (byte 34) (json_body 0 true (map N_of_ascii (String.list_ascii_of_string s)) +:+
                    String (byte 34) "").

(** Members: the name and the encoded value. *)
Definition json_member (kv : string * string) : string := json_string (fst kv) +:+ ":" +:+ snd kv.
Definition json_object (members : list (string * string)) : string :=
  "{" +:+ join "," (map json_member members) +:+ "}".
(** A string member, and one tagged [omitempty]. *)
Definition str_member (name s : string) : list (string * string) := [(name, json_string s)].
Definition opt_member (name s : string) : list (string * string) :=
  if String.eqb s "" then [] else str_member name s.

Example json_string_ex :
  json_string (bytes [60; 34; 10; 1; 195; 169; 255; 226; 128; 168; 46]%N) =
  String (byte 34) ("\u003c\" +:+ String (byte 34) ("\n\u0001" +:+ bytes [195; 169]%N +:+
                    "\ufffd\u2028." +:+ String (byte 34) "")).
Proof. vm_compute. reflexivity. Qed.

(** ** [json.Marshal] of a decoded document

    The shortest decimal of a finite float and the encoding of the dynamic types
    the program never matches are the standard library's: parameters.  A NaN or
    an infinity, and a value [other] refuses, make the whole call fail. *)
Section marshal.
Context (fmt_float : spec_float → string) (other : string → option string).

Definition json_float (f : spec_float) : option string :=
  match f with S754_nan | S754_infinity _ => None | _ => Some (fmt_float f) end.
Definition key_before {A} (a b : string * A) : bool := str_lt (fst a) (fst b).
Definition encode_object (members : list (string * string)) : string :=
  json_object (sort_slice key_before members).
Fixpoint json_value (v : value) : option string :=
  match v with
  | VNull => Some "null"
  | VBool b => Some (if b then "true" else "false")
  | VInt z | VUint z => Some (itoa z)
  | VFloat f => json_float f
  | VStr s => Some (json_string s)
  | VList l =>
      (λ es, "[" +:+ join "," es +:+ "]") <$>
      (fix go l := match l with
                   | [] => Some []
                   | v :: l => match json_value v, go l with
                               | Some e, Some es => Some (e :: es)
                               | _, _ => None
                               end
                   end) l
  | VMap m =>
      encode_object <$>
      (fix go m := match m with
                   | [] => Some []
                   | (k, v) :: m => match json_value v, go m with
                                    | Some e, Some es => Some ((k, e) :: es)
                                    | _, _ => None
                                    end
                   end) m
  | VOther s => other s
  end.
(** A nil map is [null]. *)
Definition json_raw (m : raw) : option string :=
  match m with Some m => json_value (VMap m) | None => Some "null" end.

Definition encode_member (kv : string * value) : option (string * string) :=
  (λ e, (fst kv, e)) <$> json_value (snd kv).

Lemma json_value_list l : json_value (VList l) = (λ es, "[" +:+ join "," es +:+ "]") <$> mapM json_value l.
Proof.
  simpl. apply (f_equal (fmap _)). induction l as [|v l IH]; simpl; [done|]. rewrite IH.
  by destruct (json_value v), (mapM json_value l).
Qed.
Lemma json_value_map m : json_value (VMap m) = encode_object <$> mapM encode_member m.
Proof.
  simpl. apply (f_equal (fmap _)). induction m as [|[k v] m IH]; simpl; [done|]. rewrite IH.
  unfold encode_member; simpl. by destruct (json_value v), (mapM _ m).
Qed.

(** Equal up to the iteration order of the maps at every depth. *)
Inductive same_value : value → value → Prop :=
  | same_refl v : same_value v v
  | same_list l k : Forall2 same_value l k → same_value (VList l) (VList k)
  | same_map m n m' : Forall2 (λ a b, a.1 = b.1 ∧ same_value a.2 b.2) m m' → m' ≡ₚ n →
      same_value (VMap m) (VMap n).

Lemma mapM_perm {A B} (f : A → option B) l k : l ≡ₚ k →
  match mapM f l, mapM f k with
  | Some a, Some b => a ≡ₚ b
  | None, None => True
  | _, _ => False
  end.
Proof.
  induction 1 as [|x l k _ IH|x y l|l k j _ IH1 _ IH2]; simpl.
  - done.
  - destruct (f x), (mapM f l), (mapM f k); simpl in *; try done. by f_equiv.
  - destruct (f x), (f y), (mapM f l); simpl; try done. apply Permutation_swap.
  - destruct (mapM f l), (mapM f k), (mapM f j); try done. by etrans.
Qed.

#[export] Instance key_before_order {A} : KeyOrder (@key_before A) (λ kv, [fst kv]).
Proof. solve_less_order. Qed.

Lemma encode_object_perm a b : NoDup a.*1 → a ≡ₚ b → encode_object a = encode_object b.
Proof.
  intros Hn Hp. unfold encode_object. f_equal. apply sort_slice_perm_eq; [apply _| |done].
  intros x y Hx Hy H1 H2. pose proof (key_order_tie key_before _ x y H1 H2) as [= Hk].
  destruct x as [k1 e1], y as [k2 e2]; simpl in *; subst k2. f_equal.
  apply (NoDup_lookup_key a k1); done.
Qed.

(** The text does not depend on the order maps are iterated in. *)
Lemma json_value_same v w : wf_value v → same_value v w → json_value v = json_value w.
Proof.
  revert w. induction v as [| | | | | |l IH|m IH|] using value_ind'; intros w Hw Hs;
    inversion Hs as [|? k Hk|? n m' Hm Hp]; subst; try done.
  - rewrite !json_value_list. f_equal. apply wf_VList in Hw. clear Hs.
    induction Hk as [|x y l k Hxy Hk IHk]; simpl; [done|].
    apply Forall_cons in IH as [IH1 IH2]. apply Forall_cons in Hw as [Hw1 Hw2].
    rewrite (IH1 y) by done. by rewrite IHk.
  - rewrite !json_value_map. apply wf_VMap in Hw as [Hnd Hw].
    assert (Hm' : mapM encode_member m = mapM encode_member m').
    { clear Hnd Hp Hs. induction Hm as [|x y m m' [Hk Hxy] Hm IHm]; simpl; [done|].
      apply Forall_cons in IH as [IH1 IH2]. apply Forall_cons in Hw as [Hw1 Hw2].
      rewrite IHm by done. unfold encode_member. by rewrite Hk, (IH1 y.2). }
    rewrite Hm'. pose proof (mapM_perm encode_member m' n Hp) as Hpp.
    destruct (mapM encode_member m') as [a|] eqn:Ea, (mapM encode_member n) as [b|]; try done.
    simpl. f_equal. apply encode_object_perm; [|done].
    apply mapM_Some in Ea. assert (Hkeys : a.*1 = m.*1).
    { clear -Ea Hm. revert a Ea. induction Hm as [|x y m m' [Hk _] _ IH]; intros a Ea;
      inversion Ea as [|? z ? a' Hz Ha]; subst; [done|]. simpl.
      unfold encode_member in Hz. destruct (json_value y.2); [|done]. injection Hz as <-.
      simpl. by rewrite Hk, IH. }
    by rewrite Hkeys.
Qed.
End marshal.
