(* ===== verification/AuditLog.v ===== *)
(** The audit log (src/pkg/audit/proof.go): judgments grouped by rule and by
    resource, their digests, the Merkle tree over them, verification, inclusion
    and the diff of two proofs.

    Timestamps enter as the text their JSON encoding writes.  The digests are
    the real SHA-256 of Sha256.v. *)
From Stdlib Require Import NArith ZArith.
From stdpp Require Import fin_maps fin_sets.
From S2P Require Import Prelude GoStrings Types Sha256 Json.

#[local] Open Scope string_scope.
#[local] Open Scope list_scope.
#[local] Open Scope nat_scope.

(** ** Data *)

Record RunSummary : Type := MkRunSummary {
  rs_TotalObligations : Z;
  rs_Satisfied : Z;
  rs_Violated : Z;
  rs_ObligationIDs : list string;
}.
Record ProofMetadata : Type := MkProofMetadata {
  pm_IRDigest : string;
  pm_SnapshotDigest : string;
  pm_KernelVersion : string;
  pm_RulesetVersion : string;
  pm_RulesetDigest : string;
  pm_Timestamp : string;
  pm_SigningIdentity : string;
  pm_Signature : string;
  pm_Repo : string;
  pm_Commit : string;
  pm_Cluster : string;
}.
Record Judgment : Type := MkJudgment {
  j_Status : string;
  j_RuleID : string;
  j_Resource : string;
  j_Message : string;
  j_ObligationID : string;
  j_Category : string;
  j_Generator : string;
  j_Digest : string;
}.
(** RuleSubtree and ResourceSubtree: the key is the rule or the resource.  The maps of a
    proof hold no nil: an entry that a file gives as null, on which [Verify] of the code
    panics, is outside the model. *)
Record Subtree : Type := MkSubtree {
  sub_Key : string;
  sub_Digest : string;
  sub_Judgments : list Judgment;
}.
Record Proof_ : Type := MkProof {
  p_Version : Z;
  p_RootDigest : string;
  p_Metadata : ProofMetadata;
  p_Run : option RunSummary;
  p_RuleSubtrees : gmap string Subtree;
  p_ResourceSubtrees : gmap string Subtree;
  p_Tree : list string;
}.

Definition KernelVersion : string := "0.1.0".
Definition RulesetVersion : string := "2026.04".
Definition KnownRuleIDs : list string := [
  "XPC000"; "XPC001"; "XPC002"; "XPC003"; "XPC004"; "XPC005"; "XPC006"; "XPC007"; "XPC008"; "XPC009";
  "XPC010"; "XPC011"; "XPC012"; "XPC013"; "XPC014";
  "XPC.A.resource-field-valid";
  "XPC.D.kind-whitelisted";
  "XPC.E.appset-finalizer-without-preserve";
  "XPC.E.late-init-needs-ignore-diff";
  "XPC.E.prod-appset-autosync";
  "XPC.E.selector-needs-ignore-diff";
  "XPC.E.ssa-managementpolicies-nondefault";
  "XPC.E.ssa-managementpolicies-observe";
  "XPC.E.ssa-managementpolicies-partial";
  "XPC.H.appset-unsupported-generator";
  "XPC.H.composition-renders";
  "XPC.H.helm-renders";
  "XPC.H.kustomize-renders";
  "XPC.H.render-deterministic";
  "XPC.H.values-ref-remote";
  "XPC.H.values-ref-unknown";
  "XPC.H.values-well-typed";
  "XPC.P.cascade-risk";
  "XPC.P.destructive-delete";
  "XPC.P.immutable-change";
  "XPC.S.crossplane-state-needs-orphan"].

(** [slices.Sort] on strings, and the sorted keys of a map. *)
Definition sort_strings (l : list string) : list string := sort_slice str_lt l.
Definition sorted_keys {A} (m : gmap string A) : list string := sort_strings (map_to_list m).*1.

(** ** Digests *)

Definition hashJudgment (j : Judgment) : string :=
  hashBytes (join "|" [j_Status j; j_RuleID j; j_Resource j; j_Message j;
                       j_ObligationID j; j_Category j; j_Generator j]).
Definition hashRunSummary (s : RunSummary) : string :=
  hashBytes (itoa (rs_TotalObligations s) +:+ "|" +:+ itoa (rs_Satisfied s) +:+ "|" +:+
             itoa (rs_Violated s) +:+ "|" +:+
             String.concat "" (map (λ id, id +:+ "|") (sort_strings (rs_ObligationIDs s)))).
(** [hashRuleSubtree] and [hashResourceSubtree]. *)
Definition hashSubtree (key : string) (js : list Judgment) : string :=
  hashBytes (key +:+ String.concat "" (map j_Digest js)).
Definition marshal_metadata (m : ProofMetadata) : string :=
  json_object (
    str_member "irDigest" (pm_IRDigest m) ++ str_member "snapshotDigest" (pm_SnapshotDigest m) ++
    str_member "kernelVersion" (pm_KernelVersion m) ++ str_member "rulesetVersion" (pm_RulesetVersion m) ++
    str_member "rulesetDigest" (pm_RulesetDigest m) ++ str_member "timestamp" (pm_Timestamp m) ++
    opt_member "signingIdentity" (pm_SigningIdentity m) ++ opt_member "signature" (pm_Signature m) ++
    opt_member "repo" (pm_Repo m) ++ opt_member "commit" (pm_Commit m) ++
    opt_member "cluster" (pm_Cluster m)).

(** ** The Merkle tree *)

(** One pass of the loop: adjacent nodes are hashed together, an odd last node
    with itself. *)
Fixpoint merkle_level (level : list string) : list string :=
  match level with
  | a :: b :: rest => hashBytes (a +:+ b) :: merkle_level rest
  | [a] => [hashBytes (a +:+ a)]
  | [] => []
  end.
Fixpoint merkle_loop (fuel : nat) (level : list string) : string :=
  match level, fuel with
  | [root], _ => root
  | _, S fuel => merkle_loop fuel (merkle_level level)
  | _, 0 => ""
  end.
Definition computeMerkleRoot (leaves : list string) : string :=
  match leaves with
  | [] => hashBytes "empty"
  | _ => merkle_loop (length leaves) leaves
  end.

Definition subtree_digests (m : gmap string Subtree) : list string :=
  omap (λ k, sub_Digest <$> m !! k) (sorted_keys m).
Definition merkleTree (p : Proof_) : list string * string :=
  let leaves :=
    [hashBytes (marshal_metadata (p_Metadata p))] ++
    match p_Run p with Some s => [hashRunSummary s] | None => [] end ++
    subtree_digests (p_RuleSubtrees p) ++ subtree_digests (p_ResourceSubtrees p) in
  (leaves, computeMerkleRoot leaves).
Definition buildMerkleTree (p : Proof_) : Proof_ :=
  let '(leaves, root) := merkleTree p in {| p with p_Tree := leaves; p_RootDigest := root |}.

(** ** Generation *)

Definition judgment_status (s : Severity) : string :=
  match s with SeverityError => "error" | SeverityWarning => "warning" | _ => "ok" end.
Definition judgment_of (d : Diagnostic) : Judgment :=
  let j :=
    {| j_Status := judgment_status (dg_Severity d);
       j_RuleID := dg_Code d;
       j_Resource := sl_File (dg_Source d) +:+ ":" +:+ itoa (sl_Line (dg_Source d));
       j_Message := dg_Message d;
       j_ObligationID := from_option ob_ID "" (dg_Obligation d);
       j_Category := from_option ob_Category "" (dg_Obligation d);
       j_Generator := from_option ob_Generator "" (dg_Obligation d);
       j_Digest := "" |} in
  {| j with j_Digest := hashJudgment j |}.

(** Grouping: the judgments of each key, in order. *)
Definition group_by (key : Judgment → string) (js : list Judgment) : gmap string (list Judgment) :=
  foldl (λ groups j, <[key j := default [] (groups !! key j) ++ [j]]> groups) ∅ js.
Definition subtree_of (groups : gmap string (list Judgment)) (key : string) : Subtree :=
  let js := default [] (groups !! key) in
  {| sub_Key := key; sub_Digest := hashSubtree key js; sub_Judgments := js |}.
(** The known rules and the observed ones. *)
Definition all_rule_ids (groups : gmap string (list Judgment)) : list string :=
  sort_strings (foldl (λ ids id, if contains_string ids id then ids else ids ++ [id])
                      KnownRuleIDs (map_to_list groups).*1).
Definition build_subtrees (groups : gmap string (list Judgment)) (keys : list string) : gmap string Subtree :=
  foldl (λ m k, <[k := subtree_of groups k]> m) ∅ keys.

Definition GenerateWithRulesetDigest (diags : list Diagnostic) (summary : option RunSummary)
    (irDigest snapshotDigest rulesetDigest now : string) : Proof_ :=
  let judgments := map judgment_of diags in
  let ruleGroups := group_by j_RuleID judgments in
  let resGroups := group_by j_Resource judgments in
  buildMerkleTree
    {| p_Version := 4;
       p_RootDigest := "";
       p_Metadata := {| pm_IRDigest := irDigest; pm_SnapshotDigest := snapshotDigest;
                        pm_KernelVersion := KernelVersion; pm_RulesetVersion := RulesetVersion;
                        pm_RulesetDigest := rulesetDigest; pm_Timestamp := now;
                        pm_SigningIdentity := ""; pm_Signature := ""; pm_Repo := "";
                        pm_Commit := ""; pm_Cluster := "" |};
       p_Run := summary;
       p_RuleSubtrees := build_subtrees ruleGroups (all_rule_ids ruleGroups);
       p_ResourceSubtrees := build_subtrees resGroups (map_to_list resGroups).*1;
       p_Tree := [] |}.

(** ** Verification and inclusion *)

Definition Verify (p : Proof_) : bool := String.eqb (snd (merkleTree p)) (p_RootDigest p).
Definition VerifyInclusion (p : Proof_) (ruleID resource : string) : bool :=
  match p_RuleSubtrees p !! ruleID with
  | None => false
  | Some st => existsb (λ j, String.eqb (j_Resource j) resource) (sub_Judgments st)
  end.

(** ** The ruleset digest.  The files are a list of paths and contents. *)
Definition computeRulesetDigestFromParts (parts : list (string * string)) : string :=
  let nl := bytes [10]%N in
  hashBytes ("ruleset-version:" +:+ RulesetVersion +:+ nl +:+
    String.concat "" (map (λ id, "rule-id:" +:+ id +:+ nl) (sort_strings KnownRuleIDs)) +:+
    String.concat "" (map (λ '(path, data), "kernel-file:" +:+ path +:+ nl +:+ data +:+ bytes [0]%N) parts)).

(** ** The diff of two proofs *)

Definition countErrors (st : option Subtree) : nat :=
  match st with
  | None => 0
  | Some st => length (filter (λ j, j_Status j = "error") (sub_Judgments st))
  end.
Definition getErrorMessages (st : option Subtree) : list string :=
  match st with
  | None => []
  | Some st => map (λ j, j_Resource j +:+ ": " +:+ j_Message j)
                   (filter (λ j, j_Status j = "error") (sub_Judgments st))
  end.
Definition truncDigest (s : string) : string :=
  if Nat.ltb 20 (String.length s) then str_take 20 s else s.

(** The three counters and the change lines, one rule at a time. *)
Record diff_state : Type := MkDiff {
  df_unchanged : nat;
  df_newlySatisfied : nat;
  df_newlyViolated : nat;
  df_changes : list string;
}.
Definition nat_str (n : nat) : string := itoa (Z.of_nat n).
Definition diff_rule (a b : Proof_) (s : diff_state) (id : string) : diff_state :=
  let aST := p_RuleSubtrees a !! id in
  let bST := p_RuleSubtrees b !! id in
  let aErrors := countErrors aST in
  let bErrors := countErrors bST in
  if Nat.eqb aErrors bErrors then {| s with df_unchanged := S (df_unchanged s) |}
  else if Nat.ltb 0 aErrors && Nat.eqb bErrors 0 then
    {| s with df_newlySatisfied := S (df_newlySatisfied s);
              df_changes := df_changes s ++
                ["    " +:+ id +:+ ": " +:+ nat_str aErrors +:+ " errors → 0 (newly satisfied)"] |}
  else if Nat.eqb aErrors 0 && Nat.ltb 0 bErrors then
    {| s with df_newlyViolated := S (df_newlyViolated s);
              df_changes := df_changes s ++
                ["    " +:+ id +:+ ": 0 → " +:+ nat_str bErrors +:+ " errors (newly violated)" +:+ bytes [10]%N +:+
                 "      " +:+ join (bytes [10]%N +:+ "      ") (getErrorMessages bST)] |}
  else
    {| s with df_changes := df_changes s ++
                ["    " +:+ id +:+ ": " +:+ nat_str aErrors +:+ " errors → " +:+ nat_str bErrors +:+ " errors"] |}.
Definition diff_rule_ids (a b : Proof_) : list string :=
  sort_strings (elements (dom (p_RuleSubtrees a) ∪ dom (p_RuleSubtrees b))).
Definition diff_rules (a b : Proof_) : diff_state :=
  foldl (diff_rule a b) (MkDiff 0 0 0 []) (diff_rule_ids a b).
Definition DiffProofs (a b : Proof_) : string :=
  let nl := bytes [10]%N in
  let s := diff_rules a b in
  "Proof diff: " +:+ truncDigest (p_RootDigest a) +:+ " → " +:+ truncDigest (p_RootDigest b) +:+ nl +:+
  (if String.eqb (pm_SnapshotDigest (p_Metadata a)) (pm_SnapshotDigest (p_Metadata b)) then ""
   else "  Snapshot changed: " +:+ truncDigest (pm_SnapshotDigest (p_Metadata a)) +:+ " → " +:+
        truncDigest (pm_SnapshotDigest (p_Metadata b)) +:+ nl) +:+
  "  " +:+ nat_str (length (diff_rule_ids a b)) +:+ " judgments: " +:+ nat_str (df_unchanged s) +:+
  " unchanged, " +:+ nat_str (df_newlySatisfied s) +:+ " newly satisfied, " +:+
  nat_str (df_newlyViolated s) +:+ " violated" +:+ nl +:+
  match df_changes s with
  | [] => ""
  | changes => "  Changes:" +:+ nl +:+ String.concat "" (map (λ c, c +:+ nl) changes)
  end.

(** ** Lemmas: the Merkle tree *)

Lemma length_merkle_level l : length (merkle_level l) = (length l + 1) / 2.
Proof.
  enough (H : ∀ n, (∀ l, length l = n → length (merkle_level l) = (n + 1) / 2) ∧
                   (∀ l, length l = S n → length (merkle_level l) = (S n + 1) / 2)) by (by apply H).
  clear l. induction n as [|n [IH0 IH1]].
  - split; [by intros []|]. by intros [|a []].
  - split; [done|]. intros [|a [|b l]] [= Hl]. cbn [merkle_level length].
    rewrite (IH0 l Hl). replace (S (S n) + 1) with ((n + 1) + 1 * 2) by lia.
    rewrite Nat.div_add by done. lia.
Qed.

(** Every string the tree of [l] hashes. *)
Fixpoint level_inputs (l : list string) : list string :=
  match l with
  | a :: b :: rest => (a +:+ b) :: level_inputs rest
  | [a] => [a +:+ a]
  | [] => []
  end.
Fixpoint tree_inputs (fuel : nat) (l : list string) : list string :=
  match l, fuel with
  | [_], _ => []
  | _, S fuel => level_inputs l ++ tree_inputs fuel (merkle_level l)
  | _, 0 => []
  end.

Lemma merkle_level_hash l : merkle_level l = map hashBytes (level_inputs l).
Proof.
  enough (H : ∀ n l, length l ≤ n → merkle_level l = map hashBytes (level_inputs l)) by eauto.
  clear l. induction n as [|n IH]; intros [|a [|b l]] Hl; simpl in *; try done; [lia|].
  f_equal. apply IH. lia.
Qed.

(** Two different strings with one digest, the first hashed on one side and
    the second on the other. *)
Definition collision (xs ys : list string) : Prop :=
  ∃ x y, x ∈ xs ∧ y ∈ ys ∧ x ≠ y ∧ hashBytes x = hashBytes y.

Lemma collision_app_l xs ys xs' ys' : collision xs ys → collision (xs ++ xs') (ys ++ ys').
Proof.
  intros (x & y & ? & ? & ? & ?). exists x, y. rewrite !elem_of_app. split_and!; auto.
Qed.
Lemma collision_app_r xs ys xs' ys' : collision xs ys → collision (xs' ++ xs) (ys' ++ ys).
Proof.
  intros (x & y & ? & ? & ? & ?). exists x, y. rewrite !elem_of_app. split_and!; auto.
Qed.

Lemma map_eq_or (f : string → string) xs ys : map f xs = map f ys →
  xs = ys ∨ ∃ x y, x ∈ xs ∧ y ∈ ys ∧ x ≠ y ∧ f x = f y.
Proof.
  revert ys. induction xs as [|x xs IH]; intros [|y ys]; simpl; try done; [by left|].
  intros [= Hxy Hr]. destruct (IH ys Hr) as [->|(x' & y' & ? & ? & ? & ?)].
  - destruct (decide (x = y)) as [->|Hne]; [by left|]. right. exists x, y.
    split_and!; try done; by left.
  - right. exists x', y'. split_and!; try done; by right.
Qed.
Lemma map_hash_inj xs ys : map hashBytes xs = map hashBytes ys → xs = ys ∨ collision xs ys.
Proof. apply map_eq_or. Qed.

Definition digest_length (s : string) : Prop := String.length s = 71.

Lemma level_inputs_inj l k : length l = length k → Forall digest_length l → Forall digest_length k →
  level_inputs l = level_inputs k → l = k.
Proof.
  enough (H : ∀ n l k, length l ≤ n → length l = length k → Forall digest_length l →
    Forall digest_length k → level_inputs l = level_inputs k → l = k) by eauto.
  clear l k. unfold digest_length. induction n as [|n IH]; intros [|a [|b l]] [|a' [|b' k]] Hn Hl Ha Hb;
    simpl in *; try lia; try done.
  - intros [= H]. rewrite !Forall_cons in Ha, Hb. destruct Ha as [Ha _], Hb as [Hb _].
    destruct (app_str_inj _ _ _ _ (eq_trans Ha (eq_sym Hb)) H) as [-> _]. done.
  - intros [= H Hr]. rewrite !Forall_cons in Ha, Hb. destruct Ha as (Ha & Ha' & Hal), Hb as (Hb & Hb' & Hbl).
    destruct (app_str_inj _ _ _ _ (eq_trans Ha (eq_sym Hb)) H) as [-> ->].
    rewrite (IH l k); [done|lia|lia|done|done|done].
Qed.

Lemma merkle_level_digests l : Forall digest_length (merkle_level l).
Proof.
  rewrite merkle_level_hash. apply Forall_forall. intros x Hx.
  change (map hashBytes (level_inputs l)) with (hashBytes <$> level_inputs l) in Hx.
  apply list_elem_of_fmap in Hx as (y & -> & _). apply length_hashBytes.
Qed.

Lemma merkle_loop_inj fuel l k : length l = length k → l ≠ [] → length l ≤ fuel →
  Forall digest_length l → Forall digest_length k →
  merkle_loop fuel l = merkle_loop fuel k →
  l = k ∨ collision (tree_inputs fuel l) (tree_inputs fuel k).
Proof.
  revert l k. induction fuel as [|fuel IH]; intros l k Hl Hne Hf Hdl Hdk Hr.
  { destruct l; [done|simpl in Hf; lia]. }
  destruct l as [|a [|b l]]; [done| |].
  { destruct k as [|a' [|]]; try done. left. simpl in Hr. by subst. }
  destruct k as [|a' [|b' k]]; try done. cbn [merkle_loop tree_inputs] in *.
  set (L := a :: b :: l) in *. set (K := a' :: b' :: k) in *.
  assert (Hlev : length (merkle_level L) = length (merkle_level K)) by by rewrite !length_merkle_level, Hl.
  destruct (IH (merkle_level L) (merkle_level K)) as [He|Hc]; try done.
  - rewrite length_merkle_level. apply Nat.lt_succ_r.
    eapply Nat.lt_le_trans; [|exact Hf]. apply Nat.Div0.div_lt_upper_bound. subst L. simpl. lia.
  - apply merkle_level_digests.
  - apply merkle_level_digests.
  - rewrite !merkle_level_hash in He. destruct (map_hash_inj _ _ He) as [E|Hc].
    + left. by apply level_inputs_inj.
    + right. by apply collision_app_l.
  - right. by apply collision_app_r.
Qed.

Lemma merkle_root_inj l k : length l = length k → l ≠ [] →
  Forall digest_length l → Forall digest_length k → computeMerkleRoot l = computeMerkleRoot k →
  l = k ∨ collision (tree_inputs (length l) l) (tree_inputs (length k) k).
Proof.
  intros Hl Hne Hdl Hdk. unfold computeMerkleRoot.
  destruct l as [|a l]; [done|]. destruct k as [|b k]; [done|]. rewrite <- Hl.
  intros H. by apply merkle_loop_inj.
Qed.

(** ** Lemmas: grouping *)

Lemma group_by_lookup key js k :
  group_by key js !! k =
  match filter (λ j, key j = k) js with [] => None | l => Some l end.
Proof.
  unfold group_by. induction js as [|j js IH] using rev_ind; [done|].
  rewrite foldl_app, filter_app. cbn [foldl]. rewrite filter_cons, filter_nil.
  destruct (decide (key j = k)) as [<-|Hk].
  - rewrite lookup_insert_eq, IH. by destruct (filter _ js).
  - rewrite lookup_insert_ne by done. by rewrite app_nil_r.
Qed.

Lemma build_subtrees_lookup groups keys k :
  build_subtrees groups keys !! k = if decide (k ∈ keys) then Some (subtree_of groups k) else None.
Proof.
  unfold build_subtrees. rewrite (lookup_foldl_insert id).
  destruct (find_first _ _) as [k'|] eqn:E.
  - apply find_first_Some in E as [Hin E%bool_decide_eq_true]. simpl in E. subst k'.
    rewrite elem_of_rev in Hin. by rewrite decide_True.
  - rewrite find_first_None in E. rewrite decide_False; [done|]. intros Hin.
    specialize (E k). rewrite bool_decide_true in E by done. enough (true = false) by done.
    apply E. by rewrite elem_of_rev.
Qed.

Lemma elem_of_union_ids ids l id :
  id ∈ foldl (λ ids id, if contains_string ids id then ids else ids ++ [id]) ids l ↔ id ∈ ids ∨ id ∈ l.
Proof.
  revert ids. induction l as [|x l IH]; intros ids; simpl.
  - rewrite elem_of_nil. tauto.
  - rewrite IH, elem_of_cons. destruct (contains_string ids x) eqn:E.
    + apply contains_string_spec in E. naive_solver.
    + rewrite elem_of_app, list_elem_of_singleton. tauto.
Qed.

Lemma elem_of_map_keys {A} (m : gmap string A) k : k ∈ (map_to_list m).*1 ↔ is_Some (m !! k).
Proof.
  rewrite list_elem_of_fmap. split.
  - intros ([k' v] & -> & Hv%elem_of_map_to_list). by eexists.
  - intros [v Hv]. exists (k, v). by rewrite elem_of_map_to_list.
Qed.

Lemma elem_of_all_rule_ids groups id :
  id ∈ all_rule_ids groups ↔ id ∈ KnownRuleIDs ∨ is_Some (groups !! id).
Proof.
  unfold all_rule_ids, sort_strings. by rewrite elem_of_sort_slice, elem_of_union_ids, elem_of_map_keys.
Qed.

(** The judgments of a key, and the subtree they make. *)
Definition judgments_of (key : Judgment → string) (diags : list Diagnostic) (k : string) : list Judgment :=
  filter (λ j, key j = k) (map judgment_of diags).
Definition full_subtree (k : string) (js : list Judgment) : Subtree := MkSubtree k (hashSubtree k js) js.

Lemma subtree_of_groups key diags k :
  subtree_of (group_by key (map judgment_of diags)) k = full_subtree k (judgments_of key diags k).
Proof.
  unfold subtree_of, full_subtree, judgments_of. rewrite group_by_lookup. by destruct (filter _ _).
Qed.

Lemma group_by_present key diags k :
  is_Some (group_by key (map judgment_of diags) !! k) ↔ judgments_of key diags k ≠ [].
Proof.
  unfold judgments_of. rewrite group_by_lookup. destruct (filter _ _) as [|j l].
  - split; [by intros [? ?]|done].
  - split; [done|]. by eexists.
Qed.

Lemma buildMerkleTree_fields p :
  p_RuleSubtrees (buildMerkleTree p) = p_RuleSubtrees p ∧
  p_ResourceSubtrees (buildMerkleTree p) = p_ResourceSubtrees p.
Proof. done. Qed.

Lemma generated_rules diags summary irDigest snapshotDigest rulesetDigest now id :
  p_RuleSubtrees (GenerateWithRulesetDigest diags summary irDigest snapshotDigest rulesetDigest now) !! id =
    let js := judgments_of j_RuleID diags id in
    if decide (id ∈ KnownRuleIDs ∨ js ≠ []) then Some (full_subtree id js) else None.
Proof.
  unfold GenerateWithRulesetDigest. rewrite (proj1 (buildMerkleTree_fields _)). cbn [p_RuleSubtrees].
  rewrite build_subtrees_lookup, subtree_of_groups. apply decide_ext.
  by rewrite elem_of_all_rule_ids, group_by_present.
Qed.
Lemma generated_verifies diags summary irDigest snapshotDigest rulesetDigest now :
  Verify (GenerateWithRulesetDigest diags summary irDigest snapshotDigest rulesetDigest now) = true.
Proof. apply String.eqb_refl. Qed.
Lemma generated_inclusion diags summary irDigest snapshotDigest rulesetDigest now rule resource :
  VerifyInclusion (GenerateWithRulesetDigest diags summary irDigest snapshotDigest rulesetDigest now) rule resource = true ↔
  ∃ d, d ∈ diags ∧ dg_Code d = rule ∧ j_Resource (judgment_of d) = resource.
Proof.
  unfold VerifyInclusion. rewrite generated_rules. cbv zeta.
  assert (Hex : existsb (λ j, String.eqb (j_Resource j) resource) (judgments_of j_RuleID diags rule) = true ↔
    ∃ d, d ∈ diags ∧ dg_Code d = rule ∧ j_Resource (judgment_of d) = resource).
  { rewrite existsb_elem_of. unfold judgments_of. split.
    - intros (j & Hj & E%String.eqb_eq). apply list_elem_of_filter in Hj as [<- Hj].
      change (map judgment_of diags) with (judgment_of <$> diags) in Hj.
      apply list_elem_of_fmap in Hj as (d & -> & Hd). by exists d.
    - intros (d & Hd & <- & <-). exists (judgment_of d). rewrite String.eqb_refl. split; [|done].
      apply list_elem_of_filter. split; [done|]. by apply (list_elem_of_fmap_2 judgment_of). }
  rewrite <- Hex. destruct (decide _) as [Hd|Hd]; [done|].
  split; [done|]. intros Hx. destruct Hd. right. intros E. by rewrite E in Hx.
Qed.

(** ** Properties *)

(** a generated proof is complete and verifies: the subtree of a rule
    exists when the rule is known or was observed, the subtree of a resource
    when it was observed, each with exactly the judgments of its key in the
    order of the diagnostics and their digest; the stored root is the root of
    the tree; and inclusion holds exactly for the (rule, resource) pairs of the
    diagnostics. *)
Theorem GenerateWithRulesetDigest_spec diags summary irDigest snapshotDigest rulesetDigest now :
  let p := GenerateWithRulesetDigest diags summary irDigest snapshotDigest rulesetDigest now in
  (∀ id, p_RuleSubtrees p !! id =
     let js := judgments_of j_RuleID diags id in
     if decide (id ∈ KnownRuleIDs ∨ js ≠ []) then Some (full_subtree id js) else None) ∧
  (∀ r, p_ResourceSubtrees p !! r =
     let js := judgments_of j_Resource diags r in
     if decide (js ≠ []) then Some (full_subtree r js) else None) ∧
  Verify p = true ∧
  (∀ rule resource, VerifyInclusion p rule resource = true ↔
     ∃ d, d ∈ diags ∧ dg_Code d = rule ∧ j_Resource (judgment_of d) = resource).
Proof.
  intros p. split_and!; [apply generated_rules| |apply generated_verifies|apply generated_inclusion].
  intros r. subst p. unfold GenerateWithRulesetDigest.
  rewrite (proj2 (buildMerkleTree_fields _)). cbn [p_ResourceSubtrees].
  rewrite build_subtrees_lookup, subtree_of_groups. apply decide_ext.
  by rewrite elem_of_map_keys, group_by_present.
Qed.

(** *** What a root binds *)

(** Every digest the proof stores has the length of one. *)
Definition digests_wf (p : Proof_) : Prop :=
  map_Forall (λ _ st, digest_length (sub_Digest st)) (p_RuleSubtrees p) ∧
  map_Forall (λ _ st, digest_length (sub_Digest st)) (p_ResourceSubtrees p).
(** Every string hashed to verify a proof, its metadata first. *)
Definition verify_inputs (p : Proof_) : list string :=
  marshal_metadata (p_Metadata p) :: tree_inputs (length (fst (merkleTree p))) (fst (merkleTree p)).
(** The same shape: the same rules and resources, and both or neither with a
    run summary. *)
Definition same_shape (p q : Proof_) : Prop :=
  dom (p_RuleSubtrees p) = dom (p_RuleSubtrees q) ∧
  dom (p_ResourceSubtrees p) = dom (p_ResourceSubtrees q) ∧
  (is_Some (p_Run p) ↔ is_Some (p_Run q)).

Lemma sorted_keys_dom (m n : gmap string Subtree) : dom m = dom n → sorted_keys m = sorted_keys n.
Proof.
  intros Hd. apply sort_slice_perm_eq; [apply _| |].
  - intros x y _ _. apply str_lt_total.
  - apply NoDup_Permutation; [apply NoDup_fst_map_to_list..|].
    intros k. by rewrite !elem_of_map_keys, <- !elem_of_dom, Hd.
Qed.

Definition stored_digest (m : gmap string Subtree) (k : string) : option string := sub_Digest <$> m !! k.

Lemma omap_total_inj (f g : string → option string) l :
  (∀ k, k ∈ l → is_Some (f k) ∧ is_Some (g k)) →
  length (omap f l) = length (omap g l) ∧ (omap f l = omap g l → ∀ k, k ∈ l → f k = g k).
Proof.
  induction l as [|x l IH]; intros H; csimpl; [by split; [|intros _ k ?%not_elem_of_nil]|].
  destruct (H x) as [[a Ha] [b Hb]]; [by left|]. rewrite Ha, Hb. csimpl.
  destruct IH as [IH1 IH2]; [intros k Hk; apply H; by right|]. split; [by rewrite IH1|].
  intros [= -> E] k [->|Hk]%elem_of_cons; [congruence|eauto].
Qed.

Lemma subtree_digests_inj m n : dom m = dom n →
  length (subtree_digests m) = length (subtree_digests n) ∧
  (subtree_digests m = subtree_digests n → ∀ k, stored_digest m k = stored_digest n k).
Proof.
  intros Hd. unfold subtree_digests. rewrite (sorted_keys_dom n m) by done.
  change (λ k, sub_Digest <$> ?m !! k) with (stored_digest m).
  assert (Hk : ∀ k, k ∈ sorted_keys m ↔ is_Some (m !! k)).
  { intros k. unfold sorted_keys, sort_strings. by rewrite elem_of_sort_slice, elem_of_map_keys. }
  destruct (omap_total_inj (stored_digest m) (stored_digest n) (sorted_keys m)) as [H1 H2].
  { intros k Hin%Hk. unfold stored_digest. rewrite !fmap_is_Some. split; [done|].
    by rewrite <- elem_of_dom, <- Hd, elem_of_dom. }
  split; [exact H1|]. intros E k. destruct (m !! k) eqn:Em.
  - apply H2; [done|]. apply Hk. by rewrite Em.
  - unfold stored_digest. rewrite Em. apply not_elem_of_dom in Em. rewrite Hd in Em.
    by apply not_elem_of_dom in Em as ->.
Qed.

Lemma subtree_digests_wf m : map_Forall (λ _ st, digest_length (sub_Digest st)) m →
  Forall digest_length (subtree_digests m).
Proof.
  intros H. apply Forall_forall. intros d (k & _ & Hk)%list_elem_of_omap.
  apply fmap_Some in Hk as (st & Hst & ->). by apply (H k).
Qed.

(** The run-summary leaf. *)
Definition run_leaf (p : Proof_) : list string :=
  match p_Run p with Some s => [hashRunSummary s] | None => [] end.
Lemma run_leaf_shape p q : same_shape p q →
  length (run_leaf p) = length (run_leaf q) ∧
  (run_leaf p = run_leaf q → hashRunSummary <$> p_Run p = hashRunSummary <$> p_Run q).
Proof.
  intros (_ & _ & [H1 H2]). unfold run_leaf.
  destruct (p_Run p) as [s|], (p_Run q) as [s'|]; simpl.
  - split; [done|]. intros E. exact (f_equal head E).
  - destruct (H1 ltac:(eauto)). done.
  - destruct (H2 ltac:(eauto)). done.
  - done.
Qed.

Lemma merkleTree_leaves p : fst (merkleTree p) =
  [hashBytes (marshal_metadata (p_Metadata p))] ++ run_leaf p ++
  subtree_digests (p_RuleSubtrees p) ++ subtree_digests (p_ResourceSubtrees p).
Proof. done. Qed.

Lemma merkleTree_wf p : digests_wf p → Forall digest_length (fst (merkleTree p)).
Proof.
  intros [H1 H2]. unfold merkleTree. cbn [fst]. rewrite !Forall_app. split_and!.
  - constructor; [apply length_hashBytes|constructor].
  - destruct (p_Run p); constructor; [apply length_hashBytes|constructor].
  - by apply subtree_digests_wf.
  - by apply subtree_digests_wf.
Qed.

(** C27: the Merkle root binds the proof: two proofs of the same shape that
    both verify against one root have the same metadata, the same digest of the
    run summary and the same digest for every rule and every resource, unless
    two different strings hashed while verifying them collide. *)
Theorem Verify_binds (p q : Proof_) :
  digests_wf p → digests_wf q → same_shape p q →
  Verify p = true → Verify q = true → p_RootDigest p = p_RootDigest q →
  (marshal_metadata (p_Metadata p) = marshal_metadata (p_Metadata q) ∧
   hashRunSummary <$> p_Run p = hashRunSummary <$> p_Run q ∧
   (∀ id, stored_digest (p_RuleSubtrees p) id = stored_digest (p_RuleSubtrees q) id) ∧
   (∀ r, stored_digest (p_ResourceSubtrees p) r = stored_digest (p_ResourceSubtrees q) r))
  ∨ collision (verify_inputs p) (verify_inputs q).
Proof.
  intros Hp Hq Hs Vp%String.eqb_eq Vq%String.eqb_eq Hroot.
  destruct (run_leaf_shape p q Hs) as [Hl0 Hi0]. destruct Hs as (Hd1 & Hd2 & _).
  destruct (subtree_digests_inj _ _ Hd1) as [Hl1 Hi1].
  destruct (subtree_digests_inj _ _ Hd2) as [Hl2 Hi2].
  assert (Hroots : computeMerkleRoot (fst (merkleTree p)) = computeMerkleRoot (fst (merkleTree q)))
    by (etrans; [exact Vp|]; etrans; [exact Hroot|]; symmetry; exact Vq).
  assert (Hlen : length (fst (merkleTree p)) = length (fst (merkleTree q)))
    by by rewrite !merkleTree_leaves, !length_app, Hl0, Hl1, Hl2.
  destruct (merkle_root_inj _ _ Hlen ltac:(done) (merkleTree_wf p Hp) (merkleTree_wf q Hq) Hroots)
    as [E|Hc].
  - rewrite !merkleTree_leaves in E. apply app_inj_1 in E as [Em E]; [|done].
    apply app_inj_1 in E as [Er E]; [|done]. apply app_inj_1 in E as [E1 E2]; [|done].
    destruct (decide (marshal_metadata (p_Metadata p) = marshal_metadata (p_Metadata q))) as [Hm|Hm].
    + left. split_and!; auto.
    + right. pose proof (f_equal (hd EmptyString) Em) as Eh. cbn [hd] in Eh.
      do 2 eexists. split_and!; [by left|by left|exact Hm|exact Eh].
  - right. unfold verify_inputs. by apply (collision_app_r _ _ [_] [_]).
Qed.

(** [p] with the judgments of one rule replaced, its stored digest kept. *)
Definition with_judgments (p : Proof_) (id : string) (st : Subtree) (js : list Judgment) : Proof_ :=
  {| p with p_RuleSubtrees := <[id := {| st with sub_Judgments := js |}]> (p_RuleSubtrees p) |}.

Lemma with_judgments_digests p id st js : p_RuleSubtrees p !! id = Some st →
  subtree_digests (p_RuleSubtrees (with_judgments p id st js)) = subtree_digests (p_RuleSubtrees p).
Proof.
  intros Hst. unfold subtree_digests. cbn [p_RuleSubtrees with_judgments].
  rewrite (sorted_keys_dom _ (p_RuleSubtrees p)).
  2:{ rewrite dom_insert_lookup_L; [done|by eexists]. }
  induction (sorted_keys _) as [|k l IH]; csimpl; [done|]. rewrite IH.
  destruct (decide (k = id)) as [->|Hk].
  - by rewrite lookup_insert_eq, Hst.
  - by rewrite lookup_insert_ne.
Qed.

(** verification does not cover the judgments: replacing the judgments of
    any rule in a proof, the stored digest kept, changes neither the tree nor
    the verdict of Verify, while VerifyInclusion answers from the replacement.
    So inclusion in a verified proof is only as good as the file. *)
Theorem Verify_ignores_judgments (p : Proof_) (id : string) (st : Subtree) (js : list Judgment) :
  p_RuleSubtrees p !! id = Some st →
  let forged := with_judgments p id st js in
  merkleTree forged = merkleTree p ∧ Verify forged = Verify p ∧
  (∀ r, VerifyInclusion forged id r = existsb (λ j, String.eqb (j_Resource j) r) js).
Proof.
  intros Hst forged.
  assert (Ht : merkleTree forged = merkleTree p).
  { unfold merkleTree. subst forged. by rewrite with_judgments_digests. }
  split; [done|]. split; [by unfold Verify; rewrite Ht|].
  intros r. unfold VerifyInclusion. subst forged. cbn [p_RuleSubtrees with_judgments].
  by rewrite lookup_insert_eq.
Qed.

(** The tree does not record its width: doubling the last leaf of an odd
    list of at least three leaves keeps the root. *)
Lemma merkle_level_app l k : Nat.Even (length l) → merkle_level (l ++ k) = merkle_level l ++ merkle_level k.
Proof.
  intros [n Hn]. revert l Hn. induction n as [|n IH]; intros l Hn.
  - by destruct l.
  - destruct l as [|a [|b l]]; [done|simpl in Hn; lia|]. simpl in *. rewrite IH; [done|lia].
Qed.
Lemma merkle_loop_fuel n m l : length l ≤ n → length l ≤ m → l ≠ [] → merkle_loop n l = merkle_loop m l.
Proof.
  revert m l. induction n as [|n IH]; intros m l Hn Hm Hne; [destruct l; [done|simpl in Hn; lia]|].
  destruct m as [|m]; [destruct l; [done|simpl in Hm; lia]|].
  destruct l as [|a [|b l]]; [done|done|]. cbn [merkle_loop].
  pose proof (length_merkle_level (a :: b :: l)) as Hl. cbn [length] in *.
  assert ((S (S (length l)) + 1) / 2 < S (S (length l))) by (apply Nat.Div0.div_lt_upper_bound; lia).
  apply IH; [lia|lia|]. simpl. done.
Qed.
Lemma computeMerkleRoot_step l : 2 ≤ length l →
  computeMerkleRoot l = computeMerkleRoot (merkle_level l).
Proof.
  intros Hl. pose proof (length_merkle_level l) as Hk.
  assert ((length l + 1) / 2 < length l) by (apply Nat.Div0.div_lt_upper_bound; lia).
  destruct l as [|a [|b l]]; [simpl in Hl; lia..|].
  transitivity (merkle_loop (length (b :: l)) (merkle_level (a :: b :: l))); [done|].
  transitivity (merkle_loop (length (merkle_level (a :: b :: l))) (merkle_level (a :: b :: l))); [|done].
  apply merkle_loop_fuel; [cbn [length] in *; lia|done|done].
Qed.
Lemma computeMerkleRoot_odd (l : list string) (x : string) : Nat.Even (length l) → l ≠ [] →
  computeMerkleRoot (l ++ [x]) = computeMerkleRoot (l ++ [x; x]).
Proof.
  intros He Hne. assert (1 ≤ length l) by (destruct l; [done|simpl; lia]).
  rewrite (computeMerkleRoot_step (l ++ [x])), (computeMerkleRoot_step (l ++ [x; x]))
    by (rewrite length_app; simpl; lia).
  rewrite !merkle_level_app by done. reflexivity.
Qed.

(** ** Witnesses *)

Definition sample_diag : Diagnostic :=
  {| zero_Diagnostic with dg_Code := "XPC002"; dg_Message := "immutable field changed";
     dg_Source := MkSourceLocation "app.yaml" 3 0 |}.
Definition sample_proof : Proof_ :=
  GenerateWithRulesetDigest [sample_diag] (Some (MkRunSummary 1 0 1 ["XPC002.app"])) "ir" "snap" "rules"
    (json_string "2026-01-01T00:00:00Z").

Definition forged_judgments : list Judgment :=
  [MkJudgment "error" "XPC002" "other.yaml:1" "forged" "" "" "" ""].
Definition sample_subtree : Subtree := full_subtree "XPC002" [judgment_of sample_diag].
Definition forged_proof : Proof_ := with_judgments sample_proof "XPC002" sample_subtree forged_judgments.

Lemma Verify_binds_witness :
  (∀ id, stored_digest (p_RuleSubtrees sample_proof) id = stored_digest (p_RuleSubtrees forged_proof) id)
  ∨ collision (verify_inputs sample_proof) (verify_inputs forged_proof).
Proof.
  destruct (Verify_binds sample_proof forged_proof) as [(_ & _ & H & _)|H].
  - split; apply (bool_decide_unpack _); vm_compute; exact I.
  - split; apply (bool_decide_unpack _); vm_compute; exact I.
  - split; [|split]; [apply (bool_decide_unpack _); vm_compute; exact I..|].
    split; intros _; exists (MkRunSummary 1 0 1 ["XPC002.app"]); vm_compute; reflexivity.
  - vm_compute. reflexivity.
  - vm_compute. reflexivity.
  - vm_compute. reflexivity.
  - left. exact H.
  - right. exact H.
Defined.

Lemma Verify_ignores_judgments_witness :
  Verify forged_proof = true ∧ VerifyInclusion forged_proof "XPC002" "other.yaml:1" = true.
Proof.
  destruct (Verify_ignores_judgments sample_proof "XPC002" sample_subtree forged_judgments)
    as (_ & Hv & Hi); [vm_compute; reflexivity|].
  unfold forged_proof. rewrite Hv, Hi. split; vm_compute; reflexivity.
Defined.
