(* ===== verification/Enrich.v ===== *)
(** The passes that derive facts from the resources of a World
    (src/pkg/ir/trajectory_extract.go, externalsecret_synth.go): mount,
    ServiceAccount and RBAC references, the joins with the registries
    (selectors, late initialisation, canonical forms, must-adopt kinds,
    state-bearing kinds), server-side-apply conflicts, and the recomputation of
    all of them ([ReEnrich]).

    Each extractor appends to its own field of the World; a loop over the
    resources that only appends is written as [flat_map].  The one loop over a map Go
    builds itself takes its order as a parameter ([leaf_order]). *)
From Stdlib Require Import ZArith.
From stdpp Require Import fin_maps.
From S2P Require Import Prelude GoStrings Yaml Types Registries Config PathWalk Schemas.

#[local] Open Scope string_scope.
#[local] Open Scope list_scope.
#[local] Open Scope nat_scope.

(** ** Small readers *)

Definition slice (m : raw) (key : string) : list value := default [] (get_slice m key).

Definition groupFromAPIVersion (apiVersion : string) : string :=
  match cut_char "/" apiVersion with Some (g, _) => g | None => "" end.
Definition lastDotted (path : string) : string :=
  match cut_last "." path with Some (_, s) => s | None => path end.

Definition managementUpdateDisabled (spec : raw) : bool :=
  match lookup_raw spec "managementPolicies" with
  | Some (VList l) =>
      negb (existsb (λ p, match p with VStr s => String.eqb s "*" || String.eqb s "Update" | _ => false end) l)
  | _ => false
  end.
Definition annotationTruthy (annotations : gmap string string) (key : string) : bool :=
  match annotations !! key with
  | None => false
  | Some v => negb (contains_string [""; "false"; "0"; "no"; "off"] (to_lower (trim_space v)))
  end.
Definition failsCanonicalDetector (detector value : string) : bool :=
  if String.eqb detector "arn-requires-revision" then
    let seg := match cut_last "/" value with Some (_, s) => s | None => value end in
    negb (contains seg ":")
  else false.
Definition readManagementPolicies (r : raw) : option (list string) :=
  match lookup_raw (get_map r "spec") "managementPolicies" with
  | Some (VList items) => Some (omap as_string items)
  | _ => None
  end.

(** ** References from pod specifications *)

Definition mount_ref (owner : ResourceInfo) (kind mount name : string) (optional : bool) : MountRef := {|
  mr_OwnerKind := ri_Kind owner; mr_OwnerName := ri_Name owner; mr_OwnerNamespace := ri_Namespace owner;
  mr_TargetKind := kind; mr_TargetName := name; mr_TargetNamespace := ri_Namespace owner;
  mr_MountKind := mount; mr_Optional := optional; mr_Source := ri_Source owner |}.
(** One [if m := getMap(holder, key); m != nil { ... }] block: the target's
    name under [nameKey]. *)
Definition target_ref (owner : ResourceInfo) (holder : raw) (key kind mount nameKey : string) : list MountRef :=
  match get_map holder key with
  | None => []
  | Some o =>
      let name := get_str (Some o) nameKey in
      if String.eqb name "" then []
      else [mount_ref owner kind mount name (get_bool (Some o) "optional")]
  end.
Definition projected_refs (owner : ResourceInfo) (s : value) : list MountRef :=
  match s with
  | VMap sm => target_ref owner (Some sm) "configMap" "ConfigMap" "projected" "name" ++
               target_ref owner (Some sm) "secret" "Secret" "projected" "name"
  | _ => []
  end.
Definition volume_refs (owner : ResourceInfo) (v : value) : list MountRef :=
  match v with
  | VMap vm =>
      target_ref owner (Some vm) "configMap" "ConfigMap" "volume" "name" ++
      target_ref owner (Some vm) "secret" "Secret" "volume" "secretName" ++
      match get_map (Some vm) "projected" with
      | None => []
      | Some proj => flat_map (projected_refs owner) (slice (Some proj) "sources")
      end
  | _ => []
  end.
Definition env_refs (owner : ResourceInfo) (ef : value) : list MountRef :=
  match ef with
  | VMap em => target_ref owner (Some em) "configMapRef" "ConfigMap" "envFrom" "name" ++
               target_ref owner (Some em) "secretRef" "Secret" "envFrom" "name"
  | _ => []
  end.
Definition container_refs (owner : ResourceInfo) (c : value) : list MountRef :=
  match c with VMap cm => flat_map (env_refs owner) (slice (Some cm) "envFrom") | _ => [] end.
Definition service_account (podSpec : raw) : string :=
  let saName := get_str podSpec "serviceAccountName" in
  if String.eqb saName "" then get_str podSpec "serviceAccount" else saName.

Definition extractFromPodSpec (w : World) (owner : ResourceInfo) (podSpec : raw) : World :=
  match podSpec with
  | None => w
  | Some _ =>
      let saName := service_account podSpec in
      let w := if String.eqb saName "" then w
               else {| w with w_SARefs := w_SARefs w ++
                       [{| sar_OwnerKind := ri_Kind owner; sar_OwnerName := ri_Name owner;
                           sar_OwnerNamespace := ri_Namespace owner; sar_SAName := saName;
                           sar_SANamespace := ri_Namespace owner; sar_Source := ri_Source owner |}] |} in
      {| w with w_MountRefs := w_MountRefs w ++
           flat_map (volume_refs owner) (slice podSpec "volumes") ++
           flat_map (λ key, flat_map (container_refs owner) (slice podSpec key))
                    ["containers"; "initContainers"] |}
  end.

(** ** RBAC *)

Definition binding_of (res : ResourceInfo) (roleKind roleName : string) (s : value) : list RBACBinding :=
  match s with
  | VMap sm =>
      let subjKind := get_str (Some sm) "kind" in
      let subjName := get_str (Some sm) "name" in
      if String.eqb subjKind "" || String.eqb subjName "" then []
      else [{| rbb_BindingKind := ri_Kind res; rbb_BindingName := ri_Name res;
               rbb_BindingNamespace := ri_Namespace res; rbb_SubjectKind := subjKind;
               rbb_SubjectName := subjName; rbb_SubjectNamespace := get_str (Some sm) "namespace";
               rbb_RoleKind := roleKind; rbb_RoleName := roleName;
               rbb_RoleNamespace := if String.eqb (ri_Kind res) "RoleBinding" && String.eqb roleKind "Role"
                                    then ri_Namespace res else "";
               rbb_Source := ri_Source res |}]
  | _ => []
  end.
Definition extractRBACBinding (w : World) (res : ResourceInfo) : World :=
  match get_map (ri_Raw res) "roleRef" with
  | None => w
  | Some roleRef =>
      let roleKind := get_str (Some roleRef) "kind" in
      let roleName := get_str (Some roleRef) "name" in
      if String.eqb roleKind "" || String.eqb roleName "" then w
      else {| w with w_RBACBindings := w_RBACBindings w ++
                flat_map (binding_of res roleKind roleName) (slice (ri_Raw res) "subjects") |}
  end.
Definition rule_of (res : ResourceInfo) (r : value) : list RBACRule :=
  match r with
  | VMap rm =>
      [{| rbr_OwnerKind := ri_Kind res; rbr_OwnerName := ri_Name res; rbr_OwnerNamespace := ri_Namespace res;
          rbr_APIGroups := get_string_slice (Some rm) "apiGroups";
          rbr_Resources := get_string_slice (Some rm) "resources";
          rbr_Verbs := get_string_slice (Some rm) "verbs";
          rbr_ResourceNames := get_string_slice (Some rm) "resourceNames"; rbr_Source := ri_Source res |}]
  | _ => []
  end.
Definition extractRBACRules (w : World) (res : ResourceInfo) : World :=
  {| w with w_RBACRules := w_RBACRules w ++ flat_map (rule_of res) (slice (ri_Raw res) "rules") |}.

(** The switch over the kinds. *)
Definition enrich_resource (w : World) (res : ResourceInfo) : World :=
  let kind := ri_Kind res in
  let spec := get_map (ri_Raw res) "spec" in
  let template_spec s := get_map (get_map s "template") "spec" in
  if String.eqb kind "Pod" then extractFromPodSpec w res spec
  else if contains_string ["Deployment"; "StatefulSet"; "DaemonSet"; "ReplicaSet"; "Job"] kind
  then extractFromPodSpec w res (template_spec spec)
  else if String.eqb kind "CronJob"
  then extractFromPodSpec w res (template_spec (get_map (get_map spec "jobTemplate") "spec"))
  else if contains_string ["RoleBinding"; "ClusterRoleBinding"] kind then extractRBACBinding w res
  else if contains_string ["Role"; "ClusterRole"] kind then extractRBACRules w res
  else w.

(** ** Joins with the registries

    Every extractor first groups a registry by (group, kind). *)
Definition index_by {M} (key : M → string * string) (ms : list M) : gmap (string * string) (list M) :=
  foldl (λ index m, <[key m := default [] (index !! key m) ++ [m]]> index) ∅ ms.
Definition res_key (res : ResourceInfo) : string * string :=
  (groupFromAPIVersion (ri_APIVersion res), ri_Kind res).
(** The loops over the resources and, for each, over its mappings and the hits
    of the mapping's path. *)
Definition join_usages {M U} (key : M → string * string) (path : M → string)
    (usage : ResourceInfo → M → PathHit → list U) (mappings : list M) (rs : list ResourceInfo) : list U :=
  let index := index_by key mappings in
  flat_map (λ res, match index !! res_key res with
                   | None => []
                   | Some ms => flat_map (λ m, flat_map (usage res m) (WalkPath (ri_Raw res) (path m))) ms
                   end) rs.

(** *** Selectors: the wildcards of the resolved path take the indices of the
    selector's hit *)

Fixpoint bracket_contents (fuel : nat) (s : string) : list string :=
  match fuel with
  | 0 => []
  | S fuel =>
      match cut_char "[" s with
      | None => []
      | Some (_, r) =>
          match cut_char "]" r with
          | None => []
          | Some (inside, rest) => inside :: bracket_contents fuel rest
          end
      end
  end.
Definition extractBracketContents (s : string) : list string := bracket_contents (String.length s) s.

Fixpoint substitute_brackets (fuel : nat) (template : string) (indices : list string) : string :=
  match fuel, template with
  | S fuel, String c rest =>
      if negb (Ascii.eqb c "[") then String c (substitute_brackets fuel rest indices)
      else match cut_char "]" rest with
           | None => template
           | Some (inside, after) =>
               match indices with
               | i :: indices' =>
                   if String.eqb inside "" || String.eqb inside "*"
                   then "[" +:+ i +:+ "]" +:+ substitute_brackets fuel after indices'
                   else "[" +:+ inside +:+ "]" +:+ substitute_brackets fuel after indices
               | [] => "[" +:+ inside +:+ "]" +:+ substitute_brackets fuel after indices
               end
           end
  | _, _ => template
  end.
Definition substituteWildcards (template : string) (indices : list string) : string :=
  substitute_brackets (String.length template) template indices.
Definition specializeIndices (resolvedTemplate concreteSelector selectorTemplate : string) : string :=
  if negb (contains resolvedTemplate "[]") && negb (contains resolvedTemplate "[*]") then resolvedTemplate
  else match extractBracketContents concreteSelector with
       | [] => resolvedTemplate
       | indices => substituteWildcards resolvedTemplate indices
       end.

Definition selector_usage (res : ResourceInfo) (m : SelectorMapping) (hit : PathHit) : list SelectorUsage :=
  [{| su_ResourceGroup := groupFromAPIVersion (ri_APIVersion res); su_ResourceKind := ri_Kind res;
      su_ResourceName := ri_Name res; su_ResourceNamespace := ri_Namespace res;
      su_SelectorPath := ph_Path hit;
      su_ResolvedPath := specializeIndices (sm_ResolvedPath m) (ph_Path hit) (sm_SelectorPath m);
      su_Source := ri_Source res |}].
Definition extractSelectorUsages (w : World) : World :=
  {| w with w_SelectorUsages := w_SelectorUsages w ++
       join_usages (λ m, (sm_Group m, sm_Kind m)) sm_SelectorPath selector_usage
                   (w_SelectorMappings w) (w_Resources w) |}.

Definition late_init_usage (res : ResourceInfo) (m : LateInitMapping) (hit : PathHit) : list LateInitUsage :=
  [{| lu_ResourceGroup := groupFromAPIVersion (ri_APIVersion res); lu_ResourceKind := ri_Kind res;
      lu_ResourceName := ri_Name res; lu_ResourceNamespace := ri_Namespace res;
      lu_FieldPath := ph_Path hit; lu_Source := ri_Source res |}].
Definition extractLateInitUsages (w : World) : World :=
  {| w with w_LateInitUsages := w_LateInitUsages w ++
       join_usages (λ m, (lm_Group m, lm_Kind m)) lm_FieldPath late_init_usage
                   (w_LateInitMappings w) (w_Resources w) |}.

Definition allowNonCanonicalAnnotation : string := "xpc.io/allow-noncanonical".
Definition canonical_usage (res : ResourceInfo) (m : CanonicalFormMapping) (hit : PathHit)
  : list CanonicalFormUsage :=
  match ph_Value hit with
  | VStr val =>
      if String.eqb val "" then []
      else [{| cu_ResourceGroup := groupFromAPIVersion (ri_APIVersion res); cu_ResourceKind := ri_Kind res;
               cu_ResourceName := ri_Name res; cu_ResourceNamespace := ri_Namespace res;
               cu_FieldPath := ph_Path hit; cu_Value := val; cu_Canonical := cm_Canonical m;
               cu_Reason := cm_Reason m; cu_NonCanonical := failsCanonicalDetector (cm_Detector m) val;
               cu_UpdateDisabled := managementUpdateDisabled (get_map (ri_Raw res) "spec");
               cu_Bypass := annotationTruthy (ri_Annotations res) allowNonCanonicalAnnotation;
               cu_Source := ri_Source res |}]
  | _ => []
  end.
Definition extractCanonicalFormUsages (w : World) : World :=
  {| w with w_CanonicalFormUsages := w_CanonicalFormUsages w ++
       join_usages (λ m, (cm_Group m, cm_Kind m)) cm_FieldPath canonical_usage
                   (w_CanonicalFormMappings w) (w_Resources w) |}.

(** *** Desired against observed leaves *)

(** [flattenStringLeaves]: the writes it makes, in iteration order; of two
    leaves with one path the last written stays. *)
Fixpoint leaf_writes (path : string) (v : value) : list (string * string) :=
  match v with
  | VStr s => [(path, s)]
  | VMap m => flat_map (λ '(k, v), leaf_writes (sub_key path k) v) m
  | VList l =>
      (fix go (i : nat) (l : list value) : list (string * string) :=
         match l with
         | [] => []
         | e :: l =>
             match e with
             | VMap _ | VStr _ => leaf_writes (path +:+ bracketed (Z.of_nat i)) e
             | _ => []
             end ++ go (S i) l
         end) 0 l
  | _ => []
  end.
Definition flattenStringLeaves (m : obj) : gmap string string :=
  foldl (λ out '(p, s), <[p := s]> out) ∅ (leaf_writes "" (VMap m)).

(** The order in which Go ranges over the leaves of a resource, which it chooses anew
    each time. *)
Definition leaf_order : Type := ResourceInfo → gmap string string → list (string * string).
Definition fixed_point_usages (order : leaf_order) (registered : list (string * string * string)) (res : ResourceInfo)
  : list FixedPointUsage :=
  let spec := get_map (ri_Raw res) "spec" in
  let forProvider := default [] (get_map spec "forProvider") in
  let atProvider := default [] (get_map (get_map (ri_Raw res) "status") "atProvider") in
  if Nat.eqb (length forProvider) 0 || Nat.eqb (length atProvider) 0 then []
  else if annotationTruthy (ri_Annotations res) allowNonCanonicalAnnotation then []
  else
    let resGroup := groupFromAPIVersion (ri_APIVersion res) in
    let observed := flattenStringLeaves atProvider in
    flat_map (λ '(leaf, dv),
      match observed !! leaf with
      | None => []
      | Some ov =>
          if String.eqb dv ov then []
          else [{| fp_ResourceGroup := resGroup; fp_ResourceKind := ri_Kind res;
                   fp_ResourceName := ri_Name res; fp_ResourceNamespace := ri_Namespace res;
                   fp_FieldPath := "spec.forProvider." +:+ leaf; fp_Desired := dv; fp_Observed := ov;
                   fp_Registered := bool_decide ((resGroup, ri_Kind res, lastDotted leaf) ∈ registered);
                   fp_UpdateDisabled := managementUpdateDisabled spec; fp_Source := ri_Source res |}]
      end) (order res (flattenStringLeaves forProvider)).
Definition registered_leaves (ms : list CanonicalFormMapping) : list (string * string * string) :=
  map (λ m, (cm_Group m, cm_Kind m, lastDotted (cm_FieldPath m))) ms.
Definition extractFixedPointUsages (order : leaf_order) (w : World) : World :=
  {| w with w_FixedPointUsages := w_FixedPointUsages w ++
       flat_map (fixed_point_usages order (registered_leaves (w_CanonicalFormMappings w))) (w_Resources w) |}.

(** *** Must-adopt kinds *)

Definition externalNameAnnotation : string := "crossplane.io/external-name".
Definition allowMissingExternalNameAnnotation : string := "xpc.io/allow-missing-external-name".
(** The index keeps the last row of a kind. *)
Definition adopt_index : gmap (string * string) ExternalNameAdoptMapping :=
  foldl (λ index m, <[(enm_Group m, enm_Kind m) := m]> index) ∅ ExternalNameAdoptRegistry.
Definition adopt_findings (res : ResourceInfo) : list ExternalNameAdoptFinding :=
  if String.eqb (ri_Name res) "" then []
  else match adopt_index !! res_key res with
       | None => []
       | Some m =>
           if annotationTruthy (ri_Annotations res) allowMissingExternalNameAnnotation then []
           else if negb (String.eqb (trim_space (default "" (ri_Annotations res !! externalNameAnnotation))) "")
           then []
           else [{| enf_Group := groupFromAPIVersion (ri_APIVersion res); enf_Kind := ri_Kind res;
                    enf_Name := ri_Name res; enf_Namespace := ri_Namespace res;
                    enf_Reason := enm_Reason m; enf_Source := ri_Source res |}]
       end.
Definition extractExternalNameAdoptFindings (w : World) : World :=
  {| w with w_ExternalNameAdoptFindings := w_ExternalNameAdoptFindings w ++
       flat_map adopt_findings (w_Resources w) |}.

(** *** Server-side apply against management policies *)

Definition ssa_by_app (apps : list ArgoApplication) : gmap string bool :=
  foldl (λ m app, <[app_Name app := so_ServerSideApply (sp_SyncOptions (app_SyncPolicy app))]> m) ∅ apps.
Definition ssa_conflicts (ssaByApp : gmap string bool) (res : ResourceInfo) : list SSAMPConflict :=
  if String.eqb (ri_OwningApp res) "" then []
  else match ssaByApp !! ri_OwningApp res with
       | Some true =>
           match readManagementPolicies (ri_Raw res) with
           | None => []
           | Some policies =>
               [{| ssa_AppName := ri_OwningApp res; ssa_ServerSideApply := true;
                   ssa_ManagementPolicies := policies;
                   ssa_ResourceGroup := groupFromAPIVersion (ri_APIVersion res);
                   ssa_ResourceKind := ri_Kind res; ssa_ResourceName := ri_Name res;
                   ssa_ResourceNamespace := ri_Namespace res; ssa_Source := ri_Source res |}]
           end
       | _ => []
       end.
Definition extractSSAMPConflicts (w : World) : World :=
  {| w with w_SSAMPConflicts := w_SSAMPConflicts w ++
       flat_map (ssa_conflicts (ssa_by_app (w_ArgoApps w))) (w_Resources w) |}.

(** *** Deletion policies of state-bearing kinds *)

Definition deletion_policy_facts (allow : list string) (keys : BypassKeySet) (res : ResourceInfo)
  : list CPDeletionPolicyFact :=
  let group := groupFromAPIVersion (ri_APIVersion res) in
  if contains_string allow (group +:+ "/" +:+ ri_Kind res) then
    [{| cp_Group := group; cp_Kind := ri_Kind res; cp_Name := ri_Name res;
        cp_Namespace := ri_Namespace res;
        cp_DeletionPolicy := get_str (get_map (ri_Raw res) "spec") "deletionPolicy";
        cp_Bypass := Has keys (ri_Annotations res) BypassAllowDelete; cp_Source := ri_Source res |}]
  else [].
Definition state_bearing_keys (w : World) : list string :=
  map (λ gk, gk_Group gk +:+ "/" +:+ gk_Kind gk) (default StateBearingKindsRegistry (w_StateBearingKinds w)).
Definition extractCPDeletionPolicyFacts (w : World) : World :=
  {| w with w_CPDeletionPolicyFacts := w_CPDeletionPolicyFacts w ++
       flat_map (deletion_policy_facts (state_bearing_keys w) (w_BypassKeys w)) (w_Resources w) |}.

(** ** The whole enrichment *)

Definition carveout_slot : string := "crossplane-state-needs-orphan".
Definition ensure_carveouts (m : option (gmap string (list string))) : gmap string (list string) :=
  let defaults := ResolveCrossplaneStateNeedsOrphanCarveouts None in
  match m with
  | None => {[carveout_slot := defaults]}
  | Some m => match m !! carveout_slot with Some _ => m | None => <[carveout_slot := defaults]> m end
  end.
(** [if x == nil { x = v }] on a slice. *)
Definition or_default {A} (v : A) (x : option A) : option A := Some (default v x).
Definition env_label (w : World) : string * list string * list string :=
  if String.eqb (w_EnvLabelKey w) "" then ResolveEnvLabel None
  else (w_EnvLabelKey w, w_EnvLabelClaimKinds w, w_EnvLabelAllowedValues w).
Definition ensure_bypass (s : BypassKeySet) : BypassKeySet := {|
  bks_AllowDelete := or_default (ResolveAllowDeleteKeys None) (bks_AllowDelete s);
  bks_AllowImmutableChange := or_default (ResolveAllowImmutableChangeKeys None) (bks_AllowImmutableChange s) |}.
Definition ensureKnobDefaults (w : World) : World :=
  {| w with
     w_ImmutableFields := or_default (ResolveImmutableFields None ImmutableFieldRegistry) (w_ImmutableFields w);
     w_StateBearingKinds := or_default (ResolveStateBearingKinds None StateBearingKindsRegistry)
                                       (w_StateBearingKinds w);
     w_EnvLabelKey := fst (fst (env_label w));
     w_EnvLabelClaimKinds := snd (fst (env_label w));
     w_EnvLabelAllowedValues := snd (env_label w);
     w_ProdPatterns := or_default (ResolveProdPatterns None) (w_ProdPatterns w);
     w_BypassKeys := ensure_bypass (w_BypassKeys w);
     w_NameCarveouts := Some (ensure_carveouts (w_NameCarveouts w)) |}.

(** The second half of [EnrichTrajectoryData], after the loop. *)
Definition registry_joins (order : leaf_order) (w : World) : World :=
  let w := extractSelectorUsages {| w with w_SelectorMappings := SelectorRegistry |} in
  let w := extractLateInitUsages {| w with w_LateInitMappings := LateInitRegistry |} in
  let w := extractCanonicalFormUsages {| w with w_CanonicalFormMappings := CanonicalFormRegistry |} in
  let w := extractFixedPointUsages order w in
  let w := extractExternalNameAdoptFindings w in
  let w := extractSSAMPConflicts w in
  extractCPDeletionPolicyFacts w.
Definition EnrichTrajectoryData (order : leaf_order) (w : World) : World :=
  let w := ensureKnobDefaults w in
  registry_joins order (foldl enrich_resource w (w_Resources w)).

(** The fact slices [ReEnrich] clears. *)
Definition clear_facts (w : World) : World :=
  {| w with w_MountRefs := []; w_SARefs := []; w_RBACBindings := []; w_RBACRules := [];
            w_SelectorUsages := []; w_LateInitUsages := []; w_CanonicalFormUsages := [];
            w_FixedPointUsages := []; w_SSAMPConflicts := []; w_CPDeletionPolicyFacts := [];
            w_ResourceFieldFacts := []; w_ExternalNameAdoptFindings := [] |}.
(** [sprint] is fmt's %v; [None] is the panic of the field validation. *)
Definition ReEnrich (sprint : value → string) (order : leaf_order) (w : World) : option World :=
  EnrichFieldValidation sprint (EnrichTrajectoryData order (clear_facts w)).

(** ** Secrets produced by ExternalSecrets: externalsecret_synth.go *)

Definition isExternalSecret (r : ResourceInfo) : bool :=
  String.eqb (ri_Kind r) "ExternalSecret" && has_prefix "external-secrets.io/" (ri_APIVersion r).
Definition externalSecretTargetName (r : ResourceInfo) : string :=
  let name := get_str (get_map (get_map (ri_Raw r) "spec") "target") "name" in
  if String.eqb name "" then ri_Name r else name.
Definition secret_key (r : ResourceInfo) : string * string := (ri_Namespace r, ri_Name r).
Definition synth_secret (r : ResourceInfo) (target : string) : ResourceInfo :=
  {| zero_ResourceInfo with
     ri_APIVersion := "v1"; ri_Kind := "Secret"; ri_Name := target; ri_Namespace := ri_Namespace r;
     ri_Source := ri_Source r; ri_Provenance := "produced:externalsecret:" +:+ ri_Name r;
     ri_OwningApp := ri_OwningApp r |}.
(** One iteration of the second loop: the seen keys and the Secrets so far. *)
Definition synth_step (acc : gset (string * string) * list ResourceInfo) (r : ResourceInfo)
  : gset (string * string) * list ResourceInfo :=
  let '(seen, synth) := acc in
  if negb (isExternalSecret r) then acc
  else
    let target := externalSecretTargetName r in
    if String.eqb target "" then acc
    else if decide ((ri_Namespace r, target) ∈ seen) then acc
    else ({[(ri_Namespace r, target)]} ∪ seen, synth ++ [synth_secret r target]).
Definition committed_secrets (rs : list ResourceInfo) : gset (string * string) :=
  list_to_set (map secret_key (filter (λ r, ri_Kind r = "Secret") rs)).
Definition synthesizeExternalSecretTargets (w : World) : World :=
  let '(_, synth) := foldl synth_step (committed_secrets (w_Resources w), []) (w_Resources w) in
  {| w with w_Resources := w_Resources w ++ synth |}.

(** ** Lemmas: the enrichment in closed form *)

(** The references of one World appended to those of another. *)
Definition append_refs (w d : World) : World :=
  {| w with w_MountRefs := w_MountRefs w ++ w_MountRefs d; w_SARefs := w_SARefs w ++ w_SARefs d;
            w_RBACBindings := w_RBACBindings w ++ w_RBACBindings d;
            w_RBACRules := w_RBACRules w ++ w_RBACRules d |}.

Lemma append_refs_nil w : append_refs w zero_World = w.
Proof. destruct w. unfold append_refs. cbn. by rewrite !app_nil_r. Qed.
Lemma append_refs_assoc w d e : append_refs (append_refs w d) e = append_refs w (append_refs d e).
Proof. unfold append_refs. cbn. by rewrite !app_assoc. Qed.

Lemma extractFromPodSpec_append w res s :
  extractFromPodSpec w res s = append_refs w (extractFromPodSpec zero_World res s).
Proof.
  destruct s as [s|]; [|by rewrite append_refs_nil]. unfold extractFromPodSpec, append_refs.
  destruct (String.eqb _ _); cbn; by rewrite ?app_nil_r.
Qed.
Lemma extractRBACBinding_append w res :
  extractRBACBinding w res = append_refs w (extractRBACBinding zero_World res).
Proof.
  unfold extractRBACBinding. destruct (get_map _ _) as [r|]; [|by rewrite append_refs_nil].
  destruct (_ || _); [by rewrite append_refs_nil|]. unfold append_refs. cbn. by rewrite ?app_nil_r.
Qed.
Lemma extractRBACRules_append w res :
  extractRBACRules w res = append_refs w (extractRBACRules zero_World res).
Proof. unfold extractRBACRules, append_refs. cbn. by rewrite ?app_nil_r. Qed.

Lemma enrich_resource_append w res : enrich_resource w res = append_refs w (enrich_resource zero_World res).
Proof.
  unfold enrich_resource. repeat case_match; auto using extractFromPodSpec_append,
    extractRBACBinding_append, extractRBACRules_append. by rewrite append_refs_nil.
Qed.

(** What the resources contribute, from nothing. *)
Definition refs_of (rs : list ResourceInfo) : World := foldl enrich_resource zero_World rs.
Lemma foldl_enrich w rs : foldl enrich_resource w rs = append_refs w (refs_of rs).
Proof.
  unfold refs_of. revert w. induction rs as [|r rs IH]; intros w; simpl; [by rewrite append_refs_nil|].
  rewrite IH, (IH (enrich_resource zero_World r)), enrich_resource_append. apply append_refs_assoc.
Qed.

Lemma registry_joins_eq order w :
  let rs := w_Resources w in
  registry_joins order w =
  {| w with
     w_SelectorMappings := SelectorRegistry;
     w_SelectorUsages := w_SelectorUsages w ++
       join_usages (λ m, (sm_Group m, sm_Kind m)) sm_SelectorPath selector_usage SelectorRegistry rs;
     w_LateInitMappings := LateInitRegistry;
     w_LateInitUsages := w_LateInitUsages w ++
       join_usages (λ m, (lm_Group m, lm_Kind m)) lm_FieldPath late_init_usage LateInitRegistry rs;
     w_CanonicalFormMappings := CanonicalFormRegistry;
     w_CanonicalFormUsages := w_CanonicalFormUsages w ++
       join_usages (λ m, (cm_Group m, cm_Kind m)) cm_FieldPath canonical_usage CanonicalFormRegistry rs;
     w_FixedPointUsages := w_FixedPointUsages w ++
       flat_map (fixed_point_usages order (registered_leaves CanonicalFormRegistry)) rs;
     w_ExternalNameAdoptFindings := w_ExternalNameAdoptFindings w ++ flat_map adopt_findings rs;
     w_SSAMPConflicts := w_SSAMPConflicts w ++ flat_map (ssa_conflicts (ssa_by_app (w_ArgoApps w))) rs;
     w_CPDeletionPolicyFacts := w_CPDeletionPolicyFacts w ++
       flat_map (deletion_policy_facts (state_bearing_keys w) (w_BypassKeys w)) rs |}.
Proof. destruct w. reflexivity. Qed.

Lemma EnrichTrajectoryData_refs order w :
  EnrichTrajectoryData order w =
  registry_joins order (append_refs (ensureKnobDefaults w) (refs_of (w_Resources (ensureKnobDefaults w)))).
Proof. unfold EnrichTrajectoryData. cbv zeta. by rewrite foldl_enrich. Qed.

(** *** The knobs *)

Definition knobs_ready (w : World) : Prop :=
  is_Some (w_ImmutableFields w) ∧ is_Some (w_StateBearingKinds w) ∧ w_EnvLabelKey w ≠ "" ∧
  is_Some (w_ProdPatterns w) ∧ is_Some (bks_AllowDelete (w_BypassKeys w)) ∧
  is_Some (bks_AllowImmutableChange (w_BypassKeys w)) ∧
  ∃ m, w_NameCarveouts w = Some m ∧ is_Some (m !! carveout_slot).

Lemma ensure_carveouts_ready m : is_Some (ensure_carveouts m !! carveout_slot).
Proof.
  unfold ensure_carveouts. destruct m as [m|]; [|by eexists].
  destruct (m !! carveout_slot) eqn:E; [by eexists|]. rewrite lookup_insert_eq. by eexists.
Qed.

Lemma env_label_key w : fst (fst (env_label w)) ≠ "".
Proof. unfold env_label. by destruct (String.eqb_spec (w_EnvLabelKey w) ""). Qed.

Lemma ensureKnobDefaults_ready w : knobs_ready (ensureKnobDefaults w).
Proof.
  unfold knobs_ready. cbn [w_ImmutableFields w_StateBearingKinds w_EnvLabelKey w_ProdPatterns w_BypassKeys
    w_NameCarveouts ensureKnobDefaults ensure_bypass bks_AllowDelete bks_AllowImmutableChange].
  split_and!; [by eexists|by eexists|apply env_label_key|by eexists|by eexists|by eexists|].
  eexists. split; [reflexivity|apply ensure_carveouts_ready].
Qed.

Lemma ensureKnobDefaults_id w : knobs_ready w → ensureKnobDefaults w = w.
Proof.
  intros ([a Ha] & [b Hb] & He & [c Hc] & [d Hd] & [e He'] & m & Hm & [l Hl]).
  unfold ensureKnobDefaults, ensure_bypass, env_label, ensure_carveouts, or_default.
  rewrite (proj2 (String.eqb_neq _ _) He), Ha, Hb, Hc, Hd, He', Hm, Hl.
  destruct w, w_BypassKeys. cbn in *. by subst.
Qed.

Lemma clear_ensure w : clear_facts (ensureKnobDefaults (clear_facts w)) = ensureKnobDefaults (clear_facts w).
Proof. reflexivity. Qed.

(** [k] with the registries set and another schema index. *)
Definition with_registries (k : World) (i : option (gmap (string * string) raw)) : World :=
  {| k with w_SelectorMappings := SelectorRegistry; w_LateInitMappings := LateInitRegistry;
            w_CanonicalFormMappings := CanonicalFormRegistry; w_SchemaIndex := i |}.
Definition set_index (w : World) (i : option (gmap (string * string) raw)) : World :=
  {| w with w_SchemaIndex := i |}.
Definition set_facts (w : World) (i : option (gmap (string * string) raw)) (facts : list ResourceFieldFact) : World :=
  {| w with w_SchemaIndex := i; w_ResourceFieldFacts := facts |}.

Lemma registry_joins_with order k d i :
  registry_joins order (append_refs (with_registries k i) d) = set_index (registry_joins order (append_refs k d)) i.
Proof. rewrite !registry_joins_eq. reflexivity. Qed.
Lemma clear_joins order k d i facts :
  clear_facts (set_facts (registry_joins order (append_refs k d)) i facts) = with_registries (clear_facts k) i.
Proof. rewrite registry_joins_eq. reflexivity. Qed.

(** Enriching again, in any order, is enriching what there was before the facts. *)
Lemma EnrichTrajectoryData_stable order order' w i facts :
  EnrichTrajectoryData order' (clear_facts (set_facts (EnrichTrajectoryData order (clear_facts w)) i facts)) =
  set_index (EnrichTrajectoryData order' (clear_facts w)) i.
Proof.
  rewrite (EnrichTrajectoryData_refs order (clear_facts w)), clear_joins, clear_ensure.
  rewrite !EnrichTrajectoryData_refs, ensureKnobDefaults_id by apply ensureKnobDefaults_ready.
  apply registry_joins_with.
Qed.

(** The field validation sets the index and the facts, which it computes from
    the resources and the index. *)
Definition field_facts (sprint : value → string) (index : gmap (string * string) raw)
    (rs : list ResourceInfo) : option (list ResourceFieldFact) :=
  if decide (index = ∅) then Some [] else collect (resource_facts sprint index) rs.
Lemma EnrichFieldValidation_eq sprint w :
  let index := fst (BuildSchemaIndex w) in
  EnrichFieldValidation sprint w =
  match field_facts sprint index (w_Resources w) with
  | Some facts => Some (set_facts w (Some index) (w_ResourceFieldFacts w ++ facts))
  | None => None
  end.
Proof.
  cbv zeta. unfold EnrichFieldValidation, field_facts, BuildSchemaIndex.
  destruct (w_SchemaIndex w) as [index|] eqn:E; cbn [fst]; repeat case_decide; try done.
  - unfold set_facts. rewrite app_nil_r, <- E. by destruct w.
  - destruct (collect _ _); [|done]. unfold set_facts. rewrite <- E. by destruct w.
  - unfold set_facts. by rewrite app_nil_r.
Qed.
Lemma BuildSchemaIndex_cached w index : w_SchemaIndex w = Some index → fst (BuildSchemaIndex w) = index.
Proof. unfold BuildSchemaIndex. by intros ->. Qed.

Lemma index_of_enriched order order' w :
  fst (BuildSchemaIndex (EnrichTrajectoryData order w)) = fst (BuildSchemaIndex (EnrichTrajectoryData order' w)).
Proof.
  rewrite !EnrichTrajectoryData_refs, !registry_joins_eq. unfold BuildSchemaIndex. cbn [w_SchemaIndex].
  by destruct (w_SchemaIndex _).
Qed.
Lemma validation_cached sprint w : EnrichFieldValidation sprint (set_index w (Some (fst (BuildSchemaIndex w)))) = EnrichFieldValidation sprint w.
Proof.
  rewrite !EnrichFieldValidation_eq. cbv zeta. generalize (fst (BuildSchemaIndex w)) as index. intros index.
  rewrite (BuildSchemaIndex_cached (set_index w (Some index)) index) by done. by destruct w.
Qed.
Lemma ReEnrich_again sprint order order' w w' : ReEnrich sprint order w = Some w' →
  ReEnrich sprint order' w' = ReEnrich sprint order' w.
Proof.
  unfold ReEnrich. rewrite EnrichFieldValidation_eq. cbv zeta. rewrite (index_of_enriched order order').
  destruct (field_facts sprint _ _) as [facts|]; [|done]. intros H. apply (inj Some) in H as <-.
  rewrite EnrichTrajectoryData_stable. apply validation_cached.
Qed.
(** The order of the leaves is the order of their usages, and of nothing else. *)
Lemma fixed_points_perm order order' registered rs : (∀ res m, order res m ≡ₚ order' res m) →
  flat_map (fixed_point_usages order registered) rs ≡ₚ flat_map (fixed_point_usages order' registered) rs.
Proof.
  intros Ho. induction rs as [|res rs IH]; [done|]. cbn [flat_map]. rewrite IH. f_equiv. unfold fixed_point_usages. cbv zeta.
  destruct (_ || _); [done|]. destruct (annotationTruthy _ _); [done|]. rewrite !flat_map_concat_map.
  by rewrite (Ho res).
Qed.
Definition with_fixed_points (w : World) (fp : list FixedPointUsage) : World := {| w with w_FixedPointUsages := fp |}.
Lemma enriched_order order order' w : EnrichTrajectoryData order' w =
  with_fixed_points (EnrichTrajectoryData order w) (w_FixedPointUsages (EnrichTrajectoryData order' w)).
Proof. rewrite !EnrichTrajectoryData_refs, !registry_joins_eq. reflexivity. Qed.
Lemma enriched_fixed_points order w : w_FixedPointUsages (EnrichTrajectoryData order w) = w_FixedPointUsages w ++
  flat_map (fixed_point_usages order (registered_leaves CanonicalFormRegistry)) (w_Resources w).
Proof. rewrite EnrichTrajectoryData_refs, registry_joins_eq. reflexivity. Qed.
Lemma validation_fixed_points sprint w fp : EnrichFieldValidation sprint (with_fixed_points w fp) =
  (λ w, with_fixed_points w fp) <$> EnrichFieldValidation sprint w.
Proof.
  rewrite !EnrichFieldValidation_eq. cbv zeta.
  replace (fst (BuildSchemaIndex (with_fixed_points w fp))) with (fst (BuildSchemaIndex w))
    by (unfold BuildSchemaIndex, with_fixed_points; cbn [w_SchemaIndex]; by destruct (w_SchemaIndex w)).
  generalize (fst (BuildSchemaIndex w)) as index. intros index. by destruct w, (field_facts _ _ _).
Qed.
Lemma validation_keeps_fixed_points sprint w w' :
  EnrichFieldValidation sprint w = Some w' → w_FixedPointUsages w' = w_FixedPointUsages w.
Proof.
  rewrite EnrichFieldValidation_eq. cbv zeta. destruct (field_facts _ _ _); [|done]. intros H.
  apply (inj Some) in H as <-. reflexivity.
Qed.
Lemma enriched_perm order order' w : (∀ res m, order res m ≡ₚ order' res m) →
  w_FixedPointUsages (EnrichTrajectoryData order' w) ≡ₚ w_FixedPointUsages (EnrichTrajectoryData order w).
Proof. intros Ho. rewrite !enriched_fixed_points. f_equiv. symmetry. by apply fixed_points_perm. Qed.
Lemma validated_order sprint k k' w1 : k' = with_fixed_points k (w_FixedPointUsages k') →
  w_FixedPointUsages k' ≡ₚ w_FixedPointUsages k → EnrichFieldValidation sprint k = Some w1 →
  ∃ fp, fp ≡ₚ w_FixedPointUsages w1 ∧ EnrichFieldValidation sprint k' = Some (with_fixed_points w1 fp).
Proof.
  generalize (w_FixedPointUsages k') as fp. intros fp -> Hp H. exists fp.
  rewrite (validation_keeps_fixed_points _ _ _ H), validation_fixed_points, H. split; [exact Hp|reflexivity].
Qed.
Lemma ReEnrich_order sprint order order' w w1 : (∀ res m, order res m ≡ₚ order' res m) → ReEnrich sprint order w = Some w1 →
  ∃ fp, fp ≡ₚ w_FixedPointUsages w1 ∧ ReEnrich sprint order' w = Some (with_fixed_points w1 fp).
Proof.
  intros Ho. unfold ReEnrich. apply validated_order; [apply enriched_order|by apply enriched_perm].
Qed.
(** The facts of a World that come from its documents. *)
Record same_documents (w w' : World) : Prop := MkSameDocuments {
  sd_CRDs : w_CRDs w' = w_CRDs w; sd_XRDs : w_XRDs w' = w_XRDs w; sd_Compositions : w_Compositions w' = w_Compositions w;
  sd_Functions : w_Functions w' = w_Functions w; sd_Providers : w_Providers w' = w_Providers w;
  sd_Configurations : w_Configurations w' = w_Configurations w; sd_Schemas : w_Schemas w' = w_Schemas w;
  sd_Apps : w_ArgoApps w' = w_ArgoApps w; sd_AppSets : w_ArgoAppSets w' = w_ArgoAppSets w;
  sd_Projects : w_ArgoProjects w' = w_ArgoProjects w; sd_Resources : w_Resources w' = w_Resources w }.
Lemma EnrichTrajectoryData_documents order w : same_documents w (EnrichTrajectoryData order w).
Proof. rewrite EnrichTrajectoryData_refs, registry_joins_eq. split; reflexivity. Qed.
Lemma EnrichFieldValidation_documents sprint w w' : EnrichFieldValidation sprint w = Some w' → same_documents w w'.
Proof.
  rewrite EnrichFieldValidation_eq. cbv zeta. destruct (field_facts _ _ _); [|done]. intros H.
  apply (inj Some) in H as <-. split; reflexivity.
Qed.
#[export] Instance same_documents_preorder : PreOrder same_documents.
Proof. split; [by split|]. intros w1 w2 w3 [] []. split; congruence. Qed.
Lemma ReEnrich_documents sprint order w w' : ReEnrich sprint order w = Some w' → same_documents w w'.
Proof.
  unfold ReEnrich. intros H%EnrichFieldValidation_documents. etrans; [|exact H].
  transitivity (clear_facts w); [split; reflexivity|apply EnrichTrajectoryData_documents].
Qed.

(** ** Properties *)

(** Recomputing the derived facts of a World that was just re-enriched, the maps being
    ranged in any order the second time, gives the same World but for the order of the
    fixed-point usages, so no fact is ever duplicated or lost by running it again. *)
Theorem ReEnrich_idempotent (sprint : value → string) (order order' : leaf_order) (w w' : World) :
  (∀ res m, order res m ≡ₚ map_to_list m) → (∀ res m, order' res m ≡ₚ map_to_list m) → ReEnrich sprint order w = Some w' →
  ∃ fp, fp ≡ₚ w_FixedPointUsages w' ∧ ReEnrich sprint order' w' = Some (with_fixed_points w' fp).
Proof.
  intros Ho Ho' H. rewrite (ReEnrich_again _ _ _ _ _ H). apply (ReEnrich_order _ order); [|exact H].
  intros res m. by rewrite Ho, Ho'.
Qed.

(** A Deployment that mounts a Secret. *)
Definition mounting_deployment : ResourceInfo := {| zero_ResourceInfo with
  ri_APIVersion := "apps/v1"; ri_Kind := "Deployment"; ri_Name := "web"; ri_Namespace := "prod";
  ri_Raw := Some [("spec", VMap [("template", VMap [("spec", VMap [
    ("serviceAccountName", VStr "web");
    ("volumes", VList [VMap [("secret", VMap [("secretName", VStr "tls")])]])])])])] |}.
Definition mounting_world : World := {| zero_World with w_Resources := [mounting_deployment] |}.
Definition stored_order : leaf_order := λ _ m, map_to_list m.
Example enrich_ex :
  option_map (λ w, (map mr_TargetName (w_MountRefs w), map sar_SAName (w_SARefs w)))
    (ReEnrich print_value stored_order mounting_world) = Some (["tls"], ["web"]).
Proof. vm_compute. reflexivity. Qed.

Definition reversed_order : leaf_order := λ _ m, rev (map_to_list m).
Lemma ReEnrich_idempotent_witness : ∃ w' fp, ReEnrich print_value stored_order mounting_world = Some w' ∧
  ReEnrich print_value reversed_order w' = Some (with_fixed_points w' fp).
Proof.
  destruct (ReEnrich print_value stored_order mounting_world) as [w'|] eqn:E; [|vm_compute in E; discriminate].
  destruct (ReEnrich_idempotent print_value stored_order reversed_order mounting_world w' (λ _ _, reflexivity _)
    (λ _ m, symmetry (Permutation_rev (map_to_list m))) E) as (fp & _ & H).
  exists w', fp. split; [reflexivity|exact H].
Defined.

(** ** The joins *)

Lemma index_by_lookup {M} (key : M → string * string) ms k :
  default [] (index_by key ms !! k) = filter (λ m, key m = k) ms.
Proof.
  unfold index_by. induction ms as [|m ms IH] using rev_ind; [done|].
  rewrite foldl_app, filter_app. cbn [foldl]. rewrite filter_cons, filter_nil.
  destruct (decide (key m = k)) as [<-|Hk].
  - rewrite lookup_insert_eq. simpl. by rewrite IH.
  - rewrite lookup_insert_ne by done. by rewrite app_nil_r.
Qed.

Lemma elem_of_join_usages {M U} key path (usage : ResourceInfo → M → PathHit → list U) ms rs u :
  u ∈ join_usages key path usage ms rs ↔
  ∃ res m hit, res ∈ rs ∧ m ∈ ms ∧ key m = res_key res ∧ hit ∈ WalkPath (ri_Raw res) (path m) ∧
               u ∈ usage res m hit.
Proof.
  unfold join_usages. cbv zeta. rewrite elem_of_flat_map.
  assert (H : ∀ res, u ∈ match index_by key ms !! res_key res with
                         | None => [] | Some ms => flat_map (λ m, flat_map (usage res m) (WalkPath (ri_Raw res) (path m))) ms end
            ↔ ∃ m, m ∈ filter (λ m, key m = res_key res) ms ∧
                   u ∈ flat_map (usage res m) (WalkPath (ri_Raw res) (path m))).
  { intros res. rewrite <- index_by_lookup. destruct (index_by key ms !! res_key res); simpl.
    - apply elem_of_flat_map.
    - split; [by intros ?%not_elem_of_nil|]. by intros (m & ?%not_elem_of_nil & _). }
  setoid_rewrite H. setoid_rewrite list_elem_of_filter. setoid_rewrite elem_of_flat_map. naive_solver.
Qed.

Lemma EnrichTrajectoryData_usages order w :
  w_SelectorUsages (EnrichTrajectoryData order w) = w_SelectorUsages w ++
    join_usages (λ m, (sm_Group m, sm_Kind m)) sm_SelectorPath selector_usage SelectorRegistry (w_Resources w) ∧
  w_LateInitUsages (EnrichTrajectoryData order w) = w_LateInitUsages w ++
    join_usages (λ m, (lm_Group m, lm_Kind m)) lm_FieldPath late_init_usage LateInitRegistry (w_Resources w) ∧
  w_CanonicalFormUsages (EnrichTrajectoryData order w) = w_CanonicalFormUsages w ++
    join_usages (λ m, (cm_Group m, cm_Kind m)) cm_FieldPath canonical_usage CanonicalFormRegistry (w_Resources w).
Proof. rewrite EnrichTrajectoryData_refs, registry_joins_eq. split_and!; reflexivity. Qed.

(** the registry joins: enrichment adds a selector, late-initialisation or
    canonical-form usage for exactly the triples of a resource, a registry row
    of its (group, kind) and a hit of the row's path in the resource's
    document; a canonical-form usage needs a non-empty string there. *)
Theorem EnrichTrajectoryData_joins (order : leaf_order) (w : World) :
  let w' := EnrichTrajectoryData order w in
  (∀ u, u ∈ w_SelectorUsages w' ↔ u ∈ w_SelectorUsages w ∨
     ∃ res m hit, res ∈ w_Resources w ∧ m ∈ SelectorRegistry ∧ (sm_Group m, sm_Kind m) = res_key res ∧
       hit ∈ WalkPath (ri_Raw res) (sm_SelectorPath m) ∧ selector_usage res m hit = [u]) ∧
  (∀ u, u ∈ w_LateInitUsages w' ↔ u ∈ w_LateInitUsages w ∨
     ∃ res m hit, res ∈ w_Resources w ∧ m ∈ LateInitRegistry ∧ (lm_Group m, lm_Kind m) = res_key res ∧
       hit ∈ WalkPath (ri_Raw res) (lm_FieldPath m) ∧ late_init_usage res m hit = [u]) ∧
  (∀ u, u ∈ w_CanonicalFormUsages w' ↔ u ∈ w_CanonicalFormUsages w ∨
     ∃ res m hit, res ∈ w_Resources w ∧ m ∈ CanonicalFormRegistry ∧ (cm_Group m, cm_Kind m) = res_key res ∧
       hit ∈ WalkPath (ri_Raw res) (cm_FieldPath m) ∧
       (∃ s, s ≠ "" ∧ ph_Value hit = VStr s) ∧ canonical_usage res m hit = [u]).
Proof.
  intros w'. subst w'. destruct (EnrichTrajectoryData_usages order w) as (-> & -> & ->).
  split_and!; intros u; rewrite elem_of_app, elem_of_join_usages; f_equiv; f_equiv; intros res;
    f_equiv; intros m; f_equiv; intros hit.
  - unfold selector_usage. rewrite list_elem_of_singleton. naive_solver.
  - unfold late_init_usage. rewrite list_elem_of_singleton. naive_solver.
  - unfold canonical_usage. destruct (ph_Value hit) as [| | | | |s| | |] eqn:E;
      try (split; [by intros (? & ? & ? & ? & ?%not_elem_of_nil)|by intros (? & ? & ? & ? & (? & ? & ?) & ?)]).
    destruct (String.eqb_spec s "") as [->|Hs].
    + split; [by intros (? & ? & ? & ? & ?%not_elem_of_nil)|]. by intros (? & ? & ? & ? & _ & ?).
    + rewrite list_elem_of_singleton. naive_solver.
Qed.

(** ** Specializing the resolved path

    A path template is a sequence of texts without an opening bracket, wildcards
    ([[]] or [[*]]) and explicit bracket contents. *)
Inductive piece : Type :=
  | Text (s : string)
  | Wild (star : bool)
  | Fixed (s : string).
Definition inside_of (p : piece) : option string :=
  match p with
  | Text _ => None
  | Wild star => Some (if star then "*" else "")
  | Fixed s => Some s
  end.
Definition show_piece (p : piece) : string :=
  match p with
  | Text s => s
  | Wild true => "[*]"
  | Wild false => "[]"
  | Fixed s => "[" +:+ s +:+ "]"
  end.
Definition show_pieces (ps : list piece) : string := foldr (λ p s, show_piece p +:+ s) "" ps.
Definition piece_ok (p : piece) : Prop :=
  match p with
  | Text s => has_char "[" s = false
  | Wild _ => True
  | Fixed s => has_char "]" s = false ∧ s ≠ "" ∧ s ≠ "*"
  end.
(** The wildcards, in order, take the indices while there are any. *)
Fixpoint fill (ps : list piece) (indices : list string) : list piece :=
  match ps, indices with
  | Wild _ :: ps, i :: indices => Fixed i :: fill ps indices
  | p :: ps, _ => p :: fill ps indices
  | [], _ => []
  end.

Lemma fill_nil ps : fill ps [] = ps.
Proof. induction ps as [|[| |] ps IH]; simpl; by rewrite ?IH. Qed.
Lemma fill_no_wild ps indices : (∀ b, Wild b ∉ ps) → fill ps indices = ps.
Proof.
  induction ps as [|p ps IH]; intros H; [done|].
  assert (Hps : ∀ b, Wild b ∉ ps) by (intros b Hb; apply (H b); by right).
  destruct p as [s|b|s]; simpl; rewrite ?IH by done; [done| |done].
  destruct (H b). by left.
Qed.

Lemma substitute_text fuel s t indices : has_char "[" s = false → String.length s ≤ fuel →
  substitute_brackets fuel (s +:+ t) indices =
  s +:+ substitute_brackets (fuel - String.length s) t indices.
Proof.
  revert fuel. induction s as [|c s IH]; intros fuel Hs Hf; [by rewrite Nat.sub_0_r|].
  rewrite has_char_cons in Hs. apply orb_false_iff in Hs as [Hc Hs]. rewrite Ascii.eqb_sym in Hc.
  destruct fuel as [|fuel]; simpl in Hf |- *; [lia|]. rewrite Hc. cbn [negb].
  rewrite IH by (done || lia). done.
Qed.

(** One bracket pair of the template, whatever its kind. *)
Lemma substitute_bracket fuel inside t indices : has_char "]" inside = false →
  substitute_brackets (S fuel) ("[" +:+ inside +:+ "]" +:+ t) indices =
  match indices with
  | i :: indices' =>
      if String.eqb inside "" || String.eqb inside "*"
      then "[" +:+ i +:+ "]" +:+ substitute_brackets fuel t indices'
      else "[" +:+ inside +:+ "]" +:+ substitute_brackets fuel t indices
  | [] => "[" +:+ inside +:+ "]" +:+ substitute_brackets fuel t indices
  end.
Proof.
  intros H. change ("[" +:+ inside +:+ "]" +:+ t) with (String "[" (inside +:+ String "]" t)).
  cbn [substitute_brackets]. rewrite cut_char_app by done. reflexivity.
Qed.

Lemma substitute_show fuel ps indices : Forall piece_ok ps → String.length (show_pieces ps) ≤ fuel →
  substitute_brackets fuel (show_pieces ps) indices = show_pieces (fill ps indices).
Proof.
  intros H. revert fuel indices. induction H as [|p ps Hp _ IH]; intros fuel indices Hf.
  { by destruct fuel. }
  cbn [show_pieces foldr] in Hf |- *. fold (show_pieces ps) in *. rewrite length_app_str in Hf.
  destruct p as [s|b|s]; cbn [show_piece piece_ok] in *.
  - rewrite substitute_text, IH by (done || lia). by destruct indices.
  - destruct fuel as [|fuel]; [destruct b; simpl in Hf; lia|].
    assert (Hl : String.length (show_pieces ps) ≤ fuel) by (destruct b; simpl in Hf; lia).
    destruct b.
    + change ("[*]" +:+ show_pieces ps) with ("[" +:+ "*" +:+ "]" +:+ show_pieces ps).
      rewrite substitute_bracket by done. destruct indices as [|i indices]; cbn [fill];
        rewrite IH by done; cbn [show_pieces foldr show_piece]; by rewrite ?app_str_assoc.
    + change ("[]" +:+ show_pieces ps) with ("[" +:+ "" +:+ "]" +:+ show_pieces ps).
      rewrite substitute_bracket by done. destruct indices as [|i indices]; cbn [fill];
        rewrite IH by done; cbn [show_pieces foldr show_piece]; by rewrite ?app_str_assoc.
  - destruct Hp as (Hs & Hne & Hst).
    destruct fuel as [|fuel]; [simpl in Hf; lia|].
    assert (Hl : String.length (show_pieces ps) ≤ fuel) by (rewrite !length_app_str in Hf; simpl in Hf; lia).
    rewrite !app_str_assoc, substitute_bracket by done.
    rewrite (proj2 (String.eqb_neq s "") Hne), (proj2 (String.eqb_neq s "*") Hst).
    destruct indices as [|i indices]; cbn [fill orb]; rewrite IH by done;
      cbn [show_pieces foldr show_piece]; by rewrite ?app_str_assoc.
Qed.

Lemma contents_show fuel ps : Forall piece_ok ps → String.length (show_pieces ps) ≤ fuel →
  bracket_contents fuel (show_pieces ps) = omap inside_of ps.
Proof.
  intros H. revert fuel. cut (∀ t fuel, has_char "[" t = false →
    String.length (t +:+ show_pieces ps) ≤ fuel →
    bracket_contents fuel (t +:+ show_pieces ps) = omap inside_of ps).
  { intros Hc fuel. by apply (Hc ""). }
  induction H as [|p ps Hp _ IH]; intros t fuel Ht Hf; cbn [show_pieces foldr] in *.
  - rewrite app_str_nil_r. destruct fuel; [done|]. simpl. by rewrite cut_char_None.
  - fold (show_pieces ps) in *.
    assert (Hb : ∀ inside, show_piece p = "[" +:+ inside +:+ "]" → has_char "]" inside = false →
      bracket_contents fuel (t +:+ show_piece p +:+ show_pieces ps) = inside :: omap inside_of ps).
    { intros inside E Hi. rewrite E in Hf |- *. rewrite !length_app_str in Hf. simpl in Hf.
      destruct fuel as [|fuel]; [lia|].
      rewrite !app_str_assoc. change ("[" +:+ inside +:+ "]" +:+ show_pieces ps) with
        (String "[" (inside +:+ String "]" (show_pieces ps))).
      cbn [bracket_contents]. rewrite !cut_char_app by done. f_equal.
      apply (IH "" fuel); [done|]. simpl. lia. }
    destruct p as [s|b|s]; csimpl; cbn [piece_ok show_piece] in *.
    + rewrite <- app_str_assoc in Hf |- *. apply IH; [|done]. by rewrite has_char_app, Ht, Hp.
    + apply Hb; by destruct b.
    + apply Hb; [done|apply Hp].
Qed.
Lemma extractBracketContents_show ps : Forall piece_ok ps →
  extractBracketContents (show_pieces ps) = omap inside_of ps.
Proof. intros H. by apply contents_show. Qed.

(** Concrete paths as pieces. *)
Definition seg_piece (s : pathSegment) : piece :=
  if ps_isIndex s then Fixed (itoa (ps_index s)) else Text ("." +:+ ps_key s).
Definition seg_indices (cs : list pathSegment) : list string :=
  omap (λ s, if ps_isIndex s then Some (itoa (ps_index s)) else None) cs.
Lemma render_rest_pieces cs : render_rest cs = show_pieces (map seg_piece cs).
Proof.
  induction cs as [|s cs IH]; [done|]. cbn [render_rest map show_pieces foldr].
  fold (show_pieces (map seg_piece cs)). rewrite IH. unfold seg_piece, bracketed.
  destruct (ps_isIndex s); cbn [show_piece]; by rewrite ?app_str_assoc.
Qed.
Lemma seg_piece_ok s : concrete s → piece_ok (seg_piece s).
Proof.
  intros [k (_ & _ & Hk)|i [Hi _]]; unfold seg_piece; cbn [ps_isIndex ps_key ps_index key_seg index_seg piece_ok].
  - by rewrite has_char_app, Hk.
  - destruct (itoa_digits i Hi) as [Hne Hd]. split_and!; [by apply itoa_no_char|done|].
    intros E. by rewrite E in Hd.
Qed.
Lemma inside_of_segs cs : omap inside_of (map seg_piece cs) = seg_indices cs.
Proof.
  induction cs as [|s cs IH]; [done|]. unfold seg_indices in *. csimpl. rewrite IH.
  unfold seg_piece. by destruct (ps_isIndex s).
Qed.

(** Wildcards are visible in the text. *)
Lemma contains_middle a sub b : contains (a +:+ sub +:+ b) sub = true.
Proof.
  unfold contains. induction a as [|c a IH]; cbn [String.append].
  - destruct (sub +:+ b) eqn:E; cbn [str_cut]; rewrite <- E, has_prefix_app; done.
  - cbn [str_cut]. destruct (has_prefix sub _); [done|]. by destruct (str_cut sub (a +:+ sub +:+ b)) as [[]|].
Qed.
Lemma wild_contains b ps : Wild b ∈ ps → contains (show_pieces ps) (if b then "[*]" else "[]") = true.
Proof.
  intros (ps1 & ps2 & ->)%list_elem_of_split.
  assert (E : show_pieces (ps1 ++ Wild b :: ps2) =
    show_pieces ps1 +:+ (if b then "[*]" else "[]") +:+ show_pieces ps2).
  { induction ps1 as [|p ps1 IH]; simpl; [by destruct b|]. fold (show_pieces (ps1 ++ Wild b :: ps2)).
    by rewrite IH, app_str_assoc. }
  rewrite E. apply contains_middle.
Qed.

(** the resolved path of a selector usage: for a hit of the selector's
    path, the wildcards of the resolved template take, in order, the indices of
    the hit's concrete segments, and everything else of the template is kept
    (whatever explicit indices the selector's template has). *)
Theorem specializeIndices_spec (m : obj) (path : string) (h : PathHit) (ps : list piece) :
  lists_fit (VMap m) → h ∈ WalkPath (Some m) path → Forall piece_ok ps →
  ∃ segs cs, parsePath path = Some segs ∧ Resolves segs (VMap m) cs (ph_Value h) ∧ ph_Path h = render "" cs ∧
    specializeIndices (show_pieces ps) (ph_Path h) path = show_pieces (fill ps (seg_indices cs)).
Proof.
  intros Hf (segs & cs & Hp & Hr & E)%elem_of_WalkPath Hps. exists segs, cs. do 3 (split; [done|]).
  pose proof (resolves_concrete _ _ _ _ Hr (parsePath_parsed _ _ Hp) Hf) as Hc.
  apply parsePath_cons in Hp. inversion Hr; subst; [done|]. inversion_clear Hc as [|? ? Hk Hc'].
  inversion Hk; subst. rewrite E, render_key by apply H1. rewrite render_rest_pieces.
  change (k +:+ show_pieces (map seg_piece cs0)) with (show_pieces (Text k :: map seg_piece cs0)).
  assert (Hok : Forall piece_ok (Text k :: map seg_piece cs0)).
  { constructor; [apply H1|]. change (map seg_piece cs0) with (seg_piece <$> cs0).
    apply Forall_fmap. eapply Forall_impl; [exact Hc'|]. apply seg_piece_ok. }
  unfold specializeIndices. rewrite extractBracketContents_show by done.
  csimpl. rewrite inside_of_segs. change (seg_indices (key_seg k :: cs0)) with (seg_indices cs0).
  destruct (negb _ && negb _) eqn:Ew.
  - apply andb_true_iff in Ew as [E1%negb_true_iff E2%negb_true_iff].
    rewrite fill_no_wild; [done|]. intros b Hb%wild_contains. destruct b; congruence.
  - destruct (seg_indices cs0) as [|i ix] eqn:Ei; [by rewrite fill_nil|].
    unfold substituteWildcards. by rewrite substitute_show.
Qed.

(** An explicit index of the selector's template is consumed like the index of
    a wildcard. *)
Example explicit_index_consumed :
  specializeIndices "xs[0].ys[*].id" "xs[0].ys[1].idSelector" "xs[0].ys[*].idSelector" = "xs[0].ys[0].id".
Proof. vm_compute. reflexivity. Qed.

Lemma specializeIndices_spec_witness :
  ∃ cs, "spec.xs[1].k" = render "" cs ∧
    specializeIndices "spec.xs[].v" "spec.xs[1].k" "spec.xs[].k" =
    show_pieces (fill [Text "spec.xs"; Wild false; Text ".v"] (seg_indices cs)).
Proof.
  destruct (specializeIndices_spec sample_doc "spec.xs[].k" (MkPathHit "spec.xs[1].k" (VInt 2))
              [Text "spec.xs"; Wild false; Text ".v"]) as (segs & cs & _ & _ & Hp & E).
  - simpl. repeat split.
  - vm_compute. right. left.
  - repeat constructor.
  - exists cs. split; [exact Hp|exact E].
Defined.

(** ** Produced Secrets *)

(** The key of the Secret an ExternalSecret produces, if it produces one. *)
Definition produces (r : ResourceInfo) (k : string * string) : Prop :=
  isExternalSecret r = true ∧ externalSecretTargetName r ≠ "" ∧ k = (ri_Namespace r, externalSecretTargetName r).

Lemma synth_step_cases seen out r :
  (∃ k, produces r k ∧ k ∉ seen ∧
        synth_step (seen, out) r = ({[k]} ∪ seen, out ++ [synth_secret r (externalSecretTargetName r)])) ∨
  (∀ k, produces r k → k ∈ seen) ∧ synth_step (seen, out) r = (seen, out).
Proof.
  unfold synth_step, produces. destruct (isExternalSecret r); cbn [negb]; [|right; split; [naive_solver|done]].
  destruct (String.eqb_spec (externalSecretTargetName r) "") as [E|E]; [right; split; [naive_solver|done]|].
  case_decide as Hd; [right; split; [naive_solver|done]|]. left. eexists. by split.
Qed.

Lemma synth_loop rs seen out : ∃ seen' new,
  foldl synth_step (seen, out) rs = (seen', out ++ new) ∧
  (∀ k, k ∈ seen' ↔ k ∈ seen ∨ k ∈ secret_key <$> new) ∧
  NoDup (secret_key <$> new) ∧ (∀ s, s ∈ new → secret_key s ∉ seen) ∧
  (∀ s, s ∈ new → ∃ r, r ∈ rs ∧ produces r (secret_key s) ∧ s = synth_secret r (externalSecretTargetName r)) ∧
  (∀ r k, r ∈ rs → produces r k → k ∈ seen').
Proof.
  revert seen out. induction rs as [|r rs IH]; intros seen out.
  { exists seen, []. rewrite app_nil_r. split_and!; [done|set_solver|constructor|set_solver..]. }
  cbn [foldl]. destruct (synth_step_cases seen out r) as [(k & Hk & Hn & ->)|[Hk ->]].
  - destruct (IH ({[k]} ∪ seen) (out ++ [synth_secret r (externalSecretTargetName r)]))
      as (seen' & new & E & Hseen & Hnd & Hfresh & Hsrc & Hcov).
    assert (Hkey : secret_key (synth_secret r (externalSecretTargetName r)) = k) by by destruct Hk as (_ & _ & ->).
    exists seen', (synth_secret r (externalSecretTargetName r) :: new). split_and!.
    + rewrite E. by rewrite <- app_assoc.
    + intros k'. rewrite Hseen, fmap_cons, Hkey, elem_of_cons. set_solver.
    + rewrite fmap_cons, Hkey. constructor; [|done].
      intros (s & -> & Hs)%list_elem_of_fmap. apply (Hfresh s Hs). set_solver.
    + intros s [->|Hs]%elem_of_cons; [by rewrite Hkey|]. specialize (Hfresh s Hs). set_solver.
    + intros s [->|Hs]%elem_of_cons.
      * exists r. split; [by left|]. split; [by rewrite Hkey|done].
      * destruct (Hsrc s Hs) as (r' & ? & ? & ?). exists r'. split; [by right|done].
    + intros r' k' [->|Hr]%elem_of_cons Hk'; [|by eapply Hcov].
      destruct Hk as (_ & _ & ->), Hk' as (_ & _ & ->). apply Hseen. left. set_solver.
  - destruct (IH seen out) as (seen' & new & E & Hseen & Hnd & Hfresh & Hsrc & Hcov).
    exists seen', new. split_and!; try done.
    + intros s Hs. destruct (Hsrc s Hs) as (r' & ? & ? & ?). exists r'. split; [by right|done].
    + intros r' k' [->|Hr]%elem_of_cons Hk'; [apply Hseen; left; auto|by eapply Hcov].
Qed.

Lemma synth_loop_nothing rs seen out : (∀ r k, r ∈ rs → produces r k → k ∈ seen) →
  foldl synth_step (seen, out) rs = (seen, out).
Proof.
  revert seen out. induction rs as [|r rs IH]; intros seen out H; [done|]. cbn [foldl].
  destruct (synth_step_cases seen out r) as [(k & Hk & Hn & _)|[_ ->]].
  - destruct Hn. apply (H r); [by left|done].
  - apply IH. intros r' k Hr. apply H. by right.
Qed.

Lemma elem_of_committed rs k : k ∈ committed_secrets rs ↔ ∃ s, s ∈ rs ∧ ri_Kind s = "Secret" ∧ secret_key s = k.
Proof.
  unfold committed_secrets. rewrite elem_of_list_to_set.
  change (map secret_key ?l) with (secret_key <$> l). rewrite list_elem_of_fmap.
  setoid_rewrite list_elem_of_filter. naive_solver.
Qed.

(** the produced Secrets: after the pass every ExternalSecret with a target
    name finds a Secret of that name in its namespace, committed or produced;
    the produced ones are appended, stem from an ExternalSecret, share no key
    with each other or with a committed Secret; and running the pass again adds
    nothing. *)
Theorem synthesizeExternalSecretTargets_spec (w : World) :
  let w' := synthesizeExternalSecretTargets w in
  (∃ new, w_Resources w' = w_Resources w ++ new ∧ NoDup (secret_key <$> new) ∧
     ∀ s, s ∈ new → secret_key s ∉ committed_secrets (w_Resources w) ∧
       ∃ r, r ∈ w_Resources w ∧ produces r (secret_key s) ∧ s = synth_secret r (externalSecretTargetName r)) ∧
  (∀ r k, r ∈ w_Resources w → produces r k → k ∈ committed_secrets (w_Resources w')) ∧
  synthesizeExternalSecretTargets w' = w'.
Proof.
  intros w'.
  destruct (synth_loop (w_Resources w) (committed_secrets (w_Resources w)) [])
    as (seen & new & E & Hseen & Hnd & Hfresh & Hsrc & Hcov).
  assert (Hw : w' = {| w with w_Resources := w_Resources w ++ new |})
    by (subst w'; unfold synthesizeExternalSecretTargets; by rewrite E).
  clearbody w'. subst w'. cbn [w_Resources].
  assert (Hc : ∀ r k, r ∈ w_Resources w → produces r k → k ∈ committed_secrets (w_Resources w ++ new)).
  { intros r k Hr Hk. specialize (Hcov r k Hr Hk). rewrite Hseen in Hcov. apply elem_of_committed.
    destruct Hcov as [(s & ? & ? & ?)%elem_of_committed|(s & -> & Hs)%list_elem_of_fmap].
    - exists s. rewrite elem_of_app. auto.
    - exists s. rewrite elem_of_app. destruct (Hsrc s Hs) as (r' & _ & _ & Es).
      split_and!; [by right|by rewrite Es|done]. }
  split; [|split; [exact Hc|]].
  - exists new. split; [done|]. split; [done|]. intros s Hs. split; [auto|by apply Hsrc].
  - unfold synthesizeExternalSecretTargets. cbn [w_Resources]. rewrite synth_loop_nothing.
    { rewrite app_nil_r. done. }
    intros r k [Hr|Hr]%elem_of_app Hk; [by eapply Hc|].
    destruct (Hsrc r Hr) as (r' & _ & _ & ->). by destruct Hk.
Qed.
