(* ===== verification/Violations.v ===== *)
(** The violation builders of src/pkg/checker/bridge.go: cross-resource checks
    done in Go, whose results the kernel only turns into judgments.  One record
    per violation type, one builder and one comparison each.

    R12 and R14 look at the states of the sync trajectory; their maps are keyed
    by strings joined with a NUL byte, which is written out here, and theorems
    about them say where they need the joined strings to be free of NUL. *)
From Stdlib Require Import ZArith.
From stdpp Require Import fin_sets.
From S2P Require Import Prelude GoStrings Yaml Types Trajectory.

#[local] Open Scope string_scope.
#[local] Open Scope list_scope.
#[local] Open Scope xpc_scope.

(** ** Violation types *)

Record r12Violation : Type := MkR12 {
  r12_OwnerKind : string; r12_OwnerName : string; r12_OwnerNamespace : string;
  r12_TargetKind : string; r12_TargetName : string; r12_TargetNamespace : string;
  r12_MountKind : string; r12_Source : SourceLocation }.
Record r14Violation : Type := MkR14 {
  r14_BindingKind : string; r14_BindingName : string; r14_BindingNamespace : string;
  r14_RoleKind : string; r14_RoleName : string; r14_RoleNamespace : string;
  r14_OwnerKind : string; r14_OwnerName : string;
  r14_Source : SourceLocation; r14_BindingSource : SourceLocation }.
Record r15Violation : Type := MkR15 {
  r15_AppName : string; r15_ProjectName : string; r15_Group : string; r15_Kind : string;
  r15_Name : string; r15_WhitelistKey : string; r15_Source : SourceLocation }.
Record r16Violation : Type := MkR16 {
  r16_Group : string; r16_Kind : string; r16_Name : string; r16_Namespace : string;
  r16_SelectorPath : string; r16_ResolvedPath : string; r16_Leaf : string;
  r16_Source : SourceLocation }.
Record esoStoreViolation : Type := MkEso {
  eso_Name : string; eso_Namespace : string; eso_StoreName : string; eso_Source : SourceLocation }.
Record fargateEnvLabelViolation : Type := MkFargate {
  fel_Kind : string; fel_Name : string; fel_Namespace : string; fel_Reason : string;
  fel_Value : string; fel_Source : SourceLocation }.
Record providerConfigRefViolation : Type := MkProviderRef {
  pcr_Group : string; pcr_Kind : string; pcr_Name : string; pcr_Namespace : string;
  pcr_RefName : string; pcr_Source : SourceLocation }.
Record r21Violation : Type := MkR21 {
  r21_Group : string; r21_Kind : string; r21_Name : string; r21_Namespace : string;
  r21_FieldPath : string; r21_Leaf : string; r21_Source : SourceLocation }.
Record r31Violation : Type := MkR31 {
  r31_Group : string; r31_Kind : string; r31_Name : string; r31_Namespace : string;
  r31_FieldPath : string; r31_Value : string; r31_Canonical : string; r31_Reason : string;
  r31_Heuristic : bool; r31_Source : SourceLocation }.
Record r32Violation : Type := MkR32 {
  r32_Group : string; r32_Kind : string; r32_Name : string; r32_Namespace : string;
  r32_FieldPath : string; r32_Desired : string; r32_Observed : string;
  r32_Registered : bool; r32_Source : SourceLocation }.
Record r33Violation : Type := MkR33 {
  r33_Composition : string; r33_EnvName : string; r33_Count : string; r33_Source : SourceLocation }.
Record r34Violation : Type := MkR34 {
  r34_Composition : string; r34_Group : string; r34_Kind : string; r34_ActionType : string;
  r34_AliasField : string; r34_CanonicalBlock : string; r34_Reason : string;
  r34_Source : SourceLocation }.
Record r35Violation : Type := MkR35 {
  r35_Group : string; r35_Kind : string; r35_Name : string; r35_Namespace : string;
  r35_Reason : string; r35_Source : SourceLocation }.
Record r36Violation : Type := MkR36 {
  r36_Composition : string; r36_Group : string; r36_Kind : string; r36_RuleName : string;
  r36_AttachField : string; r36_RefField : string; r36_Reason : string;
  r36_Source : SourceLocation }.

(** ** Orders *)

Definition mountRefCmp (a b : MountRef) : comparison :=
  str_cmp (mr_OwnerKind a) (mr_OwnerKind b) <+> str_cmp (mr_OwnerName a) (mr_OwnerName b) <+>
  str_cmp (mr_TargetKind a) (mr_TargetKind b) <+> str_cmp (mr_TargetName a) (mr_TargetName b) <+>
  str_cmp (mr_MountKind a) (mr_MountKind b).
Definition saRefCmp (a b : SARef) : comparison :=
  str_cmp (sar_OwnerKind a) (sar_OwnerKind b) <+> str_cmp (sar_OwnerName a) (sar_OwnerName b) <+>
  str_cmp (sar_SAName a) (sar_SAName b).
Definition rbacBindingCmp (a b : RBACBinding) : comparison :=
  str_cmp (rbb_BindingKind a) (rbb_BindingKind b) <+> str_cmp (rbb_BindingName a) (rbb_BindingName b) <+>
  str_cmp (rbb_SubjectKind a) (rbb_SubjectKind b) <+> str_cmp (rbb_SubjectName a) (rbb_SubjectName b).
Definition argoAppCmp (a b : ArgoApplication) : comparison := str_cmp (app_Name a) (app_Name b).
Definition resourceCmp (a b : ResourceInfo) : comparison :=
  str_cmp (ri_Kind a) (ri_Kind b) <+> str_cmp (ri_Name a) (ri_Name b).
Definition selectorUsageCmp (a b : SelectorUsage) : comparison :=
  str_cmp (su_ResourceKind a) (su_ResourceKind b) <+> str_cmp (su_ResourceName a) (su_ResourceName b) <+>
  str_cmp (su_SelectorPath a) (su_SelectorPath b).
Definition lateInitUsageCmp (a b : LateInitUsage) : comparison :=
  str_cmp (lu_ResourceKind a) (lu_ResourceKind b) <+> str_cmp (lu_ResourceName a) (lu_ResourceName b) <+>
  str_cmp (lu_FieldPath a) (lu_FieldPath b).
Definition r12ViolationCmp (a b : r12Violation) : comparison :=
  str_cmp (r12_OwnerKind a) (r12_OwnerKind b) <+> str_cmp (r12_OwnerName a) (r12_OwnerName b) <+>
  str_cmp (r12_TargetKind a) (r12_TargetKind b) <+> str_cmp (r12_TargetName a) (r12_TargetName b).
Definition r14ViolationCmp (a b : r14Violation) : comparison :=
  str_cmp (r14_OwnerKind a) (r14_OwnerKind b) <+> str_cmp (r14_OwnerName a) (r14_OwnerName b) <+>
  str_cmp (r14_BindingKind a) (r14_BindingKind b) <+> str_cmp (r14_BindingName a) (r14_BindingName b).
Definition r15ViolationCmp (a b : r15Violation) : comparison :=
  str_cmp (r15_AppName a) (r15_AppName b) <+> str_cmp (r15_Kind a) (r15_Kind b) <+>
  str_cmp (r15_Name a) (r15_Name b).
Definition r16ViolationCmp (a b : r16Violation) : comparison :=
  str_cmp (r16_Kind a) (r16_Kind b) <+> str_cmp (r16_Name a) (r16_Name b) <+>
  str_cmp (r16_SelectorPath a) (r16_SelectorPath b).
Definition r21ViolationCmp (a b : r21Violation) : comparison :=
  str_cmp (r21_Kind a) (r21_Kind b) <+> str_cmp (r21_Name a) (r21_Name b) <+>
  str_cmp (r21_FieldPath a) (r21_FieldPath b).
Definition r31ViolationCmp (a b : r31Violation) : comparison :=
  str_cmp (r31_Kind a) (r31_Kind b) <+> str_cmp (r31_Name a) (r31_Name b) <+>
  str_cmp (r31_FieldPath a) (r31_FieldPath b).
Definition r32ViolationCmp (a b : r32Violation) : comparison :=
  str_cmp (r32_Kind a) (r32_Kind b) <+> str_cmp (r32_Name a) (r32_Name b) <+>
  str_cmp (r32_FieldPath a) (r32_FieldPath b).
Definition r33ViolationCmp (a b : r33Violation) : comparison :=
  str_cmp (r33_Composition a) (r33_Composition b) <+> str_cmp (r33_EnvName a) (r33_EnvName b).
Definition r34ViolationCmp (a b : r34Violation) : comparison :=
  str_cmp (r34_Composition a) (r34_Composition b) <+> str_cmp (r34_Kind a) (r34_Kind b) <+>
  str_cmp (r34_AliasField a) (r34_AliasField b).
Definition r35ViolationCmp (a b : r35Violation) : comparison :=
  str_cmp (r35_Kind a) (r35_Kind b) <+> str_cmp (r35_Name a) (r35_Name b) <+>
  str_cmp (r35_Namespace a) (r35_Namespace b).
Definition r36ViolationCmp (a b : r36Violation) : comparison :=
  str_cmp (r36_Composition a) (r36_Composition b) <+> str_cmp (r36_Kind a) (r36_Kind b) <+>
  str_cmp (r36_RuleName a) (r36_RuleName b).
Definition esoStoreViolationCmp (a b : esoStoreViolation) : comparison :=
  str_cmp (eso_Namespace a) (eso_Namespace b) <+> str_cmp (eso_Name a) (eso_Name b) <+>
  str_cmp (eso_StoreName a) (eso_StoreName b).
Definition fargateEnvLabelViolationCmp (a b : fargateEnvLabelViolation) : comparison :=
  str_cmp (fel_Kind a) (fel_Kind b) <+> str_cmp (fel_Name a) (fel_Name b) <+>
  str_cmp (fel_Namespace a) (fel_Namespace b).
Definition providerConfigRefViolationCmp (a b : providerConfigRefViolation) : comparison :=
  str_cmp (pcr_Kind a) (pcr_Kind b) <+> str_cmp (pcr_Name a) (pcr_Name b) <+>
  str_cmp (pcr_RefName a) (pcr_RefName b).

(** [slices.Clone] and [slices.SortFunc]. *)
Definition sorted_by {A} (cmp : A → A → comparison) (l : list A) : list A := sort_slice (cmp_less cmp) l.

(** ** Keys joined with NUL *)

Definition nul : string := String (ascii_of_N 0) "".
Definition join_nul (l : list string) : string := join nul l.
Definition stateKey (kind namespace name : string) : string := kind +:+ nul +:+ namespace +:+ nul +:+ name.
Definition key_of_resource (k : ResourceKey) : string := stateKey (rk_Kind k) (rk_Namespace k) (rk_Name k).
Definition buildStateKeySets (trajectories : list Step) : list (gset string) :=
  (λ step, set_map key_of_resource (st_State step)) <$> trajectories.

(** ** R12: mounts of resources that are absent when their owner is present *)

Definition owner_key (r : MountRef) : string :=
  stateKey (mr_OwnerKind r) (mr_OwnerNamespace r) (mr_OwnerName r).
Definition target_key (r : MountRef) : string :=
  stateKey (mr_TargetKind r) (mr_TargetNamespace r) (mr_TargetName r).
Definition mount_key (r : MountRef) : string := join_nul [
  mr_OwnerKind r; mr_OwnerName r; mr_OwnerNamespace r;
  mr_TargetKind r; mr_TargetName r; mr_TargetNamespace r].
Definition r12_of (r : MountRef) : r12Violation := {|
  r12_OwnerKind := mr_OwnerKind r; r12_OwnerName := mr_OwnerName r;
  r12_OwnerNamespace := mr_OwnerNamespace r; r12_TargetKind := mr_TargetKind r;
  r12_TargetName := mr_TargetName r; r12_TargetNamespace := mr_TargetNamespace r;
  r12_MountKind := mr_MountKind r; r12_Source := mr_Source r |}.
(** The state that makes the loop over the trajectory emit and break. *)
Definition dangles_in (r : MountRef) (state : gset string) : bool :=
  bool_decide (owner_key r ∈ state) && negb (bool_decide (target_key r ∈ state)).
Definition r12_step (states : list (gset string)) (acc : gset string * list r12Violation) (r : MountRef) :
    gset string * list r12Violation :=
  let (seen, out) := acc in
  if mr_Optional r then acc
  else if bool_decide (mount_key r ∈ seen) then acc
  else if existsb (dangles_in r) states then ({[mount_key r]} ∪ seen, out ++ [r12_of r])
  else acc.
Definition buildR12Violations (mountRefs : list MountRef) (trajectories : list Step) : list r12Violation :=
  (foldl (r12_step (buildStateKeySets trajectories)) (∅, []) (sorted_by mountRefCmp mountRefs)).2.

(** ** R14: workloads whose bindings are all dead in a state *)

Definition sa_key (r : SARef) : string := sar_SAName r +:+ nul +:+ sar_SANamespace r.
Definition subject_key (b : RBACBinding) : string := rbb_SubjectName b +:+ nul +:+ rbb_SubjectNamespace b.
Definition sa_owner_key (r : SARef) : string :=
  stateKey (sar_OwnerKind r) (sar_OwnerNamespace r) (sar_OwnerName r).
Definition bindings_by_sa (bs : list RBACBinding) : gmap string (list RBACBinding) :=
  group_skip (λ b, negb (String.eqb (rbb_SubjectKind b) "ServiceAccount")) subject_key bs.
Definition binding_live (state : gset string) (b : RBACBinding) : bool :=
  bool_decide (stateKey (rbb_BindingKind b) (rbb_BindingNamespace b) (rbb_BindingName b) ∈ state) &&
  bool_decide (stateKey (rbb_RoleKind b) (rbb_RoleNamespace b) (rbb_RoleName b) ∈ state).
Definition r14_of (sa : SARef) (b : RBACBinding) : r14Violation := {|
  r14_BindingKind := rbb_BindingKind b; r14_BindingName := rbb_BindingName b;
  r14_BindingNamespace := rbb_BindingNamespace b; r14_RoleKind := rbb_RoleKind b;
  r14_RoleName := rbb_RoleName b; r14_RoleNamespace := rbb_RoleNamespace b;
  r14_OwnerKind := sar_OwnerKind sa; r14_OwnerName := sar_OwnerName sa;
  r14_Source := sar_Source sa; r14_BindingSource := rbb_Source b |}.
Definition r14_workload (by_sa : gmap string (list RBACBinding)) (state : gset string) (sa : SARef) :
    list r14Violation :=
  if negb (bool_decide (sa_owner_key sa ∈ state)) then []
  else let myBindings := default [] (by_sa !! sa_key sa) in
  if bool_decide (myBindings = []) then []
  else if existsb (binding_live state) myBindings then []
  else flat_map (λ b, if binding_live state b then [] else [r14_of sa b]) myBindings.
Definition buildR14Violations (saRefs : list SARef) (bindings : list RBACBinding)
    (trajectories : list Step) : list r14Violation :=
  let sas := sorted_by saRefCmp saRefs in
  let by_sa := bindings_by_sa (sorted_by rbacBindingCmp bindings) in
  flat_map (λ state, flat_map (r14_workload by_sa state) sas) (buildStateKeySets trajectories).

(** ** R15: kinds the project does not admit *)

(** [strings.SplitN(apiVersion, "/", 2)]. *)
Definition apiVersionGroup (apiVersion : string) : string :=
  match cut_char "/" apiVersion with Some (group, _) => group | None => "" end.
Definition wildcard_kind : ArgoGroupKind := {| gk_Group := "*"; gk_Kind := "*" |}.
Definition projectWhitelistEntries (entries : list ArgoGroupKind) (set : bool) : list ArgoGroupKind :=
  if negb set then [wildcard_kind] else entries.
Definition groupKindWhitelisted (group kind : string) (entries : list ArgoGroupKind) : bool :=
  existsb (λ entry, (String.eqb (gk_Group entry) "*" || String.eqb (gk_Group entry) group) &&
                    (String.eqb (gk_Kind entry) "*" || String.eqb (gk_Kind entry) kind)) entries.

Definition project_or_default (project : string) : string :=
  if String.eqb project "" then "default" else project.
Definition resources_by_app (rs : list ResourceInfo) : gmap string (list ResourceInfo) :=
  group_skip (λ r, String.eqb (ri_OwningApp r) "") ri_OwningApp rs.
Definition app_projects (apps : list ArgoApplication) : gmap string string :=
  foldl (λ m app, <[app_Name app := project_or_default (app_Project app)]> m) ∅ apps.
Definition projects_by_name (ps : list ArgoAppProject) : gmap string ArgoAppProject :=
  foldl (λ m p, <[ap_Name p := p]> m) ∅ ps.
Definition scope_key (group kind : string) : string := group +:+ nul +:+ kind.
Definition cluster_scoped (crds : list CRDInfo) : gmap string bool :=
  foldl (λ m c, <[scope_key (crd_Group c) (crd_Kind c) := String.eqb (crd_Scope c) "Cluster"]> m) ∅ crds.

(** The body of the loop over one Application's resources. *)
Definition r15_resource (scoped : gmap string bool) (app : ArgoApplication) (projectName : string)
    (project : ArgoAppProject) (res : ResourceInfo) : list r15Violation :=
  let group := apiVersionGroup (ri_APIVersion res) in
  let isCluster := default false (scoped !! scope_key group (ri_Kind res)) in
  let '(whitelistKey, whitelist) :=
    if isCluster
    then ("clusterResourceWhitelist",
          projectWhitelistEntries (ap_ClusterResourceWhitelist project) (ap_ClusterResourceWhitelistSet project))
    else ("namespaceResourceWhitelist",
          projectWhitelistEntries (ap_NamespaceResourceWhitelist project) (ap_NamespaceResourceWhitelistSet project)) in
  if groupKindWhitelisted group (ri_Kind res) whitelist then []
  else [{| r15_AppName := app_Name app; r15_ProjectName := projectName; r15_Group := group;
           r15_Kind := ri_Kind res; r15_Name := ri_Name res; r15_WhitelistKey := whitelistKey;
           r15_Source := ri_Source res |}].
Definition r15_app (w : World) (by_app : gmap string (list ResourceInfo)) (app : ArgoApplication) :
    list r15Violation :=
  let projectName := project_or_default (default "" (app_projects (w_ArgoApps w) !! app_Name app)) in
  match projects_by_name (w_ArgoProjects w) !! projectName with
  | None => []
  | Some project =>
      flat_map (r15_resource (cluster_scoped (w_CRDs w)) app projectName project)
        (default [] (by_app !! app_Name app))
  end.
Definition buildR15Violations (w : World) : list r15Violation :=
  match w_Resources w with
  | [] => []
  | _ => flat_map (r15_app w (resources_by_app (sorted_by resourceCmp (w_Resources w))))
           (sorted_by argoAppCmp (w_ArgoApps w))
  end.

(** ** R16 and R21: fields no ignore rule covers *)

Definition leafSegment (path : string) : string :=
  match cut_last "." path with Some (_, leaf) => leaf | None => path end.
Definition ignoreDiffScopeKey (group kind : string) : string := group +:+ nul +:+ kind.
Definition ignoreDiffScopeMatches (entryGroup entryKind group kind : string) : bool :=
  (String.eqb entryGroup "*" || String.eqb entryGroup "" || String.eqb entryGroup group) &&
  (String.eqb entryKind "*" || String.eqb entryKind "" || String.eqb entryKind kind).
Definition ignoreDiffEntryCovers (entry : IgnoreDiffEntry) (group kind leaf : string) : bool :=
  if negb (ignoreDiffScopeMatches (ide_Group entry) (ide_Kind entry) group kind) then false
  else if existsb (String.eqb "crossplane") (ide_ManagedFieldsManagers entry) then true
  else (negb (String.eqb (ide_JSONPointer entry) "") && contains (ide_JSONPointer entry) leaf) ||
       (negb (String.eqb (ide_JQPath entry) "") && contains (ide_JQPath entry) leaf).

(** The struct [ignoreDiffIndex] has the one field [entriesByScope]. *)
Definition ignoreDiffIndex : Type := gmap string (list IgnoreDiffEntry).
Definition newIgnoreDiffIndex (entries : list IgnoreDiffEntry) : ignoreDiffIndex :=
  group_skip (λ _, false) (λ e, ignoreDiffScopeKey (ide_Group e) (ide_Kind e)) entries.
Definition covers_keys (group kind : string) : list string := [
  ignoreDiffScopeKey group kind; ignoreDiffScopeKey group "*"; ignoreDiffScopeKey "*" kind;
  ignoreDiffScopeKey "*" "*"; ignoreDiffScopeKey "" kind; ignoreDiffScopeKey group "";
  ignoreDiffScopeKey "" ""].
Definition covers (idx : ignoreDiffIndex) (group kind leaf : string) : bool :=
  existsb (λ key, existsb (λ e, ignoreDiffEntryCovers e group kind leaf) (default [] (idx !! key)))
    (covers_keys group kind).

Definition r16_of (u : SelectorUsage) : r16Violation := {|
  r16_Group := su_ResourceGroup u; r16_Kind := su_ResourceKind u; r16_Name := su_ResourceName u;
  r16_Namespace := su_ResourceNamespace u; r16_SelectorPath := su_SelectorPath u;
  r16_ResolvedPath := su_ResolvedPath u; r16_Leaf := leafSegment (su_ResolvedPath u);
  r16_Source := su_Source u |}.
Definition buildR16Violations (usages : list SelectorUsage) (entries : list IgnoreDiffEntry) :
    list r16Violation :=
  let index := newIgnoreDiffIndex entries in
  flat_map (λ u, if covers index (su_ResourceGroup u) (su_ResourceKind u) (leafSegment (su_ResolvedPath u))
                 then [] else [r16_of u]) (sorted_by selectorUsageCmp usages).
Definition r21_of (u : LateInitUsage) : r21Violation := {|
  r21_Group := lu_ResourceGroup u; r21_Kind := lu_ResourceKind u; r21_Name := lu_ResourceName u;
  r21_Namespace := lu_ResourceNamespace u; r21_FieldPath := lu_FieldPath u;
  r21_Leaf := leafSegment (lu_FieldPath u); r21_Source := lu_Source u |}.
Definition buildR21Violations (usages : list LateInitUsage) (entries : list IgnoreDiffEntry) :
    list r21Violation :=
  let index := newIgnoreDiffIndex entries in
  flat_map (λ u, if covers index (lu_ResourceGroup u) (lu_ResourceKind u) (leafSegment (lu_FieldPath u))
                 then [] else [r21_of u]) (sorted_by lateInitUsageCmp usages).

(** The ignore rules of the Applications, one entry per expression. *)
Definition ignore_entry (app : ArgoApplication) (d : ArgoIgnoreDiff) (jp jq : string) : IgnoreDiffEntry := {|
  ide_AppName := app_Name app; ide_Group := igd_Group d; ide_Kind := igd_Kind d;
  ide_JSONPointer := jp; ide_JQPath := jq;
  ide_ManagedFieldsManagers := igd_ManagedFieldsManagers d |}.
Definition ignore_entries (app : ArgoApplication) (d : ArgoIgnoreDiff) : list IgnoreDiffEntry :=
  let emitted := map (λ jp, ignore_entry app d jp "") (igd_JSONPointers d) ++
                 map (λ jq, ignore_entry app d "" jq) (igd_JQPathExpressions d) in
  match emitted with [] => [ignore_entry app d "" ""] | _ => emitted end.
Definition buildIgnoreDiffEntries (apps : list ArgoApplication) : list IgnoreDiffEntry :=
  flat_map (λ app, flat_map (ignore_entries app) (app_IgnoreDifferences app)) apps.
(** The World caches the entries unless the flattening is the nil slice. *)
Definition getIgnoreDiffEntries (w : World) : list IgnoreDiffEntry * World :=
  match w_IgnoreDiffEntries w with
  | Some es => (es, w)
  | None =>
      let es := buildIgnoreDiffEntries (w_ArgoApps w) in
      (es, {| w with w_IgnoreDiffEntries := match es with [] => None | _ => Some es end |})
  end.

(** ** R28, R29, R30: references to declared names *)

Definition string_set (l : list string) : gset string := list_to_set l.
(** [raw["spec"]], then a map under it, then a name. *)
Definition spec_ref_name (r : raw) (field : string) : string :=
  get_str (get_map (get_map r "spec") field) "name".
Definition secretStoreRefName (r : raw) : string := spec_ref_name r "secretStoreRef".
Definition providerConfigRefName (r : raw) : string := spec_ref_name r "providerConfigRef".

Definition buildESOStoreViolations (w : World) : list esoStoreViolation :=
  if bool_decide (w_Resources w = []) || bool_decide (w_ESOAllowedStoreNames w = []) then []
  else
    let allowed := string_set (w_ESOAllowedStoreNames w) in
    flat_map (λ res,
      if negb (String.eqb (ri_Kind res) "ExternalSecret") ||
         negb (has_prefix "external-secrets.io/" (ri_APIVersion res)) then []
      else let store := secretStoreRefName (ri_Raw res) in
      if String.eqb store "" || bool_decide (store ∈ allowed) then []
      else [{| eso_Name := ri_Name res; eso_Namespace := ri_Namespace res; eso_StoreName := store;
               eso_Source := ri_Source res |}])
      (sorted_by resourceCmp (w_Resources w)).

Definition fargate_violation (res : ResourceInfo) (reason value : string) : fargateEnvLabelViolation := {|
  fel_Kind := ri_Kind res; fel_Name := ri_Name res; fel_Namespace := ri_Namespace res;
  fel_Reason := reason; fel_Value := value; fel_Source := ri_Source res |}.
Definition buildFargateEnvLabelViolations (w : World) : list fargateEnvLabelViolation :=
  if bool_decide (w_Resources w = []) || bool_decide (w_EnvLabelClaimKinds w = []) then []
  else
    let claimKinds := string_set (w_EnvLabelClaimKinds w) in
    let allowed := string_set (w_EnvLabelAllowedValues w) in
    flat_map (λ res,
      if negb (bool_decide (ri_Kind res ∈ claimKinds)) then []
      else if String.eqb (ri_Name res) "" then []
      else let value := default "" (ri_Labels res !! w_EnvLabelKey w) in
      if String.eqb value "" then [fargate_violation res "missing" ""]
      else if negb (bool_decide (value ∈ allowed)) then [fargate_violation res "invalid" value]
      else [])
      (sorted_by resourceCmp (w_Resources w)).

Definition known_provider_configs (w : World) : gset string :=
  string_set (ri_Name <$> filter (λ res, ri_Kind res = "ProviderConfig" ∨ ri_Kind res = "ClusterProviderConfig")
                            (w_Resources w)) ∪ string_set (w_AllowedProviderConfigs w).
Definition buildProviderConfigRefViolations (w : World) : list providerConfigRefViolation :=
  match w_Resources w with
  | [] => []
  | _ =>
    let known := known_provider_configs w in
    flat_map (λ res,
      let ref := providerConfigRefName (ri_Raw res) in
      if String.eqb ref "" || bool_decide (ref ∈ known) then []
      else [{| pcr_Group := apiVersionGroup (ri_APIVersion res); pcr_Kind := ri_Kind res;
               pcr_Name := ri_Name res; pcr_Namespace := ri_Namespace res; pcr_RefName := ref;
               pcr_Source := ri_Source res |}])
      (sorted_by resourceCmp (w_Resources w))
  end.

(** ** R31 to R36: facts that are violations already *)

Definition r31_of (u : CanonicalFormUsage) : r31Violation := {|
  r31_Group := cu_ResourceGroup u; r31_Kind := cu_ResourceKind u; r31_Name := cu_ResourceName u;
  r31_Namespace := cu_ResourceNamespace u; r31_FieldPath := cu_FieldPath u; r31_Value := cu_Value u;
  r31_Canonical := cu_Canonical u; r31_Reason := cu_Reason u; r31_Heuristic := false;
  r31_Source := cu_Source u |}.
Definition buildCanonicalFormViolations (usages : list CanonicalFormUsage) : list r31Violation :=
  flat_map (λ u, if negb (cu_NonCanonical u) || cu_UpdateDisabled u || cu_Bypass u
                 then [] else [r31_of u]) usages.
Definition buildCanonicalFormTemplateViolations (findings : list CanonicalFormTemplateFinding) :
    list r31Violation :=
  map (λ f, {| r31_Group := ctf_Group f; r31_Kind := ctf_Kind f; r31_Name := ctf_Composition f;
    r31_Namespace := ""; r31_FieldPath := ctf_Field f; r31_Value := ctf_RHS f;
    r31_Canonical := ctf_Canonical f; r31_Reason := ctf_Reason f; r31_Heuristic := true;
    r31_Source := ctf_Source f |}) findings.
Definition r32_of (u : FixedPointUsage) : r32Violation := {|
  r32_Group := fp_ResourceGroup u; r32_Kind := fp_ResourceKind u; r32_Name := fp_ResourceName u;
  r32_Namespace := fp_ResourceNamespace u; r32_FieldPath := fp_FieldPath u;
  r32_Desired := fp_Desired u; r32_Observed := fp_Observed u; r32_Registered := fp_Registered u;
  r32_Source := fp_Source u |}.
Definition buildFixedPointViolations (usages : list FixedPointUsage) : list r32Violation :=
  flat_map (λ u, if fp_UpdateDisabled u then [] else [r32_of u]) usages.
Definition buildDuplicateEnvViolations (findings : list DuplicateEnvFinding) : list r33Violation :=
  map (λ f, {| r33_Composition := def_Composition f; r33_EnvName := def_EnvName f;
               r33_Count := itoa (def_Count f); r33_Source := def_Source f |}) findings.
Definition buildComputedBlockAliasViolations (findings : list ComputedBlockAliasFinding) :
    list r34Violation :=
  map (λ f, {| r34_Composition := cbf_Composition f; r34_Group := cbf_Group f; r34_Kind := cbf_Kind f;
    r34_ActionType := cbf_ActionType f; r34_AliasField := cbf_AliasField f;
    r34_CanonicalBlock := cbf_CanonicalBlock f; r34_Reason := cbf_Reason f;
    r34_Source := cbf_Source f |}) findings.
Definition buildExternalNameAdoptViolations (findings : list ExternalNameAdoptFinding) :
    list r35Violation :=
  map (λ f, {| r35_Group := enf_Group f; r35_Kind := enf_Kind f; r35_Name := enf_Name f;
    r35_Namespace := enf_Namespace f; r35_Reason := enf_Reason f; r35_Source := enf_Source f |}) findings.
Definition buildOrphanSGRefViolations (findings : list OrphanSGRefFinding) : list r36Violation :=
  map (λ f, {| r36_Composition := osf_Composition f; r36_Group := osf_Group f; r36_Kind := osf_Kind f;
    r36_RuleName := osf_RuleName f; r36_AttachField := osf_AttachField f; r36_RefField := osf_RefField f;
    r36_Reason := osf_Reason f; r36_Source := osf_Source f |}) findings.

(** ** Joined keys are unambiguous on strings without NUL *)

Definition nul_free (s : string) : bool := negb (has_char (ascii_of_N 0) s).

Lemma app_nul_inj a b c d : nul_free a = true → nul_free c = true →
  a +:+ nul +:+ b = c +:+ nul +:+ d → a = c ∧ b = d.
Proof.
  unfold nul_free, nul. intros Ha Hc H. bool_props.
  pose proof (cut_char_app (ascii_of_N 0) a b Ha) as H1.
  pose proof (cut_char_app (ascii_of_N 0) c d Hc) as H2.
  change (String (ascii_of_N 0) "" +:+ b) with (String (ascii_of_N 0) b) in H.
  change (String (ascii_of_N 0) "" +:+ d) with (String (ascii_of_N 0) d) in H.
  rewrite H, H2 in H1. naive_solver.
Qed.

Lemma stateKey_inj k ns n k' ns' n' :
  nul_free k = true → nul_free ns = true → nul_free k' = true → nul_free ns' = true →
  stateKey k ns n = stateKey k' ns' n' ↔ k = k' ∧ ns = ns' ∧ n = n'.
Proof.
  intros Hk Hns Hk' Hns'. split; [|naive_solver]. unfold stateKey. intros H.
  apply app_nul_inj in H as [-> H]; try done. by apply app_nul_inj in H as [-> ->].
Qed.

(** A resource of the given kind, namespace and name is in the state. *)
Definition live (s : Step) (kind namespace name : string) : Prop :=
  ∃ k, k ∈ st_State s ∧ rk_Kind k = kind ∧ rk_Namespace k = namespace ∧ rk_Name k = name.
Definition nul_free_state (s : Step) : Prop :=
  ∀ k, k ∈ st_State s → nul_free (rk_Kind k) = true ∧ nul_free (rk_Namespace k) = true.

Lemma live_spec s kind namespace name :
  nul_free_state s → nul_free kind = true → nul_free namespace = true →
  stateKey kind namespace name ∈ (set_map key_of_resource (st_State s) : gset string) ↔
  live s kind namespace name.
Proof.
  intros Hs Hk Hns. rewrite elem_of_map. unfold live, key_of_resource. split.
  - intros (k & Hkey & Hin). exists k. destruct (Hs k Hin).
    apply stateKey_inj in Hkey as (-> & -> & ->); done.
  - intros (k & Hin & <- & <- & <-). eauto.
Qed.

(** ** R12 *)

Definition mount_nul_free (r : MountRef) : Prop :=
  Forall (λ s, nul_free s = true)
    [mr_OwnerKind r; mr_OwnerName r; mr_OwnerNamespace r;
     mr_TargetKind r; mr_TargetName r; mr_TargetNamespace r].
(** The identity of a mount: owner and target. *)
Definition mount_ends (r : MountRef) : list string :=
  [mr_OwnerKind r; mr_OwnerName r; mr_OwnerNamespace r;
   mr_TargetKind r; mr_TargetName r; mr_TargetNamespace r].
Definition violation_ends (v : r12Violation) : list string :=
  [r12_OwnerKind v; r12_OwnerName v; r12_OwnerNamespace v;
   r12_TargetKind v; r12_TargetName v; r12_TargetNamespace v].
(** The owner is there in some state in which the target is not. *)
Definition dangling (trajectories : list Step) (r : MountRef) : Prop :=
  ∃ s, s ∈ trajectories ∧ live s (mr_OwnerKind r) (mr_OwnerNamespace r) (mr_OwnerName r) ∧
       ¬ live s (mr_TargetKind r) (mr_TargetNamespace r) (mr_TargetName r).

Lemma mount_key_inj r r' : mount_nul_free r → mount_nul_free r' →
  mount_key r = mount_key r' ↔ mount_ends r = mount_ends r'.
Proof.
  unfold mount_nul_free, mount_key, mount_ends. intros H H'.
  repeat match goal with H : Forall _ (_ :: _) |- _ => apply Forall_cons in H as [? H] end.
  split; [|intros [= -> -> -> -> -> ->]; done]. unfold join_nul. simpl.
  intros E. repeat (apply app_nul_inj in E as [-> E]; [|done|done]). by rewrite E.
Qed.

Lemma dangles_in_spec trajectories r :
  Forall nul_free_state trajectories → mount_nul_free r →
  existsb (dangles_in r) (buildStateKeySets trajectories) = true ↔ dangling trajectories r.
Proof.
  intros Hs Hr. unfold mount_nul_free in Hr.
  repeat match goal with H : Forall _ (_ :: _) |- _ => apply Forall_cons in H as [? H] end.
  rewrite existsb_elem_of. unfold buildStateKeySets, dangling, dangles_in, owner_key, target_key.
  setoid_rewrite list_elem_of_fmap. split.
  - intros (st & (s & -> & Hin) & H'). apply andb_true_iff in H' as [Ho Ht].
    bool_props. rewrite Forall_forall in Hs. specialize (Hs s Hin).
    rewrite live_spec in Ho, Ht by done. eauto.
  - intros (s & Hin & Ho & Ht). rewrite Forall_forall in Hs. specialize (Hs s Hin).
    eexists. split; [eauto|]. apply andb_true_iff. split; [|apply negb_true_iff];
    [apply bool_decide_eq_true|apply bool_decide_eq_false]; by rewrite live_spec.
Qed.

(** The loop is: keep the dangling required mounts, the first per key. *)
Definition r12_reported (states : list (gset string)) (r : MountRef) : Prop :=
  mr_Optional r = false ∧ existsb (dangles_in r) states = true.
#[export] Instance r12_reported_dec states r : Decision (r12_reported states r).
Proof. apply and_dec; apply _. Defined.

Lemma r12_loop states l :
  let '(seen, out) := foldl (r12_step states) (∅, []) l in
  let '(seen', out') := foldl (add_new mount_key) (∅, []) (filter (r12_reported states) l) in
  seen = seen' ∧ out = r12_of <$> out'.
Proof.
  induction l as [|r l IH] using rev_ind; [done|].
  rewrite foldl_app, filter_app, foldl_app. simpl.
  destruct (foldl (r12_step states) (∅, []) l) as [seen out].
  destruct (foldl (add_new mount_key) (∅, []) (filter (r12_reported states) l)) as [seen' out'].
  destruct IH as [-> ->]. rewrite filter_cons, filter_nil. unfold r12_step.
  destruct (decide (r12_reported states r)) as [[-> ->]|Hn]; simpl.
  - case_bool_decide; [done|]. by rewrite fmap_app.
  - destruct (mr_Optional r) eqn:Eo; [done|]. destruct (existsb (dangles_in r) states) eqn:Ed.
    { by destruct Hn. }
    by case_bool_decide.
Qed.

Lemma buildR12Violations_eq refs trajectories :
  buildR12Violations refs trajectories = r12_of <$>
    dedup mount_key (filter (r12_reported (buildStateKeySets trajectories)) (sorted_by mountRefCmp refs)).
Proof.
  unfold buildR12Violations, dedup. pose proof (r12_loop (buildStateKeySets trajectories) (sorted_by mountRefCmp refs)).
  destruct (foldl (r12_step _) _ _), (foldl (add_new _) _ _). naive_solver.
Qed.

#[export] Instance mountRefCmp_order : KeyOrder (cmp_less mountRefCmp)
  (λ r, [mr_OwnerKind r; mr_OwnerName r; mr_TargetKind r; mr_TargetName r; mr_MountKind r]).
Proof. solve_cmp_order. Qed.

Lemma filter_sorted {A} (R : A → A → Prop) (P : A → Prop) `{!∀ x, Decision (P x)} l :
  StronglySorted R l → StronglySorted R (filter P l).
Proof.
  induction 1 as [|x l Hl IH Hx]; [constructor|]. rewrite filter_cons. case_decide; [|done].
  constructor; [done|]. apply Forall_forall. intros y [_ Hy]%list_elem_of_filter.
  rewrite Forall_forall in Hx. auto.
Qed.

(** Mounts with the same ends are ordered by the kind of the mount. *)
Lemma mount_kind_order r r' : mount_ends r = mount_ends r' →
  cmp_less mountRefCmp r r' = str_lt (mr_MountKind r) (mr_MountKind r').
Proof.
  intros [= Ha Hb _ Hc Hd _]. rewrite (key_order_less (less:=cmp_less mountRefCmp)). simpl.
  rewrite Ha, Hb, Hc, Hd, !String.eqb_refl. destruct (String.eqb_spec (mr_MountKind r) (mr_MountKind r')) as [->|]; [|done].
  by rewrite str_lt_irrefl.
Qed.

(** C19: R12 reports exactly the mounts that dangle: a required mount whose owner
    is present in some state of the trajectory in which its target is absent.
    Each pair of owner and target is reported once, for the mount of the least
    kind among those that connect the two. *)
Theorem buildR12Violations_spec refs trajectories :
  Forall mount_nul_free refs → Forall nul_free_state trajectories →
  let out := buildR12Violations refs trajectories in
  (∀ v, v ∈ out → ∃ r, r ∈ refs ∧ mr_Optional r = false ∧ dangling trajectories r ∧ v = r12_of r ∧
     ∀ r', r' ∈ refs → mr_Optional r' = false → mount_ends r' = mount_ends r →
           str_lt (mr_MountKind r') (mr_MountKind r) = false) ∧
  (∀ r, r ∈ refs → mr_Optional r = false → dangling trajectories r →
     ∃ v, v ∈ out ∧ violation_ends v = mount_ends r) ∧
  NoDup (violation_ends <$> out).
Proof.
  intros Hr Hs. rewrite Forall_forall in Hr. simpl. rewrite buildR12Violations_eq.
  set (states := buildStateKeySets trajectories). set (l := filter _ _).
  assert (Hl : ∀ r, r ∈ l ↔ r ∈ refs ∧ mr_Optional r = false ∧ dangling trajectories r).
  { intros r. unfold l, r12_reported, sorted_by. rewrite list_elem_of_filter, elem_of_sort_slice.
    split; [intros [[? Hd] ?]|intros (? & ? & Hd)]; (split_and!; try done);
    apply dangles_in_spec in Hd; auto. }
  assert (Hends : ∀ r r', r ∈ refs → r' ∈ refs → mount_key r = mount_key r' ↔ mount_ends r = mount_ends r').
  { intros. apply mount_key_inj; auto. }
  split_and!.
  - intros v (r & -> & Hin)%list_elem_of_fmap. pose proof (dedup_elem _ _ _ Hin) as (H1 & H2 & H3)%Hl.
    exists r. split_and!; try done. intros r' H1' H2' E.
    assert (H3' : dangling trajectories r').
    { unfold dangling in *. injection E as -> -> -> -> -> ->. done. }
    assert (r' ∈ l) as Hr' by (apply Hl; auto).
    apply elem_of_dedup in Hin as (l1 & l2 & El & Hn). rewrite El in Hr'.
    apply elem_of_app in Hr' as [Hr'|Hr'].
    { destruct Hn. apply list_elem_of_fmap. exists r'. split; [|done]. by apply Hends. }
    apply elem_of_cons in Hr' as [->|Hr']; [apply str_lt_irrefl|].
    rewrite <- mount_kind_order by done.
    assert (StronglySorted (not_after (cmp_less mountRefCmp)) l) as Hsort
      by (apply filter_sorted, sort_slice_sorted, _).
    rewrite El in Hsort. by apply (sorted_before _ _ _ _ _ Hsort).
  - intros r H1 H2 H3. destruct (dedup_covers mount_key l r) as (r' & Hin & E); [by apply Hl|].
    exists (r12_of r'). split; [by apply list_elem_of_fmap_2|].
    pose proof (dedup_elem _ _ _ Hin) as (? & _)%Hl. apply Hends in E; done.
  - rewrite <- list_fmap_compose. change (violation_ends ∘ r12_of) with mount_ends.
    apply (NoDup_fmap_inj_on mount_key mount_ends); [|apply dedup_NoDup].
    intros r r' ?%dedup_elem%Hl ?%dedup_elem%Hl. apply Hends; tauto.
Qed.

(** ** R14 *)

Definition sa_nul_free (r : SARef) : Prop :=
  nul_free (sar_OwnerKind r) = true ∧ nul_free (sar_OwnerNamespace r) = true ∧
  nul_free (sar_SAName r) = true.
Definition binding_nul_free (b : RBACBinding) : Prop :=
  Forall (λ s, nul_free s = true)
    [rbb_BindingKind b; rbb_BindingNamespace b; rbb_RoleKind b; rbb_RoleNamespace b; rbb_SubjectName b].
(** The binding grants its role to the ServiceAccount. *)
Definition grants (b : RBACBinding) (sa : SARef) : Prop :=
  rbb_SubjectKind b = "ServiceAccount" ∧ rbb_SubjectName b = sar_SAName sa ∧
  rbb_SubjectNamespace b = sar_SANamespace sa.
(** Binding and role are both there. *)
Definition in_force (s : Step) (b : RBACBinding) : Prop :=
  live s (rbb_BindingKind b) (rbb_BindingNamespace b) (rbb_BindingName b) ∧
  live s (rbb_RoleKind b) (rbb_RoleNamespace b) (rbb_RoleName b).

Lemma elem_of_bindings_by_sa bs sa b :
  sa_nul_free sa → Forall binding_nul_free bs →
  b ∈ default [] (bindings_by_sa (sorted_by rbacBindingCmp bs) !! sa_key sa) ↔ b ∈ bs ∧ grants b sa.
Proof.
  intros (_ & _ & Hsa) Hbs. rewrite Forall_forall in Hbs.
  unfold bindings_by_sa. rewrite lookup_group, list_elem_of_filter. unfold sorted_by. rewrite elem_of_sort_slice. unfold grants.
  rewrite negb_false_iff, String.eqb_eq.
  assert (b ∈ bs → subject_key b = sa_key sa ↔
    rbb_SubjectName b = sar_SAName sa ∧ rbb_SubjectNamespace b = sar_SANamespace sa).
  { intros Hb%Hbs. unfold binding_nul_free in Hb. rewrite !Forall_cons in Hb.
    unfold subject_key, sa_key. split; [intros ?%app_nul_inj; tauto|by intros [-> ->]]. }
  tauto.
Qed.

Lemma binding_live_spec s b : nul_free_state s → binding_nul_free b →
  binding_live (set_map key_of_resource (st_State s)) b = true ↔ in_force s b.
Proof.
  intros Hs Hb. unfold binding_nul_free in Hb. rewrite !Forall_cons in Hb.
  unfold binding_live, in_force. rewrite andb_true_iff, !bool_decide_eq_true, !live_spec; tauto.
Qed.

Lemma r14_workload_spec bindings s sa v :
  sa_nul_free sa → Forall binding_nul_free bindings → nul_free_state s →
  v ∈ r14_workload (bindings_by_sa (sorted_by rbacBindingCmp bindings))
        (set_map key_of_resource (st_State s)) sa ↔
  ∃ b, b ∈ bindings ∧ grants b sa ∧
    live s (sar_OwnerKind sa) (sar_OwnerNamespace sa) (sar_OwnerName sa) ∧
    (∀ b', b' ∈ bindings → grants b' sa → ¬ in_force s b') ∧ v = r14_of sa b.
Proof.
  intros Hf Hb Hs. unfold r14_workload.
  assert (Hmine : ∀ b, b ∈ default [] (bindings_by_sa (sorted_by rbacBindingCmp bindings) !! sa_key sa) ↔
    b ∈ bindings ∧ grants b sa) by (intros; by apply elem_of_bindings_by_sa).
  set (mine := default [] _) in *. clearbody mine. unfold sa_owner_key.
  rewrite Forall_forall in Hb. destruct Hf as (Hf1 & Hf2 & _).
  destruct (bool_decide (_ ∈ set_map key_of_resource (st_State s))) eqn:Eo; simpl.
  2: { apply bool_decide_eq_false in Eo. rewrite live_spec in Eo by done.
       split; [by intros ?%not_elem_of_nil|]. by intros (? & _ & _ & ? & _). }
  apply bool_decide_eq_true in Eo. rewrite live_spec in Eo by done.
  assert (Hlive : ∀ b, b ∈ mine →
    binding_live (set_map key_of_resource (st_State s)) b = true ↔ in_force s b).
  { intros b [??]%Hmine. apply binding_live_spec; auto. }
  case_bool_decide as E0; [subst mine; split; [by intros ?%not_elem_of_nil|]|].
  { intros (b & H1 & H2 & _). pose proof (proj2 (Hmine b) (conj H1 H2)) as Hb0. by apply not_elem_of_nil in Hb0. }
  destruct (existsb _ mine) eqn:Ee.
  - apply existsb_elem_of in Ee as (b & Hb1 & Hb2). apply Hlive in Hb2; [|done].
    split; [by intros ?%not_elem_of_nil|]. intros (? & _ & _ & _ & Hno & _).
    apply Hmine in Hb1 as [H1 H2]. by destruct (Hno b H1 H2).
  - rewrite existsb_none in Ee. rewrite elem_of_flat_map. split.
    + intros (b & Hb1 & Hb2). rewrite (Ee _ Hb1) in Hb2. apply list_elem_of_singleton in Hb2 as ->.
      exists b. pose proof (proj1 (Hmine b) Hb1) as []. split_and!; try done.
      intros b' H1 H2 Hf'. pose proof (proj2 (Hmine b') (conj H1 H2)) as Hb3.
      apply Hlive in Hf'; [|done]. by rewrite Ee in Hf'.
    + intros (b & H1 & H2 & _ & _ & ->). pose proof (proj2 (Hmine b) (conj H1 H2)) as Hb3.
      exists b. split; [done|]. rewrite (Ee _ Hb3). by apply list_elem_of_singleton.
Qed.

(** C20: R14 reports a binding for a workload exactly when, in some state of the
    trajectory where the workload is present, the binding grants a role to the
    workload's ServiceAccount and none of the bindings that do are in force
    (binding and role both present). *)
Theorem buildR14Violations_spec refs bindings trajectories v :
  Forall sa_nul_free refs → Forall binding_nul_free bindings → Forall nul_free_state trajectories →
  v ∈ buildR14Violations refs bindings trajectories ↔
  ∃ s sa b, s ∈ trajectories ∧ sa ∈ refs ∧ b ∈ bindings ∧ grants b sa ∧
    live s (sar_OwnerKind sa) (sar_OwnerNamespace sa) (sar_OwnerName sa) ∧
    (∀ b', b' ∈ bindings → grants b' sa → ¬ in_force s b') ∧ v = r14_of sa b.
Proof.
  intros Hr Hb Hs. rewrite Forall_forall in Hr. rewrite Forall_forall in Hs.
  unfold buildR14Violations, buildStateKeySets. rewrite elem_of_flat_map.
  setoid_rewrite list_elem_of_fmap. setoid_rewrite elem_of_flat_map.
  setoid_rewrite elem_of_sort_slice. split.
  - intros (st & (s & -> & Hs') & sa & Hsa & Hv). apply r14_workload_spec in Hv as (b & ? & ? & ? & ? & ?); auto.
    exists s, sa, b. auto 10.
  - intros (s & sa & b & Hs' & Hsa & Hrest). eexists. split; [by exists s|].
    exists sa. split; [done|]. apply r14_workload_spec; auto. by exists b.
Qed.

(** ** R15 *)

(** A kind the project admits: the list of the kind's scope is absent, or has a
    matching entry. *)
Definition admits (project : ArgoAppProject) (cluster : bool) (group kind : string) : Prop :=
  let '(entries, set) := if cluster
    then (ap_ClusterResourceWhitelist project, ap_ClusterResourceWhitelistSet project)
    else (ap_NamespaceResourceWhitelist project, ap_NamespaceResourceWhitelistSet project) in
  set = false ∨ ∃ e, e ∈ entries ∧ (gk_Group e = "*" ∨ gk_Group e = group) ∧
                                   (gk_Kind e = "*" ∨ gk_Kind e = kind).
(** The scope of a kind: that of the last CRD that defines it. *)
Definition cluster_kind (crds : list CRDInfo) (group kind : string) : bool :=
  match find_first (λ c, bool_decide (crd_Group c = group ∧ crd_Kind c = kind)) (rev crds) with
  | Some c => String.eqb (crd_Scope c) "Cluster"
  | None => false
  end.
Definition last_project (ps : list ArgoAppProject) (name : string) : option ArgoAppProject :=
  find_first (λ p, bool_decide (ap_Name p = name)) (rev ps).
Definition app_project (w : World) (name : string) : string :=
  match find_first (λ app, bool_decide (app_Name app = name)) (rev (w_ArgoApps w)) with
  | Some app => project_or_default (app_Project app)
  | None => "default"
  end.
Definition r15_of (app : ArgoApplication) (projectName : string) (cluster : bool) (res : ResourceInfo) :
    r15Violation := {|
  r15_AppName := app_Name app; r15_ProjectName := projectName;
  r15_Group := apiVersionGroup (ri_APIVersion res); r15_Kind := ri_Kind res; r15_Name := ri_Name res;
  r15_WhitelistKey := if cluster then "clusterResourceWhitelist" else "namespaceResourceWhitelist";
  r15_Source := ri_Source res |}.

Lemma groupKindWhitelisted_spec group kind entries :
  groupKindWhitelisted group kind entries = true ↔
  ∃ e, e ∈ entries ∧ (gk_Group e = "*" ∨ gk_Group e = group) ∧ (gk_Kind e = "*" ∨ gk_Kind e = kind).
Proof.
  unfold groupKindWhitelisted. rewrite existsb_elem_of.
  setoid_rewrite andb_true_iff. setoid_rewrite orb_true_iff. by setoid_rewrite String.eqb_eq.
Qed.

Lemma admits_spec project (cluster : bool) group kind :
  groupKindWhitelisted group kind (if cluster
    then projectWhitelistEntries (ap_ClusterResourceWhitelist project) (ap_ClusterResourceWhitelistSet project)
    else projectWhitelistEntries (ap_NamespaceResourceWhitelist project) (ap_NamespaceResourceWhitelistSet project))
  = true ↔ admits project cluster group kind.
Proof.
  unfold admits, projectWhitelistEntries. rewrite groupKindWhitelisted_spec.
  destruct cluster, (ap_ClusterResourceWhitelistSet project), (ap_NamespaceResourceWhitelistSet project);
    simpl; split; try (by intros [?|]); try (by right); try (by left);
    intros _; exists wildcard_kind; (split; [by left|simpl; tauto]).
Qed.

Lemma find_first_ext {A} (f g : A → bool) l : (∀ x, x ∈ l → f x = g x) → find_first f l = find_first g l.
Proof.
  induction l as [|x l IH]; simpl; intros Hf; [done|]. rewrite (Hf x) by (by left).
  destruct (g x); [done|]. apply IH. intros y Hy. apply Hf. by right.
Qed.

Lemma cluster_scoped_spec crds group kind :
  nul_free group = true → Forall (λ c, nul_free (crd_Group c) = true) crds →
  default false (cluster_scoped crds !! scope_key group kind) = cluster_kind crds group kind.
Proof.
  intros Hg Hc. rewrite Forall_forall in Hc. unfold cluster_scoped, cluster_kind.
  rewrite (lookup_foldl_insert (λ c, scope_key (crd_Group c) (crd_Kind c))), lookup_empty.
  rewrite (find_first_ext _ (λ c, bool_decide (crd_Group c = group ∧ crd_Kind c = kind))).
  - by destruct (find_first _ _).
  - intros c Hin%elem_of_rev%Hc. apply bool_decide_ext. unfold scope_key.
    split; [by intros ?%app_nul_inj|by intros [-> ->]].
Qed.

Lemma app_projects_spec w name :
  project_or_default (default "" (app_projects (w_ArgoApps w) !! name)) = app_project w name.
Proof.
  unfold app_projects, app_project. rewrite (lookup_foldl_insert app_Name), lookup_empty.
  destruct (find_first _ _) as [a|]; [|done]. simpl. unfold project_or_default.
  destruct (String.eqb_spec (app_Project a) "") as [|E%String.eqb_neq]; [done|]. by rewrite E.
Qed.

Lemma projects_by_name_spec ps name : projects_by_name ps !! name = last_project ps name.
Proof.
  unfold projects_by_name, last_project. rewrite (lookup_foldl_insert ap_Name), lookup_empty.
  by destruct (find_first _ _).
Qed.

Lemma r15_resource_spec scoped app name project res v :
  let group := apiVersionGroup (ri_APIVersion res) in
  let cluster := default false (scoped !! scope_key group (ri_Kind res)) in
  v ∈ r15_resource scoped app name project res ↔
  ¬ admits project cluster group (ri_Kind res) ∧ v = r15_of app name cluster res.
Proof.
  simpl. rewrite <- admits_spec. unfold r15_resource, r15_of.
  destruct (default false _); destruct (groupKindWhitelisted _ _ _) eqn:E;
    rewrite ?E, ?list_elem_of_singleton; split; try (by intros ?%not_elem_of_nil);
    try (by intros [? _]); try (by intros [_ ?]); by intros ->.
Qed.

(** R15 reports a resource for an Application exactly when the Application
    owns it, its AppProject is declared, and the project's allow-list for the
    kind's scope (an absent list allows everything) has no matching entry. *)
Theorem buildR15Violations_spec w v :
  Forall (λ c, nul_free (crd_Group c) = true) (w_CRDs w) →
  Forall (λ r, nul_free (apiVersionGroup (ri_APIVersion r)) = true) (w_Resources w) →
  v ∈ buildR15Violations w ↔
  ∃ app res project, app ∈ w_ArgoApps w ∧ res ∈ w_Resources w ∧
    app_Name app ≠ "" ∧ ri_OwningApp res = app_Name app ∧
    last_project (w_ArgoProjects w) (app_project w (app_Name app)) = Some project ∧
    let group := apiVersionGroup (ri_APIVersion res) in
    let cluster := cluster_kind (w_CRDs w) group (ri_Kind res) in
    ¬ admits project cluster group (ri_Kind res) ∧
    v = r15_of app (app_project w (app_Name app)) cluster res.
Proof.
  intros Hc Hr. rewrite Forall_forall in Hr. unfold buildR15Violations.
  destruct (decide (w_Resources w = [])) as [->|Hne].
  { split; [by intros ?%not_elem_of_nil|]. by intros (? & ? & ? & _ & ?%not_elem_of_nil & _). }
  destruct (w_Resources w) as [|r0 rs0] eqn:Ers; [done|]. rewrite <- Ers in *. clear Ers Hne.
  rewrite elem_of_flat_map. setoid_rewrite elem_of_sort_slice. unfold r15_app.
  setoid_rewrite projects_by_name_spec.
  assert (Hown : ∀ app res, res ∈ default [] (resources_by_app (sorted_by resourceCmp (w_Resources w)) !! app_Name app) ↔
    res ∈ w_Resources w ∧ app_Name app ≠ "" ∧ ri_OwningApp res = app_Name app).
  { intros app res. unfold resources_by_app. rewrite lookup_group, list_elem_of_filter.
    unfold sorted_by. rewrite elem_of_sort_slice, String.eqb_neq.
    split; [intros [[H1 H2] H3]; by rewrite <- H2|intros (H1 & H2 & H3); by rewrite H3]. }
  split.
  - intros (app & Happ & Hv). rewrite app_projects_spec in Hv. destruct (last_project _ _) as [project|] eqn:Ep; [|by apply not_elem_of_nil in Hv].
    apply elem_of_flat_map in Hv as (res & (H1 & H2 & H3)%Hown & [H4 ->]%r15_resource_spec).
    rewrite cluster_scoped_spec in * by auto. exists app, res, project. 
    by split_and!.
  - intros (app & res & project & Happ & H1 & H2 & H3 & Ep & H4 & ->). exists app. split; [done|].
    rewrite app_projects_spec, Ep. apply elem_of_flat_map. exists res. split; [by apply Hown|].
    apply r15_resource_spec. rewrite cluster_scoped_spec; auto.
Qed.

(** ** Ignore rules *)

(** The index looks entries up under seven keys: those whose scope is matched,
    less the two where one side is a star and the other is empty. *)
Definition half_star (e : IgnoreDiffEntry) : Prop :=
  (ide_Group e = "*" ∧ ide_Kind e = "") ∨ (ide_Group e = "" ∧ ide_Kind e = "*").

Lemma scope_matches_keys e group kind :
  ignoreDiffScopeMatches (ide_Group e) (ide_Kind e) group kind = true → ¬ half_star e →
  ignoreDiffScopeKey (ide_Group e) (ide_Kind e) ∈ covers_keys group kind.
Proof.
  unfold ignoreDiffScopeMatches, half_star, covers_keys. intros [Hg Hk]%andb_true_iff Hn.
  repeat (apply orb_true_iff in Hg as [Hg|Hg]); repeat (apply orb_true_iff in Hk as [Hk|Hk]);
  apply String.eqb_eq in Hg; apply String.eqb_eq in Hk; rewrite Hg, Hk; rewrite !elem_of_cons; tauto.
Qed.

Lemma covers_keys_half_star e group kind :
  half_star e → nul_free group = true → group ≠ "" → group ≠ "*" → kind ≠ "" → kind ≠ "*" →
  ignoreDiffScopeKey (ide_Group e) (ide_Kind e) ∉ covers_keys group kind.
Proof.
  intros He Hg Hg1 Hg2 Hk1 Hk2 Hin. unfold covers_keys, ignoreDiffScopeKey in Hin.
  assert (He' : nul_free (ide_Group e) = true) by (by destruct He as [[-> _]|[-> _]]).
  rewrite !elem_of_cons in Hin. repeat match goal with H : _ ∨ _ |- _ => destruct H as [H|H] end; try (by apply not_elem_of_nil in Hin);
  (apply app_nul_inj in Hin as [H1 H2]; [|done|done]);
  destruct He as [[E1 E2]|[E1 E2]]; rewrite E1 in H1; rewrite E2 in H2; congruence.
Qed.

(** The ignore-rule index answers as a scan of all entries would, except
    that it never finds the entries whose scope is a star on one side and empty
    on the other, which the scan accepts. *)
Theorem covers_spec entries group kind leaf :
  nul_free group = true → group ≠ "" → group ≠ "*" → kind ≠ "" → kind ≠ "*" →
  Forall (λ e, nul_free (ide_Group e) = true) entries →
  covers (newIgnoreDiffIndex entries) group kind leaf = true ↔
  ∃ e, e ∈ entries ∧ ignoreDiffEntryCovers e group kind leaf = true ∧ ¬ half_star e.
Proof.
  intros Hg Hg1 Hg2 Hk1 Hk2 He. unfold covers. rewrite existsb_elem_of.
  setoid_rewrite existsb_elem_of. unfold newIgnoreDiffIndex.
  setoid_rewrite lookup_group. setoid_rewrite list_elem_of_filter. split.
  - intros (key & Hkey & e & ((_ & <-) & Hin) & Hc). exists e. split_and!; try done.
    intros Hh. by apply (covers_keys_half_star e group kind).
  - intros (e & Hin & Hc & Hn). exists (ignoreDiffScopeKey (ide_Group e) (ide_Kind e)). split.
    + apply scope_matches_keys; [|done]. unfold ignoreDiffEntryCovers in Hc.
      by destruct (ignoreDiffScopeMatches _ _ _ _).
    + eauto.
Qed.

(** R16 reports a selector usage exactly when no entry the index finds covers
    the last segment of its resolved path. *)
Theorem buildR16Violations_spec usages entries v :
  Forall (λ u, nul_free (su_ResourceGroup u) = true ∧ su_ResourceGroup u ≠ "" ∧ su_ResourceGroup u ≠ "*" ∧
               su_ResourceKind u ≠ "" ∧ su_ResourceKind u ≠ "*") usages →
  Forall (λ e, nul_free (ide_Group e) = true) entries →
  v ∈ buildR16Violations usages entries ↔
  ∃ u, u ∈ usages ∧ v = r16_of u ∧ ∀ e, e ∈ entries → ¬ half_star e →
    ignoreDiffEntryCovers e (su_ResourceGroup u) (su_ResourceKind u) (leafSegment (su_ResolvedPath u)) = false.
Proof.
  intros Hu He. rewrite Forall_forall in Hu. unfold buildR16Violations.
  rewrite elem_of_flat_map. setoid_rewrite elem_of_sort_slice. f_equiv. intros u.
  split.
  - intros (Hin & Hv). destruct (covers _ _ _ _) eqn:Ec; [by apply not_elem_of_nil in Hv|].
    apply list_elem_of_singleton in Hv. split_and!; [done..|]. intros e Hin' Hh.
    apply not_true_iff_false. intros Hc. apply not_true_iff_false in Ec. apply Ec.
    destruct (Hu _ Hin) as (? & ? & ? & ? & ?). apply covers_spec; eauto.
  - intros (Hin & -> & Hno). split; [done|].
    destruct (Hu _ Hin) as (? & ? & ? & ? & ?).
    destruct (covers _ _ _ _) eqn:Ec; [|by apply list_elem_of_singleton].
    apply covers_spec in Ec as (e & Hin' & Hc & Hh); try done. by rewrite Hno in Hc.
Qed.

(** The entry the Argo documentation writes for "every kind of every group" when
    the kind is left out is one of the two the index never finds. *)
Definition group_star_entry : IgnoreDiffEntry := {| zero_IgnoreDiffEntry with
  ide_Group := "*"; ide_ManagedFieldsManagers := ["crossplane"] |}.
Example half_star_entry_is_lost :
  ignoreDiffEntryCovers group_star_entry "ec2.aws.upbound.io" "Subnet" "vpcId" = true ∧
  covers (newIgnoreDiffIndex [group_star_entry]) "ec2.aws.upbound.io" "Subnet" "vpcId" = false.
Proof. split; vm_compute; reflexivity. Qed.

(** ** R28, R29, R30 *)

(** R28 reports exactly the references to a ProviderConfig that no resource of
    the World declares and the configuration does not allow. *)
Lemma buildProviderConfigRefViolations_spec w v :
  v ∈ buildProviderConfigRefViolations w ↔
  ∃ res, res ∈ w_Resources w ∧ providerConfigRefName (ri_Raw res) ≠ "" ∧
    providerConfigRefName (ri_Raw res) ∉ w_AllowedProviderConfigs w ∧
    (∀ p, p ∈ w_Resources w → ri_Kind p = "ProviderConfig" ∨ ri_Kind p = "ClusterProviderConfig" →
          ri_Name p ≠ providerConfigRefName (ri_Raw res)) ∧
    v = {| pcr_Group := apiVersionGroup (ri_APIVersion res); pcr_Kind := ri_Kind res;
           pcr_Name := ri_Name res; pcr_Namespace := ri_Namespace res;
           pcr_RefName := providerConfigRefName (ri_Raw res); pcr_Source := ri_Source res |}.
Proof.
  assert (E : buildProviderConfigRefViolations w = flat_map (λ res,
      let ref := providerConfigRefName (ri_Raw res) in
      if String.eqb ref "" || bool_decide (ref ∈ known_provider_configs w) then []
      else [{| pcr_Group := apiVersionGroup (ri_APIVersion res); pcr_Kind := ri_Kind res;
               pcr_Name := ri_Name res; pcr_Namespace := ri_Namespace res; pcr_RefName := ref;
               pcr_Source := ri_Source res |}]) (sorted_by resourceCmp (w_Resources w))).
  { unfold buildProviderConfigRefViolations. by destruct (w_Resources w). }
  rewrite E. clear E. rewrite elem_of_flat_map. setoid_rewrite elem_of_sort_slice. f_equiv. intros res. cbv zeta.
  assert (Hk : providerConfigRefName (ri_Raw res) ∉ known_provider_configs w ↔
    providerConfigRefName (ri_Raw res) ∉ w_AllowedProviderConfigs w ∧
    ∀ p, p ∈ w_Resources w → ri_Kind p = "ProviderConfig" ∨ ri_Kind p = "ClusterProviderConfig" →
         ri_Name p ≠ providerConfigRefName (ri_Raw res)).
  { unfold known_provider_configs, string_set. rewrite not_elem_of_union, !not_elem_of_list_to_set.
    rewrite list_elem_of_fmap. setoid_rewrite list_elem_of_filter. naive_solver. }
  destruct (String.eqb_spec (providerConfigRefName (ri_Raw res)) "") as [Ee|Ee]; simpl.
  { split; [by intros [_ ?%not_elem_of_nil]|tauto]. }
  case_bool_decide as Ed; rewrite ?list_elem_of_singleton; [split; [by intros [_ ?%not_elem_of_nil]|tauto]|tauto].
Qed.

(** ** Witnesses *)

Definition web_key : ResourceKey := MkResourceKey "apps/v1" "Deployment" "shop" "web".
Definition web_only : Step := MkStep "shop" 0 (MkDelta [web_key] [] []) {[web_key]}.
Definition web_mount : MountRef := MkMountRef "Deployment" "web" "shop" "Secret" "db" "shop"
  "envFrom" false zero_SourceLocation.

Lemma web_only_keys k : k ∈ st_State web_only ↔ k = web_key.
Proof. change (k ∈ ({[web_key]} : gset ResourceKey) ↔ k = web_key). apply elem_of_singleton. Qed.
Lemma web_only_nul_free : nul_free_state web_only.
Proof. intros k ->%web_only_keys. split; reflexivity. Qed.

Lemma buildR12Violations_spec_witness :
  (∃ v, v ∈ buildR12Violations [web_mount; web_mount] [web_only] ∧ violation_ends v = mount_ends web_mount) ∧
  NoDup (violation_ends <$> buildR12Violations [web_mount; web_mount] [web_only]).
Proof.
  assert (Hm : Forall mount_nul_free [web_mount; web_mount]) by (repeat constructor).
  assert (Hs : Forall nul_free_state [web_only]) by (apply Forall_singleton, web_only_nul_free).
  split; [apply (buildR12Violations_spec _ _ Hm Hs); [by left|done|]
         |apply (buildR12Violations_spec _ _ Hm Hs)].
  exists web_only. split_and!; [by left| |].
  - exists web_key. split_and!; [by apply web_only_keys|done..].
  - intros (k & ->%web_only_keys & H & _). discriminate H.
Defined.

Definition web_sa : SARef := MkSARef "Deployment" "web" "shop" "web-sa" "shop" zero_SourceLocation.
Definition web_binding : RBACBinding := MkRBACBinding "RoleBinding" "web-rb" "shop"
  "ServiceAccount" "web-sa" "shop" "Role" "reader" "shop" zero_SourceLocation.

Lemma buildR14Violations_spec_witness :
  r14_of web_sa web_binding ∈ buildR14Violations [web_sa] [web_binding] [web_only].
Proof.
  apply buildR14Violations_spec; [by repeat constructor..|by apply Forall_singleton, web_only_nul_free|].
  exists web_only, web_sa, web_binding. split_and!; try (by left); try done.
  - exists web_key. split_and!; [by apply web_only_keys|done..].
  - intros b' ->%list_elem_of_singleton _ [(k & ->%web_only_keys & H & _) _]. discriminate H.
Defined.

Definition shop_app : ArgoApplication := {| zero_ArgoApplication with app_Name := "shop"; app_Project := "team" |}.
Definition team_project : ArgoAppProject := {| zero_ArgoAppProject with ap_Name := "team";
  ap_NamespaceResourceWhitelistSet := true;
  ap_NamespaceResourceWhitelist := [{| gk_Group := "apps"; gk_Kind := "*" |}] |}.
Definition shop_secret : ResourceInfo := {| zero_ResourceInfo with
  ri_APIVersion := "v1"; ri_Kind := "Secret"; ri_Name := "db"; ri_OwningApp := "shop" |}.
Definition shop_world : World := {| zero_World with w_ArgoApps := [shop_app];
  w_ArgoProjects := [team_project]; w_Resources := [shop_secret] |}.

Lemma buildR15Violations_spec_witness :
  r15_of shop_app "team" false shop_secret ∈ buildR15Violations shop_world.
Proof.
  apply buildR15Violations_spec; [constructor|by repeat constructor|].
  exists shop_app, shop_secret, team_project. split_and!; [by left|by left|done..|].
  split; [|done]. intros [H|(e & ->%list_elem_of_singleton & [H|H] & _)]; discriminate H.
Defined.

Lemma covers_spec_witness :
  covers (newIgnoreDiffIndex [group_star_entry]) "ec2.aws.upbound.io" "Subnet" "vpcId" = false ∧
  covers (newIgnoreDiffIndex [{| group_star_entry with ide_Kind := "*" |}]) "ec2.aws.upbound.io" "Subnet" "vpcId" = true.
Proof.
  split.
  - apply not_true_iff_false. rewrite covers_spec; [|done..|by repeat constructor].
    intros (e & ->%list_elem_of_singleton & _ & Hn). apply Hn. by left.
  - apply covers_spec; [done..|by repeat constructor|].
    eexists. split_and!; [by left|reflexivity|]. intros [[_ H]|[H _]]; discriminate H.
Defined.

Definition subnet_usage : SelectorUsage := MkSelectorUsage "ec2.aws.upbound.io" "Subnet" "a" ""
  "spec.forProvider.vpcIdSelector" "spec.forProvider.vpcId" zero_SourceLocation.

Lemma buildR16Violations_spec_witness :
  r16_of subnet_usage ∈ buildR16Violations [subnet_usage] [group_star_entry].
Proof.
  apply buildR16Violations_spec; [by repeat constructor|by repeat constructor|].
  exists subnet_usage. split_and!; [by left|done|].
  intros e ->%list_elem_of_singleton Hn. destruct Hn. by left.
Defined.
