(* ===== verification/Kl.v ===== *)
(** The values of the Shen interpreter (the third-party package kl), as an
    interface: the constructors and accessors src/pkg/checker/bridge.go calls,
    and the laws it relies on.  Everything about the bridge is proved against
    [KL] and [KLLaws]; [KObj] is an instance, so the laws can hold. *)
From Stdlib Require Import ZArith.
From S2P Require Import Prelude GoStrings.

#[local] Open Scope string_scope.
#[local] Open Scope list_scope.

(** Constructors ([MakeSymbol], [MakeString], [MakeInteger], [True]/[False],
    [Nil], [Cons]) and accessors. *)
Class KL (Obj : Type) : Type := {
  MakeSymbol : string → Obj;
  MakeString : string → Obj;
  MakeInteger : Z → Obj;
  kl_True : Obj;
  kl_False : Obj;
  Nil : Obj;
  Cons : Obj → Obj → Obj;
  IsSymbol : Obj → bool;
  GetSymbol : Obj → string;
  IsString : Obj → bool;
  GetString : Obj → string;
  IsNumber : Obj → bool;
  GetInteger : Obj → Z;
  ObjString : Obj → string;
  ListToSlice : Obj → list Obj;
}.

Class KLLaws (Obj : Type) `{!KL Obj} : Prop := {
  symbol_is_symbol s : IsSymbol (MakeSymbol s) = true;
  get_symbol s : GetSymbol (MakeSymbol s) = s;
  symbol_not_string s : IsString (MakeSymbol s) = false;
  string_is_string s : IsString (MakeString s) = true;
  get_string s : GetString (MakeString s) = s;
  string_not_symbol s : IsSymbol (MakeString s) = false;
  integer_is_number z : IsNumber (MakeInteger z) = true;
  get_integer z : GetInteger (MakeInteger z) = z;
  slice_nil : ListToSlice Nil = [];
  slice_cons x l : ListToSlice (Cons x l) = x :: ListToSlice l;
}.

(** ** An instance *)

Inductive KObj : Type :=
  | KSym (s : string)
  | KStr (s : string)
  | KInt (z : Z)
  | KBool (b : bool)
  | KNil
  | KCons (x l : KObj).

Fixpoint kobj_slice (o : KObj) : list KObj :=
  match o with KCons x l => x :: kobj_slice l | _ => [] end.

#[export] Instance KObj_KL : KL KObj := {
  MakeSymbol := KSym; MakeString := KStr; MakeInteger := KInt;
  kl_True := KBool true; kl_False := KBool false; Nil := KNil; Cons := KCons;
  IsSymbol o := match o with KSym _ => true | _ => false end;
  GetSymbol o := match o with KSym s => s | _ => "" end;
  IsString o := match o with KStr _ => true | _ => false end;
  GetString o := match o with KStr s => s | _ => "" end;
  IsNumber o := match o with KInt _ => true | _ => false end;
  GetInteger o := match o with KInt z => z | _ => 0%Z end;
  ObjString o := match o with KSym s | KStr s => s | KInt z => itoa z | _ => "" end;
  ListToSlice := kobj_slice;
}.
#[export] Instance KObj_laws : KLLaws KObj.
Proof. split; reflexivity. Qed.
