(* ===== verification/Encode.v ===== *)
(** The World as the kernel receives it: the encoders of
    src/pkg/checker/bridge.go from facts to Shen lists, the sections, and the
    [(world ...)] object.  Parametric in the interpreter's values ([KL]). *)
From Stdlib Require Import ZArith.
From S2P Require Import Prelude GoStrings Yaml Types Trajectory Violations Kl.

#[local] Open Scope string_scope.
#[local] Open Scope list_scope.
#[local] Open Scope xpc_scope.

(** ** Orders of the sections *)

Definition crdCmp (a b : CRDInfo) : comparison :=
  str_cmp (crd_Group a) (crd_Group b) <+> str_cmp (crd_Kind a) (crd_Kind b).
Definition compositionCmp (a b : CompositionInfo) : comparison := str_cmp (comp_Name a) (comp_Name b).
Definition functionCmp (a b : FunctionInfo) : comparison := str_cmp (fn_Name a) (fn_Name b).
Definition providerCmp (a b : ProviderInfo) : comparison := str_cmp (pr_Name a) (pr_Name b).
Definition configCmp (a b : ConfigurationInfo) : comparison := str_cmp (cfgi_Name a) (cfgi_Name b).
Definition immutableFieldCmp (a b : ImmutableField) : comparison :=
  str_cmp (im_Group a) (im_Group b) <+> str_cmp (im_Kind a) (im_Kind b) <+>
  str_cmp (im_FieldPath a) (im_FieldPath b).
Definition rbacRuleCmp (a b : RBACRule) : comparison :=
  str_cmp (rbr_OwnerKind a) (rbr_OwnerKind b) <+> str_cmp (rbr_OwnerName a) (rbr_OwnerName b) <+>
  Nat.compare (length (rbr_Verbs a)) (length (rbr_Verbs b)) <+>
  str_cmp (join "," (rbr_Verbs a)) (join "," (rbr_Verbs b)).
Definition argoAppProjectCmp (a b : ArgoAppProject) : comparison :=
  str_cmp (sl_File (ap_Source a)) (sl_File (ap_Source b)) <+> str_cmp (ap_Name a) (ap_Name b).
Definition appSetFinalizerCmp (a b : ArgoApplicationSet) : comparison :=
  str_cmp (sl_File (aset_Source a)) (sl_File (aset_Source b)) <+> str_cmp (aset_Name a) (aset_Name b).
Definition selectorMappingCmp (a b : SelectorMapping) : comparison :=
  str_cmp (sm_Group a) (sm_Group b) <+> str_cmp (sm_Kind a) (sm_Kind b) <+>
  str_cmp (sm_SelectorPath a) (sm_SelectorPath b) <+> str_cmp (sm_ResolvedPath a) (sm_ResolvedPath b).
Definition lateInitMappingCmp (a b : LateInitMapping) : comparison :=
  str_cmp (lm_Group a) (lm_Group b) <+> str_cmp (lm_Kind a) (lm_Kind b) <+>
  str_cmp (lm_FieldPath a) (lm_FieldPath b).
(** The enumeration's string values (types.go), which the comparison looks at. *)
Definition violation_string (v : ViolationKind) : string :=
  match v with
  | ViolationUnknownField => "UnknownField"
  | ViolationWrongType => "WrongType"
  | ViolationMissingRequired => "MissingRequired"
  | ViolationInvalidEnum => "InvalidEnum"
  end.
Definition resourceFieldFactCmp (a b : ResourceFieldFact) : comparison :=
  str_cmp (rf_APIVersion a) (rf_APIVersion b) <+> str_cmp (rf_Kind a) (rf_Kind b) <+>
  str_cmp (rf_Namespace a) (rf_Namespace b) <+> str_cmp (rf_Name a) (rf_Name b) <+>
  str_cmp (rf_Path a) (rf_Path b) <+>
  str_cmp (violation_string (rf_Violation a)) (violation_string (rf_Violation b)).
Definition renderResultCmp (a b : RenderResult) : comparison :=
  str_cmp (rres_AppName a) (rres_AppName b) <+> str_cmp (rres_ChartPath a) (rres_ChartPath b).
Definition determinismResultCmp (a b : DeterminismResult) : comparison :=
  str_cmp (dr_AppName a) (dr_AppName b) <+> str_cmp (dr_RendererKind a) (dr_RendererKind b).
Definition ssaMPConflictCmp (a b : SSAMPConflict) : comparison :=
  str_cmp (ssa_AppName a) (ssa_AppName b) <+> str_cmp (ssa_ResourceKind a) (ssa_ResourceKind b) <+>
  str_cmp (ssa_ResourceNamespace a) (ssa_ResourceNamespace b) <+>
  str_cmp (ssa_ResourceName a) (ssa_ResourceName b).
Definition cpDeletionPolicyCmp (a b : CPDeletionPolicyFact) : comparison :=
  str_cmp (cp_Group a) (cp_Group b) <+> str_cmp (cp_Kind a) (cp_Kind b) <+>
  str_cmp (cp_Namespace a) (cp_Namespace b) <+> str_cmp (cp_Name a) (cp_Name b).
Definition ignoreDiffEntryCmp (a b : IgnoreDiffEntry) : comparison :=
  str_cmp (ide_AppName a) (ide_AppName b) <+> str_cmp (ide_JSONPointer a) (ide_JSONPointer b) <+>
  str_cmp (ide_JQPath a) (ide_JQPath b).
Definition resource_key_cmp (a b : ResourceKey) : comparison :=
  str_cmp (rk_Kind a) (rk_Kind b) <+> str_cmp (rk_Namespace a) (rk_Namespace b) <+>
  str_cmp (rk_Name a) (rk_Name b).
Definition sortResourceKeys (keys : list ResourceKey) : list ResourceKey := sorted_by resource_key_cmp keys.

(** ** Encoders *)

Section encode.
Context {Obj : Type} `{!KL Obj}.

Definition sym (s : string) : Obj := MakeSymbol s.
Definition str (s : string) : Obj := MakeString s.
Definition num (n : Z) : Obj := MakeInteger n.
Definition boolean (b : bool) : Obj := if b then kl_True else kl_False.
Definition makeList (items : list Obj) : Obj := foldr Cons Nil items.
Definition section (tag : string) (facts : list Obj) : Obj := makeList (sym tag :: facts).
Definition sortedSection {T} (tag : string) (src : list T) (cmp : T → T → comparison)
    (toObj : T → Obj) : Obj :=
  section tag (map toObj (sorted_by cmp src)).
Definition stringsToList (ss : list string) : Obj := makeList (map str ss).
Definition stringListSection (tag : string) (items : list string) : Obj :=
  makeList (sym tag :: map str items).

Definition sourceToObj (src : SourceLocation) : Obj :=
  makeList [sym "source"; str (sl_File src); num (sl_Line src)].

Definition crdToObj (crd : CRDInfo) : Obj :=
  let vers := map (λ v, makeList [str (cv_Name v); boolean (cv_Served v); boolean (cv_Storage v);
                                  str (cv_SchemaDigest v)]) (crd_Versions crd) in
  let conv := crd_Conversion crd in
  makeList [sym "crd-fact"; str (crd_Group crd); str (crd_Kind crd); str (crd_Scope crd);
    makeList vers;
    makeList [str (ci_Strategy conv); sym (to_lower (ci_CostClass conv)); str (ci_WebhookService conv)];
    sourceToObj (crd_Source crd)].
Definition xrdToObj (xrd : CRDInfo) : Obj :=
  let vers := map (λ v, makeList [str (cv_Name v); boolean (cv_Served v); boolean (cv_Referenceable v);
                                  str (cv_SchemaDigest v)]) (crd_Versions xrd) in
  makeList [sym "xrd-fact"; str (crd_Group xrd); str (crd_Kind xrd); str (crd_Scope xrd);
    str (crd_APIVersion xrd); makeList vers; sourceToObj (crd_Source xrd); str (crd_OwningApp xrd)].
Definition compositionToObj (comp : CompositionInfo) : Obj :=
  let ref := comp_CompositeTypeRef comp in
  let steps := map (λ s, makeList [str (ps_Name s); str (ps_FunctionRef s); str (ps_InputAPIVersion s);
                                   str (ps_InputKind s)]) (comp_Pipeline comp) in
  makeList [sym "composition-fact"; str (comp_Name comp);
    makeList [sym "gvk"; str (gvk_Group ref); str (gvk_Version ref); str (gvk_Kind ref)];
    str (comp_Mode comp); makeList steps; sourceToObj (comp_Source comp); str (comp_OwningApp comp)].
Definition functionToObj (fn : FunctionInfo) : Obj :=
  makeList [sym "function-fact"; str (fn_Name fn); str (fn_Package fn);
    makeList (map str (fn_InputVersions fn)); sourceToObj (fn_Source fn); str (fn_OwningApp fn)].
Definition providerToObj (p : ProviderInfo) : Obj :=
  makeList [sym "provider-fact"; str (pr_Name p); str (pr_Package p); sourceToObj (pr_Source p);
    str (pr_OwningApp p)].
Definition configToObj (c : ConfigurationInfo) : Obj :=
  makeList [sym "configuration-fact"; str (cfgi_Name c); str (cfgi_Package c); sourceToObj (cfgi_Source c)].
Definition resourceToObj (res : ResourceInfo) : Obj :=
  let keys := sort_slice str_lt (map_to_list (ri_Annotations res)).*1 in
  let anns := map (λ k, makeList [str k; str (default "" (ri_Annotations res !! k))]) keys in
  makeList [sym "resource-fact"; str (ri_APIVersion res); str (ri_Kind res); str (ri_Name res);
    str (ri_Namespace res); makeList anns; sourceToObj (ri_Source res); str (ri_OwningApp res)].
Definition argoAppToObj (app : ArgoApplication) : Obj :=
  let waves := map (λ sw, makeList [str (swe_Kind sw); str (swe_Name sw); num (swe_Wave sw)])
                 (app_SyncWaves app) in
  makeList [sym "argo-app-fact"; str (app_Name app); str (app_TrackingMode app); makeList waves;
    sourceToObj (app_Source app)].
Definition argoGroupKindToObj (gk : ArgoGroupKind) : Obj :=
  makeList [sym "group-kind"; str (gk_Group gk); str (gk_Kind gk)].
Definition projectWhitelist (entries : list ArgoGroupKind) (set : bool) : list Obj :=
  if negb set then [argoGroupKindToObj wildcard_kind] else map argoGroupKindToObj entries.
Definition argoAppProjectToObj (proj : ArgoAppProject) : Obj :=
  makeList [sym "argo-appproject"; str (ap_Name proj); str (sl_File (ap_Source proj));
    makeList (projectWhitelist (ap_ClusterResourceWhitelist proj) (ap_ClusterResourceWhitelistSet proj));
    makeList (projectWhitelist (ap_NamespaceResourceWhitelist proj) (ap_NamespaceResourceWhitelistSet proj))].
Definition argoAppProjLinkToObj (app : ArgoApplication) : Obj :=
  makeList [sym "argo-app-proj-link"; str (app_Name app); str (project_or_default (app_Project app))].
Definition appSetAutosyncToObj (a : ArgoApplicationSet) : Obj :=
  let autoSym := match sp_Automated (tm_SyncPolicy (aset_Template a)) with
                 | Some _ => "auto-yes" | None => "auto-no" end in
  makeList [sym "appset-autosync-fact"; str (aset_Name a); sym autoSym; sourceToObj (aset_Source a)].
Definition appSetFinalizerToObj (a : ArgoApplicationSet) : Obj :=
  let preserveSym := if asp_PreserveResourcesOnDeletion (aset_SyncPolicy a)
                     then "preserve-yes" else "preserve-no" in
  makeList [sym "appset-finalizer-fact"; str (aset_Name a);
    makeList (map str (tm_Finalizers (aset_Template a))); sym preserveSym; sourceToObj (aset_Source a)].
Definition mountRefToObj (m : MountRef) : Obj :=
  makeList [sym "mount-ref-fact"; str (mr_OwnerKind m); str (mr_OwnerName m); str (mr_OwnerNamespace m);
    str (mr_TargetKind m); str (mr_TargetName m); str (mr_TargetNamespace m);
    str (mr_MountKind m); boolean (mr_Optional m); sourceToObj (mr_Source m)].
Definition saRefToObj (s : SARef) : Obj :=
  makeList [sym "sa-ref-fact"; str (sar_OwnerKind s); str (sar_OwnerName s); str (sar_OwnerNamespace s);
    str (sar_SAName s); str (sar_SANamespace s); sourceToObj (sar_Source s)].
Definition rbacBindingToObj (b : RBACBinding) : Obj :=
  makeList [sym "rbac-binding-fact";
    str (rbb_BindingKind b); str (rbb_BindingName b); str (rbb_BindingNamespace b);
    str (rbb_SubjectKind b); str (rbb_SubjectName b); str (rbb_SubjectNamespace b);
    str (rbb_RoleKind b); str (rbb_RoleName b); str (rbb_RoleNamespace b); sourceToObj (rbb_Source b)].
Definition rbacRuleToObj (r : RBACRule) : Obj :=
  makeList [sym "rbac-rule-fact"; str (rbr_OwnerKind r); str (rbr_OwnerName r); str (rbr_OwnerNamespace r);
    stringsToList (rbr_APIGroups r); stringsToList (rbr_Resources r); stringsToList (rbr_Verbs r);
    stringsToList (rbr_ResourceNames r); sourceToObj (rbr_Source r)].
Definition immutableFieldToObj (f : ImmutableField) : Obj :=
  makeList [sym "immutable-field-fact"; str (im_Group f); str (im_Kind f); str (im_FieldPath f);
    str (im_Reason f)].
Definition selectorMappingToObj (m : SelectorMapping) : Obj :=
  makeList [sym "selector-mapping-fact"; str (sm_Group m); str (sm_Kind m); str (sm_SelectorPath m);
    str (sm_ResolvedPath m); str (sm_Reason m)].
Definition selectorUsageToObj (u : SelectorUsage) : Obj :=
  makeList [sym "selector-usage-fact"; str (su_ResourceGroup u); str (su_ResourceKind u);
    str (su_ResourceName u); str (su_ResourceNamespace u); str (su_SelectorPath u);
    str (su_ResolvedPath u); sourceToObj (su_Source u)].
Definition lateInitMappingToObj (m : LateInitMapping) : Obj :=
  makeList [sym "late-init-mapping-fact"; str (lm_Group m); str (lm_Kind m); str (lm_FieldPath m);
    str (lm_FixPattern m); str (lm_Reason m)].
Definition lateInitUsageToObj (u : LateInitUsage) : Obj :=
  makeList [sym "late-init-usage-fact"; str (lu_ResourceGroup u); str (lu_ResourceKind u);
    str (lu_ResourceName u); str (lu_ResourceNamespace u); str (lu_FieldPath u); sourceToObj (lu_Source u)].
Definition violationSym (v : ViolationKind) : string :=
  match v with
  | ViolationUnknownField => "unknown-field"
  | ViolationWrongType => "wrong-type"
  | ViolationMissingRequired => "missing-required"
  | ViolationInvalidEnum => "invalid-enum"
  end.
Definition resourceFieldFactToObj (f : ResourceFieldFact) : Obj :=
  makeList [sym "resource-field-fact"; str (rf_APIVersion f); str (rf_Kind f); str (rf_Namespace f);
    str (rf_Name f); str (rf_Path f); sym (violationSym (rf_Violation f)); str (rf_Message f);
    sourceToObj (rf_Source f)].
Definition render_error_kind (r : RenderResult) : string :=
  if String.eqb (rres_ErrorKind r) "" then (if rres_Success r then "none" else "other")
  else rres_ErrorKind r.
Definition renderResultToObj (r : RenderResult) : Obj :=
  let issues := map (λ vi, makeList [sym "values-issue"; str (vi_Path vi); str (vi_Message vi)])
                  (rres_ValuesIssues r) in
  makeList [sym "render-result"; str (rres_AppName r); str (rres_ChartPath r);
    sym (if rres_Success r then "render-ok" else "render-failed"); sym (render_error_kind r);
    str (rres_Error r); makeList (sym "values-issues" :: issues); sourceToObj (rres_Source r)].
Definition determinismResultToObj (d : DeterminismResult) : Obj :=
  makeList [sym "determinism-result"; str (dr_AppName d); str (dr_RendererKind d);
    sym (if dr_Mismatch d then "determ-mismatch" else "determ-match"); str (dr_DiffSummary d);
    sourceToObj (dr_Source d)].
Definition ssaMPConflictToObj (c : SSAMPConflict) : Obj :=
  makeList [sym "ssa-mp-conflict-fact"; str (ssa_AppName c);
    sym (if ssa_ServerSideApply c then "ssa-yes" else "ssa-no");
    makeList (map str (ssa_ManagementPolicies c)); str (ssa_ResourceGroup c); str (ssa_ResourceKind c);
    str (ssa_ResourceName c); str (ssa_ResourceNamespace c); sourceToObj (ssa_Source c)].
Definition cpDeletionPolicyToObj (f : CPDeletionPolicyFact) : Obj :=
  makeList [sym "cp-deletion-policy-fact"; str (cp_Group f); str (cp_Kind f); str (cp_Name f);
    str (cp_Namespace f); str (cp_DeletionPolicy f);
    sym (if cp_Bypass f then "bypass-yes" else "bypass-no"); sourceToObj (cp_Source f)].
Definition ignoreDiffEntryToObj (e : IgnoreDiffEntry) : Obj :=
  makeList [sym "ignore-diff-entry"; str (ide_AppName e); str (ide_Group e); str (ide_Kind e);
    str (ide_JSONPointer e); str (ide_JQPath e); makeList (map str (ide_ManagedFieldsManagers e))].

Definition resourceKeyToObj (k : ResourceKey) : Obj :=
  makeList [sym "resource-key"; str (rk_APIVersion k); str (rk_Kind k); str (rk_Namespace k); str (rk_Name k)].
Definition resourceKeyObjs (keys : list ResourceKey) : list Obj := map resourceKeyToObj keys.
Definition deltaToObj (d : Delta) : Obj :=
  makeList [sym "delta"; section "created" (resourceKeyObjs (de_Created d));
    section "updated" (resourceKeyObjs (de_Updated d)); section "deleted" (resourceKeyObjs (de_Deleted d))].
Definition stepToObj (s : Step) : Obj :=
  makeList [sym "step"; str (st_AppName s); num (st_Wave s); deltaToObj (st_Delta s);
    section "state" (resourceKeyObjs (sortResourceKeys (elements (st_State s))))].
Definition trajectoryToObj (steps : list Step) : Obj := section "trajectory" (map stepToObj steps).

(** *** Violations *)

Definition r12ViolationToObj (v : r12Violation) : Obj :=
  makeList [sym "r12-violation"; str (r12_OwnerKind v); str (r12_OwnerName v); str (r12_OwnerNamespace v);
    str (r12_TargetKind v); str (r12_TargetName v); str (r12_TargetNamespace v);
    str (r12_MountKind v); sourceToObj (r12_Source v)].
Definition r14ViolationToObj (v : r14Violation) : Obj :=
  makeList [sym "r14-violation"; str (r14_BindingKind v); str (r14_BindingName v);
    str (r14_BindingNamespace v); str (r14_RoleKind v); str (r14_RoleName v); str (r14_RoleNamespace v);
    str (r14_OwnerKind v); str (r14_OwnerName v); sourceToObj (r14_Source v);
    sourceToObj (r14_BindingSource v)].
Definition r15ViolationToObj (v : r15Violation) : Obj :=
  makeList [sym "r15-violation"; str (r15_AppName v); str (r15_ProjectName v); str (r15_Group v);
    str (r15_Kind v); str (r15_Name v); str (r15_WhitelistKey v); sourceToObj (r15_Source v)].
Definition r16ViolationToObj (v : r16Violation) : Obj :=
  makeList [sym "r16-violation"; str (r16_Group v); str (r16_Kind v); str (r16_Name v);
    str (r16_Namespace v); str (r16_SelectorPath v); str (r16_ResolvedPath v); str (r16_Leaf v);
    sourceToObj (r16_Source v)].
Definition r21ViolationToObj (v : r21Violation) : Obj :=
  makeList [sym "r21-violation"; str (r21_Group v); str (r21_Kind v); str (r21_Name v);
    str (r21_Namespace v); str (r21_FieldPath v); str (r21_Leaf v); sourceToObj (r21_Source v)].
Definition r31ViolationToObj (v : r31Violation) : Obj :=
  makeList [sym "r31-violation"; str (r31_Group v); str (r31_Kind v); str (r31_Name v);
    str (r31_Namespace v); str (r31_FieldPath v); str (r31_Value v); str (r31_Canonical v);
    str (r31_Reason v); sym (if r31_Heuristic v then "origin-template" else "origin-resource");
    sourceToObj (r31_Source v)].
Definition r32ViolationToObj (v : r32Violation) : Obj :=
  makeList [sym "r32-violation"; str (r32_Group v); str (r32_Kind v); str (r32_Name v);
    str (r32_Namespace v); str (r32_FieldPath v); str (r32_Desired v); str (r32_Observed v);
    sym (if r32_Registered v then "registered-yes" else "registered-no"); sourceToObj (r32_Source v)].
Definition r33ViolationToObj (v : r33Violation) : Obj :=
  makeList [sym "r33-violation"; str (r33_Composition v); str (r33_EnvName v); str (r33_Count v);
    sourceToObj (r33_Source v)].
Definition r34ViolationToObj (v : r34Violation) : Obj :=
  makeList [sym "r34-violation"; str (r34_Composition v); str (r34_Group v); str (r34_Kind v);
    str (r34_ActionType v); str (r34_AliasField v); str (r34_CanonicalBlock v); str (r34_Reason v);
    sourceToObj (r34_Source v)].
Definition r35ViolationToObj (v : r35Violation) : Obj :=
  makeList [sym "r35-violation"; str (r35_Group v); str (r35_Kind v); str (r35_Name v);
    str (r35_Namespace v); str (r35_Reason v); sourceToObj (r35_Source v)].
Definition r36ViolationToObj (v : r36Violation) : Obj :=
  makeList [sym "r36-violation"; str (r36_Composition v); str (r36_Group v); str (r36_Kind v);
    str (r36_RuleName v); str (r36_AttachField v); str (r36_RefField v); str (r36_Reason v);
    sourceToObj (r36_Source v)].
Definition esoStoreViolationToObj (v : esoStoreViolation) : Obj :=
  makeList [sym "eso-store-violation"; str (eso_Name v); str (eso_Namespace v); str (eso_StoreName v);
    sourceToObj (eso_Source v)].
Definition fargateEnvLabelViolationToObj (v : fargateEnvLabelViolation) : Obj :=
  let reasonSym := if String.eqb (fel_Reason v) "invalid" then "env-invalid" else "env-missing" in
  makeList [sym "fargate-env-label-violation"; str (fel_Kind v); str (fel_Name v); str (fel_Namespace v);
    sym reasonSym; str (fel_Value v); sourceToObj (fel_Source v)].
Definition providerConfigRefViolationToObj (v : providerConfigRefViolation) : Obj :=
  makeList [sym "providerconfig-ref-violation"; str (pcr_Group v); str (pcr_Kind v); str (pcr_Name v);
    str (pcr_Namespace v); str (pcr_RefName v); sourceToObj (pcr_Source v)].

(** *** Resolved patches: the types on both ends of a patch, as left by
    [resolvePatchTypes] and overridden by a convert transform. *)

Definition patch_types (transforms : list TransformInfo) : string * string :=
  let resolved := foldl (λ ft t,
      if String.eqb (ti_Type t) "__resolved_types" then
        match str_cut "→" (ti_Convert t) with Some (a, b) => (a, b) | None => ft end
      else ft) ("unknown", "unknown") transforms in
  foldl (λ ft t,
      if String.eqb (ti_Type t) "convert" && negb (String.eqb (ti_Convert t) "")
      then (ti_Convert t, snd ft) else ft) resolved transforms.
Definition patch_objs (c : CompositionInfo) (p : PatchInfo) : list Obj :=
  if negb (String.eqb (pi_Type p) "") && negb (String.eqb (pi_Type p) "FromCompositeFieldPath") then []
  else if String.eqb (pi_FromFieldPath p) "" || String.eqb (pi_ToFieldPath p) "" then []
  else let '(fromType, toType) := patch_types (pi_Transforms p) in
  [makeList [sym "resolved-patch"; str (comp_Name c); sourceToObj (comp_Source c);
     str (pi_FromFieldPath p); str (pi_ToFieldPath p); str fromType; str toType]].
Definition resolved_patches (comps : list CompositionInfo) : list Obj :=
  flat_map (λ c, flat_map (λ res, flat_map (patch_objs c) (cr_Patches res)) (comp_Resources c)) comps.

(** *** Sections *)

Definition ssaMPModeSection (mode : string) : Obj :=
  let normalized := if existsb (String.eqb mode) ["observe"; "partial"; "any"] then mode else "observe" in
  makeList [sym "ssa-mp-mode"; sym normalized].
Definition prodPatternsSection (patterns : list string) : Obj := stringListSection "prod-patterns" patterns.

Definition canonical_violations (w : World) : list r31Violation :=
  buildCanonicalFormViolations (w_CanonicalFormUsages w) ++
  buildCanonicalFormTemplateViolations (w_CanonicalFormTemplateFindings w).
Definition fact_sections (w : World) (ignoreDiffEntries : list IgnoreDiffEntry) : list Obj :=
  let comps := sorted_by compositionCmp (w_Compositions w) in [
  sortedSection "crds" (w_CRDs w) crdCmp crdToObj;
  sortedSection "xrds" (w_XRDs w) crdCmp xrdToObj;
  section "compositions" (map compositionToObj comps);
  sortedSection "functions" (w_Functions w) functionCmp functionToObj;
  sortedSection "providers" (w_Providers w) providerCmp providerToObj;
  sortedSection "configurations" (w_Configurations w) configCmp configToObj;
  sortedSection "resources" (w_Resources w) resourceCmp resourceToObj;
  sortedSection "argo-apps" (w_ArgoApps w) argoAppCmp argoAppToObj;
  sortedSection "argo-app-proj-links" (w_ArgoApps w) argoAppCmp argoAppProjLinkToObj;
  sortedSection "argo-appprojects" (w_ArgoProjects w) argoAppProjectCmp argoAppProjectToObj;
  sortedSection "appset-finalizer-facts" (w_ArgoAppSets w) appSetFinalizerCmp appSetFinalizerToObj;
  sortedSection "appset-autosync-facts" (w_ArgoAppSets w) appSetFinalizerCmp appSetAutosyncToObj;
  section "schemas" [];
  section "resolved-patches" (resolved_patches comps);
  sortedSection "mount-refs" (w_MountRefs w) mountRefCmp mountRefToObj;
  sortedSection "sa-refs" (w_SARefs w) saRefCmp saRefToObj;
  sortedSection "rbac-bindings" (w_RBACBindings w) rbacBindingCmp rbacBindingToObj;
  sortedSection "rbac-rules" (w_RBACRules w) rbacRuleCmp rbacRuleToObj;
  sortedSection "immutable-fields" (default [] (w_ImmutableFields w)) immutableFieldCmp immutableFieldToObj;
  sortedSection "selector-mappings" (w_SelectorMappings w) selectorMappingCmp selectorMappingToObj;
  sortedSection "selector-usages" (w_SelectorUsages w) selectorUsageCmp selectorUsageToObj;
  sortedSection "late-init-mappings" (w_LateInitMappings w) lateInitMappingCmp lateInitMappingToObj;
  sortedSection "late-init-usages" (w_LateInitUsages w) lateInitUsageCmp lateInitUsageToObj;
  sortedSection "ignore-diff-entries" ignoreDiffEntries ignoreDiffEntryCmp ignoreDiffEntryToObj;
  sortedSection "resource-field-facts" (w_ResourceFieldFacts w) resourceFieldFactCmp resourceFieldFactToObj;
  sortedSection "render-results" (w_RenderResults w) renderResultCmp renderResultToObj;
  sortedSection "determinism-results" (w_DeterminismResults w) determinismResultCmp determinismResultToObj;
  sortedSection "ssa-mp-conflicts" (w_SSAMPConflicts w) ssaMPConflictCmp ssaMPConflictToObj;
  ssaMPModeSection (w_SSAMPMode w);
  sortedSection "crossplane-deletion-policy-facts" (w_CPDeletionPolicyFacts w) cpDeletionPolicyCmp
    cpDeletionPolicyToObj;
  prodPatternsSection (default [] (w_ProdPatterns w));
  stringListSection "crossplane-state-needs-orphan-carveouts"
    (default [] (default ∅ (w_NameCarveouts w) !! "crossplane-state-needs-orphan")) ].
Definition violation_sections (w : World) (ignoreDiffEntries : list IgnoreDiffEntry)
    (trajectories : list Step) : list Obj := [
  sortedSection "r12-violations" (buildR12Violations (w_MountRefs w) trajectories)
    r12ViolationCmp r12ViolationToObj;
  sortedSection "r14-violations" (buildR14Violations (w_SARefs w) (w_RBACBindings w) trajectories)
    r14ViolationCmp r14ViolationToObj;
  sortedSection "r15-violations" (buildR15Violations w) r15ViolationCmp r15ViolationToObj;
  sortedSection "r16-violations" (buildR16Violations (w_SelectorUsages w) ignoreDiffEntries)
    r16ViolationCmp r16ViolationToObj;
  sortedSection "r21-violations" (buildR21Violations (w_LateInitUsages w) ignoreDiffEntries)
    r21ViolationCmp r21ViolationToObj;
  sortedSection "canonical-form-violations" (canonical_violations w) r31ViolationCmp r31ViolationToObj;
  sortedSection "fixed-point-violations" (buildFixedPointViolations (w_FixedPointUsages w))
    r32ViolationCmp r32ViolationToObj;
  sortedSection "duplicate-env-violations" (buildDuplicateEnvViolations (w_DuplicateEnvFindings w))
    r33ViolationCmp r33ViolationToObj;
  sortedSection "computed-block-alias-violations"
    (buildComputedBlockAliasViolations (w_ComputedBlockAliasFindings w)) r34ViolationCmp r34ViolationToObj;
  sortedSection "external-name-adopt-violations"
    (buildExternalNameAdoptViolations (w_ExternalNameAdoptFindings w)) r35ViolationCmp r35ViolationToObj;
  sortedSection "orphan-sgref-violations" (buildOrphanSGRefViolations (w_OrphanSGRefFindings w))
    r36ViolationCmp r36ViolationToObj;
  sortedSection "providerconfig-ref-violations" (buildProviderConfigRefViolations w)
    providerConfigRefViolationCmp providerConfigRefViolationToObj;
  sortedSection "fargate-env-label-violations" (buildFargateEnvLabelViolations w)
    fargateEnvLabelViolationCmp fargateEnvLabelViolationToObj;
  sortedSection "eso-store-violations" (buildESOStoreViolations w) esoStoreViolationCmp
    esoStoreViolationToObj ].
(** The World comes back with the flattened ignore rules cached. *)
Definition worldStaticSections (w : World) (trajectories : list Step) : list Obj * World :=
  let (entries, w) := getIgnoreDiffEntries w in
  (fact_sections w entries ++ violation_sections w entries trajectories ++ [trajectoryToObj trajectories], w).
Definition worldObjFromSections (staticSections : list Obj) (ruleAllowlist : list string) : Obj :=
  makeList (sym "world" :: staticSections ++ [stringListSection "rule-allowlist" ruleAllowlist]).
Definition worldToShenObj (w : World) (trajectories : list Step) (ruleAllowlist : list string) :
    Obj * World :=
  let (sections, w) := worldStaticSections w trajectories in
  (worldObjFromSections sections ruleAllowlist, w).
End encode.

(** ** The shape of the World object

    The kernel takes the object apart with fixed patterns: every fact is a tuple
    of fixed length with a tag at its head, and every enumerated field is a
    symbol.  A symbol with an upper-case letter would be a variable in such a
    pattern, so none may occur. *)

Definition upper_char (c : ascii) : bool := (65 <=? N_of_ascii c)%N && (N_of_ascii c <=? 90)%N.
Fixpoint no_upper (s : string) : bool :=
  match s with "" => true | String c s => negb (upper_char c) && no_upper s end.

Inductive shape : Type :=
  | ShStr                            (* a string *)
  | ShNum
  | ShBool
  | ShSym                            (* a symbol without upper-case letters *)
  | ShTag (tag : string)             (* that symbol *)
  | ShList (elems : shape)           (* a list of such elements *)
  | ShTuple (fields : list shape)    (* a list of this length *)
  | ShSection (tag : string) (facts : shape).

Section shapes.
Context {Obj : Type} `{!KL Obj}.

Inductive has_shape : shape → Obj → Prop :=
  | is_str s : has_shape ShStr (MakeString s)
  | is_num z : has_shape ShNum (MakeInteger z)
  | is_bool b : has_shape ShBool (boolean b)
  | is_sym s : no_upper s = true → has_shape ShSym (MakeSymbol s)
  | is_tag s : has_shape (ShTag s) (MakeSymbol s)
  | is_list s os : Forall (has_shape s) os → has_shape (ShList s) (makeList os)
  | is_tuple ss os : Forall2 has_shape ss os → has_shape (ShTuple ss) (makeList os)
  | is_section tag s os : Forall (has_shape s) os →
      has_shape (ShSection tag s) (makeList (MakeSymbol tag :: os)).
End shapes.

Definition fact (tag : string) (fields : list shape) : shape := ShTuple (ShTag tag :: fields).
Definition strs (n : nat) : list shape := replicate n ShStr.
Definition source_shape : shape := fact "source" [ShStr; ShNum].
Definition version_shape : shape := ShTuple [ShStr; ShBool; ShBool; ShStr].
Definition key_shape : shape := fact "resource-key" (strs 4).
Definition delta_shape : shape :=
  fact "delta" [ShSection "created" key_shape; ShSection "updated" key_shape; ShSection "deleted" key_shape].
Definition step_shape : shape := fact "step" [ShStr; ShNum; delta_shape; ShSection "state" key_shape].
Definition group_kinds_shape : shape := ShList (fact "group-kind" (strs 2)).

(** The protocol: the sections in order and the facts each one holds. *)
Definition section_shapes : list shape := [
  ShSection "crds" (fact "crd-fact" (strs 3 ++ [ShList version_shape;
    ShTuple [ShStr; ShSym; ShStr]; source_shape]));
  ShSection "xrds" (fact "xrd-fact" (strs 4 ++ [ShList version_shape; source_shape; ShStr]));
  ShSection "compositions" (fact "composition-fact" [ShStr; fact "gvk" (strs 3); ShStr;
    ShList (ShTuple (strs 4)); source_shape; ShStr]);
  ShSection "functions" (fact "function-fact" [ShStr; ShStr; ShList ShStr; source_shape; ShStr]);
  ShSection "providers" (fact "provider-fact" [ShStr; ShStr; source_shape; ShStr]);
  ShSection "configurations" (fact "configuration-fact" [ShStr; ShStr; source_shape]);
  ShSection "resources" (fact "resource-fact" (strs 4 ++ [ShList (ShTuple (strs 2)); source_shape; ShStr]));
  ShSection "argo-apps" (fact "argo-app-fact" [ShStr; ShStr; ShList (ShTuple [ShStr; ShStr; ShNum]);
    source_shape]);
  ShSection "argo-app-proj-links" (fact "argo-app-proj-link" (strs 2));
  ShSection "argo-appprojects" (fact "argo-appproject" [ShStr; ShStr; group_kinds_shape; group_kinds_shape]);
  ShSection "appset-finalizer-facts" (fact "appset-finalizer-fact" [ShStr; ShList ShStr; ShSym; source_shape]);
  ShSection "appset-autosync-facts" (fact "appset-autosync-fact" [ShStr; ShSym; source_shape]);
  ShSection "schemas" (ShTuple []);
  ShSection "resolved-patches" (fact "resolved-patch" ([ShStr; source_shape] ++ strs 4));
  ShSection "mount-refs" (fact "mount-ref-fact" (strs 7 ++ [ShBool; source_shape]));
  ShSection "sa-refs" (fact "sa-ref-fact" (strs 5 ++ [source_shape]));
  ShSection "rbac-bindings" (fact "rbac-binding-fact" (strs 9 ++ [source_shape]));
  ShSection "rbac-rules" (fact "rbac-rule-fact" (strs 3 ++ replicate 4 (ShList ShStr) ++ [source_shape]));
  ShSection "immutable-fields" (fact "immutable-field-fact" (strs 4));
  ShSection "selector-mappings" (fact "selector-mapping-fact" (strs 5));
  ShSection "selector-usages" (fact "selector-usage-fact" (strs 6 ++ [source_shape]));
  ShSection "late-init-mappings" (fact "late-init-mapping-fact" (strs 5));
  ShSection "late-init-usages" (fact "late-init-usage-fact" (strs 5 ++ [source_shape]));
  ShSection "ignore-diff-entries" (fact "ignore-diff-entry" (strs 5 ++ [ShList ShStr]));
  ShSection "resource-field-facts" (fact "resource-field-fact" (strs 5 ++ [ShSym; ShStr; source_shape]));
  ShSection "render-results" (fact "render-result" [ShStr; ShStr; ShSym; ShSym; ShStr;
    ShSection "values-issues" (fact "values-issue" (strs 2)); source_shape]);
  ShSection "determinism-results" (fact "determinism-result" [ShStr; ShStr; ShSym; ShStr; source_shape]);
  ShSection "ssa-mp-conflicts" (fact "ssa-mp-conflict-fact" ([ShStr; ShSym; ShList ShStr] ++ strs 4 ++
    [source_shape]));
  fact "ssa-mp-mode" [ShSym];
  ShSection "crossplane-deletion-policy-facts"
    (fact "cp-deletion-policy-fact" (strs 5 ++ [ShSym; source_shape]));
  ShSection "prod-patterns" ShStr;
  ShSection "crossplane-state-needs-orphan-carveouts" ShStr;
  ShSection "r12-violations" (fact "r12-violation" (strs 7 ++ [source_shape]));
  ShSection "r14-violations" (fact "r14-violation" (strs 8 ++ [source_shape; source_shape]));
  ShSection "r15-violations" (fact "r15-violation" (strs 6 ++ [source_shape]));
  ShSection "r16-violations" (fact "r16-violation" (strs 7 ++ [source_shape]));
  ShSection "r21-violations" (fact "r21-violation" (strs 6 ++ [source_shape]));
  ShSection "canonical-form-violations" (fact "r31-violation" (strs 8 ++ [ShSym; source_shape]));
  ShSection "fixed-point-violations" (fact "r32-violation" (strs 7 ++ [ShSym; source_shape]));
  ShSection "duplicate-env-violations" (fact "r33-violation" (strs 3 ++ [source_shape]));
  ShSection "computed-block-alias-violations" (fact "r34-violation" (strs 7 ++ [source_shape]));
  ShSection "external-name-adopt-violations" (fact "r35-violation" (strs 5 ++ [source_shape]));
  ShSection "orphan-sgref-violations" (fact "r36-violation" (strs 7 ++ [source_shape]));
  ShSection "providerconfig-ref-violations" (fact "providerconfig-ref-violation" (strs 5 ++ [source_shape]));
  ShSection "fargate-env-label-violations"
    (fact "fargate-env-label-violation" (strs 3 ++ [ShSym; ShStr; source_shape]));
  ShSection "eso-store-violations" (fact "eso-store-violation" (strs 3 ++ [source_shape]));
  ShSection "trajectory" step_shape ].
Definition world_shape : shape :=
  ShTuple (ShTag "world" :: section_shapes ++ [ShSection "rule-allowlist" ShStr]).

#[global] Arguments makeList : simpl never.
#[global] Arguments section : simpl never.
#[global] Arguments str : simpl never.
#[global] Arguments sym : simpl never.
#[global] Arguments num : simpl never.
#[global] Arguments boolean : simpl never.

Lemma to_lower_no_upper s : no_upper (to_lower s) = true.
Proof.
  induction s as [|c s IH]; simpl; [done|]. rewrite IH, andb_true_r.
  clear. destruct c as [[] [] [] [] [] [] [] []]; reflexivity.
Qed.

Section typed.
Context {Obj : Type} `{!KL Obj}.

Lemma section_typed {T} (tag : string) s (toObj : T → Obj) l :
  (∀ x, x ∈ l → has_shape s (toObj x)) → has_shape (ShSection tag s) (section tag (map toObj l)).
Proof.
  intros H. apply is_section, Forall_forall. intros o (x & -> & Hx)%list_elem_of_fmap. auto.
Qed.
Lemma sortedSection_typed {T} (tag : string) s cmp (toObj : T → Obj) l :
  (∀ x, x ∈ l → has_shape s (toObj x)) → has_shape (ShSection tag s) (sortedSection tag l cmp toObj).
Proof. intros H. apply section_typed. intros x. unfold sorted_by. rewrite elem_of_sort_slice. auto. Qed.
Lemma list_typed {T} s (toObj : T → Obj) l :
  (∀ x, x ∈ l → has_shape s (toObj x)) → has_shape (ShList s) (makeList (map toObj l)).
Proof.
  intros H. apply is_list, Forall_forall. intros o (x & -> & Hx)%list_elem_of_fmap. auto.
Qed.
Lemma strings_typed tag l : has_shape (ShSection tag ShStr) (stringListSection tag l : Obj).
Proof. apply section_typed. intros. apply is_str. Qed.
Lemma source_typed src : has_shape source_shape (sourceToObj src : Obj).
Proof. repeat constructor. Qed.

Create HintDb encoders.
#[local] Hint Unfold crdToObj xrdToObj compositionToObj functionToObj providerToObj configToObj
  resourceToObj argoAppToObj argoGroupKindToObj argoAppProjectToObj argoAppProjLinkToObj
  appSetAutosyncToObj appSetFinalizerToObj mountRefToObj saRefToObj rbacBindingToObj rbacRuleToObj
  immutableFieldToObj selectorMappingToObj selectorUsageToObj lateInitMappingToObj lateInitUsageToObj
  resourceFieldFactToObj renderResultToObj determinismResultToObj ssaMPConflictToObj
  cpDeletionPolicyToObj ignoreDiffEntryToObj resourceKeyToObj deltaToObj stepToObj stringsToList
  r12ViolationToObj r14ViolationToObj r15ViolationToObj r16ViolationToObj r21ViolationToObj
  r31ViolationToObj r32ViolationToObj r33ViolationToObj r34ViolationToObj r35ViolationToObj
  r36ViolationToObj esoStoreViolationToObj fargateEnvLabelViolationToObj
  providerConfigRefViolationToObj ssaMPModeSection resourceKeyObjs
  fact strs version_shape key_shape delta_shape step_shape group_kinds_shape : encoders.

Ltac shape_step :=
  match goal with
  | |- has_shape ShStr _ => apply is_str
  | |- has_shape ShNum _ => apply is_num
  | |- has_shape ShBool _ => apply is_bool
  | |- has_shape (ShTag _) _ => apply is_tag
  | |- has_shape ShSym _ => apply is_sym; try reflexivity
  | |- has_shape source_shape _ => apply source_typed
  | |- has_shape (ShSection _ ShStr) _ => apply strings_typed
  | |- has_shape (ShSection _ _) _ =>
      first [apply sortedSection_typed; intros ?x ?Hx | apply section_typed; intros ?x ?Hx]
  | |- has_shape (ShList _) _ => apply list_typed; intros ?x ?Hx
  | |- has_shape (ShTuple _) _ => apply is_tuple
  | |- Forall2 _ (_ :: _) (_ :: _) => apply Forall2_cons; split
  | |- Forall2 _ [] [] => constructor
  end.
(** Type an encoded fact, leaving the symbols that are not literals. *)
Ltac shape :=
  repeat (autounfold with encoders; cbn [app replicate]; shape_step).

Lemma whitelist_typed entries set :
  has_shape group_kinds_shape (makeList (projectWhitelist entries set) : Obj).
Proof.
  unfold projectWhitelist. destruct set; simpl.
  - shape.
  - apply is_list. repeat constructor.
Qed.

Lemma ssaMPMode_typed mode : has_shape (fact "ssa-mp-mode" [ShSym]) (ssaMPModeSection mode : Obj).
Proof.
  shape. destruct (existsb _ _) eqn:E; [|done].
  apply existsb_elem_of in E as (s & Hs & ->%String.eqb_eq).
  rewrite !elem_of_cons in Hs. by destruct Hs as [->|[->|[->|?%not_elem_of_nil]]].
Qed.

Lemma resolved_patches_typed comps :
  has_shape (ShSection "resolved-patches" (fact "resolved-patch" ([ShStr; source_shape] ++ strs 4)))
    (section "resolved-patches" (resolved_patches comps) : Obj).
Proof.
  apply is_section, Forall_forall. intros o Ho. unfold resolved_patches in Ho.
  repeat (apply elem_of_flat_map in Ho as (? & ? & Ho)). unfold patch_objs in Ho.
  destruct (negb _ && _); [by apply not_elem_of_nil in Ho|].
  destruct (String.eqb _ _ || _); [by apply not_elem_of_nil in Ho|].
  destruct (patch_types _) as [a b]. apply list_elem_of_singleton in Ho as ->. shape.
Qed.

Lemma violation_sections_typed w entries traj :
  Forall2 has_shape (take 14 (drop 32 section_shapes)) (violation_sections w entries traj : list Obj).
Proof.
  unfold violation_sections. cbn [take drop section_shapes].
  repeat (apply Forall2_cons; split); [..|constructor]; shape.
  - by destruct (r31_Heuristic _).
  - by destruct (r32_Registered _).
  - by destruct (String.eqb _ _).
Qed.

Lemma render_error_kind_lower r : no_upper (rres_ErrorKind r) = true → no_upper (render_error_kind r) = true.
Proof. unfold render_error_kind. intros H. destruct (String.eqb _ _); [by destruct (rres_Success r)|done]. Qed.

Lemma fact_sections_typed w entries :
  Forall (λ r, no_upper (rres_ErrorKind r) = true) (w_RenderResults w) →
  Forall2 has_shape (take 32 section_shapes) (fact_sections w entries : list Obj).
Proof.
  intros Hr. rewrite Forall_forall in Hr. unfold fact_sections. cbn [take section_shapes].
  repeat (apply Forall2_cons; split); [..|constructor];
    try apply resolved_patches_typed; try apply ssaMPMode_typed; shape.
  all: try apply whitelist_typed; try apply to_lower_no_upper.
  - by destruct (asp_PreserveResourcesOnDeletion _).
  - by destruct (sp_Automated _).
  - by apply is_section.
  - by destruct (rf_Violation _).
  - by destruct (rres_Success _).
  - by apply render_error_kind_lower, Hr.
  - by destruct (dr_Mismatch _).
  - by destruct (ssa_ServerSideApply _).
  - by destruct (cp_Bypass _).
Qed.

Lemma trajectory_typed steps : has_shape (ShSection "trajectory" step_shape) (trajectoryToObj steps : Obj).
Proof. unfold trajectoryToObj. shape. Qed.

(** C38: The object handed to the kernel has the protocol's shape for every World
    and trajectory: the sections in their fixed order, every fact a tuple of its
    fixed length and field types under its tag, and no symbol with an upper-case
    letter (which the kernel's patterns would take for a variable), provided the
    renderer's error kinds have none. *)
Theorem worldToShenObj_typed w traj allowlist :
  Forall (λ r, no_upper (rres_ErrorKind r) = true) (w_RenderResults w) →
  has_shape world_shape ((worldToShenObj w traj allowlist).1 : Obj).
Proof.
  intros Hr. unfold worldToShenObj, worldStaticSections.
  destruct (getIgnoreDiffEntries w) as [entries w'] eqn:E.
  assert (Hr' : Forall (λ r, no_upper (rres_ErrorKind r) = true) (w_RenderResults w')).
  { unfold getIgnoreDiffEntries in E. by destruct (w_IgnoreDiffEntries w); injection E as <- <-. }
  cbn [fst]. unfold worldObjFromSections, world_shape. apply is_tuple. constructor; [apply is_tag|].
  apply Forall2_app; [|constructor; [apply strings_typed|constructor]].
  rewrite <- (take_drop 32 section_shapes). apply Forall2_app; [by apply fact_sections_typed|].
  rewrite <- (take_drop 14 (drop 32 section_shapes)).
  apply Forall2_app; [apply violation_sections_typed|].
  constructor; [apply trajectory_typed|constructor].
Qed.
End typed.

Lemma worldToShenObj_typed_witness :
  has_shape world_shape ((worldToShenObj shop_world [web_only] ["XPC012"]).1 : KObj).
Proof. apply worldToShenObj_typed. by constructor. Defined.

(** ** What the kernel reads

    [extract_section] is the kernel's lookup of a section by its tag
    (kernel/check.shen).  [world_facts] says what it has to find: for every
    slice of the World, its encoded elements. *)

Section reads.
Context {Obj : Type} `{!KL Obj, !KLLaws Obj}.

Lemma slice_makeList (l : list Obj) : ListToSlice (makeList l) = l.
Proof. unfold makeList. induction l as [|x l IH]; simpl; [apply slice_nil|]. by rewrite slice_cons, IH. Qed.

Fixpoint extract_section (tag : string) (sections : list Obj) : option (list Obj) :=
  match sections with
  | [] => None
  | o :: rest =>
      match ListToSlice o with
      | head :: facts => if IsSymbol head && String.eqb (GetSymbol head) tag then Some facts
                         else extract_section tag rest
      | [] => extract_section tag rest
      end
  end.
(** A section holds these facts, in some order. *)
Definition holds (tf : string * list Obj) (o : Obj) : Prop :=
  ∃ facts, ListToSlice o = sym tf.1 :: facts ∧ facts ≡ₚ tf.2.

Lemma extract_section_holds (tfs : list (string * list Obj)) (sections : list Obj) tag facts :
  Forall2 holds tfs sections → NoDup tfs.*1 → (tag, facts) ∈ tfs →
  ∃ os, extract_section tag sections = Some os ∧ os ≡ₚ facts.
Proof.
  induction 1 as [|[t fs] o tfs sections (os & Ho & Hp) H IH]; simpl; [by intros _ ?%not_elem_of_nil|].
  intros [Ht Hnd]%NoDup_cons Hin. rewrite Ho. unfold sym; simpl.
  rewrite symbol_is_symbol, get_symbol; simpl.
  apply elem_of_cons in Hin as [[= -> ->]|Hin]; [rewrite String.eqb_refl; eauto|].
  destruct (String.eqb_spec t tag) as [->|]; [|auto].
  destruct Ht. apply list_elem_of_fmap. by exists (tag, facts).
Qed.

Lemma section_holds tag facts : holds (tag, facts) (section tag facts).
Proof. exists facts. unfold section. by rewrite slice_makeList. Qed.
Lemma section_perm_holds tag facts facts' : facts ≡ₚ facts' → holds (tag, facts') (section tag facts).
Proof. intros Hp. exists facts. unfold section. by rewrite slice_makeList. Qed.
Lemma sorted_holds {T} tag (l : list T) cmp (toObj : T → Obj) :
  holds (tag, map toObj l) (sortedSection tag l cmp toObj).
Proof.
  eexists. unfold sortedSection, section. rewrite slice_makeList. split; [done|].
  unfold sorted_by. simpl. by rewrite sort_slice_perm.
Qed.

Definition world_facts (w : World) (traj : list Step) (allowlist : list string) :
    list (string * list Obj) :=
  let entries := (getIgnoreDiffEntries w).1 in [
  ("crds", map crdToObj (w_CRDs w)); ("xrds", map xrdToObj (w_XRDs w));
  ("compositions", map compositionToObj (w_Compositions w));
  ("functions", map functionToObj (w_Functions w)); ("providers", map providerToObj (w_Providers w));
  ("configurations", map configToObj (w_Configurations w));
  ("resources", map resourceToObj (w_Resources w)); ("argo-apps", map argoAppToObj (w_ArgoApps w));
  ("argo-app-proj-links", map argoAppProjLinkToObj (w_ArgoApps w));
  ("argo-appprojects", map argoAppProjectToObj (w_ArgoProjects w));
  ("appset-finalizer-facts", map appSetFinalizerToObj (w_ArgoAppSets w));
  ("appset-autosync-facts", map appSetAutosyncToObj (w_ArgoAppSets w)); ("schemas", []);
  ("resolved-patches", resolved_patches (w_Compositions w));
  ("mount-refs", map mountRefToObj (w_MountRefs w)); ("sa-refs", map saRefToObj (w_SARefs w));
  ("rbac-bindings", map rbacBindingToObj (w_RBACBindings w));
  ("rbac-rules", map rbacRuleToObj (w_RBACRules w));
  ("immutable-fields", map immutableFieldToObj (default [] (w_ImmutableFields w)));
  ("selector-mappings", map selectorMappingToObj (w_SelectorMappings w));
  ("selector-usages", map selectorUsageToObj (w_SelectorUsages w));
  ("late-init-mappings", map lateInitMappingToObj (w_LateInitMappings w));
  ("late-init-usages", map lateInitUsageToObj (w_LateInitUsages w));
  ("ignore-diff-entries", map ignoreDiffEntryToObj entries);
  ("resource-field-facts", map resourceFieldFactToObj (w_ResourceFieldFacts w));
  ("render-results", map renderResultToObj (w_RenderResults w));
  ("determinism-results", map determinismResultToObj (w_DeterminismResults w));
  ("ssa-mp-conflicts", map ssaMPConflictToObj (w_SSAMPConflicts w));
  ("ssa-mp-mode", [sym (if existsb (String.eqb (w_SSAMPMode w)) ["observe"; "partial"; "any"]
                        then w_SSAMPMode w else "observe")]);
  ("crossplane-deletion-policy-facts", map cpDeletionPolicyToObj (w_CPDeletionPolicyFacts w));
  ("prod-patterns", map str (default [] (w_ProdPatterns w)));
  ("crossplane-state-needs-orphan-carveouts",
     map str (default [] (default ∅ (w_NameCarveouts w) !! "crossplane-state-needs-orphan")));
  ("r12-violations", map r12ViolationToObj (buildR12Violations (w_MountRefs w) traj));
  ("r14-violations", map r14ViolationToObj (buildR14Violations (w_SARefs w) (w_RBACBindings w) traj));
  ("r15-violations", map r15ViolationToObj (buildR15Violations w));
  ("r16-violations", map r16ViolationToObj (buildR16Violations (w_SelectorUsages w) entries));
  ("r21-violations", map r21ViolationToObj (buildR21Violations (w_LateInitUsages w) entries));
  ("canonical-form-violations", map r31ViolationToObj (canonical_violations w));
  ("fixed-point-violations", map r32ViolationToObj (buildFixedPointViolations (w_FixedPointUsages w)));
  ("duplicate-env-violations", map r33ViolationToObj (buildDuplicateEnvViolations (w_DuplicateEnvFindings w)));
  ("computed-block-alias-violations",
     map r34ViolationToObj (buildComputedBlockAliasViolations (w_ComputedBlockAliasFindings w)));
  ("external-name-adopt-violations",
     map r35ViolationToObj (buildExternalNameAdoptViolations (w_ExternalNameAdoptFindings w)));
  ("orphan-sgref-violations", map r36ViolationToObj (buildOrphanSGRefViolations (w_OrphanSGRefFindings w)));
  ("providerconfig-ref-violations",
     map providerConfigRefViolationToObj (buildProviderConfigRefViolations w));
  ("fargate-env-label-violations", map fargateEnvLabelViolationToObj (buildFargateEnvLabelViolations w));
  ("eso-store-violations", map esoStoreViolationToObj (buildESOStoreViolations w));
  ("trajectory", map stepToObj traj); ("rule-allowlist", map str allowlist) ].

Lemma resolved_patches_perm cs cs' : cs ≡ₚ cs' → resolved_patches cs ≡ₚ (resolved_patches cs' : list Obj).
Proof. intros H. unfold resolved_patches. by rewrite H. Qed.

(** C6: Every slice of the World reaches the kernel: for each section the kernel
    looks up, it finds exactly the encoded elements of the slice (or of the
    violations built from it), none lost and none added. *)
Theorem worldToShenObj_reads w traj allowlist tag facts :
  (tag, facts) ∈ world_facts w traj allowlist →
  ∃ os, extract_section tag (tail (ListToSlice (worldToShenObj w traj allowlist).1)) = Some os ∧ os ≡ₚ facts.
Proof.
  intros Hin. apply (extract_section_holds (world_facts w traj allowlist)); [|apply (bool_decide_unpack _); reflexivity|done].
  unfold worldToShenObj, worldStaticSections, world_facts. clear Hin.
  destruct (getIgnoreDiffEntries w) as [entries w'] eqn:E.
  assert (Hw : w' = {| w with w_IgnoreDiffEntries := w_IgnoreDiffEntries w' |}).
  { unfold getIgnoreDiffEntries in E. destruct (w_IgnoreDiffEntries w); injection E as <- <-; [|done].
    by destruct w. }
  rewrite Hw. clear Hw E. cbn [fst]. unfold worldObjFromSections. rewrite slice_makeList.
  cbn [tail]. unfold fact_sections, violation_sections. cbn [app].
  repeat (apply Forall2_cons; split); [..|constructor].
  all: try apply sorted_holds; try apply section_holds.
  apply section_perm_holds, resolved_patches_perm, sort_slice_perm.
Qed.
End reads.

Lemma worldToShenObj_reads_witness :
  ∃ os : list KObj, extract_section "resources" (tail (ListToSlice (worldToShenObj shop_world [] []).1)) = Some os ∧
    os ≡ₚ [resourceToObj shop_secret].
Proof.
  apply (worldToShenObj_reads (Obj := KObj) shop_world [] [] "resources" [resourceToObj shop_secret]).
  unfold world_facts. do 6 right. by left.
Defined.
