(* ===== verification/FieldTypes.v ===== *)
(** src/pkg/schemas/fetcher.go: the schema cache (an in-memory map over a
    directory of files), content digests, and the type of a field of an OpenAPI
    schema, which the patch checks use.

    The directory is a map from paths to contents; [json.Unmarshal] and the float
    format of [json.Marshal] are parameters. *)
From Stdlib Require Import ZArith Floats.SpecFloat.
From S2P Require Import Prelude GoStrings Yaml Sha256 Json.

#[local] Open Scope string_scope.
#[local] Open Scope list_scope.

(** ** Field types: a string type with named constants *)

Definition FieldType : Type := string.
Definition FieldTypeString : FieldType := "string".
Definition FieldTypeInteger : FieldType := "integer".
Definition FieldTypeNumber : FieldType := "number".
Definition FieldTypeBoolean : FieldType := "boolean".
Definition FieldTypeObject : FieldType := "object".
Definition FieldTypeArray : FieldType := "array".
Definition FieldTypeUnknown : FieldType := "unknown".

(** The [properties] of a schema node, looked for under openAPIV3Schema too. *)
Definition properties_of (current : raw) : raw :=
  match get_map current "properties" with
  | Some props => Some props
  | None => match get_map current "openAPIV3Schema" with
            | Some oapi => get_map (Some oapi) "properties"
            | None => None
            end
  end.
Fixpoint resolve_parts (current : raw) (parts : list string) : FieldType :=
  match parts with
  | [] => match lookup_raw current "type" with
          | Some (VStr typ) => typ
          | _ => FieldTypeUnknown
          end
  | part :: parts =>
      match properties_of current with
      | None => FieldTypeUnknown
      | Some props => match get_map (Some props) part with
                      | None => FieldTypeUnknown
                      | Some field => resolve_parts (Some field) parts
                      end
      end
  end.
Definition ResolveFieldType (schema : raw) (fieldPath : string) : FieldType :=
  resolve_parts schema (split_on "." fieldPath).

Definition TypeAssignable (from to : FieldType) : bool :=
  if String.eqb from to then true
  else if String.eqb from FieldTypeUnknown || String.eqb to FieldTypeUnknown then true
  else if String.eqb from FieldTypeInteger && String.eqb to FieldTypeNumber then true
  else false.

(** A path through the schema: each part names a property of the node reached. *)
Inductive field_at : raw → list string → raw → Prop :=
  | field_here s : field_at s [] s
  | field_under s props part f parts g :
      properties_of s = Some props → get_map (Some props) part = Some f →
      field_at (Some f) parts g → field_at s (part :: parts) g.

Lemma resolve_parts_spec s parts typ : typ ≠ FieldTypeUnknown →
  resolve_parts s parts = typ ↔
  ∃ g, field_at s parts g ∧ lookup_raw g "type" = Some (VStr typ).
Proof.
  intros Ht. revert s. induction parts as [|part parts IH]; intros s; simpl.
  - split.
    + intros H. exists s. split; [constructor|]. destruct (lookup_raw s "type") as [[]|]; naive_solver.
    + intros (g & Hg & E). inversion Hg; subst. by rewrite E.
  - destruct (properties_of s) as [props|] eqn:Ep.
    2: { split; [naive_solver|]. intros (g & Hg & _). inversion Hg; congruence. }
    destruct (get_map (Some props) part) as [f|] eqn:Ef.
    2: { split; [naive_solver|]. intros (g & Hg & _). inversion Hg; simplify_eq. }
    rewrite IH. split; intros (g & Hg & E); exists g; (split; [|done]).
    + by eapply field_under.
    + inversion Hg; by simplify_eq.
Qed.

(** The type found is the one declared at the end of the path, and "unknown"
    when there is none (or when it is declared so). *)
Lemma ResolveFieldType_spec s path typ : typ ≠ FieldTypeUnknown →
  ResolveFieldType s path = typ ↔
  ∃ g, field_at s (split_on "." path) g ∧ lookup_raw g "type" = Some (VStr typ).
Proof. apply resolve_parts_spec. Qed.

Lemma TypeAssignable_spec from to : TypeAssignable from to = true ↔
  from = to ∨ from = FieldTypeUnknown ∨ to = FieldTypeUnknown ∨
  (from = FieldTypeInteger ∧ to = FieldTypeNumber).
Proof.
  unfold TypeAssignable. destruct (String.eqb_spec from to); [tauto|].
  destruct (String.eqb_spec from FieldTypeUnknown); [tauto|].
  destruct (String.eqb_spec to FieldTypeUnknown); simpl; [tauto|].
  destruct (String.eqb_spec from FieldTypeInteger), (String.eqb_spec to FieldTypeNumber); simpl; naive_solver.
Qed.

(** ** The cache *)

Record Cache : Type := MkCache {
  cache_dir : string;
  cache_entries : gmap string string;
}.
(** The files of the cache directory. *)
Notation disk := (gmap string string).

Definition truncated_digest (data : string) : string := str_take 39 (hashBytes data).
Definition replace_colons (s : string) : string := join "-" (split_on ":" s).
Definition cache_path (c : Cache) (digest : string) : string :=
  path_join [cache_dir c; replace_colons digest +:+ ".json"].

Section cache.
Context (fmt_float : spec_float → string) (other : string → option string).
Context (unmarshal : string → option raw).

(** [data, _ := json.Marshal(schema)]: a failed encoding digests no bytes. *)
Definition Digest (schema : raw) : string :=
  truncated_digest (default "" (json_raw fmt_float other schema)).

Definition CacheGet (c : Cache) (d : disk) (digest : string) : option raw * Cache :=
  match cache_entries c !! digest ≫= unmarshal with
  | Some schema => (Some schema, c)
  | None =>
      match d !! cache_path c digest with
      | None => (None, c)
      | Some data =>
          (unmarshal data, {| c with cache_entries := <[digest := data]> (cache_entries c) |})
      end
  end.
(** The boolean is [err == nil]; [writable] says whether os.WriteFile succeeds. *)
Definition CachePut (writable : bool) (c : Cache) (d : disk) (digest : string) (schema : raw) :
    bool * Cache * disk :=
  match json_raw fmt_float other schema with
  | None => (false, c, d)
  | Some data =>
      let c' := {| c with cache_entries := <[digest := data]> (cache_entries c) |} in
      if writable then (true, c', <[cache_path c digest := data]> d) else (false, c', d)
  end.

(** What was put is got back: from memory by the same process, and from the
    directory by a later one that starts with an empty map, whenever decoding
    inverts the encoding of that schema. *)
Theorem CachePut_Get c d digest schema data c' d' :
  json_raw fmt_float other schema = Some data → unmarshal data = Some schema →
  CachePut true c d digest schema = (true, c', d') →
  (CacheGet c' d' digest).1 = Some schema ∧
  (CacheGet {| cache_dir := cache_dir c; cache_entries := ∅ |} d' digest).1 = Some schema.
Proof.
  intros Hj Hu. unfold CachePut. rewrite Hj. intros [= <- <-]. unfold CacheGet; simpl. split.
  - by rewrite lookup_insert_eq; simpl; rewrite Hu.
  - rewrite lookup_empty; simpl. unfold cache_path; simpl. by rewrite lookup_insert_eq.
Qed.

(** The digest of a schema does not depend on map iteration order. *)
Lemma Digest_same m n : wf_value (VMap m) → same_value (VMap m) (VMap n) →
  Digest (Some m) = Digest (Some n).
Proof. intros Hw Hs. unfold Digest, json_raw. by rewrite (json_value_same _ _ _ _ Hw Hs). Qed.
End cache.

Example CacheGet_disk_ex :
  (CacheGet (λ s, if String.eqb s "{}" then Some (Some []) else None)
    (MkCache "/c" ∅) {[ "/c/sha256-ab.json" := "{}" ]} "sha256:ab").1 = Some (Some []).
Proof. vm_compute. reflexivity. Qed.
