(* ===== verification/Checker.v ===== *)
(** The checker of src/pkg/checker/bridge.go around the kernel call: the
    enrichment of the World, the inventory of rules, the decoding of the
    kernel's judgments, the run summary, and the two ways to run (all rules at
    once, or group by group for profiling).

    The kernel is a parameter ([check_world]); the table of its dispatches
    ([dispatch_codes]) is read off kernel/check.shen, and what the theorem about
    profiling assumes of the kernel is that it runs that table.  Durations and
    the start-up of the interpreter are not modelled. *)
From Stdlib Require Import ZArith.
From S2P Require Import Prelude GoStrings Yaml Types Schemas FieldTypes Trajectory Violations Kl Encode.

#[local] Open Scope string_scope.
#[local] Open Scope list_scope.

(** ** Sync waves *)

Definition wave_key (e : SyncWaveEntry) : string := swe_Kind e +:+ "/" +:+ swe_Name e.
(** The last resource of the XRD's kind whose name is the XRD's kind. *)
Definition xrd_wave (w : World) (xrd : CRDInfo) : Z :=
  foldl (λ wave res, if String.eqb (ri_Kind res) "CompositeResourceDefinition" &&
                        String.eqb (ri_Name res) (crd_Kind xrd)
                     then ParseSyncWave (ri_Annotations res) else wave) 0%Z (w_Resources w).
(** What the loops offer, in their order. *)
Definition wave_candidates (w : World) : list SyncWaveEntry :=
  map (λ xrd, MkSyncWaveEntry "CompositeResourceDefinition" (crd_Kind xrd) (xrd_wave w xrd)) (w_XRDs w) ++
  map (λ res, MkSyncWaveEntry (ri_Kind res) (ri_Name res) (ParseSyncWave (ri_Annotations res))) (w_Resources w) ++
  map (λ comp, MkSyncWaveEntry "Composition" (comp_Name comp) 0) (w_Compositions w) ++
  map (λ fn, MkSyncWaveEntry "Function" (fn_Name fn) 0) (w_Functions w) ++
  map (λ prov, MkSyncWaveEntry "Provider" (pr_Name prov) (ParseSyncWave (pr_Annotations prov))) (w_Providers w).
Definition enrich_app (w : World) (app : ArgoApplication) : ArgoApplication :=
  {| app with app_SyncWaves := extend wave_key (app_SyncWaves app) (wave_candidates w) |}.
Definition enrichSyncWaves (w : World) : World :=
  {| w with w_ArgoApps := map (enrich_app w) (w_ArgoApps w) |}.

(** ** Patch types *)

Definition resolvedTypesTransform (transforms : list TransformInfo) : string :=
  match find_first (λ t, String.eqb (ti_Type t) "__resolved_types") transforms with
  | Some t => ti_Convert t
  | None => ""
  end.
Definition known_type (schema : raw) (path : string) : string :=
  match schema with
  | None => "unknown"
  | Some _ => let ft := ResolveFieldType schema path in
              if negb (String.eqb ft FieldTypeUnknown) then ft else "unknown"
  end.
Definition resolve_patch (xrdSchema crdSchema : raw) (p : PatchInfo) : PatchInfo :=
  if String.eqb (pi_FromFieldPath p) "" || String.eqb (pi_ToFieldPath p) "" then p
  else if negb (String.eqb (resolvedTypesTransform (pi_Transforms p)) "") then p
  else {| p with pi_Transforms := pi_Transforms p ++
            [MkTransformInfo "__resolved_types"
               (known_type xrdSchema (pi_FromFieldPath p) +:+ "→" +:+
                known_type crdSchema (pi_ToFieldPath p))] |}.
Definition schema_of (index : gmap (string * string) raw) (key : string * string) : raw :=
  default None (index !! key).
Definition resolve_composition (index : gmap (string * string) raw) (comp : CompositionInfo) :
    CompositionInfo :=
  let ref := comp_CompositeTypeRef comp in
  let xrdSchema := schema_of index (gvk_Group ref +:+ "/" +:+ gvk_Version ref, gvk_Kind ref) in
  {| comp with comp_Resources := map (λ res,
       let crdSchema := schema_of index (rb_APIVersion (cr_Base res), rb_Kind (cr_Base res)) in
       {| res with cr_Patches := map (resolve_patch xrdSchema crdSchema) (cr_Patches res) |})
     (comp_Resources comp) |}.
Definition resolvePatchTypes (w : World) : World :=
  let (index, w) := BuildSchemaIndex w in
  {| w with w_Compositions := map (resolve_composition index) (w_Compositions w) |}.

(** ** Rules *)

Record ruleGroup : Type := MkRuleGroup { rg_Name : string; rg_Codes : list string }.
Definition allRuleGroups : list ruleGroup := [
  MkRuleGroup "R1" ["XPC001"]; MkRuleGroup "R2" ["XPC002"]; MkRuleGroup "R3" ["XPC003"];
  MkRuleGroup "R4" ["XPC004"]; MkRuleGroup "R5" ["XPC005"]; MkRuleGroup "R6" ["XPC006"];
  MkRuleGroup "R7" ["XPC007"]; MkRuleGroup "R8" ["XPC008"]; MkRuleGroup "R9" ["XPC009"];
  MkRuleGroup "R10" ["XPC010"]; MkRuleGroup "R11" ["XPC011"]; MkRuleGroup "R12" ["XPC012"];
  MkRuleGroup "R14" ["XPC014"]; MkRuleGroup "R15" ["XPC.D.kind-whitelisted"];
  MkRuleGroup "R16" ["XPC.E.selector-needs-ignore-diff"];
  MkRuleGroup "R17" ["XPC.A.resource-field-valid"]; MkRuleGroup "R18" ["XPC.H.helm-renders"];
  MkRuleGroup "R19" ["XPC.H.values-well-typed"]; MkRuleGroup "R20" ["XPC.H.render-deterministic"];
  MkRuleGroup "R21" ["XPC.E.late-init-needs-ignore-diff"];
  MkRuleGroup "R22" ["XPC.E.ssa-managementpolicies-observe"; "XPC.E.ssa-managementpolicies-partial";
                     "XPC.E.ssa-managementpolicies-nondefault"];
  MkRuleGroup "R23" ["XPC.S.crossplane-state-needs-orphan"];
  MkRuleGroup "R24" ["XPC.E.appset-finalizer-without-preserve"];
  MkRuleGroup "R25" ["XPC.E.prod-appset-autosync"];
  MkRuleGroup "R31" ["XPC.M.forprovider-canonical-form"];
  MkRuleGroup "R32" ["XPC.M.observed-desired-fixed-point"];
  MkRuleGroup "R33" ["XPC.M.duplicate-env-key"]; MkRuleGroup "R34" ["XPC.M.computed-block-alias"];
  MkRuleGroup "R35" ["XPC.I.must-adopt-external-name"]; MkRuleGroup "R36" ["XPC.S.orphaned-sgref"] ].
Definition KnownRuleCodes : list string := [
  "XPC001"; "XPC002"; "XPC003"; "XPC004"; "XPC005"; "XPC006"; "XPC007"; "XPC008"; "XPC009"; "XPC010";
  "XPC011"; "XPC012"; "XPC014";
  "XPC.A.resource-field-valid"; "XPC.B.providerconfig-resolves"; "XPC.D.kind-whitelisted";
  "XPC.E.selector-needs-ignore-diff"; "XPC.E.late-init-needs-ignore-diff";
  "XPC.E.ssa-managementpolicies-observe"; "XPC.E.ssa-managementpolicies-partial";
  "XPC.E.ssa-managementpolicies-nondefault"; "XPC.E.appset-finalizer-without-preserve";
  "XPC.E.prod-appset-autosync"; "XPC.E.fargate-claim-env-label"; "XPC.H.helm-renders";
  "XPC.H.values-well-typed"; "XPC.H.render-deterministic"; "XPC.K.externalsecret-store";
  "XPC.M.forprovider-canonical-form"; "XPC.M.observed-desired-fixed-point"; "XPC.M.duplicate-env-key";
  "XPC.S.crossplane-state-needs-orphan" ].
Definition selectedRuleGroups (allowlist : list string) : list ruleGroup :=
  match allowlist with
  | [] => allRuleGroups
  | _ => filter (λ g, Exists (λ code, code ∈ allowlist) (rg_Codes g)) allRuleGroups
  end.

(** The dispatches of check-world (kernel/check.shen), with the codes each one
    asks [rule-allowed?] about. *)
Definition dispatch_codes : list (list string) := [
  ["XPC001"]; ["XPC002"]; ["XPC003"]; ["XPC004"]; ["XPC005"]; ["XPC006"]; ["XPC006"]; ["XPC007"];
  ["XPC008"]; ["XPC009"]; ["XPC010"]; ["XPC011"]; ["XPC012"]; ["XPC014"];
  ["XPC.D.kind-whitelisted"]; ["XPC.E.selector-needs-ignore-diff"]; ["XPC.A.resource-field-valid"];
  ["XPC.H.helm-renders"]; ["XPC.H.values-well-typed"]; ["XPC.H.render-deterministic"];
  ["XPC.E.late-init-needs-ignore-diff"];
  ["XPC.E.ssa-managementpolicies-observe"; "XPC.E.ssa-managementpolicies-partial";
   "XPC.E.ssa-managementpolicies-nondefault"];
  ["XPC.S.crossplane-state-needs-orphan"]; ["XPC.E.appset-finalizer-without-preserve"];
  ["XPC.E.prod-appset-autosync"]; ["XPC.B.providerconfig-resolves"]; ["XPC.E.fargate-claim-env-label"];
  ["XPC.K.externalsecret-store"]; ["XPC.M.forprovider-canonical-form"];
  ["XPC.M.observed-desired-fixed-point"]; ["XPC.M.duplicate-env-key"]; ["XPC.M.computed-block-alias"];
  ["XPC.I.must-adopt-external-name"]; ["XPC.S.orphaned-sgref"] ].
(** [rule-allowed?] for one of the codes. *)
Definition rule_allowed (codes allowlist : list string) : bool :=
  match allowlist with [] => true | _ => existsb (contains_string allowlist) codes end.

(** ** Decoding judgments *)

(** A decoded judgment: the kernel's severity may also be the sentinel
    [severitySatisfied] ([None]), which marks a rule that ran without findings. *)
Record KernelJudgment : Type := MkKernelJudgment {
  ju_Code : string; ju_Severity : option Severity; ju_Source : SourceLocation; ju_Message : string;
  ju_Detail : string; ju_Fix : string; ju_Related : list SourceLocation;
  ju_Obligation : option ObligationRef }.

Definition obligation_table : list (string * (string * string)) := [
  ("XPC001", ("C", "version-coherence")); ("XPC002", ("J", "conversion-cost-opt-in"));
  ("XPC003", ("B", "comp-xrd-ref")); ("XPC004", ("B", "pipeline-fn-ref"));
  ("XPC005", ("B", "patch-compat")); ("XPC006", ("F", "trajectory-wave-order"));
  ("XPC007", ("G", "cross-app-label-tracking")); ("XPC008", ("C", "crossplane-machinery-placement"));
  ("XPC009", ("F", "trajectory-bootstrap")); ("XPC010", ("K", "secret-source-sink"));
  ("XPC011", ("L", "api-deprecation-calendar")); ("XPC012", ("F", "no-dangling-mount"));
  ("XPC014", ("F", "no-rbac-regression")) ].
Definition obligationRefForCode (code : string) : option ObligationRef :=
  match find_first (λ e, String.eqb (fst e) code) obligation_table with
  | None => None
  | Some (_, (category, generator)) =>
      Some {| ob_ID := "XPC." +:+ category +:+ "." +:+ generator; ob_Category := category;
              ob_Generator := generator |}
  end.

Section decode.
Context {Obj : Type} `{!KL Obj}.

Definition objToString (o : Obj) : string :=
  if IsString o then GetString o else if IsSymbol o then GetSymbol o else ObjString o.
Definition objToSeverity (o : Obj) : option Severity :=
  if negb (IsSymbol o) then Some SeverityError
  else let s := GetSymbol o in
  if String.eqb s "error" then Some SeverityError
  else if String.eqb s "warn" || String.eqb s "warning" then Some SeverityWarning
  else if String.eqb s "info" then Some SeverityInfo
  else if String.eqb s "satisfied" then None
  else Some SeverityError.
Definition objToSource (o : Obj) : SourceLocation :=
  match ListToSlice o with
  | _ :: file :: line :: _ =>
      {| sl_File := objToString file; sl_Line := if IsNumber line then GetInteger line else 0%Z;
         sl_Column := 0 |}
  | _ => zero_SourceLocation
  end.
Definition objToRelatedList (o : Obj) : list SourceLocation := map objToSource (ListToSlice o).
Definition objToJudgment (j : Obj) : list KernelJudgment :=
  match ListToSlice j with
  | head :: code :: sev :: src :: msg :: detail :: fix_ :: related :: _ =>
      if negb (IsSymbol head) || negb (String.eqb (GetSymbol head) "judgment") then []
      else [{| ju_Code := objToString code; ju_Severity := objToSeverity sev;
               ju_Source := objToSource src; ju_Message := objToString msg;
               ju_Detail := objToString detail; ju_Fix := objToString fix_;
               ju_Related := objToRelatedList related;
               ju_Obligation := obligationRefForCode (objToString code) |}]
  | _ => []
  end.
Definition objToDiagnostics (o : Obj) : list KernelJudgment := flat_map objToJudgment (ListToSlice o).
End decode.

(** ** The run summary *)

Record RunResult : Type := MkRunResult {
  run_Diagnostics : list Diagnostic;
  run_TotalObligations : nat;
  run_Satisfied : nat;
  run_Violated : nat;
  run_ObligationIDs : list string }.

Definition obligation_id (j : KernelJudgment) : string :=
  match ju_Obligation j with
  | Some ref => if negb (String.eqb (ob_ID ref) "") then ob_ID ref else "XPC." +:+ ju_Code j
  | None => "XPC." +:+ ju_Code j
  end.
Definition diagnostic_of (j : KernelJudgment) (s : Severity) : Diagnostic := {|
  dg_Code := ju_Code j; dg_Severity := s; dg_Message := ju_Message j; dg_Source := ju_Source j;
  dg_Detail := ju_Detail j; dg_Fix := ju_Fix j; dg_Related := ju_Related j;
  dg_Obligation := ju_Obligation j |}.
Record run_state : Type := MkRunState {
  rs_seen : gset string; rs_ids : list string; rs_visible : list Diagnostic;
  rs_violated : nat; rs_satisfied : nat }.
Definition run_step (s : run_state) (j : KernelJudgment) : run_state :=
  let '(seen, ids) := add_new id (rs_seen s, rs_ids s) (obligation_id j) in
  match ju_Severity j with
  | None => MkRunState seen ids (rs_visible s) (rs_violated s) (S (rs_satisfied s))
  | Some sev =>
      MkRunState seen ids (rs_visible s ++ [diagnostic_of j sev])
        (match sev with SeverityError => S (rs_violated s) | _ => rs_violated s end) (rs_satisfied s)
  end.
Definition buildRunResult (all : list KernelJudgment) : RunResult :=
  let s := foldl run_step (MkRunState ∅ [] [] 0 0) all in
  {| run_Diagnostics := rs_visible s; run_TotalObligations := length (rs_ids s);
     run_Satisfied := rs_satisfied s; run_Violated := rs_violated s;
     run_ObligationIDs := sort_slice str_lt (rs_ids s) |}.

(** ** Runs *)

Section runs.
Context {Obj : Type} `{!KL Obj}.
Context (init_error : option string) (check_world : Obj → Obj) (IsError : Obj → bool).

Definition error_judgment (message : string) : KernelJudgment := {|
  ju_Code := "XPC000"; ju_Severity := Some SeverityError; ju_Source := zero_SourceLocation;
  ju_Message := message; ju_Detail := ""; ju_Fix := ""; ju_Related := []; ju_Obligation := None |}.
(** A run that fails reports the one diagnostic and no summary. *)
Definition failed_run (message : string) : RunResult := {|
  run_Diagnostics := [diagnostic_of (error_judgment message) SeverityError];
  run_TotalObligations := 0; run_Satisfied := 0; run_Violated := 0; run_ObligationIDs := [] |}.

Definition group_judgments (staticSections : list Obj) (group : ruleGroup) : list KernelJudgment :=
  let result := check_world (worldObjFromSections staticSections (rg_Codes group)) in
  if IsError result then [error_judgment (rg_Name group +:+ ": check-world: " +:+ ObjString result)]
  else objToDiagnostics result.
Definition profileRules (w : World) (trajectories : list Step) (allowlist : list string) :
    RunResult * World :=
  let (sections, w) := worldStaticSections w trajectories in
  (buildRunResult (flat_map (group_judgments sections) (selectedRuleGroups allowlist)), w).

Record CheckConfig : Type := MkCheckConfig { cc_RuleAllowlist : list string; cc_ProfileRules : bool }.
Definition CheckWithObligations (w : World) (cfg : CheckConfig) : RunResult * World :=
  match init_error with
  | Some e => (failed_run e, w)
  | None =>
      let w := resolvePatchTypes (enrichSyncWaves w) in
      let trajectories := Simulate w in
      if cc_ProfileRules cfg then profileRules w trajectories (cc_RuleAllowlist cfg)
      else
        let (worldObj, w) := worldToShenObj w trajectories (cc_RuleAllowlist cfg) in
        let result := check_world worldObj in
        if IsError result then (failed_run ("check-world: " +:+ ObjString result), w)
        else (buildRunResult (objToDiagnostics result), w)
  end.
Definition Check_ (w : World) (cfg : CheckConfig) : list Diagnostic :=
  run_Diagnostics (CheckWithObligations w cfg).1.
End runs.

(** ** Sync waves: the missing entries, once each *)

(** Every Application keeps its wave entries and gains one for each kind and
    name of the World it has none for, with the wave of the first candidate
    (XRDs before resources before compositions, functions and providers); running
    the enrichment again changes nothing. *)
Theorem enrichSyncWaves_spec w :
  w_ArgoApps (enrichSyncWaves w) = map (enrich_app w) (w_ArgoApps w) ∧
  (∀ app, ∃ added, app_SyncWaves (enrich_app w app) = app_SyncWaves app ++ added ∧
     NoDup (wave_key <$> added) ∧
     (∀ k, k ∈ wave_key <$> added ↔
           k ∈ wave_key <$> wave_candidates w ∧ k ∉ wave_key <$> app_SyncWaves app) ∧
     ∀ e, e ∈ added → ∃ l1 l2, wave_candidates w = l1 ++ e :: l2 ∧ wave_key e ∉ wave_key <$> l1) ∧
  enrichSyncWaves (enrichSyncWaves w) = enrichSyncWaves w.
Proof.
  assert (Hext : ∀ app, app_SyncWaves (enrich_app w app) = app_SyncWaves app ++
    dedup wave_key (filter (λ x, wave_key x ∉ wave_key <$> app_SyncWaves app) (wave_candidates w))).
  { intros app. apply extend_eq. }
  assert (Hk : ∀ app k, k ∈ wave_key <$> dedup wave_key
      (filter (λ x, wave_key x ∉ wave_key <$> app_SyncWaves app) (wave_candidates w)) ↔
      k ∈ wave_key <$> wave_candidates w ∧ k ∉ wave_key <$> app_SyncWaves app).
  { intros app k. rewrite dedup_keys. etransitivity; [|apply and_comm].
    exact (elem_of_fmap_filter_key wave_key (λ k, k ∉ wave_key <$> app_SyncWaves app) _ k). }
  split_and!; [done| |].
  - intros app. eexists. split_and!; [apply Hext|apply dedup_NoDup|apply Hk|].
    intros e He. pose proof (dedup_elem _ _ _ He) as [Hn _]%list_elem_of_filter.
    apply elem_of_dedup in He as (l1 & l2 & El & Hl1).
    apply filter_app_inv in El as (k1 & k2 & Ek & <- & Ek2).
    apply filter_cons_inv in Ek2 as (k3 & k4 & -> & Hk3 & _ & _).
    exists (k1 ++ k3), k4. rewrite Ek, <- app_assoc. split; [done|].
    rewrite fmap_app, not_elem_of_app. split; intros (x & Ex & Hx)%list_elem_of_fmap.
    + apply Hl1, list_elem_of_fmap. exists x. split; [done|]. apply list_elem_of_filter. by rewrite <- Ex.
    + rewrite Forall_forall in Hk3. apply (Hk3 x Hx). by rewrite <- Ex.
  - unfold enrichSyncWaves; simpl. f_equal. rewrite map_map. apply map_ext. intros app.
    assert (E : extend wave_key (app_SyncWaves (enrich_app w app)) (wave_candidates w) =
                app_SyncWaves (enrich_app w app)).
    { rewrite extend_eq. rewrite filter_none; [by rewrite app_nil_r|]. apply Forall_forall.
      intros x Hx Hn. apply Hn. rewrite Hext, fmap_app, elem_of_app, Hk.
      destruct (decide (wave_key x ∈ wave_key <$> app_SyncWaves app)); [by left|right].
      split; [|done]. apply list_elem_of_fmap. eauto. }
    unfold enrich_app at 1. change (wave_candidates _) with (wave_candidates w). by rewrite E.
Qed.

(** ** Patch types: what the kernel is told about a patch *)

(** The arrow that separates the two types starts with this byte. *)
Definition arrow_byte : ascii := byte 226.
Definition convert_of (transforms : list TransformInfo) (from : string) : string :=
  foldl (λ ft t, if String.eqb (ti_Type t) "convert" && negb (String.eqb (ti_Convert t) "")
                 then ti_Convert t else ft) from transforms.

Lemma str_cut_arrow a b : has_char arrow_byte a = false →
  str_cut "→" (a +:+ "→" +:+ b) = Some (a, b).
Proof.
  induction a as [|c a IH]; intros Ha; [reflexivity|].
  rewrite has_char_cons in Ha. apply orb_false_iff in Ha as [Hc Ha].
  change (String c a +:+ "→" +:+ b) with (String c (a +:+ "→" +:+ b)).
  cbn [str_cut]. rewrite (IH Ha).
  replace (has_prefix "→" (String c (a +:+ "→" +:+ b))) with false; [done|].
  cbn [has_prefix]. symmetry. apply andb_false_intro1. exact Hc.
Qed.

Lemma patch_types_snoc ts a b : has_char arrow_byte a = false →
  patch_types (ts ++ [MkTransformInfo "__resolved_types" (a +:+ "→" +:+ b)]) = (convert_of ts a, b).
Proof.
  intros Ha. unfold patch_types. rewrite !foldl_app. cbn [foldl ti_Type ti_Convert].
  rewrite (str_cut_arrow a b Ha).
  replace (String.eqb "__resolved_types" "__resolved_types") with true by reflexivity.
  replace (String.eqb "__resolved_types" "convert") with false by reflexivity. cbn [andb].
  unfold convert_of. revert a Ha. induction ts as [|t ts IH]; intros a Ha; [done|]; cbn [foldl].
  destruct (String.eqb (ti_Type t) "convert" && _) eqn:E; cbn [snd]; [|by apply IH].
  clear IH Ha E. revert a. generalize (ti_Convert t). induction ts as [|u ts IH]; intros s a; [done|].
  cbn [foldl]. destruct (String.eqb (ti_Type u) "convert" && _); cbn [snd]; apply (IH _ a).
Qed.

Lemma known_type_Some s path : known_type (Some s) path = ResolveFieldType (Some s) path.
Proof. unfold known_type. by destruct (String.eqb_spec (ResolveFieldType (Some s) path) FieldTypeUnknown) as [->|]. Qed.

Lemma known_type_spec schema path typ : typ ≠ FieldTypeUnknown →
  known_type schema path = typ ↔
  ∃ s g, schema = Some s ∧ field_at schema (split_on "." path) g ∧ lookup_raw g "type" = Some (VStr typ).
Proof.
  intros Ht. destruct schema as [s|].
  2: { split; [intros E; by destruct Ht|]. by intros (? & ? & ? & _). }
  rewrite known_type_Some, (ResolveFieldType_spec _ _ _ Ht). split.
  - intros (g & Hg & Hty). by exists s, g.
  - intros (? & g & _ & Hg & Hty). by exists g.
Qed.

(** A patch with both paths and no types yet is given the types its schemas
    declare at the two paths ("unknown" when there is no schema or no declared
    type), and that is what the kernel reads off its transforms, a convert
    transform overriding the source type; resolving again changes nothing. *)
Theorem resolve_patch_types xrd crd p :
  pi_FromFieldPath p ≠ "" → pi_ToFieldPath p ≠ "" →
  Forall (λ t, ti_Type t ≠ "__resolved_types") (pi_Transforms p) →
  has_char arrow_byte (known_type xrd (pi_FromFieldPath p)) = false →
  patch_types (pi_Transforms (resolve_patch xrd crd p)) =
    (convert_of (pi_Transforms p) (known_type xrd (pi_FromFieldPath p)), known_type crd (pi_ToFieldPath p)) ∧
  resolve_patch xrd crd (resolve_patch xrd crd p) = resolve_patch xrd crd p ∧
  ∀ schema path typ, typ ≠ FieldTypeUnknown → known_type schema path = typ ↔
    ∃ s g, schema = Some s ∧ field_at schema (split_on "." path) g ∧
           lookup_raw g "type" = Some (VStr typ).
Proof.
  intros Hf Ht Hn Ha.
  assert (Hnone : find_first (λ t, String.eqb (ti_Type t) "__resolved_types") (pi_Transforms p) = None).
  { apply find_first_None. intros t Hin. rewrite Forall_forall in Hn. apply String.eqb_neq. auto. }
  assert (E : resolve_patch xrd crd p = {| p with pi_Transforms := pi_Transforms p ++
    [MkTransformInfo "__resolved_types" (known_type xrd (pi_FromFieldPath p) +:+ "→" +:+
                                          known_type crd (pi_ToFieldPath p))] |}).
  { unfold resolve_patch, resolvedTypesTransform.
    by rewrite (proj2 (String.eqb_neq _ _) Hf), (proj2 (String.eqb_neq _ _) Ht), Hnone. }
  rewrite E. cbn [pi_Transforms]. split_and!; [by apply patch_types_snoc| |apply known_type_spec].
  unfold resolve_patch at 1. cbn [pi_FromFieldPath pi_ToFieldPath pi_Transforms].
  rewrite (proj2 (String.eqb_neq _ _) Hf), (proj2 (String.eqb_neq _ _) Ht). cbn [orb].
  unfold resolvedTypesTransform. rewrite find_first_app, Hnone. cbn [find_first ti_Type ti_Convert].
  replace (String.eqb "__resolved_types" "__resolved_types") with true by reflexivity.
  cbn [ti_Convert]. destruct (String.eqb_spec (known_type xrd (pi_FromFieldPath p) +:+ "→" +:+
                             known_type crd (pi_ToFieldPath p)) "") as [Hnil|]; [|done].
  apply app_str_eq_nil in Hnil as [_ Hnil]. apply app_str_eq_nil in Hnil as [? _]. done.
Qed.

Definition size_schema : raw := Some [("properties", VMap [("size", VMap [("type", VStr "integer")])])].
Definition size_patch : PatchInfo :=
  {| zero_PatchInfo with pi_FromFieldPath := "size"; pi_ToFieldPath := "size" |}.
Lemma resolve_patch_types_witness :
  patch_types (pi_Transforms (resolve_patch size_schema None size_patch)) = ("integer", "unknown").
Proof.
  destruct (resolve_patch_types size_schema None size_patch) as [E _];
    [discriminate|discriminate|by constructor|reflexivity|].
  rewrite E. reflexivity.
Defined.

(** ** Decoding: the judgments of a result *)

Section decoding.
Context {Obj : Type} `{!KL Obj, !KLLaws Obj}.

(** A judgment as the kernel builds it (kernel/check.shen). *)
Definition severity_symbol (s : option Severity) : string :=
  match s with
  | Some SeverityError => "error"
  | Some SeverityWarning => "warn"
  | Some SeverityInfo => "info"
  | None => "satisfied"
  end.
Definition judgment_obj (j : KernelJudgment) : Obj :=
  makeList [sym "judgment"; str (ju_Code j); sym (severity_symbol (ju_Severity j));
    sourceToObj (ju_Source j); str (ju_Message j); str (ju_Detail j); str (ju_Fix j);
    makeList (map sourceToObj (ju_Related j))].
(** The kernel's locations have no column; the bridge adds the obligation. *)
Definition of_kernel (j : KernelJudgment) : Prop :=
  sl_Column (ju_Source j) = 0%Z ∧ Forall (λ s, sl_Column s = 0%Z) (ju_Related j) ∧
  ju_Obligation j = obligationRefForCode (ju_Code j).

Lemma objToString_str s : objToString (str s : Obj) = s.
Proof. unfold objToString, str. by rewrite string_is_string, get_string. Qed.
Lemma objToSeverity_sym s : objToSeverity (sym (severity_symbol s) : Obj) = s.
Proof. unfold objToSeverity, sym. rewrite symbol_is_symbol, get_symbol. by destruct s as [[]|]. Qed.
Lemma objToSource_source src : sl_Column src = 0%Z → objToSource (sourceToObj src : Obj) = src.
Proof.
  intros Hc. unfold objToSource, sourceToObj. rewrite slice_makeList. cbv beta iota.
  rewrite objToString_str. unfold num. rewrite integer_is_number, get_integer.
  destruct src; simpl in *; by subst.
Qed.
Lemma objToJudgment_obj j : of_kernel j → objToJudgment (judgment_obj j : Obj) = [j].
Proof.
  intros (Hs & Hr & Ho). unfold objToJudgment, judgment_obj. rewrite slice_makeList. cbv beta iota zeta.
  rewrite !objToString_str, objToSeverity_sym, (objToSource_source _ Hs).
  unfold sym at 1 2. rewrite symbol_is_symbol, get_symbol.
  unfold objToRelatedList. rewrite slice_makeList, map_map.
  rewrite (map_ext_in _ id), map_id.
  2: { intros s Hin. rewrite Forall_forall in Hr. apply objToSource_source, Hr. by apply list_elem_of_In. }
  rewrite <- Ho. by destruct j.
Qed.
Lemma decode_judgments js : Forall of_kernel js →
  objToDiagnostics (makeList (map judgment_obj js) : Obj) = js.
Proof.
  intros Hj. unfold objToDiagnostics. rewrite slice_makeList.
  induction Hj as [|j js Hj _ IH]; simpl; [done|]. by rewrite (objToJudgment_obj j Hj), IH.
Qed.
End decoding.

(** What the kernel left beside its judgments: too short, or not tagged so. *)
Definition not_judgment `{!KL Obj} (o : Obj) : Prop :=
  match ListToSlice o with
  | head :: _ :: _ :: _ :: _ :: _ :: _ :: _ :: _ => IsSymbol head && String.eqb (GetSymbol head) "judgment" = false
  | _ => True
  end.

(** C7: The bridge recovers every judgment the kernel built, field by field and in
    order, whatever other objects stand between them, with the obligation of its
    code added. *)
Theorem objToDiagnostics_judgments `{!KL Obj, !KLLaws Obj} (items : list (Obj + KernelJudgment)) :
  Forall (λ i, match i with inl o => not_judgment o | inr j => of_kernel j end) items →
  objToDiagnostics (makeList (map (λ i, match i with inl o => o | inr j => judgment_obj j end) items)) =
  omap (λ i, match i with inl _ => None | inr j => Some j end) items.
Proof.
  intros Hi. unfold objToDiagnostics. rewrite slice_makeList.
  induction Hi as [|[o|j] items Hi _ IH]; simpl; [done| |by rewrite (objToJudgment_obj j Hi), IH].
  rewrite IH. unfold objToJudgment. unfold not_judgment in Hi.
  destruct (ListToSlice o) as [|head [|? [|? [|? [|? [|? [|? [|? ?]]]]]]]]; try done.
  destruct (IsSymbol head); simpl in *; [by rewrite Hi|done].
Qed.

Definition orphan_judgment : KernelJudgment := {|
  ju_Code := "XPC012"; ju_Severity := Some SeverityWarning;
  ju_Source := {| sl_File := "app.yaml"; sl_Line := 7; sl_Column := 0 |}; ju_Message := "dangling";
  ju_Detail := ""; ju_Fix := ""; ju_Related := []; ju_Obligation := obligationRefForCode "XPC012" |}.
Lemma objToDiagnostics_judgments_witness :
  objToDiagnostics (makeList [KStr "log"; judgment_obj orphan_judgment]) = [orphan_judgment].
Proof.
  apply (objToDiagnostics_judgments [inl (KStr "log"); inr orphan_judgment]).
  repeat constructor.
Defined.

(** ** The summary of a run *)

Definition visible (j : KernelJudgment) : list Diagnostic :=
  match ju_Severity j with Some s => [diagnostic_of j s] | None => [] end.
Definition is_error (d : Diagnostic) : Prop := dg_Severity d = SeverityError.
#[export] Instance is_error_dec d : Decision (is_error d).
Proof. unfold is_error. solve_decision. Defined.
Definition is_marker (j : KernelJudgment) : Prop := ju_Severity j = None.
#[export] Instance is_marker_dec j : Decision (is_marker j).
Proof. unfold is_marker. apply _. Defined.

Lemma run_fold l :
  foldl run_step (MkRunState ∅ [] [] 0 0) l =
  MkRunState (foldl (add_new id) (∅, []) (map obligation_id l)).1 (dedup id (map obligation_id l))
    (flat_map visible l) (length (filter is_error (flat_map visible l))) (length (filter is_marker l)).
Proof.
  induction l as [|j l IH] using rev_ind; [done|].
  rewrite foldl_app, IH, map_app, flat_map_app, !filter_app, !length_app. unfold dedup.
  rewrite foldl_app. cbn [foldl map flat_map]. unfold run_step, visible. cbn [rs_seen rs_ids].
  destruct (foldl (add_new id) (∅, []) (map obligation_id l)) as [seen ids]. cbn [fst snd].
  destruct (add_new id (seen, ids) (obligation_id j)) as [seen' ids'] eqn:E.
  rewrite !filter_cons, filter_nil. destruct (ju_Severity j) as [s|] eqn:Es.
  - rewrite (decide_False (P := is_marker j)) by (unfold is_marker; by rewrite Es).
    cbn [app]. rewrite filter_cons, filter_nil. cbn [length].
    destruct s; (case_decide as Hs; [try done|try by destruct Hs]); cbn; f_equal; lia.
  - rewrite (decide_True (P := is_marker j)) by done.
    cbn. rewrite !app_nil_r. f_equal; lia.
Qed.

(** The run summary accounts for every judgment: the diagnostics are the
    judgments that are not markers, in order, Violated counts the errors among
    them, Satisfied the markers, and the obligation IDs are exactly those of the
    judgments, each once and sorted, TotalObligations counting them. *)
Theorem buildRunResult_spec all :
  run_Diagnostics (buildRunResult all) = flat_map visible all ∧
  run_Violated (buildRunResult all) = length (filter is_error (run_Diagnostics (buildRunResult all))) ∧
  run_Satisfied (buildRunResult all) = length (filter is_marker all) ∧
  length (run_Diagnostics (buildRunResult all)) + run_Satisfied (buildRunResult all) = length all ∧
  StronglySorted (λ a b, str_lt a b = true) (run_ObligationIDs (buildRunResult all)) ∧
  (∀ i, i ∈ run_ObligationIDs (buildRunResult all) ↔ ∃ j, j ∈ all ∧ obligation_id j = i) ∧
  run_TotalObligations (buildRunResult all) = length (run_ObligationIDs (buildRunResult all)).
Proof.
  unfold buildRunResult. rewrite run_fold. cbn [run_Diagnostics run_Violated run_Satisfied
    run_ObligationIDs run_TotalObligations rs_visible rs_ids rs_violated rs_satisfied].
  split_and!; [done..| | | |].
  - induction all as [|j all IH]; [done|]. simpl. rewrite length_app, filter_cons. unfold visible at 1.
    case_decide as E; unfold is_marker in E; destruct (ju_Severity j); simpl; try done; lia.
  - apply sort_strings_strict. rewrite <- (list_fmap_id (dedup id _)). apply dedup_NoDup.
  - intros i. rewrite elem_of_sort_slice. rewrite <- (list_fmap_id (dedup id _)).
    rewrite dedup_keys, list_fmap_id. rewrite list_elem_of_fmap. naive_solver.
  - by rewrite length_sort_slice.
Qed.

(** The markers are counted, not the obligations: the kernel runs two rules under
    the code XPC006, and when both are clean one obligation is satisfied twice. *)
Example satisfied_exceeds_total :
  let marker := {| ju_Code := "XPC006"; ju_Severity := None; ju_Source := zero_SourceLocation;
                   ju_Message := ""; ju_Detail := ""; ju_Fix := ""; ju_Related := [];
                   ju_Obligation := obligationRefForCode "XPC006" |} in
  run_Satisfied (buildRunResult [marker; marker]) = 2 ∧
  run_TotalObligations (buildRunResult [marker; marker]) = 1.
Proof. by vm_compute. Qed.

(** ** Profiling: the same judgments, but for three rules *)

(** Dispatches no rule group names. *)
Definition grouped (codes : list string) : bool :=
  existsb (λ g, rule_allowed codes (rg_Codes g)) allRuleGroups.
(** The groups of a dispatch: the one with its codes, or none. *)
Definition groups_of (codes : list string) : list ruleGroup :=
  filter (λ g, rule_allowed codes (rg_Codes g) = true) allRuleGroups.

Lemma groups_of_dispatch codes : codes ∈ dispatch_codes →
  rg_Codes <$> groups_of codes = if grouped codes then [codes] else [].
Proof.
  revert codes. apply Forall_forall. apply (bool_decide_unpack _). vm_compute. exact I.
Qed.
Lemma ungrouped_dispatches : filter (λ c, grouped c = false) dispatch_codes =
  [["XPC.B.providerconfig-resolves"]; ["XPC.E.fargate-claim-env-label"]; ["XPC.K.externalsecret-store"]].
Proof. reflexivity. Qed.

Lemma rule_allowed_Exists codes allowlist : allowlist ≠ [] →
  rule_allowed codes allowlist = true ↔ Exists (λ c, c ∈ allowlist) codes.
Proof.
  intros Ha. unfold rule_allowed. destruct allowlist; [done|]. rewrite existsb_elem_of, Exists_exists.
  by setoid_rewrite contains_string_spec.
Qed.
Lemma selectedRuleGroups_filter allowlist :
  selectedRuleGroups allowlist = filter (λ g, rule_allowed (rg_Codes g) allowlist = true) allRuleGroups.
Proof.
  destruct allowlist as [|a l]; [by rewrite filter_all; [|apply Forall_forall]|].
  unfold selectedRuleGroups. apply list_filter_iff. intros g. by rewrite rule_allowed_Exists.
Qed.

(** Running the selected groups runs each allowed dispatch that has a group. *)
Lemma selected_run {A} (f : list A) codes allowlist : codes ∈ dispatch_codes →
  flat_map (λ g, if rule_allowed codes (rg_Codes g) then f else []) (selectedRuleGroups allowlist) =
  if rule_allowed codes allowlist && grouped codes then f else [].
Proof.
  intros Hc. rewrite selectedRuleGroups_filter.
  transitivity (flat_map (λ c, if rule_allowed c allowlist then f else []) (rg_Codes <$> groups_of codes)).
  - unfold groups_of. induction allRuleGroups as [|g gs IH]; [done|].
    rewrite !filter_cons. destruct (rule_allowed (rg_Codes g) allowlist) eqn:Ea, (rule_allowed codes (rg_Codes g)) eqn:Eg;
      repeat (rewrite decide_True by done); repeat (rewrite decide_False by done); simpl;
      rewrite ?Ea, ?Eg; simpl; by rewrite IH.
  - rewrite groups_of_dispatch by done. destruct (grouped codes); simpl.
    + rewrite app_nil_r. by destruct (rule_allowed codes allowlist).
    + by rewrite andb_false_r.
Qed.

Section profile.
Context {Obj : Type} `{!KL Obj}.
Context (check_world : Obj → Obj) (IsError : Obj → bool).
(** The kernel's check-world: a table of dispatches with the codes of
    [dispatch_codes]; each allowed one contributes its judgments, in order. *)
Context (dispatch : list (list string * (list Obj → list KernelJudgment))).
Definition run_dispatch (allowed : list string → bool) (sections : list Obj) : list KernelJudgment :=
  flat_map (λ d, if allowed (fst d) then snd d sections else []) dispatch.
Definition runs_table : Prop :=
  dispatch.*1 = dispatch_codes ∧
  ∀ sections allowlist,
    IsError (check_world (worldObjFromSections sections allowlist)) = false ∧
    objToDiagnostics (check_world (worldObjFromSections sections allowlist)) =
    run_dispatch (λ codes, rule_allowed codes allowlist) sections.

Lemma profile_runs sections allowlist : runs_table →
  flat_map (group_judgments check_world IsError sections) (selectedRuleGroups allowlist) ≡ₚ
  run_dispatch (λ codes, rule_allowed codes allowlist && grouped codes) sections.
Proof.
  intros [Hd Hk]. transitivity (flat_map (λ g, run_dispatch (λ codes, rule_allowed codes (rg_Codes g)) sections)
                                 (selectedRuleGroups allowlist)).
  { apply Permutation_refl', flat_map_ext. intros g. unfold group_judgments.
    destruct (Hk sections (rg_Codes g)) as [-> ->]. done. }
  unfold run_dispatch. rewrite flat_map_swap. apply Permutation_refl'.
  assert (Hin : Forall (λ d, d.1 ∈ dispatch_codes) dispatch).
  { apply Forall_forall. intros d Hd'. rewrite <- Hd. by apply list_elem_of_fmap_2. }
  clear Hd Hk. induction Hin as [|d ds Hin _ IH]; [done|]. cbn [flat_map].
  by rewrite IH, selected_run.
Qed.

Lemma run_dispatch_split (allowed : list string → bool) sections :
  run_dispatch allowed sections ≡ₚ
  run_dispatch (λ c, allowed c && grouped c) sections ++
  run_dispatch (λ c, allowed c && negb (grouped c)) sections.
Proof.
  unfold run_dispatch. induction dispatch as [|d ds IH]; [done|]. cbn [flat_map]. rewrite IH.
  destruct (allowed d.1), (grouped d.1); simpl; [solve_Permutation..|done|done].
Qed.

Lemma visible_marker_perm js js' : js ≡ₚ js' →
  run_Diagnostics (buildRunResult js) ≡ₚ flat_map visible js' ∧
  run_Satisfied (buildRunResult js) = length (filter is_marker js').
Proof.
  intros Hp. unfold buildRunResult. rewrite run_fold. cbn. split; [by rewrite Hp|by rewrite Hp].
Qed.

(** The World the sections are built from. *)
Definition sections_of (w : World) : list Obj :=
  let w := resolvePatchTypes (enrichSyncWaves w) in (worldStaticSections w (Simulate w)).1.

(** With a kernel that runs the dispatch table, a profiled run has the
    diagnostics and the satisfied markers of the full run, up to order, except
    those of exactly three dispatches no rule group names
    (XPC.B.providerconfig-resolves, XPC.E.fargate-claim-env-label and
    XPC.K.externalsecret-store), which it never runs. *)
Theorem profile_vs_full w allowlist : runs_table →
  let full := (CheckWithObligations None check_world IsError w (MkCheckConfig allowlist false)).1 in
  let profiled := (CheckWithObligations None check_world IsError w (MkCheckConfig allowlist true)).1 in
  let missing := run_dispatch (λ c, rule_allowed c allowlist && negb (grouped c)) (sections_of w) in
  run_Diagnostics full ≡ₚ run_Diagnostics profiled ++ flat_map visible missing ∧
  run_Satisfied full = run_Satisfied profiled + length (filter is_marker missing) ∧
  filter (λ c, grouped c = false) dispatch_codes =
    [["XPC.B.providerconfig-resolves"]; ["XPC.E.fargate-claim-env-label"]; ["XPC.K.externalsecret-store"]].
Proof.
  intros Hk full profiled missing. subst full profiled missing. unfold CheckWithObligations, sections_of.
  cbn [cc_ProfileRules cc_RuleAllowlist]. unfold profileRules, worldToShenObj.
  destruct (worldStaticSections _ _) as [sections w']. cbn [fst].
  destruct Hk as [Hd Hrun]. destruct (Hrun sections allowlist) as [-> ->]. cbn [fst].
  destruct (visible_marker_perm _ _ (profile_runs sections allowlist (conj Hd Hrun))) as [-> ->].
  destruct (visible_marker_perm _ _ (run_dispatch_split (λ c, rule_allowed c allowlist) sections)) as [-> ->].
  rewrite flat_map_app, filter_app, length_app. split_and!; [done..|]. apply ungrouped_dispatches.
Qed.
End profile.

(** A kernel over [KObj]: every dispatch reports its first code once; it reads the
    allowlist off the last section. *)
Definition toy_dispatch : list (list string * (list KObj → list KernelJudgment)) :=
  map (λ codes, (codes, λ _, [{| ju_Code := hd "" codes; ju_Severity := Some SeverityWarning;
    ju_Source := zero_SourceLocation; ju_Message := ""; ju_Detail := ""; ju_Fix := "";
    ju_Related := []; ju_Obligation := obligationRefForCode (hd "" codes) |}])) dispatch_codes.
Definition toy_allowlist (world : KObj) : list string :=
  match last (ListToSlice world) with
  | Some o => map GetString (tail (ListToSlice o))
  | None => []
  end.
Definition toy_kernel (world : KObj) : KObj :=
  makeList (map judgment_obj (run_dispatch toy_dispatch (λ c, rule_allowed c (toy_allowlist world)) [])).

Lemma toy_runs : runs_table toy_kernel (λ _, false) toy_dispatch.
Proof.
  split; [by vm_compute|]. intros sections allowlist. split; [done|].
  assert (Ha : toy_allowlist (worldObjFromSections sections allowlist) = allowlist).
  { unfold toy_allowlist, worldObjFromSections, stringListSection. rewrite slice_makeList.
    rewrite app_comm_cons, last_snoc, slice_makeList. cbn [tail]. rewrite map_map.
    rewrite <- (map_id allowlist) at 2. apply map_ext. apply get_string. }
  unfold toy_kernel. rewrite Ha, decode_judgments; [done|].
  unfold run_dispatch, toy_dispatch. apply Forall_flat_map, Forall_forall.
  intros d (codes & -> & _)%list_elem_of_fmap. cbn [fst snd].
  destruct (rule_allowed codes allowlist); [|by constructor]. repeat constructor.
Qed.
Lemma profile_vs_full_witness :
  length (run_Diagnostics (CheckWithObligations None toy_kernel (λ _, false) shop_world
    (MkCheckConfig [] false)).1) = 3 + length (run_Diagnostics (CheckWithObligations None toy_kernel
    (λ _, false) shop_world (MkCheckConfig [] true)).1).
Proof.
  destruct (profile_vs_full toy_kernel (λ _, false) toy_dispatch shop_world [] toy_runs) as [Hp _].
  rewrite Hp, length_app. rewrite Nat.add_comm. f_equal.
Defined.

(** Codes the kernel dispatches that a rule filter does not know. *)
Lemma unknown_codes : filter (λ c, c ∉ KnownRuleCodes) (mjoin dispatch_codes) =
  ["XPC.M.computed-block-alias"; "XPC.I.must-adopt-external-name"; "XPC.S.orphaned-sgref"].
Proof. by vm_compute. Qed.
