(* ===== verification/Documents.v ===== *)
(** From decoded documents to the World: [ClassifyDocument]
    (src/pkg/loader/loader.go) and the parsers of src/pkg/ir/builder.go, one per
    category, with the loop of [Build] that runs them.

    Rendering is a hook of that loop ([on_app]), called with each parsed
    Application; the passes that follow the loop are in their own files.
    [encoding/json] of floats and foreign values is a parameter, as in Json.v. *)
From Stdlib Require Import ZArith Floats.SpecFloat.
From S2P Require Import Prelude GoStrings Yaml Types Json FieldTypes.

#[local] Open Scope string_scope.
#[local] Open Scope list_scope.

(** ** Documents *)

(** The decoder's node is only kept for its position, which [ld_Source] holds. *)
Record LoadedDocument : Type := MkLoadedDocument {
  ld_Source : SourceLocation;
  ld_APIVersion : string;
  ld_Kind : string;
  ld_Raw : raw;
}.

Definition ClassifyDocument (doc : LoadedDocument) : string :=
  let kind := String.eqb (ld_Kind doc) in
  let version p := has_prefix p (ld_APIVersion doc) in
  if kind "CustomResourceDefinition" then "crd"
  else if kind "CompositeResourceDefinition" then "xrd"
  else if kind "Composition" then "composition"
  else if kind "Function" && version "pkg.crossplane.io/" then "function"
  else if kind "Provider" && version "pkg.crossplane.io/" then "provider"
  else if kind "Configuration" && version "pkg.crossplane.io/" then "configuration"
  else if kind "Application" && version "argoproj.io/" then "argo-application"
  else if kind "AppProject" && version "argoproj.io/" then "argo-appproject"
  else if kind "ApplicationSet" && version "argoproj.io/" then "argo-applicationset"
  else "resource".

(** *** Accessors *)

(** The elements of a list that are maps: [vm, ok := v.(map[string]interface{})]. *)
Definition get_maps (m : raw) (key : string) : list obj := omap as_map (default [] (get_slice m key)).
(** The string members of a map, copied into a [map[string]string]. *)
Definition add_member (out : gmap string string) (kv : string * value) : gmap string string :=
  match snd kv with VStr s => <[fst kv := s]> out | _ => out end.
Definition string_members (m : raw) : gmap string string := foldl add_member ∅ (default [] m).
Definition getName (m : raw) : string :=
  match get_map m "metadata" with
  | None => "<unknown>"
  | metadata => if String.eqb (get_str metadata "name") "" then "<unknown>" else get_str metadata "name"
  end.
Definition parseGVK (apiVersion kind : string) : GVK :=
  match cut_char "/" apiVersion with
  | Some (group, version) => MkGVK group version kind
  | None => MkGVK "" apiVersion kind
  end.
(** The second component says whether the key is there at all. *)
Definition group_kind_of (m : obj) : ArgoGroupKind :=
  MkArgoGroupKind (get_str (Some m) "group") (get_str (Some m) "kind").
Definition parseGroupKindList (spec : raw) (key : string) : list ArgoGroupKind * bool :=
  match lookup_raw spec key with
  | None => ([], false)
  | Some _ => (map group_kind_of (get_maps spec key), true)
  end.
(** [int(x)] of a float64: towards zero, and the minimum out of range (amd64). *)
Definition int_of_float (f : spec_float) : Z :=
  let n := match f with
           | S754_zero _ => 0%Z
           | S754_finite s m e =>
               let a := (if (0 <=? e)%Z then Z.pos m * 2 ^ e else Z.pos m / 2 ^ (- e))%Z in
               if s then (- a)%Z else a
           | _ => (2 ^ 63)%Z
           end in
  if in_int64 n then n else (- 2 ^ 63)%Z.

(** ** Argo CD sources and policies *)

Definition param_of (m : obj) : ArgoHelmParam :=
  MkArgoHelmParam (get_str (Some m) "name") (get_str (Some m) "value").
Definition env_of (m : obj) : ArgoPluginEnv :=
  MkArgoPluginEnv (get_str (Some m) "name") (get_str (Some m) "value").
Definition helm_of (helm : raw) : ArgoHelmSource := {|
  hs_ValueFiles := get_string_slice helm "valueFiles";
  hs_ValuesObject := get_map helm "valuesObject";
  hs_Values := get_str helm "values";
  hs_ReleaseName := get_str helm "releaseName";
  hs_Parameters := map param_of (get_maps helm "parameters") |}.
Definition kustomize_of (kust : raw) : ArgoKustomizeSource := {|
  ks_NamePrefix := get_str kust "namePrefix";
  ks_NameSuffix := get_str kust "nameSuffix";
  ks_Images := get_string_slice kust "images";
  ks_CommonLabels := string_members (get_map kust "commonLabels");
  ks_CommonAnnotations := string_members (get_map kust "commonAnnotations") |}.
Definition plugin_of (plugin : raw) : ArgoPluginSource := {|
  pls_Name := get_str plugin "name"; pls_Env := map env_of (get_maps plugin "env") |}.
Definition directory_of (dir : raw) : ArgoDirectorySource := {|
  ds_Recurse := get_bool dir "recurse"; ds_Exclude := get_str dir "exclude";
  ds_Include := get_str dir "include" |}.
Definition parseArgoSource (m : raw) : ArgoSource :=
  let src := {| zero_ArgoSource with as_RepoURL := get_str m "repoURL"; as_Path := get_str m "path";
    as_TargetRevision := get_str m "targetRevision"; as_Chart := get_str m "chart";
    as_Ref := get_str m "ref" |} in
  match get_map m "helm" with
  | Some helm => {| src with as_Renderer := "helm"; as_Helm := Some (helm_of (Some helm)) |}
  | None =>
  match get_map m "kustomize" with
  | Some kust => {| src with as_Renderer := "kustomize"; as_Kustomize := Some (kustomize_of (Some kust)) |}
  | None =>
  match get_map m "plugin" with
  | Some plugin => {| src with as_Renderer := "plugin"; as_Plugin := Some (plugin_of (Some plugin)) |}
  | None =>
  match get_map m "directory" with
  | Some dir => {| src with as_Renderer := "directory"; as_Directory := Some (directory_of (Some dir)) |}
  | None => {| src with as_Renderer := "directory" |}
  end end end end.

Definition set_option (so : ArgoSyncOptions) (s : string) : ArgoSyncOptions :=
  if String.eqb s "Replace=true" then {| so with so_Replace := true |}
  else if String.eqb s "ServerSideApply=true" then {| so with so_ServerSideApply := true |}
  else if String.eqb s "Prune=true" then {| so with so_Prune := true |}
  else if String.eqb s "PruneLast=true" then {| so with so_PruneLast := true |}
  else if String.eqb s "CreateNamespace=true" then {| so with so_CreateNamespace := true |}
  else if String.eqb s "ApplyOutOfSyncOnly=true" then {| so with so_ApplyOutOfSyncOnly := true |}
  else if String.eqb s "Validate=true" then {| so with so_Validate := true |}
  else if String.eqb s "FailOnSharedResource=true" then {| so with so_FailOnSharedResource := true |}
  else if String.eqb s "RespectIgnoreDifferences=true" then {| so with so_RespectIgnoreDifferences := true |}
  else so.
Definition retry_limit (retry : raw) : Z :=
  match lookup_raw retry "limit" with Some (VFloat f) => int_of_float f | _ => 0%Z end.
Definition parseArgoSyncPolicy (m : raw) : ArgoSyncPolicy := {|
  sp_Automated := (λ a, MkArgoAutomatedSync (get_bool (Some a) "prune") (get_bool (Some a) "selfHeal")) <$>
                    get_map m "automated";
  sp_SyncOptions := foldl set_option zero_ArgoSyncOptions (get_string_slice m "syncOptions");
  sp_Retry := (λ r, {| zero_ArgoRetryPolicy with rp_Limit := retry_limit (Some r) |}) <$> get_map m "retry";
  sp_PreserveResourcesOnDeletion := get_bool m "preserveResourcesOnDeletion" |}.
Definition parseArgoIgnoreDiff (m : obj) : ArgoIgnoreDiff := {|
  igd_Group := get_str (Some m) "group"; igd_Kind := get_str (Some m) "kind";
  igd_Name := get_str (Some m) "name"; igd_Namespace := get_str (Some m) "namespace";
  igd_JSONPointers := get_string_slice (Some m) "jsonPointers";
  igd_JQPathExpressions := get_string_slice (Some m) "jqPathExpressions";
  igd_ManagedFieldsManagers := get_string_slice (Some m) "managedFieldsManagers" |}.
Definition destination_of (spec : raw) : ArgoDestination :=
  match get_map spec "destination" with
  | None => zero_ArgoDestination
  | dest => MkArgoDestination (get_str dest "server") (get_str dest "name") (get_str dest "namespace")
  end.
Definition policy_of (spec : raw) : ArgoSyncPolicy :=
  match get_map spec "syncPolicy" with
  | None => zero_ArgoSyncPolicy
  | sp => parseArgoSyncPolicy sp
  end.
Definition diffs_of (spec : raw) : list ArgoIgnoreDiff :=
  map parseArgoIgnoreDiff (get_maps spec "ignoreDifferences").
Definition sources_of (spec : raw) : list ArgoSource :=
  map (λ m, parseArgoSource (Some m)) (get_maps spec "sources").

(** ** ApplicationSets *)

Definition git_dir_of (m : obj) : ArgoAppSetGitDir :=
  MkArgoAppSetGitDir (get_str (Some m) "path") (get_bool (Some m) "exclude").
Definition git_file_of (m : obj) : ArgoAppSetGitFile := MkArgoAppSetGitFile (get_str (Some m) "path").
Definition git_of (git : raw) : ArgoAppSetGitGenerator := {|
  gg_RepoURL := get_str git "repoURL"; gg_Revision := get_str git "revision";
  gg_Directories := map git_dir_of (get_maps git "directories");
  gg_Files := map git_file_of (get_maps git "files") |}.
(** The nested generators of a matrix or merge, with the parser of one level less. *)
Fixpoint parse_generator (fuel : nat) (m : obj) : ArgoAppSetGenerator :=
  match fuel with
  | O => zero_ArgoAppSetGenerator
  | S fuel =>
      let gen := zero_ArgoAppSetGenerator in
      match get_map (Some m) "list" with
      | Some list => {| gen with gen_Kind := "list";
          gen_ListElements := map (λ em, string_members (Some em)) (get_maps (Some list) "elements") |}
      | None =>
      match get_map (Some m) "clusters" with
      | Some clusters => {| gen with gen_Kind := "cluster";
          gen_ClusterSelector := string_members (get_map (get_map (Some clusters) "selector") "matchLabels") |}
      | None =>
      match get_map (Some m) "git" with
      | Some git => {| gen with gen_Kind := "git"; gen_Git := Some (git_of (Some git)) |}
      | None =>
      match get_map (Some m) "matrix" with
      | Some matrix => {| gen with gen_Kind := "matrix";
          gen_MatrixGenerators := map (parse_generator fuel) (get_maps (Some matrix) "generators") |}
      | None =>
      match get_map (Some m) "merge" with
      | Some merge => {| gen with gen_Kind := "merge";
          gen_MergeKeys := get_string_slice (Some merge) "mergeKeys";
          gen_MergeGenerators := map (parse_generator fuel) (get_maps (Some merge) "generators") |}
      | None =>
          if has_key m "pullRequest" then {| gen with gen_Kind := "pullRequest" |}
          else if has_key m "scmProvider" then {| gen with gen_Kind := "scmProvider" |}
          else gen
      end end end end end
  end.
Definition parseAppSetGenerator (m : obj) : ArgoAppSetGenerator := parse_generator (depth (VMap m)) m.

Definition parseAppSetTemplate (m : raw) : ArgoAppSetTemplate :=
  let meta := get_map m "metadata" in
  let spec := get_map m "spec" in {|
  tm_Name := get_str meta "name"; tm_Namespace := get_str meta "namespace";
  tm_Finalizers := get_string_slice meta "finalizers";
  tm_Project := get_str spec "project";
  tm_Source := (λ s, parseArgoSource (Some s)) <$> get_map spec "source";
  tm_Sources := sources_of spec; tm_Destination := destination_of spec;
  tm_SyncPolicy := policy_of spec; tm_IgnoreDifferences := diffs_of spec |}.

(** ** One parser per category *)

Section parsers.
Context (fmt_float : spec_float → string) (other : string → option string).

Definition hashSchema (schema : obj) : string := Digest fmt_float other (Some schema).
Definition store_schema (w : World) (schema : raw) : World :=
  match schema with
  | None => w
  | Some s => {| w with w_Schemas := <[hashSchema s := MkSchemaInfo (hashSchema s) (Some s)]> (w_Schemas w) |}
  end.
(** The digest of a version: empty without a schema. *)
Definition digest_of (schema : raw) : string :=
  match schema with Some s => hashSchema s | None => "" end.

Definition crd_version (vm : obj) : CRDVersion := {|
  cv_Name := get_str (Some vm) "name"; cv_Served := get_bool (Some vm) "served";
  cv_Storage := get_bool (Some vm) "storage"; cv_Referenceable := false;
  cv_SchemaDigest := digest_of (get_map (Some vm) "schema") |}.
Definition same_digests (vs : list CRDVersion) : bool :=
  match vs with
  | [] => true
  | v :: vs => forallb (λ u, String.eqb (cv_SchemaDigest u) (cv_SchemaDigest v)) vs
  end.
Definition webhook_service (conv : raw) : string :=
  match get_map (get_map (get_map conv "webhook") "clientConfig") "service" with
  | None => ""
  | svc => get_str svc "namespace" +:+ "/" +:+ get_str svc "name"
  end.
Definition conversion_of (spec : raw) (versions : list CRDVersion) : ConversionInfo :=
  match get_map spec "conversion" with
  | None => {| zero_ConversionInfo with ci_CostClass := "None" |}
  | conv =>
      let strategy := get_str conv "strategy" in
      if String.eqb strategy "Webhook" then
        {| ci_Strategy := strategy; ci_CostClass := "Webhook"; ci_WebhookService := webhook_service conv |}
      else if String.eqb strategy "None" || String.eqb strategy "" then
        {| ci_Strategy := strategy; ci_WebhookService := "";
           ci_CostClass := if Nat.leb (length versions) 1 then "None"
                           else if same_digests versions then "Identity" else "Structural" |}
      else {| zero_ConversionInfo with ci_Strategy := strategy |}
  end.
Definition kind_name (spec : raw) : string := get_str (get_map spec "names") "kind".
Definition schemas_of (spec : raw) : list raw :=
  map (λ vm, get_map (Some vm) "schema") (get_maps spec "versions").
Definition crd_of (doc : LoadedDocument) (spec : raw) : CRDInfo :=
  let versions := map crd_version (get_maps spec "versions") in
  {| zero_CRDInfo with crd_Group := get_str spec "group"; crd_Kind := kind_name spec;
     crd_Scope := get_str spec "scope"; crd_Source := ld_Source doc; crd_Versions := versions;
     crd_Conversion := conversion_of spec versions |}.
Definition addCRD (doc : LoadedDocument) (w : World) : World + string :=
  match get_map (ld_Raw doc) "spec" with
  | None => inr "CRD missing spec"
  | spec =>
      let w := foldl store_schema w (schemas_of spec) in
      inl {| w with w_CRDs := w_CRDs w ++ [crd_of doc spec] |}
  end.

Definition xrd_version (vm : obj) : CRDVersion := {|
  cv_Name := get_str (Some vm) "name"; cv_Served := get_bool (Some vm) "served";
  cv_Storage := get_bool (Some vm) "referenceable"; cv_Referenceable := get_bool (Some vm) "referenceable";
  cv_SchemaDigest := digest_of (get_map (Some vm) "schema") |}.
Definition xrd_of (doc : LoadedDocument) (spec : raw) : CRDInfo :=
  {| zero_CRDInfo with crd_Group := get_str spec "group"; crd_Kind := kind_name spec;
     crd_Scope := match get_map spec "claimNames" with Some _ => "Namespaced" | None => "Cluster" end;
     crd_Source := ld_Source doc; crd_IsXRD := true; crd_APIVersion := ld_APIVersion doc;
     crd_Versions := map xrd_version (get_maps spec "versions") |}.
Definition addXRD (doc : LoadedDocument) (w : World) : World + string :=
  match get_map (ld_Raw doc) "spec" with
  | None => inr "XRD missing spec"
  | spec =>
      let w := foldl store_schema w (schemas_of spec) in
      inl {| w with w_XRDs := w_XRDs w ++ [xrd_of doc spec] |}
  end.

Definition step_of (sm : obj) : PipelineStep :=
  let input := get_map (Some sm) "input" in {|
  ps_Name := get_str (Some sm) "step"; ps_FunctionRef := get_str (get_map (Some sm) "functionRef") "name";
  ps_InputAPIVersion := get_str input "apiVersion"; ps_InputKind := get_str input "kind";
  ps_InputDigest := digest_of input |}.
Definition transform_of (tm : obj) : TransformInfo :=
  MkTransformInfo (get_str (Some tm) "type") (get_str (get_map (Some tm) "convert") "toType").
Definition patch_of (pm : obj) : PatchInfo := {|
  pi_Type := get_str (Some pm) "type"; pi_FromFieldPath := get_str (Some pm) "fromFieldPath";
  pi_ToFieldPath := get_str (Some pm) "toFieldPath";
  pi_Transforms := map transform_of (get_maps (Some pm) "transforms") |}.
Definition composed_of (rm : obj) : ComposedResource :=
  let base := get_map (Some rm) "base" in {|
  cr_Name := get_str (Some rm) "name";
  cr_Base := MkResourceBase (get_str base "apiVersion") (get_str base "kind");
  cr_Patches := map patch_of (get_maps (Some rm) "patches") |}.
Definition composite_type_ref (spec : raw) : GVK :=
  match get_map spec "compositeTypeRef" with
  | None => zero_GVK
  | ctr => parseGVK (get_str ctr "apiVersion") (get_str ctr "kind")
  end.
Definition composition_of (doc : LoadedDocument) (spec : raw) : CompositionInfo :=
  let comp := {| zero_CompositionInfo with
    comp_Name := get_str (get_map (ld_Raw doc) "metadata") "name"; comp_Source := ld_Source doc;
    comp_CompositeTypeRef := composite_type_ref spec |} in
  match get_slice spec "pipeline", get_slice spec "resources" with
  | Some _, _ => {| comp with comp_Mode := "Pipeline"; comp_Pipeline := map step_of (get_maps spec "pipeline") |}
  | None, Some _ => {| comp with comp_Mode := "Resources";
                       comp_Resources := map composed_of (get_maps spec "resources") |}
  | None, None => comp
  end.
Definition addComposition (doc : LoadedDocument) (w : World) : World + string :=
  match get_map (ld_Raw doc) "spec" with
  | None => inr "Composition missing spec"
  | spec =>
      let w := foldl store_schema w (map (λ sm, get_map (Some sm) "input") (get_maps spec "pipeline")) in
      inl {| w with w_Compositions := w_Compositions w ++ [composition_of doc spec] |}
  end.

(** The table of well-known functions; the code ranges over a Go map, so the
    order it is tried in is a parameter below. *)
Definition knownFunctions : list (string * list string) := [
  ("function-patch-and-transform", ["pt.fn.crossplane.io/v1beta1"]);
  ("function-kcl", ["krm.kcl.dev/v1alpha1"]);
  ("function-go-templating", ["gotemplating.fn.crossplane.io/v1beta1"]);
  ("function-auto-ready", []);
  ("function-cel-filter", ["celfilter.fn.crossplane.io/v1beta1"]);
  ("function-status-transformer", ["statustransformer.fn.crossplane.io/v1beta1"]);
  ("function-environment-configs", ["environmentconfigs.fn.crossplane.io/v1beta1"]);
  ("function-extra-resources", ["extraresources.fn.crossplane.io/v1beta1"]);
  ("function-sequencer", ["sequencer.fn.crossplane.io/v1beta1"]) ].
Definition known_as (name pkg : string) (known : string * list string) : bool :=
  String.eqb name (fst known) || contains pkg (fst known).
Definition inferFunctionInputVersions (order : list (string * list string)) (name pkg : string) : list string :=
  match find_first (known_as name pkg) order with Some (_, versions) => versions | None => [] end.

Definition metadata_of (doc : LoadedDocument) : raw := get_map (ld_Raw doc) "metadata".
Definition package_of (doc : LoadedDocument) : string := get_str (get_map (ld_Raw doc) "spec") "package".
Definition function_of (order : list (string * list string)) (doc : LoadedDocument) : FunctionInfo :=
  let name := get_str (metadata_of doc) "name" in
  {| zero_FunctionInfo with fn_Name := name; fn_Package := package_of doc; fn_Source := ld_Source doc;
     fn_InputVersions := inferFunctionInputVersions order name (package_of doc) |}.
Definition provider_of (doc : LoadedDocument) : ProviderInfo :=
  {| zero_ProviderInfo with pr_Name := get_str (metadata_of doc) "name"; pr_Package := package_of doc;
     pr_Annotations := string_members (get_map (metadata_of doc) "annotations"); pr_Source := ld_Source doc |}.
Definition configuration_of (doc : LoadedDocument) : ConfigurationInfo :=
  MkConfigurationInfo (get_str (metadata_of doc) "name") (package_of doc) (ld_Source doc).
Definition addFunction (order : list (string * list string)) (doc : LoadedDocument) (w : World) : World + string :=
  inl {| w with w_Functions := w_Functions w ++ [function_of order doc] |}.
Definition addProvider (doc : LoadedDocument) (w : World) : World + string :=
  inl {| w with w_Providers := w_Providers w ++ [provider_of doc] |}.
Definition addConfiguration (doc : LoadedDocument) (w : World) : World + string :=
  inl {| w with w_Configurations := w_Configurations w ++ [configuration_of doc] |}.

Definition tracking_mode (annotations : gmap string string) : string :=
  let tm := default "" (annotations !! "argocd.argoproj.io/tracking-method") in
  if String.eqb tm "" then "annotation" else tm.
Definition app_sources_of (spec : raw) : list ArgoSource :=
  match get_slice spec "sources" with
  | Some _ => sources_of spec
  | None => match get_map spec "source" with
            | Some source => [parseArgoSource (Some source)]
            | None => []
            end
  end.
Definition application_of (doc : LoadedDocument) : ArgoApplication :=
  let metadata := metadata_of doc in
  let annotations := string_members (get_map metadata "annotations") in
  let spec := get_map (ld_Raw doc) "spec" in
  {| zero_ArgoApplication with app_Name := get_str metadata "name"; app_Namespace := get_str metadata "namespace";
     app_TrackingMode := tracking_mode annotations; app_Source := ld_Source doc;
     app_Annotations := annotations; app_Finalizers := get_string_slice metadata "finalizers";
     app_Project := get_str spec "project"; app_Destination := destination_of spec;
     app_Sources := app_sources_of spec; app_SyncPolicy := policy_of spec;
     app_IgnoreDifferences := diffs_of spec |}.
(** [on_app] is the rendering hook, over the World and the rest [E] of the builder's
    state; it changes nothing under SkipRender, and [None] is a panic. *)
Definition addArgoApplication {E} (on_app : ArgoApplication → string → World * E → option (World * E))
    (doc : LoadedDocument) (st : World * E) : option (World * E + string) :=
  let w := fst st in
  inl <$> on_app (application_of doc) (sl_File (ld_Source doc))
            ({| w with w_ArgoApps := w_ArgoApps w ++ [application_of doc] |}, snd st).

Definition project_dest_of (m : obj) : ArgoProjectDestination :=
  MkArgoProjectDestination (get_str (Some m) "server") (get_str (Some m) "name") (get_str (Some m) "namespace").
Definition window_of (m : obj) : ArgoSyncWindow := {|
  sw_Kind := get_str (Some m) "kind"; sw_Schedule := get_str (Some m) "schedule";
  sw_Duration := get_str (Some m) "duration"; sw_Applications := get_string_slice (Some m) "applications";
  sw_Namespaces := get_string_slice (Some m) "namespaces"; sw_Clusters := get_string_slice (Some m) "clusters" |}.
Definition key_id (m : obj) : option string := lookup_key m "keyID" ≫= as_string.
Definition project_of (doc : LoadedDocument) : ArgoAppProject :=
  let spec := get_map (ld_Raw doc) "spec" in
  {| ap_Name := get_str (metadata_of doc) "name"; ap_Source := ld_Source doc;
     ap_SourceRepos := get_string_slice spec "sourceRepos";
     ap_Destinations := map project_dest_of (get_maps spec "destinations");
     ap_ClusterResourceWhitelist := (parseGroupKindList spec "clusterResourceWhitelist").1;
     ap_ClusterResourceWhitelistSet := (parseGroupKindList spec "clusterResourceWhitelist").2;
     ap_ClusterResourceBlacklist := (parseGroupKindList spec "clusterResourceBlacklist").1;
     ap_NamespaceResourceWhitelist := (parseGroupKindList spec "namespaceResourceWhitelist").1;
     ap_NamespaceResourceWhitelistSet := (parseGroupKindList spec "namespaceResourceWhitelist").2;
     ap_NamespaceResourceBlacklist := (parseGroupKindList spec "namespaceResourceBlacklist").1;
     ap_SyncWindows := map window_of (get_maps spec "syncWindows");
     ap_SignatureKeys := omap key_id (get_maps spec "signatureKeys") |}.
Definition addArgoAppProject (doc : LoadedDocument) (w : World) : World + string :=
  inl {| w with w_ArgoProjects := w_ArgoProjects w ++ [project_of doc] |}.

Definition appset_of (doc : LoadedDocument) : ArgoApplicationSet :=
  let spec := get_map (ld_Raw doc) "spec" in {|
  aset_Name := get_str (metadata_of doc) "name"; aset_Source := ld_Source doc;
  aset_Generators := map parseAppSetGenerator (get_maps spec "generators");
  aset_Template := match get_map spec "template" with
                   | None => zero_ArgoAppSetTemplate
                   | tmpl => parseAppSetTemplate tmpl
                   end;
  aset_SyncPolicy := MkArgoAppSetSyncPolicy (get_bool (get_map spec "syncPolicy") "preserveResourcesOnDeletion") |}.
Definition addArgoApplicationSet (doc : LoadedDocument) (w : World) : World + string :=
  inl {| w with w_ArgoAppSets := w_ArgoAppSets w ++ [appset_of doc] |}.

(** [addResource]; [resourceInfoFromDoc], for rendered documents, differs in the
    name of a nameless one. *)
Definition resource_of (doc : LoadedDocument) : ResourceInfo :=
  let metadata := metadata_of doc in
  {| zero_ResourceInfo with ri_APIVersion := ld_APIVersion doc; ri_Kind := ld_Kind doc;
     ri_Name := get_str metadata "name"; ri_Namespace := get_str metadata "namespace";
     ri_Annotations := string_members (get_map metadata "annotations");
     ri_Labels := string_members (get_map metadata "labels");
     ri_Source := ld_Source doc; ri_Raw := ld_Raw doc |}.
Definition resourceInfoFromDoc (doc : LoadedDocument) : ResourceInfo :=
  let res := resource_of doc in {| res with ri_Name := getName (ld_Raw doc) |}.
Definition addResource (doc : LoadedDocument) (w : World) : World + string :=
  inl {| w with w_Resources := w_Resources w ++ [resource_of doc] |}.

(** ** The loop of Build *)

Section loop.
Context {E : Type} (order : list (string * list string)).
Context (on_app : ArgoApplication → string → World * E → option (World * E)).

(** A handler that touches the World only. *)
Definition on_world (f : World → World + string) (st : World * E) : option (World * E + string) :=
  Some (match f (fst st) with inl w => inl (w, snd st) | inr err => inr err end).
Definition add_document (doc : LoadedDocument) : World * E → option (World * E + string) :=
  let category := String.eqb (ClassifyDocument doc) in
  if category "crd" then on_world (addCRD doc)
  else if category "xrd" then on_world (addXRD doc)
  else if category "composition" then on_world (addComposition doc)
  else if category "function" then on_world (addFunction order doc)
  else if category "provider" then on_world (addProvider doc)
  else if category "configuration" then on_world (addConfiguration doc)
  else if category "argo-application" then addArgoApplication on_app doc
  else if category "argo-appproject" then on_world (addArgoAppProject doc)
  else if category "argo-applicationset" then on_world (addArgoApplicationSet doc)
  else if category "resource" then on_world (addResource doc)
  else on_world inl.
Definition processing_error (doc : LoadedDocument) (err : string) : string :=
  "processing " +:+ ld_Kind doc +:+ " " +:+ getName (ld_Raw doc) +:+ " from " +:+ sl_File (ld_Source doc) +:+
  ":" +:+ itoa (sl_Line (ld_Source doc)) +:+ ": " +:+ err.
Fixpoint add_documents (docs : list LoadedDocument) (st : World * E) : option (World * E + string) :=
  match docs with
  | [] => Some (inl st)
  | doc :: docs => match add_document doc st with
                   | None => None
                   | Some (inl st) => add_documents docs st
                   | Some (inr err) => Some (inr (processing_error doc err))
                   end
  end.
End loop.
End parsers.

(** ** What the loop builds *)

Section build.
Context (fmt_float : spec_float → string) (other : string → option string).
Context (order : list (string * list string)).
#[local] Notation hash := (hashSchema fmt_float other).

Definition in_category (c : string) (doc : LoadedDocument) : bool := String.eqb (ClassifyDocument doc) c.
Definition spec_of (doc : LoadedDocument) : raw := get_map (ld_Raw doc) "spec".
(** CRDs, XRDs and Compositions are refused without a spec. *)
Definition needs_spec (doc : LoadedDocument) : bool :=
  in_category "crd" doc || in_category "xrd" doc || in_category "composition" doc.
(** The schemas a document contributes to the store. *)
Definition doc_schemas (doc : LoadedDocument) : list raw :=
  if in_category "crd" doc || in_category "xrd" doc then schemas_of (spec_of doc)
  else if in_category "composition" doc
  then map (λ sm, get_map (Some sm) "input") (get_maps (spec_of doc) "pipeline")
  else [].
(** The facts of one category, one for each of its documents, in order. *)
Definition facts {A} (c : string) (parse : LoadedDocument → A) (docs : list LoadedDocument) : list A :=
  flat_map (λ d, if in_category c d then [parse d] else []) docs.
Definition built (w : World) (docs : list LoadedDocument) : World :=
  {| w with
     w_CRDs := w_CRDs w ++ facts "crd" (λ d, crd_of fmt_float other d (spec_of d)) docs;
     w_XRDs := w_XRDs w ++ facts "xrd" (λ d, xrd_of fmt_float other d (spec_of d)) docs;
     w_Compositions := w_Compositions w ++
       facts "composition" (λ d, composition_of fmt_float other d (spec_of d)) docs;
     w_Functions := w_Functions w ++ facts "function" (function_of order) docs;
     w_Providers := w_Providers w ++ facts "provider" provider_of docs;
     w_Configurations := w_Configurations w ++ facts "configuration" configuration_of docs;
     w_ArgoApps := w_ArgoApps w ++ facts "argo-application" application_of docs;
     w_ArgoProjects := w_ArgoProjects w ++ facts "argo-appproject" project_of docs;
     w_ArgoAppSets := w_ArgoAppSets w ++ facts "argo-applicationset" appset_of docs;
     w_Resources := w_Resources w ++ facts "resource" resource_of docs;
     w_Schemas := foldl (λ m s, match s with
                                | Some s => <[hash s := MkSchemaInfo (hash s) (Some s)]> m
                                | None => m
                                end) (w_Schemas w) (flat_map doc_schemas docs) |}.

Lemma ClassifyDocument_cases doc : ClassifyDocument doc ∈ ["crd"; "xrd"; "composition"; "function"; "provider";
  "configuration"; "argo-application"; "argo-appproject"; "argo-applicationset"; "resource"].
Proof. unfold ClassifyDocument. repeat case_match; set_solver. Qed.

Lemma facts_app {A} c (parse : LoadedDocument → A) ds ds' :
  facts c parse (ds ++ ds') = facts c parse ds ++ facts c parse ds'.
Proof. unfold facts. by rewrite flat_map_app. Qed.
Lemma built_app w ds ds' : built w (ds ++ ds') = built (built w ds) ds'.
Proof.
  unfold built. rewrite !facts_app, flat_map_app, foldl_app. cbn. by rewrite !(assoc_L (++)).
Qed.
Lemma built_nil w : built w [] = w.
Proof. unfold built, facts. cbn. rewrite !app_nil_r. by destruct w. Qed.

Lemma store_schemas w l : foldl (store_schema fmt_float other) w l =
  {| w with w_Schemas := foldl (λ m s, match s with
                                | Some s => <[hash s := MkSchemaInfo (hash s) (Some s)]> m
                                | None => m
                                end) (w_Schemas w) l |}.
Proof.
  revert w. induction l as [|[s|] l IH]; intros w; simpl; [by destruct w| |apply IH].
  by rewrite IH.
Qed.

Definition missing_spec (doc : LoadedDocument) : string :=
  if in_category "crd" doc then "CRD missing spec"
  else if in_category "xrd" doc then "XRD missing spec"
  else "Composition missing spec".
(** What one document does to the World, before the hook. *)
Definition added (doc : LoadedDocument) (w : World) : World + string :=
  match spec_of doc with
  | None => if needs_spec doc then inr (missing_spec doc) else inl (built w [doc])
  | Some _ => inl (built w [doc])
  end.
Lemma add_document_spec {E} (hook : ArgoApplication → string → World * E → option (World * E)) doc w e :
  add_document fmt_float other order hook doc (w, e) =
  match added doc w with
  | inr err => Some (inr err)
  | inl w => if in_category "argo-application" doc
             then inl <$> hook (application_of doc) (sl_File (ld_Source doc)) (w, e) else Some (inl (w, e))
  end.
Proof.
  pose proof (ClassifyDocument_cases doc) as Hc.
  unfold add_document, on_world, added, built, facts, doc_schemas, needs_spec, missing_spec, in_category.
  repeat (apply elem_of_cons in Hc as [Hc|Hc]); [..|by apply not_elem_of_nil in Hc];
    cbn [flat_map]; rewrite Hc; cbn;
    unfold addCRD, addXRD, addComposition, addFunction, addProvider, addConfiguration,
      addArgoApplication, addArgoAppProject, addArgoApplicationSet, addResource;
    fold (spec_of doc); rewrite ?app_nil_r; try by destruct (spec_of doc).
  all: destruct (spec_of doc) as [spec|]; [|done]; rewrite store_schemas; cbn; by rewrite ?app_nil_r.
Qed.

(** The first refused document decides; nothing of the World is returned then. *)
Definition refused (doc : LoadedDocument) : Prop := needs_spec doc = true ∧ spec_of doc = None.
#[export] Instance refused_dec doc : Decision (refused doc).
Proof. unfold refused. apply and_dec; [apply _|destruct (spec_of doc); [by right|by left]]. Defined.

Lemma added_refused doc w :
  added doc w = if bool_decide (refused doc) then inr (missing_spec doc) else inl (built w [doc]).
Proof.
  unfold added, refused. case_bool_decide as Hr.
  - by destruct Hr as [-> ->].
  - destruct (spec_of doc) eqn:Es, (needs_spec doc) eqn:En; try done. by destruct Hr.
Qed.

(** What every document, with the hook on Applications, keeps, the loop keeps. *)
Lemma add_documents_inv {E} (hook : ArgoApplication → string → World * E → option (World * E))
    (P : World * E → Prop) docs st st' :
  (∀ d w e, in_category "argo-application" d = false → P (w, e) → P (built w [d], e)) →
  (∀ d w e st', in_category "argo-application" d = true → P (w, e) →
     hook (application_of d) (sl_File (ld_Source d)) (built w [d], e) = Some st' → P st') →
  P st → add_documents fmt_float other order hook docs st = Some (inl st') → P st'.
Proof.
  intros Hb Hh. revert st. induction docs as [|d docs IH]; intros [w e] HP; cbn [add_documents]; [by intros [= <-]|].
  rewrite add_document_spec, added_refused. case_bool_decide; [done|].
  destruct (in_category _ d) eqn:Ec; [|apply IH; by apply Hb]. destruct (hook _ _ _) as [st1|] eqn:Eh; simpl; [|done].
  apply IH. by eapply Hh.
Qed.
(** An Application's document adds the Application and nothing else. *)
Lemma built_application w d : in_category "argo-application" d = true →
  built w [d] = {| w with w_ArgoApps := w_ArgoApps w ++ [application_of d] |}.
Proof.
  intros Hc%String.eqb_eq. unfold built, facts, doc_schemas, in_category. cbn [flat_map]. rewrite Hc. cbn.
  rewrite !app_nil_r. by destruct w.
Qed.
(** And it fails only with the first document that lacks its spec. *)
Lemma add_documents_error {E} (hook : ArgoApplication → string → World * E → option (World * E)) docs st :
  match add_documents fmt_float other order hook docs st with
  | None => True
  | Some (inl _) => find_first (λ d, bool_decide (refused d)) docs = None
  | Some (inr err) => ∃ d, find_first (λ d, bool_decide (refused d)) docs = Some d ∧
                           err = processing_error d (missing_spec d)
  end.
Proof.
  revert st. induction docs as [|d docs IH]; intros [w e]; cbn [add_documents find_first]; [done|].
  rewrite add_document_spec, added_refused. case_bool_decide; [exists d; by split|].
  destruct (in_category _ d); [destruct (hook _ _ _); simpl; [|done]|]; apply IH.
Qed.

(** Without rendering. *)
#[local] Notation add_all := (add_documents fmt_float other order (λ _ _ st, Some st)).

Lemma add_documents_closed {E} docs w (e : E) : add_all docs (w, e) =
  match find_first (λ d, bool_decide (refused d)) docs with
  | None => Some (inl (built w docs, e))
  | Some d => Some (inr (processing_error d (missing_spec d)))
  end.
Proof.
  revert w. induction docs as [|d docs IH]; intros w; cbn [find_first add_documents]; [by rewrite built_nil|].
  rewrite add_document_spec, added_refused. case_bool_decide as Hr; [done|].
  specialize (IH (built w [d])). rewrite <- built_app in IH. destruct (in_category _ _); exact IH.
Qed.

(** C21: Building runs each document through the parser of its one category: when
    every CRD, XRD and Composition has a spec, the World gains exactly one fact per
    document, in order, and the schemas they carry under their digests, and nothing
    else changes; otherwise the build fails with the message of the first one
    without. *)
Theorem add_documents_spec {E} docs w (e : E) :
  match find_first (λ d, bool_decide (refused d)) docs with
  | None => add_all docs (w, e) = Some (inl (built w docs, e))
  | Some d => add_all docs (w, e) = Some (inr (processing_error d (missing_spec d)))
  end ∧
  length (w_CRDs (built w docs)) + length (w_XRDs (built w docs)) + length (w_Compositions (built w docs)) +
  length (w_Functions (built w docs)) + length (w_Providers (built w docs)) +
  length (w_Configurations (built w docs)) + length (w_ArgoApps (built w docs)) +
  length (w_ArgoProjects (built w docs)) + length (w_ArgoAppSets (built w docs)) +
  length (w_Resources (built w docs)) =
  length docs + (length (w_CRDs w) + length (w_XRDs w) + length (w_Compositions w) + length (w_Functions w) +
    length (w_Providers w) + length (w_Configurations w) + length (w_ArgoApps w) +
    length (w_ArgoProjects w) + length (w_ArgoAppSets w) + length (w_Resources w)).
Proof.
  split.
  - rewrite add_documents_closed. by destruct (find_first _ docs).
  - revert w. induction docs as [|d docs IH]; intros w; [by rewrite built_nil|].
    change (d :: docs) with ([d] ++ docs). rewrite built_app, IH. clear IH. unfold built, facts, in_category.
    pose proof (ClassifyDocument_cases d) as Hc. cbn [flat_map].
    repeat (apply elem_of_cons in Hc as [Hc|Hc]); [..|by apply not_elem_of_nil in Hc];
      rewrite Hc; cbn; rewrite ?app_nil_r, ?length_app; cbn; lia.
Qed.
End build.

(** ** Generators read back *)

Definition str_map (m : gmap string string) : value :=
  VMap (map (λ kv, (fst kv, VStr (snd kv))) (map_to_list m)).
Definition git_map (g : ArgoAppSetGitGenerator) : value := VMap [
  ("repoURL", VStr (gg_RepoURL g)); ("revision", VStr (gg_Revision g));
  ("directories", VList (map (λ d, VMap [("path", VStr (gd_Path d)); ("exclude", VBool (gd_Exclude d))])
                           (gg_Directories g)));
  ("files", VList (map (λ f, VMap [("path", VStr (gf_Path f))]) (gg_Files g))) ].
(** A generator as a manifest writes it. *)
Fixpoint generator_map (g : ArgoAppSetGenerator) : obj :=
  let '(MkArgoAppSetGenerator kind elements selector git matrix merge keys) := g in
  if String.eqb kind "list" then [("list", VMap [("elements", VList (map str_map elements))])]
  else if String.eqb kind "cluster" then
    [("clusters", VMap [("selector", VMap [("matchLabels", str_map selector)])])]
  else if String.eqb kind "git" then
    [("git", match git with Some g => git_map g | None => VNull end)]
  else if String.eqb kind "matrix" then
    [("matrix", VMap [("generators", VList (map (λ g, VMap (generator_map g)) matrix))])]
  else if String.eqb kind "merge" then
    [("merge", VMap [("mergeKeys", VList (map VStr keys));
                     ("generators", VList (map (λ g, VMap (generator_map g)) merge))])]
  else [(kind, VMap [])].

(** Only the fields of its kind are set, at every level. *)
Inductive wf_generator : ArgoAppSetGenerator → Prop :=
  | wf_list_gen es : wf_generator {| zero_ArgoAppSetGenerator with gen_Kind := "list"; gen_ListElements := es |}
  | wf_cluster_gen s : wf_generator {| zero_ArgoAppSetGenerator with gen_Kind := "cluster"; gen_ClusterSelector := s |}
  | wf_git_gen g : wf_generator {| zero_ArgoAppSetGenerator with gen_Kind := "git"; gen_Git := Some g |}
  | wf_matrix_gen gs : Forall wf_generator gs →
      wf_generator {| zero_ArgoAppSetGenerator with gen_Kind := "matrix"; gen_MatrixGenerators := gs |}
  | wf_merge_gen ks gs : Forall wf_generator gs →
      wf_generator {| zero_ArgoAppSetGenerator with gen_Kind := "merge"; gen_MergeKeys := ks;
                      gen_MergeGenerators := gs |}
  | wf_pr_gen : wf_generator {| zero_ArgoAppSetGenerator with gen_Kind := "pullRequest" |}
  | wf_scm_gen : wf_generator {| zero_ArgoAppSetGenerator with gen_Kind := "scmProvider" |}.

(** Induction through the nested generators. *)
Section generator_ind.
Context (P : ArgoAppSetGenerator → Prop).
Context (Hstep : ∀ kind es s git matrix merge keys, Forall P matrix → Forall P merge →
  P (MkArgoAppSetGenerator kind es s git matrix merge keys)).
Fixpoint generator_ind' (g : ArgoAppSetGenerator) : P g :=
  match g with
  | MkArgoAppSetGenerator kind es s git matrix merge keys =>
      let go := fix go l : Forall P l := match l with
        | [] => Forall_nil_2 _
        | g :: l => Forall_cons_2 _ _ _ (generator_ind' g) (go l)
        end in
      Hstep kind es s git matrix merge keys (go matrix) (go merge)
  end.
End generator_ind.

Lemma string_members_str_map m : string_members (as_map (str_map m)) = m.
Proof.
  unfold string_members, str_map; simpl. rewrite <- (list_to_map_to_list m) at 2.
  assert (H : ∀ l m0, NoDup l.*1 → (∀ k, k ∈ l.*1 → m0 !! k = None) →
    foldl add_member m0 (map (λ kv, (kv.1, VStr kv.2)) l) = list_to_map l ∪ m0).
  { clear. induction l as [|[k v] l IH]; intros m0 Hn Hk; cbn; [by rewrite map_empty_union|].
    apply NoDup_cons in Hn as [Hkl Hn]. rewrite IH.
    - rewrite <- insert_union_r by (by apply not_elem_of_list_to_map_1). apply insert_union_l.
    - done.
    - intros j Hj. rewrite lookup_insert_ne; [apply Hk; by right|]. intros ->. done. }
  rewrite H; [by rewrite map_union_empty|apply NoDup_fst_map_to_list|].
  intros k _. apply lookup_empty.
Qed.
Lemma map_id_on {A} (f : A → A) l : (∀ x, x ∈ l → f x = x) → map f l = l.
Proof.
  induction l as [|x l IH]; intros H; simpl; [done|]. rewrite H by by left. f_equal. apply IH.
  intros y Hy. apply H. by right.
Qed.
Lemma omap_map_some {A B C} (f : A → B) (g : B → option C) (h : A → C) l :
  (∀ x, x ∈ l → g (f x) = Some (h x)) → omap g (map f l) = map h l.
Proof.
  induction l as [|x l IH]; intros H; simpl; [done|]. rewrite H by by left. f_equal. apply IH.
  intros y Hy. apply H. by right.
Qed.

Lemma git_of_map g : git_of (as_map (git_map g)) = g.
Proof.
  destruct g as [url rev dirs files]. unfold git_of, git_map, get_maps; cbn. f_equal.
  - rewrite (omap_map_some _ _ (λ d, [("path", VStr (gd_Path d)); ("exclude", VBool (gd_Exclude d))])) by done.
    rewrite map_map. apply map_id_on. by intros [].
  - rewrite (omap_map_some _ _ (λ f, [("path", VStr (gf_Path f))])) by done.
    rewrite map_map. apply map_id_on. by intros [].
Qed.

(** The generators inside are deeper: less fuel reads them. *)
Lemma nested_depth l g inner k outer fuel : g ∈ l →
  lookup_key inner "generators" = Some (VList (map (λ g, VMap (generator_map g)) l)) →
  lookup_key outer k = Some (VMap inner) → (depth (VMap outer) ≤ S fuel)%nat →
  (depth (VMap (generator_map g)) ≤ fuel)%nat.
Proof.
  intros Hg Hi%depth_lookup Ho%depth_lookup Hf.
  assert (H : VMap (generator_map g) ∈ map (λ g, VMap (generator_map g)) l).
  { apply list_elem_of_fmap. by exists g. }
  apply depth_elem in H. lia.
Qed.

(** Enough fuel for every level reads the whole generator. *)
Lemma parse_generator_map g : wf_generator g → ∀ fuel, (depth (VMap (generator_map g)) ≤ fuel)%nat →
  parse_generator fuel (generator_map g) = g.
Proof.
  induction g as [kind es s git matrix merge keys IH1 IH2] using generator_ind'.
  intros Hw fuel Hf. assert (Hpos : 0 < fuel).
  { eapply Nat.lt_le_trans; [|exact Hf]. simpl. repeat case_match; simpl; lia. }
  destruct fuel as [|fuel]; [lia|]. inversion Hw; subst; clear Hw.
  - cbn. f_equal. rewrite (omap_map_some _ _ (λ m, default [] (as_map (str_map m)))) by done.
    rewrite map_map. rewrite <- (map_id es) at 2. apply map_ext. intros m.
    apply (string_members_str_map m).
  - cbn. f_equal. apply (string_members_str_map s).
  - cbn. f_equal. f_equal. apply (git_of_map g).
  - cbn. f_equal. rewrite (omap_map_some _ _ generator_map) by done. rewrite map_map.
    apply map_id_on. intros g Hg. rewrite Forall_forall in IH1.
    apply IH1; [done| |eapply (nested_depth _ _ _ "matrix" _ _ Hg); [| |exact Hf]; [|reflexivity]; reflexivity].
    match goal with H : Forall wf_generator _ |- _ => rewrite Forall_forall in H; by apply H end.
  - cbn. f_equal.
    + rewrite (omap_map_some _ _ generator_map) by done. rewrite map_map.
      apply map_id_on. intros g Hg. rewrite Forall_forall in IH2.
      apply IH2; [done| |eapply (nested_depth _ _ _ "merge" _ _ Hg); [| |exact Hf]; [|reflexivity]; reflexivity].
      match goal with H : Forall wf_generator _ |- _ => rewrite Forall_forall in H; by apply H end.
    + unfold get_string_slice; cbn. rewrite (omap_map_some _ _ id) by done. apply map_id.
  - done.
  - done.
Qed.

(** A generator tree written out as a manifest and parsed is the same tree,
    whatever its kind and however deep matrix and merge generators nest. *)
Theorem parseAppSetGenerator_roundtrip g : wf_generator g → parseAppSetGenerator (generator_map g) = g.
Proof. intros Hw. by apply parse_generator_map. Qed.

Definition nested_generator : ArgoAppSetGenerator :=
  {| zero_ArgoAppSetGenerator with gen_Kind := "matrix"; gen_MatrixGenerators := [
     {| zero_ArgoAppSetGenerator with gen_Kind := "merge"; gen_MergeKeys := ["cluster"]; gen_MergeGenerators := [
        {| zero_ArgoAppSetGenerator with gen_Kind := "list"; gen_ListElements := [{["cluster" := "eu"]}] |};
        {| zero_ArgoAppSetGenerator with gen_Kind := "cluster" |} ] |};
     {| zero_ArgoAppSetGenerator with gen_Kind := "git"; gen_Git := Some (MkArgoAppSetGitGenerator "https://r" "main"
        [MkArgoAppSetGitDir "apps/*" false] []) |} ] |}.
Lemma parseAppSetGenerator_roundtrip_witness :
  parseAppSetGenerator (generator_map nested_generator) = nested_generator.
Proof. apply parseAppSetGenerator_roundtrip. repeat constructor. Defined.

(** ** The order maps are iterated in does not matter *)

Definition same_raw (a b : raw) : Prop :=
  wf_raw a ∧ match a, b with
             | None, None => True
             | Some m, Some n => same_value (VMap m) (VMap n)
             | _, _ => False
             end.
Definition same_option (a b : option value) : Prop :=
  match a, b with
  | None, None => True
  | Some v, Some w => wf_value v ∧ same_value v w
  | _, _ => False
  end.

Lemma same_lookup a b k : same_raw a b → same_option (lookup_raw a k) (lookup_raw b k).
Proof.
  intros [Hw Hs]. destruct a as [m|], b as [n|]; try done. simpl.
  inversion Hs as [v E|? ? ? E|? ? m' Hm Hp]; subst.
  { destruct (lookup_key n k) eqn:Ek; [|done]. split; [by eapply wf_lookup|constructor]. }
  assert (Hk : m.*1 = m'.*1).
  { clear -Hm. induction Hm as [|x y m m' [Hk _] _ IH]; [done|]. cbn. by rewrite Hk, IH. }
  assert (Hw' : wf_map m') by (apply wf_VMap in Hw as [Hw _]; unfold wf_map in *; by rewrite <- Hk).
  rewrite <- (lookup_key_perm m' n k Hw' Hp).
  assert (Hl : ∀ v, lookup_key m k = Some v → wf_value v) by (intros v; by apply wf_lookup).
  clear Hk Hw' Hp Hs Hw. induction Hm as [|[k1 x] [k2 y] m m' [Hk Hxy] _ IH]; [done|].
  cbn in *. subst k2. destruct (String.eqb k1 k); [|auto]. split; [by apply Hl|done].
Qed.

Ltac same_lookup a b k :=
  let H := fresh "Hs" in
  pose proof (same_lookup a b k) as H;
  destruct (lookup_raw a k), (lookup_raw b k); simpl in H.

Lemma same_get_map a b k : same_raw a b → same_raw (get_map a k) (get_map b k).
Proof.
  intros Hs. unfold get_map. pose proof (same_lookup a b k Hs) as H.
  destruct (lookup_raw a k) as [v|], (lookup_raw b k) as [w|]; try done. destruct H as [Hw Hv].
  inversion Hv; subst; [by destruct w|done|done].
Qed.
Lemma same_scalar {A} (f : value → A) a b k (d : A) : (∀ l l', f (VList l) = f (VList l')) →
  (∀ m m', f (VMap m) = f (VMap m')) → same_raw a b →
  match lookup_raw a k with Some v => f v | None => d end =
  match lookup_raw b k with Some v => f v | None => d end.
Proof.
  intros Hl Hm Hs. pose proof (same_lookup a b k Hs) as H.
  destruct (lookup_raw a k) as [v|], (lookup_raw b k) as [w|]; try done. destruct H as [_ H].
  inversion H; subst; [done|apply Hl|apply Hm].
Qed.
Lemma same_get_str a b k : same_raw a b → get_str a k = get_str b k.
Proof. apply (same_scalar (λ v, match v with VStr s => s | _ => "" end)); done. Qed.
Lemma same_get_bool a b k : same_raw a b → get_bool a k = get_bool b k.
Proof. apply (same_scalar (λ v, match v with VBool s => s | _ => false end)); done. Qed.
Definition same_obj (m n : obj) : Prop := same_raw (Some m) (Some n).

(** The elements of a list, pairwise. *)
Lemma same_get_slice a b k : same_raw a b →
  match get_slice a k, get_slice b k with
  | Some l, Some l' => Forall2 (λ v w, wf_value v ∧ same_value v w) l l'
  | None, None => True
  | _, _ => False
  end.
Proof.
  intros Hs. unfold get_slice. pose proof (same_lookup a b k Hs) as H.
  destruct (lookup_raw a k) as [v|], (lookup_raw b k) as [w|]; try done. destruct H as [Hw Hv].
  inversion Hv as [|l l' Hl|]; subst; [|simpl|done].
  - clear Hv. destruct w; try done. simpl. apply wf_VList in Hw. induction Hw; [constructor|].
    constructor; [by split; [|constructor]|done].
  - apply wf_VList in Hw. clear Hv. induction Hl as [|x y l l' Hxy _ IH]; [constructor|].
    apply Forall_cons in Hw as [Hx Hw]. constructor; [done|]. by apply IH.
Qed.
Lemma same_get_maps a b k : same_raw a b → Forall2 same_obj (get_maps a k) (get_maps b k).
Proof.
  intros Hs. unfold get_maps. pose proof (same_get_slice a b k Hs) as H.
  destruct (get_slice a k) as [l|], (get_slice b k) as [l'|]; try done; simpl.
  induction H as [|v w l l' [Hw Hv] _ IH]; simpl; [constructor|].
  inversion Hv as [|? ? Hl|]; subst; [|exact IH|].
  - destruct w; simpl; try exact IH. constructor; [by split; [|constructor]|exact IH].
  - constructor; [|exact IH]. by split.
Qed.
Lemma same_get_string_slice a b k : same_raw a b → get_string_slice a k = get_string_slice b k.
Proof.
  intros Hs. unfold get_string_slice. pose proof (same_get_slice a b k Hs) as H.
  destruct (get_slice a k) as [l|], (get_slice b k) as [l'|]; try done.
  induction H as [|v w l l' [_ Hv] _ IH]; [done|].
  inversion Hv; subst; simpl; [|exact IH|exact IH].
  destruct (as_string w); [by apply (f_equal (cons _))|exact IH].
Qed.
(** Parsers that agree on equal maps give the same list. *)
Lemma map_same {A} (f : obj → A) l l' : (∀ m n, same_obj m n → f m = f n) →
  Forall2 same_obj l l' → map f l = map f l'.
Proof. intros Hf. induction 1 as [|m n l l' H _ IH]; simpl; [done|]. by rewrite IH, (Hf m n H). Qed.

Lemma lookup_add_members m m0 k : wf_map m →
  foldl add_member m0 m !! k = match lookup_key m k ≫= as_string with Some s => Some s | None => m0 !! k end.
Proof.
  unfold wf_map. revert m0. induction m as [|[k1 v] m IH]; intros m0 Hw; [done|].
  cbn in Hw. apply NoDup_cons in Hw as [Hk Hw]. cbn [foldl lookup_key]. rewrite (IH _ Hw).
  destruct (String.eqb_spec k1 k) as [->|Hne].
  - rewrite (proj2 (lookup_key_None m k) Hk). simpl. unfold add_member; simpl.
    destruct v; simpl; try done. by rewrite lookup_insert_eq.
  - destruct (lookup_key m k ≫= as_string); [done|]. unfold add_member; simpl.
    destruct v; try done. by rewrite lookup_insert_ne.
Qed.
Lemma same_wf_map m n : same_obj m n → wf_map m ∧ wf_map n.
Proof.
  intros [Hw Hs]. apply wf_VMap in Hw as [Hw _]. split; [done|].
  inversion Hs as [| |? ? m' Hm Hp]; subst; [done|]. unfold wf_map in *. rewrite <- Hp.
  clear Hp Hs. assert (Hk : m.*1 = m'.*1); [|by rewrite <- Hk].
  clear Hw. induction Hm as [|x y m m' [Hk _] _ IH]; [done|]. cbn. by rewrite Hk, IH.
Qed.
Lemma same_string_members a b : same_raw a b → string_members a = string_members b.
Proof.
  intros Hs. apply map_eq. intros k. unfold string_members.
  destruct a as [m|], b as [n|]; try (by destruct Hs); simpl.
  destruct (same_wf_map m n Hs) as [Hm Hn]. rewrite !lookup_add_members by done.
  pose proof (same_lookup _ _ k Hs) as H. simpl in H.
  destruct (lookup_key m k) as [v|], (lookup_key n k) as [w|]; try done.
  destruct H as [_ H]. simpl. by inversion H.
Qed.
Lemma same_get_map_None a b k : same_raw a b → get_map a k = None ↔ get_map b k = None.
Proof. intros Hs. pose proof (same_get_map a b k Hs) as [_ H]. by destruct (get_map a k), (get_map b k). Qed.

Lemma same_parseGroupKindList a b k : same_raw a b → parseGroupKindList a k = parseGroupKindList b k.
Proof.
  intros Hs. unfold parseGroupKindList. pose proof (same_lookup a b k Hs) as H.
  destruct (lookup_raw a k), (lookup_raw b k); try done. f_equal.
  apply map_same; [|by apply same_get_maps]. intros m n Hmn. unfold same_obj in Hmn. unfold group_kind_of.
  by rewrite !(same_get_str _ _ _ Hmn).
Qed.

(** Both sides read the same field of equal maps. *)
Create HintDb same.
#[export] Hint Resolve same_get_map same_get_maps : same.
Ltac head_of t := lazymatch t with ?f _ => head_of f | _ => t end.
Ltac same :=
  repeat first
    [ done
    | apply same_get_str | apply same_get_bool | apply same_get_string_slice | apply same_string_members
    | apply same_parseGroupKindList | apply map_same; [intros ?m ?n ?Hmn; unfold same_obj in Hmn|]
    | solve [eauto with same]
    | lazymatch goal with |- ?a = _ => let h := head_of a in is_constructor h end; f_equal
    | apply (f_equal fst) | apply (f_equal snd) ].
(** Both variables are nil, or neither is. *)
Ltac same_case a b k Hs :=
  let H := fresh "Hcase" in
  pose proof (same_get_map a b k Hs) as H;
  let Ha := fresh "Ha" in let Hb := fresh "Hb" in
  destruct (get_map a k) eqn:Ha, (get_map b k) eqn:Hb; try (by destruct H as [_ []]).

Section order.
Context (fmt_float : spec_float → string) (other : string → option string).
Context (order : list (string * list string)).

Lemma same_digest a b : same_raw a b → digest_of fmt_float other a = digest_of fmt_float other b.
Proof.
  intros [Hw Hs]. destruct a as [m|], b as [n|]; try done. simpl. by apply Digest_same.
Qed.
#[local] Hint Resolve same_digest : same.

Lemma same_crd_versions a b : same_raw a b →
  map (crd_version fmt_float other) (get_maps a "versions") =
  map (crd_version fmt_float other) (get_maps b "versions").
Proof. intros Hs. same. unfold crd_version. same. Qed.
Lemma same_xrd_versions a b : same_raw a b →
  map (xrd_version fmt_float other) (get_maps a "versions") =
  map (xrd_version fmt_float other) (get_maps b "versions").
Proof. intros Hs. same. unfold xrd_version. same. Qed.
Lemma same_webhook a b : same_raw a b → webhook_service a = webhook_service b.
Proof.
  intros Hs. unfold webhook_service.
  assert (H : same_raw (get_map (get_map a "webhook") "clientConfig") (get_map (get_map b "webhook") "clientConfig"))
    by eauto with same.
  same_case (get_map (get_map a "webhook") "clientConfig") (get_map (get_map b "webhook") "clientConfig") "service" H.
  by rewrite !(same_get_str _ _ _ Hcase).
Qed.
Lemma same_conversion a b vs : same_raw a b → conversion_of a vs = conversion_of b vs.
Proof.
  intros Hs. unfold conversion_of. same_case a b "conversion" Hs. cbv zeta.
  rewrite (same_get_str _ _ "strategy" Hcase), (same_webhook _ _ Hcase). done.
Qed.
Lemma same_gvk a b : same_raw a b → composite_type_ref a = composite_type_ref b.
Proof. intros Hs. unfold composite_type_ref. same_case a b "compositeTypeRef" Hs. cbv beta iota zeta. by rewrite !(same_get_str _ _ _ Hcase). Qed.
Lemma same_composed a b : same_raw a b →
  map composed_of (get_maps a "resources") = map composed_of (get_maps b "resources").
Proof. intros Hs. same. unfold composed_of. same. unfold patch_of. same. unfold transform_of. same. Qed.
Lemma same_steps a b : same_raw a b →
  map (step_of fmt_float other) (get_maps a "pipeline") = map (step_of fmt_float other) (get_maps b "pipeline").
Proof. intros Hs. same. unfold step_of. same. Qed.

(** Documents that differ only in the order of their maps. *)
Definition same_doc (d e : LoadedDocument) : Prop :=
  ld_Source d = ld_Source e ∧ ld_APIVersion d = ld_APIVersion e ∧ ld_Kind d = ld_Kind e ∧
  same_raw (ld_Raw d) (ld_Raw e).

(** What a document becomes does not depend on the order its maps are iterated
    in: its category and, for CRDs (with the digests of their schemas), XRDs,
    Compositions, Functions, Providers, Configurations, AppProjects and generators,
    the fact built from it. *)
Theorem parsers_same d e : same_doc d e →
  ClassifyDocument d = ClassifyDocument e ∧
  crd_of fmt_float other d (spec_of d) = crd_of fmt_float other e (spec_of e) ∧
  xrd_of fmt_float other d (spec_of d) = xrd_of fmt_float other e (spec_of e) ∧
  composition_of fmt_float other d (spec_of d) = composition_of fmt_float other e (spec_of e) ∧
  function_of order d = function_of order e ∧ provider_of d = provider_of e ∧
  configuration_of d = configuration_of e ∧ project_of d = project_of e.
Proof.
  intros (Hsrc & Hapi & Hkind & Hraw).
  assert (Hspec : same_raw (spec_of d) (spec_of e)) by (unfold spec_of; auto with same).
  assert (Hmeta : same_raw (metadata_of d) (metadata_of e)) by (unfold metadata_of; auto with same).
  split_and!.
  - unfold ClassifyDocument. by rewrite Hkind, Hapi.
  - unfold crd_of, kind_name. rewrite (same_crd_versions _ _ Hspec). rewrite (same_conversion _ _ _ Hspec). same.
  - unfold xrd_of, kind_name. rewrite (same_xrd_versions _ _ Hspec). same.
    same_case (spec_of d) (spec_of e) "claimNames" Hspec; done.
  - unfold composition_of. fold (metadata_of d) (metadata_of e).
    rewrite (same_gvk _ _ Hspec), (same_composed _ _ Hspec), (same_steps _ _ Hspec), Hsrc,
      (same_get_str _ _ "name" Hmeta).
    pose proof (same_get_slice _ _ "pipeline" Hspec) as H1. pose proof (same_get_slice _ _ "resources" Hspec) as H2.
    destruct (get_slice (spec_of d) "pipeline"), (get_slice (spec_of e) "pipeline"); try done.
    by destruct (get_slice (spec_of d) "resources"), (get_slice (spec_of e) "resources").
  - unfold function_of, package_of. fold (spec_of d) (spec_of e).
    by rewrite (same_get_str _ _ "name" Hmeta), (same_get_str _ _ "package" Hspec), Hsrc.
  - unfold provider_of, package_of. fold (spec_of d) (spec_of e). same.
  - unfold configuration_of, package_of. fold (spec_of d) (spec_of e). same.
  - unfold project_of. fold (spec_of d) (spec_of e). same.
    + unfold project_dest_of. same.
    + unfold window_of. same.
    + pose proof (same_get_maps _ _ "signatureKeys" Hspec) as H.
      induction H as [|m n l l' Hmn _ IH]; [done|]. cbn [omap list_omap].
      replace (key_id m) with (key_id n); [by destruct (key_id n); [f_equal|]|].
      unfold key_id. pose proof (same_lookup (Some m) (Some n) "keyID" Hmn) as Hl. simpl in Hl.
      destruct (lookup_key m "keyID"), (lookup_key n "keyID"); try done. simpl.
      destruct Hl as [_ Hl]. by inversion Hl.
Qed.
End order.

Definition one_order : obj := [("kind", VStr "Function"); ("spec", VMap [("package", VStr "p"); ("x", VNull)])].
Definition other_order : obj := [("spec", VMap [("x", VNull); ("package", VStr "p")]); ("kind", VStr "Function")].
Lemma parsers_same_witness :
  function_of knownFunctions (MkLoadedDocument zero_SourceLocation "pkg.crossplane.io/v1" "Function" (Some one_order)) =
  function_of knownFunctions (MkLoadedDocument zero_SourceLocation "pkg.crossplane.io/v1" "Function" (Some other_order)).
Proof.
  refine (proj1 (proj2 (proj2 (proj2 (proj2 (parsers_same (λ _, "") (λ _, None) knownFunctions _ _ _)))))).
  split_and!; [done..|]. split.
  - apply wf_VMap. split; [apply (bool_decide_unpack _); reflexivity|].
    apply Forall_cons; split; [done|]. apply Forall_cons; split; [|constructor].
    apply wf_VMap. split; [apply (bool_decide_unpack _); reflexivity|repeat constructor].
  - apply (same_map _ _ [("kind", VStr "Function"); ("spec", VMap [("x", VNull); ("package", VStr "p")])]).
    + apply Forall2_cons; split; [split; [done|constructor]|].
      apply Forall2_cons; split; [split; [done|]|constructor].
      apply (same_map _ _ [("package", VStr "p"); ("x", VNull)]); [repeat constructor|apply Permutation_swap].
    + apply Permutation_swap.
Defined.


(** ** Smaller facts *)

(** The payload of a source is the one its renderer names, and no other. *)
Lemma parseArgoSource_payload m :
  let s := parseArgoSource m in
  (as_Renderer s = "helm" ↔ as_Helm s ≠ None) ∧ (as_Renderer s = "kustomize" ↔ as_Kustomize s ≠ None) ∧
  (as_Renderer s = "plugin" ↔ as_Plugin s ≠ None) ∧ (as_Directory s ≠ None → as_Renderer s = "directory") ∧
  as_Renderer s ∈ ["helm"; "kustomize"; "plugin"; "directory"].
Proof. unfold parseArgoSource. repeat case_match; cbn; split_and!; try done; set_solver. Qed.

(** A conversion is Identity or Structural only between several versions, and
    Identity exactly when all their schemas have one digest. *)
Lemma conversion_identity spec versions : ci_CostClass (conversion_of spec versions) = "Identity" ↔
  get_map spec "conversion" ≠ None ∧
  (get_str (get_map spec "conversion") "strategy" = "None" ∨
   get_str (get_map spec "conversion") "strategy" = "") ∧
  1 < length versions ∧ ∃ d, Forall (λ v, cv_SchemaDigest v = d) versions.
Proof.
  unfold conversion_of. destruct (get_map spec "conversion") as [conv|]; [|naive_solver].
  assert (Hd : same_digests versions = true ↔ ∃ d, Forall (λ v, cv_SchemaDigest v = d) versions).
  { destruct versions as [|v vs]; simpl; [split; [by exists ""|done]|].
    rewrite forallb_elem_of. setoid_rewrite String.eqb_eq. split.
    - intros H. exists (cv_SchemaDigest v). constructor; [done|]. by apply Forall_forall.
    - intros (d & [Hv H]%Forall_cons) u Hu. rewrite Forall_forall in H. by rewrite Hv, (H u Hu). }
  cbv zeta. destruct (String.eqb_spec (get_str (Some conv) "strategy") "Webhook") as [->|Hw].
  { split; [done|]. by intros (_ & [?|?] & _). }
  destruct (String.eqb_spec (get_str (Some conv) "strategy") "None") as [->|Hn]; cbn [orb];
    [|destruct (String.eqb_spec (get_str (Some conv) "strategy") "") as [->|He]]; cbn [ci_CostClass].
  3: { split; [done|]. intros (_ & [?|?] & _); congruence. }
  all: destruct (Nat.leb_spec (length versions) 1); [split; [done|lia]|].
  all: destruct (same_digests versions) eqn:E; [split; [|done]; intros _; split_and!; [done|tauto|lia|by apply Hd]|].
  all: split; [done|]. all: intros (_ & _ & _ & Hx). all: apply Hd in Hx; congruence.
Qed.

(** A nameless manifest keeps the empty name when it is read from a file, and
    gets a placeholder when it is rendered. *)
Example nameless_resources_differ :
  let doc := MkLoadedDocument zero_SourceLocation "v1" "FargateApp" (Some []) in
  ri_Name (resource_of doc) = "" ∧ ri_Name (resourceInfoFromDoc doc) = "<unknown>".
Proof. done. Qed.

(** An integer in YAML is decoded as an int, never as the float64 the parser of
    the retry policy asks for: the limit is never read. *)
Example retry_limit_not_read : retry_limit (Some [("limit", VInt 5)]) = 0%Z.
Proof. done. Qed.
