(* ===== verification/Loader.v ===== *)
(** The loader (src/pkg/loader/loader.go): the documents of a YAML stream, the walk of
    a directory for its YAML files, and the workers that decode the files in parallel.

    The decoder of gopkg.in/yaml.v3 and the reading of one file are parameters.  The
    walk is over a tree of entries; symbolic links are not followed by the walk and
    have no entry of their own kind. *)
From S2P Require Import Prelude GoStrings Paths Yaml Types Documents.

#[local] Open Scope string_scope.
#[local] Open Scope list_scope.

#[local] Notation Result A := (A + string)%type.

(** ** The documents of a stream *)

(** A decoded node: whether it is a document, the position of its content if it has
    any, and what decoding it into a map gives. *)
Record yaml_node : Type := MkYamlNode {
  yn_document : bool; yn_content : option (Z * Z); yn_value : raw + string }.

(** The nodes of the stream, and the error that ended it, if it was not its end. *)
Fixpoint load_nodes (sourcePath : string) (nodes : list yaml_node) (stopped : option string)
    (docs : list LoadedDocument) : Result (list LoadedDocument) :=
  match nodes with
  | [] => match stopped with
          | None => inl docs
          | Some err => inr ("decoding YAML in " +:+ sourcePath +:+ ": " +:+ err)
          end
  | node :: nodes =>
      match yn_document node, yn_content node with
      | true, Some (line, column) =>
          match yn_value node with
          | inr err => inr ("decoding document in " +:+ sourcePath +:+ ": " +:+ err)
          | inl r =>
              let apiVersion := get_str r "apiVersion" in
              let kind := get_str r "kind" in
              if String.eqb apiVersion "" || String.eqb kind "" then load_nodes sourcePath nodes stopped docs
              else load_nodes sourcePath nodes stopped
                     (docs ++ [MkLoadedDocument (MkSourceLocation sourcePath line column) apiVersion kind r])
          end
      | _, _ => load_nodes sourcePath nodes stopped docs
      end
  end.
Definition LoadReader (decode : string → list yaml_node * option string) (bytes sourcePath : string) :
    Result (list LoadedDocument) :=
  let '(nodes, stopped) := decode bytes in load_nodes sourcePath nodes stopped [].
(** [open]: the bytes of a file, or why it cannot be opened. *)
Definition LoadFile (open : string → Result string) (decode : string → list yaml_node * option string)
    (path : string) : Result (list LoadedDocument) :=
  match open path with inr err => inr err | inl bytes => LoadReader decode bytes path end.

Definition LoadStdin (decode : string → list yaml_node * option string) (stdin : string) : Result (list LoadedDocument) :=
  LoadReader decode stdin "<stdin>".

(** ** The walk *)

Inductive entry : Type :=
  | File
  | Dir (children : list (string * entry))
  | Unreadable (err : string).

(** [filepath.Ext]: the suffix of the last element from its last dot on. *)
Fixpoint ext_from (p found : string) : string :=
  match p with
  | "" => found
  | String c r => if Ascii.eqb c "/" then ext_from r "" else if Ascii.eqb c "." then ext_from r p
                  else ext_from r found
  end.
Definition path_ext (p : string) : string := ext_from p "".
Definition is_yaml (path : string) : bool :=
  let ext := to_lower (path_ext path) in String.eqb ext ".yaml" || String.eqb ext ".yml".
(** A Chart.yaml beside it makes a [templates] directory one to skip. *)
Definition is_chart (children : list (string * entry)) : bool :=
  match find_first (λ c, String.eqb (fst c) "Chart.yaml") children with Some (_, File) => true | _ => false end.
(** The results of the children in order: the first error stops the walk. *)
Fixpoint sequence (rs : list (Result (list string))) : Result (list string) :=
  match rs with
  | [] => inl []
  | inr err :: _ => inr err
  | inl ps :: rs => match sequence rs with inl qs => inl (ps ++ qs) | inr err => inr err end
  end.
(** [name] is the entry's own name, [in_chart] whether its directory holds a Chart.yaml. *)
Fixpoint walk (path name : string) (in_chart : bool) (e : entry) : Result (list string) :=
  match e with
  | Unreadable err => inr err
  | File => inl (if is_yaml path then [path] else [])
  | Dir children =>
      if String.eqb name "templates" && in_chart then inl []
      else sequence (map snd (sort_slice (λ a b, str_lt (fst a) (fst b))
             (map (λ c, (fst c, walk (path_join [path; fst c]) (fst c) (is_chart children) (snd c))) children)))
  end.

(** ** The workers *)

Inductive worker : Type := Idle | Loading (i : nat) | Done.
#[export] Instance worker_eq_dec : EqDecision worker.
Proof. solve_decision. Defined.
(** The shared index, the workers, the slots of the results and the first error. *)
Record pool : Type := MkPool {
  pl_idx : nat; pl_workers : list worker; pl_results : gmap nat (list LoadedDocument); pl_err : option string }.

Section workers.
Context (load : string → Result (list LoadedDocument)) (paths : list string).

Definition loading_error (path err : string) : string := "loading " +:+ path +:+ ": " +:+ err.
Definition worker_count (gomaxprocs : nat) : nat := Nat.max 1 (Nat.min gomaxprocs (length paths)).
Definition start_pool (gomaxprocs : nat) : pool :=
  MkPool 0 (replicate (worker_count gomaxprocs) Idle) ∅ None.
(** One step of worker [k]: taking the next index under the lock, or finishing its
    file.  None when it cannot move. *)
Definition advance (k : nat) (s : pool) : option pool :=
  match pl_workers s !! k with
  | Some Idle =>
      Some (MkPool (S (pl_idx s))
              (<[k := if Nat.leb (length paths) (pl_idx s) then Done else Loading (pl_idx s)]> (pl_workers s))
              (pl_results s) (pl_err s))
  | Some (Loading i) =>
      let path := default "" (paths !! i) in
      Some match load path with
           | inl docs => MkPool (pl_idx s) (<[k := Idle]> (pl_workers s)) (<[i := docs]> (pl_results s)) (pl_err s)
           | inr err => MkPool (pl_idx s) (<[k := Done]> (pl_workers s)) (pl_results s)
                          (Some (default (loading_error path err) (pl_err s)))
           end
  | _ => None
  end.
(** A schedule names the worker that moves at each step. *)
Fixpoint run_schedule (ks : list nat) (s : pool) : option pool :=
  match ks with
  | [] => Some s
  | k :: ks => match advance k s with Some s => run_schedule ks s | None => None end
  end.
Definition finished (s : pool) : Prop := Forall (λ w, w = Done) (pl_workers s).
#[export] Instance finished_dec s : Decision (finished s).
Proof. unfold finished. apply _. Defined.
(** A nil slot is skipped, and the rest flattened by path. *)
Definition collected (s : pool) : list (string * list LoadedDocument) :=
  omap (λ ip, match pl_results s !! fst ip with
              | Some (d :: ds) => Some (snd ip, d :: ds)
              | _ => None
              end) (imap pair paths).
Definition flatten (s : pool) : Result (list LoadedDocument) :=
  match pl_err s with
  | Some err => inr err
  | None => inl (flat_map snd (sort_slice (λ a b, str_lt (fst a) (fst b)) (collected s)))
  end.
End workers.

(** What [LoadDirectory] may return: for a directory at [path], the outcome of any
    schedule of the workers that lets all of them finish. *)
Inductive LoadDirectory (load : string → Result (list LoadedDocument)) (gomaxprocs : nat) (path name : string)
    (in_chart : bool) (e : entry) : Result (list LoadedDocument) → Prop :=
  | walk_failed err : walk path name in_chart e = inr err → LoadDirectory load gomaxprocs path name in_chart e (inr err)
  | loaded paths ks s : walk path name in_chart e = inl paths →
      run_schedule load paths ks (start_pool paths gomaxprocs) = Some s → finished s →
      LoadDirectory load gomaxprocs path name in_chart e (flatten paths s).

(** ** What the workers keep *)

Section schedule.
Context (load : string → Result (list LoadedDocument)) (paths : list string).
#[local] Notation step := (advance load paths).
#[local] Notation run := (run_schedule load paths).

(** The documents of a file that loads. *)
Definition docs_of (path : string) : list LoadedDocument :=
  match load path with inl docs => docs | inr _ => [] end.
Definition fails (path : string) : Prop := ∃ err, load path = inr err.
(** Every index handed out is with a worker, in the results, or failed. *)
Definition settled (s : pool) (i : nat) (path : string) : Prop :=
  Loading i ∈ pl_workers s ∨ (∃ docs, load path = inl docs ∧ pl_results s !! i = Some docs) ∨
  (fails path ∧ pl_err s ≠ None).
Record pool_inv (s : pool) : Prop := {
  inv_loading : ∀ i, Loading i ∈ pl_workers s → is_Some (paths !! i);
  inv_settled : ∀ i path, paths !! i = Some path → (i < pl_idx s)%nat → settled s i path;
  inv_results : ∀ i docs, pl_results s !! i = Some docs → ∃ path, paths !! i = Some path ∧ load path = inl docs;
  inv_err : ∀ msg, pl_err s = Some msg → ∃ path err, path ∈ paths ∧ load path = inr err ∧ msg = loading_error path err;
  inv_done : Done ∈ pl_workers s → pl_err s ≠ None ∨ (length paths ≤ pl_idx s)%nat;
  inv_workers : pl_workers s ≠ [] }.

Lemma start_inv n : pool_inv (start_pool paths n).
Proof.
  assert (H : ∀ w, w ∈ pl_workers (start_pool paths n) → w = Idle) by (intros w [-> _]%elem_of_replicate; done).
  split; simpl; try done.
  - intros i Hi%H; done.
  - intros; lia.
  - intros Hd%H; done.
  - unfold worker_count. destruct (Nat.max 1 _) eqn:E; [lia|done].
Qed.
Lemma elem_of_insert (k : nat) (w w' x : worker) (ws : list worker) : ws !! k = Some w →
  x ∈ <[k := w']> ws → x = w' ∨ x ∈ ws.
Proof.
  intros Hk [j Hj]%list_elem_of_lookup. apply list_lookup_insert_Some in Hj as [(-> & -> & _)|[_ Hj]]; [by left|].
  right. by eapply list_elem_of_lookup_2.
Qed.
Lemma elem_of_insert_other (k : nat) (w w' x : worker) (ws : list worker) : ws !! k = Some w → x ∈ ws → x ≠ w → x ∈ <[k := w']> ws.
Proof.
  intros Hk [j Hj]%list_elem_of_lookup Hx. apply list_elem_of_lookup. exists j.
  rewrite list_lookup_insert_ne; [done|]. intros ->. congruence.
Qed.
Lemma elem_of_insert_new (k : nat) (w w' : worker) (ws : list worker) : ws !! k = Some w → w' ∈ <[k := w']> ws.
Proof. intros Hk. apply list_elem_of_lookup. exists k. apply list_lookup_insert_eq. by apply lookup_lt_Some in Hk. Qed.
Lemma insert_nonempty (k : nat) (w : worker) (ws : list worker) : ws ≠ [] → <[k := w]> ws ≠ [].
Proof. destruct ws, k; done. Qed.

Lemma advance_inv k s s' : pool_inv s → step k s = Some s' → pool_inv s'.
Proof.
  intros [Hl Hs Hr He Hd Hw]. unfold advance. destruct (pl_workers s !! k) as [[|i|]|] eqn:Ek; try done; intros [= <-].
  - destruct (Nat.leb_spec (length paths) (pl_idx s)) as [Hle|Hlt]; split; simpl; try done.
    + intros i [?|?]%(elem_of_insert _ _ _ _ _ Ek); [done|by apply Hl].
    + intros i path Hi Hlt. assert (i < pl_idx s)%nat as Hi' by (apply lookup_lt_Some in Hi; lia).
      destruct (Hs i path Hi Hi') as [H|H]; [left; simpl|by right]. by eapply elem_of_insert_other.
    + intros _. right. lia.
    + by apply insert_nonempty.
    + intros i [[= ->]|?]%(elem_of_insert _ _ _ _ _ Ek); [by apply lookup_lt_is_Some|by apply Hl].
    + intros i path Hi Hlt'. destruct (decide (i = pl_idx s)) as [->|Hne].
      * left. simpl. by eapply elem_of_insert_new.
      * destruct (Hs i path Hi ltac:(lia)) as [H|H]; [left; simpl|by right]. by eapply elem_of_insert_other.
    + intros [?|?]%(elem_of_insert _ _ _ _ _ Ek); [done|]. destruct (Hd ltac:(done)); [by left|lia].
    + by apply insert_nonempty.
  - destruct (Hl i) as [p Hp]; [by eapply list_elem_of_lookup_2|]. rewrite Hp. simpl default.
    destruct (load p) as [docs|err] eqn:El; split; simpl; try done.
    + intros j [?|?]%(elem_of_insert _ _ _ _ _ Ek); [done|by apply Hl].
    + intros j path Hj Hlt. destruct (decide (j = i)) as [->|Hne].
      * right; left. exists docs. simpl. rewrite lookup_insert_eq. by simplify_eq.
      * destruct (Hs j path Hj Hlt) as [H|[H|H]]; [left; simpl|right; left; simpl|right; right; done].
        { eapply elem_of_insert_other; [done..|]. congruence. }
        by rewrite lookup_insert_ne.
    + intros j ds [[-> ->]|[_ Hj]]%lookup_insert_Some; eauto.
    + intros [?|?]%(elem_of_insert _ _ _ _ _ Ek); [done|by apply Hd].
    + by apply insert_nonempty.
    + intros j [?|?]%(elem_of_insert _ _ _ _ _ Ek); [done|by apply Hl].
    + intros j path Hj Hlt. destruct (decide (j = i)) as [->|Hne].
      * right; right. simpl. split; [exists err; congruence|done].
      * destruct (Hs j path Hj Hlt) as [H|[H|[H _]]]; [left; simpl|by right; left|by right; right].
        eapply elem_of_insert_other; [done..|]. congruence.
    + intros msg [= <-]. destruct (pl_err s) as [m|] eqn:Em; simpl; [by apply He|].
      exists p, err. split_and!; [by eapply list_elem_of_lookup_2|done..].
    + by left.
    + by apply insert_nonempty.
Qed.
Lemma run_inv ks s s' : pool_inv s → run ks s = Some s' → pool_inv s'.
Proof.
  revert s. induction ks as [|k ks IH]; simpl; intros s Hs; [by intros [= <-]|].
  destruct (step k s) as [s1|] eqn:E; [|done]. apply IH. by eapply advance_inv.
Qed.

(** ** What a finished pool returns *)

Lemma finished_settled s : pool_inv s → finished s → pl_err s = None →
  ∀ i path, paths !! i = Some path → ∃ docs, load path = inl docs ∧ pl_results s !! i = Some docs.
Proof.
  intros [_ Hs _ _ Hd Hw] Hf He i path Hi. unfold finished in Hf. rewrite Forall_forall in Hf.
  assert (Hdone : Done ∈ pl_workers s).
  { destruct (pl_workers s) as [|w ws]; [done|]. rewrite <- (Hf w) by by left. by left. }
  destruct (Hd Hdone) as [?|Hle]; [done|]. pose proof (lookup_lt_Some _ _ _ Hi).
  destruct (Hs i path Hi ltac:(lia)) as [H1|[H2|[_ H3]]]; [by apply Hf in H1|done|done].
Qed.
Lemma collected_eq s : (∀ i path, paths !! i = Some path → ∃ docs, load path = inl docs ∧ pl_results s !! i = Some docs) →
  collected paths s = map (λ p, (p, docs_of p)) (filter (λ p, docs_of p ≠ []) paths).
Proof.
  intros H. unfold collected.
  assert (Hg : ∀ g, (∀ i path, paths !! i = Some path → ∃ docs, load path = inl docs ∧ pl_results s !! (g i)%nat = Some docs) →
    omap (λ ip, match pl_results s !! fst ip with
              | Some (d :: ds) => Some (snd ip, d :: ds)
              | _ => None
              end) (imap (λ i, pair (g i)) paths) = map (λ p, (p, docs_of p)) (filter (λ p, docs_of p ≠ []) paths)).
  { clear H. induction paths as [|p ps IH]; intros g Hp; [done|]. rewrite imap_cons. cbn [omap list_omap fst snd].
    specialize (IH (g ∘ S) (λ i path Hi, Hp (S i) path Hi)).
    destruct (Hp 0%nat p eq_refl) as (docs & Hl & Hr). unfold compose in IH. rewrite Hr, filter_cons.
    assert (E : docs_of p = docs) by (unfold docs_of; by rewrite Hl).
    destruct docs as [|d ds]; [rewrite decide_False by (rewrite E; auto); exact IH|].
    rewrite decide_True by by rewrite E. simpl. rewrite E. f_equal. exact IH. }
  apply (Hg id). exact H.
Qed.
Lemma flatten_all s : pool_inv s → finished s → pl_err s = None →
  flatten paths s = inl (flat_map docs_of (sort_slice str_lt paths)).
Proof.
  intros Hi Hf He. unfold flatten. rewrite He. f_equal. rewrite collected_eq by by apply finished_settled.
  change (map ?f ?l) with (f <$> l). rewrite (sort_slice_map str_lt) by done.
  assert (E : sort_slice str_lt (filter (λ p, docs_of p ≠ []) paths) = filter (λ p, docs_of p ≠ []) (sort_slice str_lt paths)).
  { apply (sort_slice_unique str_lt).
    - intros x y _ _. apply str_lt_total.
    - apply StronglySorted_filter. apply (sort_slice_sorted str_lt).
    - by rewrite sort_slice_perm. }
  rewrite E. clear. induction (sort_slice str_lt paths) as [|p l IH]; [done|]. rewrite filter_cons. simpl.
  destruct (decide (docs_of p ≠ [])) as [Hp|Hp]; simpl; [by f_equal|]. destruct (docs_of p); [done|]. by destruct Hp.
Qed.
Lemma finished_verdict s : pool_inv s → finished s →
  match pl_err s with
  | None => Forall (λ p, ¬ fails p) paths
  | Some msg => ∃ path err, path ∈ paths ∧ load path = inr err ∧ msg = loading_error path err
  end.
Proof.
  intros Hi Hf. destruct (pl_err s) as [msg|] eqn:E; [by apply (inv_err s Hi)|].
  apply Forall_forall. intros p [i Hp]%list_elem_of_lookup [err Herr].
  destruct (finished_settled s Hi Hf E i p Hp) as (docs & Hl & _). congruence.
Qed.

(** ** Every schedule ends *)

Definition worker_weight (w : worker) : nat := match w with Done => 0 | Idle => 1 | Loading _ => 2 end.
Definition pool_weight (s : pool) : nat :=
  2 * (length paths - pl_idx s) + sum_list_with worker_weight (pl_workers s).
Lemma weight_insert (k : nat) (w w' : worker) (ws : list worker) : ws !! k = Some w →
  sum_list_with worker_weight (<[k := w']> ws) + worker_weight w = sum_list_with worker_weight ws + worker_weight w'.
Proof.
  revert k. induction ws as [|x ws IH]; intros [|k] H; simplify_eq/=; [lia|]. specialize (IH k H). lia.
Qed.
Lemma advance_weight k s s' : step k s = Some s' → (pool_weight s' < pool_weight s)%nat.
Proof.
  unfold advance, pool_weight. destruct (pl_workers s !! k) as [[|i|]|] eqn:Ek; try done; intros [= <-].
  - pose proof (weight_insert k Idle (if (length paths <=? pl_idx s)%nat then Done else Loading (pl_idx s)) _ Ek) as H.
    destruct (Nat.leb_spec (length paths) (pl_idx s)); simpl in *; lia.
  - pose proof (weight_insert k (Loading i) Idle _ Ek) as H1. pose proof (weight_insert k (Loading i) Done _ Ek) as H2.
    destruct (load _); simpl in *; lia.
Qed.
Lemma run_weight ks s s' : run ks s = Some s' → (length ks + pool_weight s' ≤ pool_weight s)%nat.
Proof.
  revert s. induction ks as [|k ks IH]; simpl; intros s; [by intros [= ->]|].
  destruct (step k s) as [s1|] eqn:E; [|done]. intros H%IH. apply advance_weight in E. lia.
Qed.
Lemma unfinished_moves s : ¬ finished s → ∃ k s', step k s = Some s'.
Proof.
  intros Hn. unfold finished in Hn. apply not_Forall_Exists in Hn; [|apply _]. apply Exists_exists in Hn as (w & Hw & Hne).
  apply list_elem_of_lookup in Hw as [k Hk]. exists k. unfold advance. rewrite Hk. destruct w; [by eexists..|by destruct Hne].
Qed.
Lemma start_weight n : (pool_weight (start_pool paths n) ≤ 2 * length paths + worker_count paths n)%nat.
Proof.
  unfold pool_weight. simpl. assert (sum_list_with worker_weight (replicate (worker_count paths n) Idle) = worker_count paths n) as ->; [|lia].
  induction (worker_count paths n) as [|m IH]; simpl; [done|]. by rewrite IH.
Qed.
Lemma some_schedule s : ∃ ks s', run ks s = Some s' ∧ finished s'.
Proof.
  remember (pool_weight s) as n eqn:En. revert s En. induction (lt_wf n) as [n _ IH]. intros s ->.
  destruct (decide (finished s)) as [Hf|Hf]; [by exists [], s|].
  destruct (unfinished_moves s Hf) as (k & s1 & Hk).
  destruct (IH _ (advance_weight _ _ _ Hk) s1 eq_refl) as (ks & s' & Hr & Hf'). exists (k :: ks), s'. simpl. by rewrite Hk.
Qed.
End schedule.

(** ** Which files the walk finds *)

(** A YAML file of the tree, not below the [templates] directory of a chart. *)
Inductive listed : string → string → bool → entry → string → Prop :=
  | listed_file path name in_chart : is_yaml path = true → listed path name in_chart File path
  | listed_dir path name in_chart children child e p :
      (name ≠ "templates" ∨ in_chart = false) → (child, e) ∈ children →
      listed (path_join [path; child]) child (is_chart children) e p →
      listed path name in_chart (Dir children) p.

Lemma sequence_inl rs ps : sequence rs = inl ps → ∀ p, p ∈ ps ↔ ∃ qs, inl qs ∈ rs ∧ p ∈ qs.
Proof.
  revert ps. induction rs as [|[qs|err] rs IH]; simpl; intros ps; [intros [= <-] p|destruct (sequence rs) as [rest|] eqn:E; [|done]|done].
  { split; [by intros ?%not_elem_of_nil|]. intros (? & ?%not_elem_of_nil & _). done. }
  intros [= <-] p. rewrite elem_of_app, (IH rest eq_refl). split.
  - intros [H|(q & Hq & H)]; [exists qs|exists q]; (split; [|done]); [by left|by right].
  - intros (q & [[= ->]|Hq]%elem_of_cons & H); [by left|right; eauto].
Qed.
Lemma sequence_inr rs : (∃ err, sequence rs = inr err) ↔ ∃ err, inr err ∈ rs.
Proof.
  induction rs as [|[qs|err] rs IH]; simpl.
  - split; [by intros []|]. by intros (? & ?%not_elem_of_nil).
  - destruct (sequence rs) as [ps|err].
    + split; [by intros []|]. intros (err & [?|H]%elem_of_cons); [done|]. assert (∃ err, @inl (list string) string ps = inr err) as [? ?] by (apply IH; eauto). done.
    + split; [|eauto]. intros _. destruct (proj1 IH (ex_intro _ err eq_refl)) as (e & He). exists e. by right.
  - split; [|eauto]. intros _. exists err. by left.
Qed.

Section entry_ind.
Context (P : entry → Prop) (Hfile : P File) (Hbad : ∀ err, P (Unreadable err)).
Context (Hdir : ∀ children, Forall (λ c, P (snd c)) children → P (Dir children)).
Fixpoint entry_ind' (e : entry) : P e :=
  match e with
  | File => Hfile
  | Unreadable err => Hbad err
  | Dir children => Hdir children ((fix go (l : list (string * entry)) : Forall (λ c, P (snd c)) l :=
      match l with
      | [] => Forall_nil_2 _
      | c :: l => Forall_cons_2 _ c l (entry_ind' (snd c)) (go l)
      end) children)
  end.
End entry_ind.

Lemma walk_listed e : ∀ path name in_chart ps, walk path name in_chart e = inl ps →
  ∀ p, p ∈ ps ↔ listed path name in_chart e p.
Proof.
  induction e as [|err|children IH] using entry_ind'; intros path name in_chart ps; cbn [walk]; [|done|].
  - intros [= <-] p. destruct (is_yaml path) eqn:E.
    + rewrite list_elem_of_singleton. split; [intros ->; by constructor|by inversion 1].
    + split; [by intros ?%not_elem_of_nil|]. inversion 1; congruence.
  - destruct (String.eqb_spec name "templates") as [->|Hn]; [destruct in_chart; cbn [andb]|cbn [andb]].
    { intros [= <-] p. split; [by intros ?%not_elem_of_nil|]. inversion 1; naive_solver. }
    all: intros Hs p; rewrite (sequence_inl _ _ Hs); split.
    all: try (intros (qs & Hq & Hp)).
    all: try (intros H; inversion H as [|? ? ? ? child e ? Hok Hc Hl]; subst).
    all: try (apply list_elem_of_fmap in Hq as ([n r] & Er & Hq); rewrite elem_of_sort_slice in Hq;
      apply list_elem_of_fmap in Hq as ([child e] & [= -> ->] & Hc); simpl in Er;
      apply (listed_dir _ _ _ _ child e); [auto|done|];
      rewrite Forall_forall in IH; by eapply (IH _ Hc _ _ _ qs)).
    all: pose proof Hs as Hs'; rewrite Forall_forall in IH;
      destruct (walk (path_join [path; child]) child (is_chart children) e) as [qs|err] eqn:Ew.
    all: try (exfalso; match type of Hs with sequence ?rs = _ =>
        assert (∃ err, sequence rs = inr err) as [? ?]; [apply sequence_inr; exists err|congruence] end).
    all: try (exists qs; split; [|by apply (IH _ Hc _ _ _ _ Ew)]).
    all: apply list_elem_of_fmap; exists (child, walk (path_join [path; child]) child (is_chart children) e);
      (split; [by rewrite Ew|]); rewrite elem_of_sort_slice; apply list_elem_of_fmap; by exists (child, e).
Qed.

(** ** Properties *)

(** C12: Loading a directory does not depend on how its workers are scheduled: when every
    file loads, the documents are those of exactly the YAML files outside charts'
    templates, file by file in the order of their paths; when some file does not,
    the result is the error of one such file and no documents; and an error of the
    walk is returned before any file is read. *)
Theorem LoadDirectory_outcome load gomaxprocs path name in_chart e out :
  LoadDirectory load gomaxprocs path name in_chart e out →
  (∃ err, walk path name in_chart e = inr err ∧ out = inr err) ∨
  ∃ paths, (∀ p, p ∈ paths ↔ listed path name in_chart e p) ∧
    ((Forall (λ p, ¬ fails load p) paths ∧ out = inl (flat_map (docs_of load) (sort_slice str_lt paths))) ∨
     ∃ p err, p ∈ paths ∧ load p = inr err ∧ out = inr (loading_error p err)).
Proof.
  intros [err Hw|paths ks s Hw Hr Hf]; [by left; exists err|right]. exists paths.
  split; [by apply walk_listed|]. pose proof (run_inv _ _ _ _ _ (start_inv load paths gomaxprocs) Hr) as Hi.
  pose proof (finished_verdict load paths s Hi Hf) as Hv. destruct (pl_err s) as [msg|] eqn:E.
  - right. destruct Hv as (p & err & Hp & Hl & ->). exists p, err. split_and!; [done..|]. unfold flatten. by rewrite E.
  - left. split; [done|]. by apply flatten_all.
Qed.

(** Waiting for the workers ends: from every state a schedule can reach, some worker
    can move until all have finished, no schedule is longer than twice the number of
    files and one step more for each worker, and a finished pool moves no further. *)
Theorem workers_finish load paths gomaxprocs ks s :
  run_schedule load paths ks (start_pool paths gomaxprocs) = Some s →
  (length ks ≤ 2 * length paths + worker_count paths gomaxprocs)%nat ∧
  (finished s ↔ ∀ k, advance load paths k s = None) ∧
  ∃ ks' s', run_schedule load paths (ks ++ ks') (start_pool paths gomaxprocs) = Some s' ∧ finished s'.
Proof.
  intros Hr. split_and!.
  - apply run_weight in Hr. pose proof (start_weight paths gomaxprocs). lia.
  - split.
    + intros Hf k. unfold advance. destruct (pl_workers s !! k) as [w|] eqn:E; [|done].
      unfold finished in Hf. rewrite Forall_forall in Hf. by rewrite (Hf w) by by eapply list_elem_of_lookup_2.
    + intros Hn. apply dec_stable. intros Hf. destruct (unfinished_moves load paths s Hf) as (k & s' & Hk). congruence.
  - destruct (some_schedule load paths s) as (ks' & s' & Hr' & Hf). exists ks', s'. split; [|done].
    clear -Hr Hr'. revert Hr. generalize (start_pool paths gomaxprocs) as s0. induction ks as [|k ks IH]; simpl; intros s0 Hr.
    + by simplify_eq.
    + destruct (advance load paths k s0); [by apply IH|done].
Qed.

(** A chart and two manifests; the second file finishes first. *)
Definition some_tree : entry := Dir [
  ("b.YML", File); ("chart", Dir [("Chart.yaml", File); ("templates", Dir [("bad.yaml", File)])]);
  ("a", Dir [("x.yaml", File)]); ("README.md", File)].
Definition one_doc (p : string) : list LoadedDocument := [MkLoadedDocument zero_SourceLocation "v1" p None].
Definition some_load (p : string) : Result (list LoadedDocument) :=
  if contains p "Chart" then inl [] else inl (one_doc p).
Definition some_schedule_ks : list nat := [1; 0; 0; 1; 0; 0; 0; 1]%nat.
Definition some_paths : list string := ["r/a/x.yaml"; "r/b.YML"; "r/chart/Chart.yaml"].
Definition some_pool : pool :=
  default (start_pool [] 1) (run_schedule some_load some_paths some_schedule_ks (start_pool some_paths 2)).
Example walk_ex : walk "r" "r" false some_tree = inl some_paths.
Proof. reflexivity. Qed.
Lemma LoadDirectory_outcome_witness :
  ∃ out, LoadDirectory some_load 2 "r" "r" false some_tree out ∧ out = inl (one_doc "r/a/x.yaml" ++ one_doc "r/b.YML").
Proof.
  eexists. split; [|reflexivity].
  assert (H : LoadDirectory some_load 2 "r" "r" false some_tree (inl (one_doc "r/a/x.yaml" ++ one_doc "r/b.YML"))).
  { apply (loaded some_load 2 "r" "r" false some_tree some_paths some_schedule_ks some_pool);
      [reflexivity|reflexivity|vm_compute; repeat constructor]. }
  destruct (LoadDirectory_outcome _ _ _ _ _ _ _ H) as [(err & _ & E)|(paths & _ & [[_ _]|(p & err & _ & _ & E)])];
    [discriminate E|exact H|discriminate E].
Defined.
Lemma workers_finish_witness :
  (length some_schedule_ks ≤ 2 * 3 + 2)%nat.
Proof.
  apply (workers_finish some_load some_paths 2 some_schedule_ks some_pool). reflexivity.
Defined.
(** With two bad files the error that is reported depends on the schedule, and the
    workers that did not fail go on: the third file is loaded either way. *)
Definition bad_load (p : string) : Result (list LoadedDocument) :=
  if contains p "bad" then inr "not YAML" else inl (one_doc p).
Definition bad_paths : list string := ["r/bad1.yaml"; "r/bad2.yaml"; "r/c.yaml"].
Definition bad_run (ks : list nat) : option (Result (list LoadedDocument) * nat) :=
  s ← run_schedule bad_load bad_paths ks (start_pool bad_paths 3);
  guard (finished s);; Some (flatten bad_paths s, size (pl_results s)).
Example first_error_depends :
  bad_run [0; 1; 2; 0; 1; 2; 2]%nat = Some (inr "loading r/bad1.yaml: not YAML", 1%nat) ∧
  bad_run [0; 1; 2; 1; 0; 2; 2]%nat = Some (inr "loading r/bad2.yaml: not YAML", 1%nat).
Proof. vm_compute. done. Qed.
