(* ===== verification/Owner.v ===== *)
(** Which Application owns a fact, and where its values files are:
    the owner resolution of src/pkg/ir/builder.go ([findRepoRoot],
    [buildOwnerPrefixes], [resolveOwner], [enrichOwningApp], [sourcePathCwd]) and
    src/pkg/ir/values_ref.go.

    The file system is three parameters: the working directory, whether a path
    exists, and whether a path is a git directory or file. *)
From Stdlib Require Import ZArith.
From S2P Require Import Prelude GoStrings Paths Yaml Types.

#[local] Open Scope string_scope.
#[local] Open Scope list_scope.

(** What claims files: a directory and the Application that claims it. *)
Record ownerPrefix : Type := MkOwnerPrefix { op_dir : string; op_appName : string }.

Section owner.
Context (cwd : option string) (is_git exists_path : string → bool).

(** [filepath.Abs]: an error only when the working directory is unknown. *)
Definition filepath_abs (p : string) : option string :=
  if is_abs p then Some (path_clean p)
  else match cwd with Some d => Some (path_join [d; p]) | None => None end.

Definition repo_test (cur : string) : option string :=
  if is_git (path_join [cur; ".git"]) then Some cur else None.
Definition findRepoRoot (dir : string) : string :=
  if String.eqb dir "" then "" else default "" (climb repo_test (climb_fuel dir) dir).

(** One source's directories: below the repository root, and below the
    Application's own directory. *)
Definition source_prefixes (appDir repoRoot : string) (app : ArgoApplication) (src : ArgoSource) :
    list ownerPrefix :=
  if negb (String.eqb (as_Renderer src) "directory") then []
  else if String.eqb (as_Path src) "" then []
  else
    (if negb (String.eqb repoRoot "") then
       match filepath_abs (path_join [repoRoot; as_Path src]) with
       | Some abs => [MkOwnerPrefix abs (app_Name app)]
       | None => []
       end
     else []) ++
    match filepath_abs (path_join [appDir; as_Path src]) with
    | Some abs => [MkOwnerPrefix abs (app_Name app)]
    | None => []
    end.
Definition app_prefixes (app : ArgoApplication) : list ownerPrefix :=
  let appDir := path_dir (sl_File (app_Source app)) in
  let absAppDir := filepath_abs appDir in
  let repoRoot := findRepoRoot (default "" absAppDir) in
  match absAppDir with Some abs => [MkOwnerPrefix abs (app_Name app)] | None => [] end ++
  flat_map (source_prefixes appDir repoRoot app) (app_Sources app).
Definition buildOwnerPrefixes (w : World) : list ownerPrefix := flat_map app_prefixes (w_ArgoApps w).

(** The longest containing prefix; the first of them on a tie.  [best_len] is -1
    before any is found. *)
Definition better (file : string) (best : string * Z) (p : ownerPrefix) : string * Z :=
  if negb (pathUnder file (op_dir p)) then best
  else if (snd best <? Z.of_nat (String.length (op_dir p)))%Z
  then (op_appName p, Z.of_nat (String.length (op_dir p))) else best.
Definition resolveOwner (file : string) (prefixes : list ownerPrefix) : string :=
  match filepath_abs file with
  | None => ""
  | Some abs => fst (foldl (better abs) ("", (-1)%Z) prefixes)
  end.

(** The new owner of a fact: the old one, or the one its file resolves to. *)
Definition owner_of (prefixes : list ownerPrefix) (owner file : string) : string :=
  if negb (String.eqb owner "") then owner else resolveOwner file prefixes.
Definition own_resource (ps : list ownerPrefix) (r : ResourceInfo) : ResourceInfo :=
  {| r with ri_OwningApp := owner_of ps (ri_OwningApp r) (sl_File (ri_Source r)) |}.
Definition own_crd (ps : list ownerPrefix) (c : CRDInfo) : CRDInfo :=
  {| c with crd_OwningApp := owner_of ps (crd_OwningApp c) (sl_File (crd_Source c)) |}.
Definition own_composition (ps : list ownerPrefix) (c : CompositionInfo) : CompositionInfo :=
  {| c with comp_OwningApp := owner_of ps (comp_OwningApp c) (sl_File (comp_Source c)) |}.
Definition own_function (ps : list ownerPrefix) (f : FunctionInfo) : FunctionInfo :=
  {| f with fn_OwningApp := owner_of ps (fn_OwningApp f) (sl_File (fn_Source f)) |}.
Definition own_provider (ps : list ownerPrefix) (p : ProviderInfo) : ProviderInfo :=
  {| p with pr_OwningApp := owner_of ps (pr_OwningApp p) (sl_File (pr_Source p)) |}.
Definition enrichOwningApp (w : World) : World :=
  match w_ArgoApps w with
  | [] => w
  | _ =>
      let prefixes := buildOwnerPrefixes w in
      match prefixes with
      | [] => w
      | _ => {| w with
          w_Resources := map (own_resource prefixes) (w_Resources w);
          w_CRDs := map (own_crd prefixes) (w_CRDs w);
          w_XRDs := map (own_crd prefixes) (w_XRDs w);
          w_Compositions := map (own_composition prefixes) (w_Compositions w);
          w_Functions := map (own_function prefixes) (w_Functions w);
          w_Providers := map (own_provider prefixes) (w_Providers w) |}
      end
  end.

(** The directory a same-repository source path is taken from. *)
Definition sourcePathCwd (appFile srcPath : string) : string :=
  let appDir := path_dir appFile in
  if String.eqb srcPath "" || is_abs srcPath then appDir
  else if exists_path (path_join [appDir; srcPath]) then appDir
  else let root := findRepoRoot appDir in
       if negb (String.eqb root "") && exists_path (path_join [root; srcPath]) then root else appDir.

(** ** Values files *)

Inductive valueRefOutcome : Type :=
  | valueRefNoChange | valueRefResolved | valueRefUnknownRef | valueRefRemote.
#[export] Instance valueRefOutcome_eq_dec : EqDecision valueRefOutcome.
Proof. solve_decision. Defined.

(** The root of a sibling source: its path, or the repository. *)
Definition sibling_root (sibling : ArgoSource) (dir : string) : option string :=
  let p := as_Path sibling in
  if negb (String.eqb p "") then
    Some (if is_abs p then path_clean p else path_clean (path_join [dir; p]))
  else let r := findRepoRoot dir in if String.eqb r "" then None else Some r.
Definition resolveValueFilePrefix (valueFile : string) (siblings : list ArgoSource) (dir : string) :
    string * valueRefOutcome :=
  if negb (has_prefix "$" valueFile) then (valueFile, valueRefNoChange)
  else match cut_char "/" valueFile with
       | None => (valueFile, valueRefNoChange)
       | Some (before, rest) =>
           if Nat.ltb (String.length before) 2 then (valueFile, valueRefNoChange)
           else match find_first (λ s, String.eqb (as_Ref s) (str_drop 1 before)) siblings with
                | None => (valueFile, valueRefUnknownRef)
                | Some sibling =>
                    match sibling_root sibling dir with
                    | None => (valueFile, valueRefRemote)
                    | Some root =>
                        let resolved := path_clean (path_join [root; rest]) in
                        (default resolved (filepath_abs resolved), valueRefResolved)
                    end
                end
       end.
(** The clone only when some file was rewritten. *)
Definition rewriteHelmValueFiles (h : option ArgoHelmSource) (siblings : list ArgoSource) (dir : string) :
    option ArgoHelmSource * list valueRefOutcome :=
  match h with
  | None => (None, [])
  | Some s =>
      match hs_ValueFiles s with
      | [] => (Some s, [])
      | files =>
          let resolved := map (λ vf, resolveValueFilePrefix vf siblings dir) files in
          if existsb (λ r, bool_decide (snd r = valueRefResolved)) resolved
          then (Some {| s with hs_ValueFiles := map fst resolved |}, map snd resolved)
          else (Some s, map snd resolved)
      end
  end.
End owner.

(** ** The repository root *)

Section repo.
Context (is_git : string → bool).
#[local] Notation git_at d := (is_git (path_join [d; ".git"])).

Lemma show_path_nonempty rooted s : show_path rooted s ≠ "".
Proof. unfold show_path. destruct rooted; [done|]. by destruct (String.eqb_spec (join "/" (rev s)) ""). Qed.
Lemma up_nonempty k dir : dir ≠ "" → up k dir ≠ "".
Proof.
  intros Hd. destruct k as [|k]; [done|]. unfold up; simpl.
  destruct (path_dir_shape (Nat.iter k path_dir dir)) as (rooted & s & _ & -> & _). apply show_path_nonempty.
Qed.

(** The search for the repository ends for every directory, relative or not:
    climbing rests after at most one step for each byte of the path and one more,
    and the answer is the nearest ancestor (or the directory itself) that holds
    .git, or empty exactly when no ancestor does. *)
Theorem findRepoRoot_nearest dir : dir ≠ "" →
  (∃ n, (n ≤ S (String.length dir))%nat ∧ ∀ k, (n ≤ k)%nat → up k dir = up n dir) ∧
  ((∃ k, findRepoRoot is_git dir = up k dir ∧ findRepoRoot is_git dir ≠ "" ∧ git_at (up k dir) = true ∧
         ∀ j, (j < k)%nat → git_at (up j dir) = false) ∨
   (findRepoRoot is_git dir = "" ∧ ∀ k, git_at (up k dir) = false)).
Proof.
  intros Hd. split.
  { exists (S (String.length dir)). split; [done|]. intros k Hk. induction Hk as [|k Hk IH]; [done|].
    change (path_dir (up k dir) = up (S (String.length dir)) dir). rewrite IH. apply climb_rests. }
  unfold findRepoRoot. rewrite (proj2 (String.eqb_neq _ _) Hd).
  pose proof (climb_nearest (repo_test is_git) (climb_fuel dir) dir (le_n _)) as H.
  assert (Ht : ∀ d, repo_test is_git d = None ↔ git_at d = false).
  { intros d. unfold repo_test. by destruct (git_at d). }
  destruct (climb _ _ _) as [a|]; simpl.
  - destruct H as (k & Ha & Hj). left. exists k. unfold repo_test in Ha.
    destruct (git_at (up k dir)) eqn:E; [|done]. injection Ha as <-. split_and!; [done| |done|].
    + by apply up_nonempty.
    + intros j Hlt. by apply Ht, Hj.
  - right. split; [done|]. intros k. by apply Ht.
Qed.
End repo.

Lemma findRepoRoot_nearest_witness :
  findRepoRoot (λ p, String.eqb p "/r/.git") "/r/apps/web" = "/r" ∧
  ∃ n, (n ≤ 12)%nat ∧ ∀ k, (n ≤ k)%nat → up k "/r/apps/web" = up n "/r/apps/web".
Proof.
  destruct (findRepoRoot_nearest (λ p, String.eqb p "/r/.git") "/r/apps/web") as [H _]; [done|].
  split; [by vm_compute|exact H].
Defined.

(** ** The owner of a file *)

Section nearest.
Context (cwd : option string) (is_git : string → bool).
Context (Hcwd : ∀ d, cwd = Some d → is_abs d = true).

Lemma is_abs_app a b : is_abs a = true → is_abs (a +:+ b) = true.
Proof.
  unfold is_abs. intros H. destruct a as [|c a]; [done|].
  change (has_prefix "/" (String c a +:+ b)) with (Ascii.eqb "/" c && true).
  change (has_prefix "/" (String c a)) with (Ascii.eqb "/" c && true) in H. done.
Qed.
Lemma filepath_abs_show p q : filepath_abs cwd p = Some q → ∃ s, stack true s ∧ q = show_path true s.
Proof.
  assert (Hc : ∀ p, is_abs p = true → ∃ s, stack true s ∧ path_clean p = show_path true s).
  { intros r Hr. destruct (path_clean_show r) as (s & Hs & E & _). rewrite Hr in Hs, E. eauto. }
  unfold filepath_abs. destruct (is_abs p) eqn:Ha; [intros [= <-]; eauto|].
  destruct cwd as [d|] eqn:Ed; [|done]. intros [= <-]. pose proof (Hcwd d eq_refl) as Hd.
  unfold path_join. rewrite filter_cons, decide_True by (by intros ->). rewrite filter_cons.
  destruct (decide (p ≠ "")).
  - rewrite filter_nil. apply Hc.
    change (join "/" [d; p]) with (d +:+ "/" +:+ p). by apply is_abs_app.
  - rewrite filter_nil. by apply Hc.
Qed.

Definition absolute (p : ownerPrefix) : Prop := ∃ d, stack true d ∧ op_dir p = show_path true d.
Lemma prefixes_absolute w : Forall absolute (buildOwnerPrefixes cwd is_git w).
Proof.
  apply Forall_flat_map, Forall_forall. intros app _. unfold app_prefixes.
  assert (Hp : ∀ p name, Forall absolute
      match filepath_abs cwd p with Some abs => [MkOwnerPrefix abs name] | None => [] end).
  { intros p name. destruct (filepath_abs cwd p) as [q|] eqn:E; [|constructor].
    apply filepath_abs_show in E as (s & Hs & ->). repeat constructor. by exists s. }
  apply Forall_app. split; [apply Hp|]. apply Forall_flat_map, Forall_forall. intros src _.
  unfold source_prefixes. destruct (negb _); [constructor|]. destruct (String.eqb _ _); [constructor|].
  apply Forall_app. split; [|apply Hp]. destruct (negb _); [apply Hp|constructor].
Qed.

(** The scan keeps the first of the longest containing prefixes. *)
Definition best_of (file : string) (ps : list ownerPrefix) (best : string * Z) : Prop :=
  (best = ("", (-1)%Z) ∧ Forall (λ p, pathUnder file (op_dir p) = false) ps) ∨
  ∃ p, p ∈ ps ∧ pathUnder file (op_dir p) = true ∧ best = (op_appName p, Z.of_nat (String.length (op_dir p))) ∧
       ∀ q, q ∈ ps → pathUnder file (op_dir q) = true → (String.length (op_dir q) ≤ String.length (op_dir p))%nat.
Lemma better_spec file ps : best_of file ps (foldl (better file) ("", (-1)%Z) ps).
Proof.
  induction ps as [|p ps IH] using rev_ind; [by left|]. rewrite foldl_app. cbn [foldl].
  set (best := foldl _ _ _) in *. unfold better. destruct (pathUnder file (op_dir p)) eqn:Hp; cbn [negb].
  - right. destruct IH as [[-> Hn]|(r & Hr & Hru & -> & Hmax)]; cbn [snd].
    + rewrite (proj2 (Z.ltb_lt _ _)) by lia. exists p. split_and!; [set_solver|done|done|].
      intros q Hq Hqu. apply elem_of_app in Hq as [Hq| ->%list_elem_of_singleton]; [|done].
      rewrite Forall_forall in Hn. by rewrite (Hn q Hq) in Hqu.
    + destruct (Z.ltb_spec (Z.of_nat (String.length (op_dir r))) (Z.of_nat (String.length (op_dir p)))).
      * exists p. split_and!; [set_solver|done|done|]. intros q Hq Hqu.
        apply elem_of_app in Hq as [Hq| ->%list_elem_of_singleton]; [|done]. specialize (Hmax q Hq Hqu). lia.
      * exists r. split_and!; [set_solver|done|done|]. intros q Hq Hqu.
        apply elem_of_app in Hq as [Hq| ->%list_elem_of_singleton]; [auto|lia].
  - destruct IH as [[-> Hn]|(r & Hr & Hru & -> & Hmax)].
    + left. split; [done|]. apply Forall_app. by repeat constructor.
    + right. exists r. split_and!; [set_solver|done|done|]. intros q Hq Hqu.
      apply elem_of_app in Hq as [Hq| ->%list_elem_of_singleton]; [auto|congruence].
Qed.

(** A claiming directory holds a file: it is the file, or its elements end the
    file's.  (The root claims nothing but itself.) *)
Definition holds_file (s : list string) (p : ownerPrefix) : Prop :=
  ∃ d, stack true d ∧ op_dir p = show_path true d ∧ (s = d ∨ (d ≠ [] ∧ ∃ t, s = t ++ d)).
(** [q]'s directory is an ancestor of [p]'s, or the same. *)
Definition above (q p : ownerPrefix) : Prop :=
  ∃ d t, op_dir q = show_path true d ∧ op_dir p = show_path true (t ++ d).

Lemma holds_under s p : stack true s → absolute p →
  pathUnder (show_path true s) (op_dir p) = true ↔ holds_file s p.
Proof.
  intros Hs (d & Hd & E). rewrite E, pathUnder_show by done. split; [intros; by exists d|].
  intros (d' & Hd' & E' & H). rewrite E in E'. by apply show_path_inj in E' as <-.
Qed.

Lemma show_length_app t d : stack true (t ++ d) → t ≠ [] → d ≠ [] →
  (String.length (show_path true d) < String.length (show_path true (t ++ d)))%nat.
Proof. intros Hs Ht Hd. rewrite show_path_app by done. rewrite length_app_str. simpl. lia. Qed.

(** Of two directories on one path the longer name is the lower one. *)
Lemma longer_is_below s p q : stack true s → holds_file s p → holds_file s q →
  (String.length (op_dir q) ≤ String.length (op_dir p))%nat → above q p.
Proof.
  intros Hs (d & Hd & Ep & Hp) (e & He & Eq & Hq) Hl. rewrite Ep, Eq in Hl.
  assert (Hsuf : ∀ x, (s = x ∨ x ≠ [] ∧ ∃ t, s = t ++ x) → ∃ t, s = t ++ x).
  { intros x [->|[_ ?]]; [by exists []|done]. }
  destruct (Hsuf _ Hp) as [t Ht]. destruct (Hsuf _ Hq) as [u Hu].
  assert (Hor : (∃ v, d = v ++ e) ∨ (∃ v, v ≠ [] ∧ e = v ++ d)).
  { assert (H : t ++ d = u ++ e) by congruence. apply app_eq_app in H as (v & [[-> ->]|[-> ->]]).
    - destruct v as [|x v]; [left; by exists []|right]. by exists (x :: v).
    - left. by exists v. }
  destruct Hor as [[v ->]|(v & Hv & ->)]; [by exists e, v|].
  destruct d as [|x d].
  - destruct Hp as [->|[? _]]; [|done]. destruct Hq as [Hq|[_ [w Hq]]].
    + destruct v; done.
    + destruct w, v; done.
  - pose proof (show_length_app v (x :: d)) as H. specialize (H He Hv ltac:(done)). lia.
Qed.

Lemma owner_of_nil o f : owner_of cwd [] o f = o.
Proof.
  unfold owner_of, resolveOwner. destruct (String.eqb_spec o "") as [->|]; cbn; [|done].
  by destruct (filepath_abs cwd f).
Qed.
Lemma owner_of_idemp ps o f : owner_of cwd ps (owner_of cwd ps o f) f = owner_of cwd ps o f.
Proof.
  unfold owner_of at 1. destruct (String.eqb_spec (owner_of cwd ps o f) "") as [E|]; cbn; [|done].
  unfold owner_of in *. destruct (String.eqb_spec o "") as [->|]; cbn in *; [done|congruence].
Qed.
Lemma enrichOwningApp_eq w : let ps := buildOwnerPrefixes cwd is_git w in
  enrichOwningApp cwd is_git w = {| w with
    w_Resources := map (own_resource cwd ps) (w_Resources w);
    w_CRDs := map (own_crd cwd ps) (w_CRDs w); w_XRDs := map (own_crd cwd ps) (w_XRDs w);
    w_Compositions := map (own_composition cwd ps) (w_Compositions w);
    w_Functions := map (own_function cwd ps) (w_Functions w);
    w_Providers := map (own_provider cwd ps) (w_Providers w) |}.
Proof.
  intros ps. unfold enrichOwningApp. fold ps.
  assert (Hnil : ps = [] → w = {| w with
    w_Resources := map (own_resource cwd ps) (w_Resources w);
    w_CRDs := map (own_crd cwd ps) (w_CRDs w); w_XRDs := map (own_crd cwd ps) (w_XRDs w);
    w_Compositions := map (own_composition cwd ps) (w_Compositions w);
    w_Functions := map (own_function cwd ps) (w_Functions w);
    w_Providers := map (own_provider cwd ps) (w_Providers w) |}).
  { intros ->. destruct w; cbn. f_equal; symmetry; rewrite <- map_id; apply map_ext; intros [];
      unfold own_resource, own_crd, own_composition, own_function, own_provider; cbn; by rewrite owner_of_nil. }
  destruct (w_ArgoApps w) as [|app apps] eqn:E.
  - apply Hnil. subst ps. unfold buildOwnerPrefixes. by rewrite E.
  - destruct ps as [|p ps']; [by apply Hnil|done].
Qed.

(** A claim: an Application claims the directory of its own manifest, and the path of
    each of its directory sources, below that directory and below the repository. *)
Definition claim (w : World) (p : ownerPrefix) : Prop :=
  ∃ app, app ∈ w_ArgoApps w ∧ op_appName p = app_Name app ∧
    let appDir := path_dir (sl_File (app_Source app)) in
    let repoRoot := findRepoRoot is_git (default "" (filepath_abs cwd appDir)) in
    (filepath_abs cwd appDir = Some (op_dir p) ∨
     ∃ src, src ∈ app_Sources app ∧ as_Renderer src = "directory" ∧ as_Path src ≠ "" ∧
       ((repoRoot ≠ "" ∧ filepath_abs cwd (path_join [repoRoot; as_Path src]) = Some (op_dir p)) ∨
        filepath_abs cwd (path_join [appDir; as_Path src]) = Some (op_dir p))).
Lemma elem_of_claimed o name p :
  p ∈ match o with Some abs => [MkOwnerPrefix abs name] | None => [] end ↔ op_appName p = name ∧ o = Some (op_dir p).
Proof.
  destruct o as [abs|]; [|split; [by intros ?%not_elem_of_nil|by intros []]]. rewrite list_elem_of_singleton.
  split; [by intros ->|]. destruct p as [d n]. cbn. by intros [-> [= ->]].
Qed.
Lemma source_prefixes_spec appDir repoRoot app src p : p ∈ source_prefixes cwd appDir repoRoot app src ↔
  op_appName p = app_Name app ∧ as_Renderer src = "directory" ∧ as_Path src ≠ "" ∧
  ((repoRoot ≠ "" ∧ filepath_abs cwd (path_join [repoRoot; as_Path src]) = Some (op_dir p)) ∨
   filepath_abs cwd (path_join [appDir; as_Path src]) = Some (op_dir p)).
Proof.
  unfold source_prefixes. destruct (String.eqb_spec (as_Renderer src) "directory") as [Er|Er]; cbn [negb].
  2: { split; [by intros ?%not_elem_of_nil|tauto]. }
  destruct (String.eqb_spec (as_Path src) "") as [Ep|Ep]; [split; [by intros ?%not_elem_of_nil|tauto]|].
  rewrite elem_of_app, elem_of_claimed. destruct (String.eqb_spec repoRoot "") as [E|E]; cbn [negb].
  - rewrite elem_of_nil. tauto.
  - rewrite elem_of_claimed. tauto.
Qed.
Lemma buildOwnerPrefixes_claim w p : p ∈ buildOwnerPrefixes cwd is_git w ↔ claim w p.
Proof.
  unfold buildOwnerPrefixes, claim. rewrite elem_of_flat_map. apply exist_proper. intros app. cbv zeta.
  unfold app_prefixes. rewrite elem_of_app, elem_of_claimed, elem_of_flat_map. setoid_rewrite source_prefixes_spec.
  split; [intros (Ha & [[Hn H]|(src & Hs & Hn & H)])|intros (Ha & Hn & [H|(src & Hs & H)])]; split_and!; eauto 10.
Qed.

(** The owner a fact of [file] should have after the pass, where it had [owner]. *)
Definition gets_owner (w : World) (owner file owner' : string) : Prop :=
  if String.eqb owner "" then
    match filepath_abs cwd file with
    | None => owner' = ""
    | Some path => ∃ s, stack true s ∧ path = show_path true s ∧
        ((owner' = "" ∧ ∀ p, claim w p → ¬ holds_file s p) ∨
         ∃ p, claim w p ∧ holds_file s p ∧ owner' = op_appName p ∧ ∀ q, claim w q → holds_file s q → above q p)
    end
  else owner' = owner.
Lemma owner_of_gets w owner file : gets_owner w owner file (owner_of cwd (buildOwnerPrefixes cwd is_git w) owner file).
Proof.
  unfold gets_owner, owner_of. destruct (String.eqb_spec owner "") as [->|]; cbn [negb]; [|done].
  unfold resolveOwner. destruct (filepath_abs cwd file) as [path|] eqn:Hf; [|done].
  destruct (filepath_abs_show _ _ Hf) as (s & Hs & ->). exists s. split; [done|]. split; [done|].
  pose proof (prefixes_absolute w) as Ha. rewrite Forall_forall in Ha. setoid_rewrite <- buildOwnerPrefixes_claim.
  set (prefixes := buildOwnerPrefixes cwd is_git w) in *.
  destruct (better_spec (show_path true s) prefixes) as [[-> Hn]|(p & Hp & Hu & -> & Hmax)]; cbn [fst].
  - left. split; [done|]. intros p Hp Hh. rewrite Forall_forall in Hn.
    apply holds_under in Hh; [|done|by apply Ha]. by rewrite (Hn p Hp) in Hh.
  - right. exists p. assert (Hh : holds_file s p) by (apply holds_under; auto).
    split_and!; [done..|]. intros q Hq Hqh. apply (longer_is_below s); [done..|].
    apply Hmax; [done|]. apply holds_under; auto.
Qed.

(** C29: Ownership goes to the nearest claim: each resource, CRD, XRD, Composition, Function
    and Provider that has no owner gets the Application of a claiming directory that
    holds its file and lies below every other claiming directory that holds it, or none
    when no claim holds it; one with an owner (a rendered resource) keeps it; nothing
    but owners changes, no fact is lost or added, and a second pass changes nothing. *)
Theorem enrichOwningApp_nearest w : ∃ owner : string → string → string,
  (∀ o file, gets_owner w o file (owner o file)) ∧
  enrichOwningApp cwd is_git w = {| w with
    w_Resources := map (λ r, {| r with ri_OwningApp := owner (ri_OwningApp r) (sl_File (ri_Source r)) |}) (w_Resources w);
    w_CRDs := map (λ c, {| c with crd_OwningApp := owner (crd_OwningApp c) (sl_File (crd_Source c)) |}) (w_CRDs w);
    w_XRDs := map (λ c, {| c with crd_OwningApp := owner (crd_OwningApp c) (sl_File (crd_Source c)) |}) (w_XRDs w);
    w_Compositions :=
      map (λ c, {| c with comp_OwningApp := owner (comp_OwningApp c) (sl_File (comp_Source c)) |}) (w_Compositions w);
    w_Functions := map (λ f, {| f with fn_OwningApp := owner (fn_OwningApp f) (sl_File (fn_Source f)) |}) (w_Functions w);
    w_Providers := map (λ p, {| p with pr_OwningApp := owner (pr_OwningApp p) (sl_File (pr_Source p)) |}) (w_Providers w) |} ∧
  enrichOwningApp cwd is_git (enrichOwningApp cwd is_git w) = enrichOwningApp cwd is_git w.
Proof.
  set (prefixes := buildOwnerPrefixes cwd is_git w). exists (owner_of cwd prefixes). split_and!.
  - apply owner_of_gets.
  - rewrite enrichOwningApp_eq. reflexivity.
  - rewrite (enrichOwningApp_eq w). rewrite enrichOwningApp_eq. cbn.
    change (buildOwnerPrefixes cwd is_git {| w with w_Resources := _ |}) with prefixes.
    fold prefixes. f_equal; rewrite map_map; apply map_ext; intros [];
      unfold own_resource, own_crd, own_composition, own_function, own_provider; cbn; by rewrite owner_of_idemp.
Qed.
End nearest.

Definition nested_apps : World := {| zero_World with
  w_ArgoApps := [
    {| zero_ArgoApplication with app_Name := "team"; app_Source := {| sl_File := "/r/apps/team.yaml"; sl_Line := 1; sl_Column := 1 |} |};
    {| zero_ArgoApplication with app_Name := "web"; app_Source := {| sl_File := "/r/apps/web/app.yaml"; sl_Line := 1; sl_Column := 1 |} |}];
  w_Resources := [{| zero_ResourceInfo with ri_Kind := "ConfigMap";
    ri_Source := {| sl_File := "/r/apps/web/cm.yaml"; sl_Line := 1; sl_Column := 1 |} |}] |}.
Lemma enrichOwningApp_nearest_witness :
  map ri_OwningApp (w_Resources (enrichOwningApp None (λ _, false) nested_apps)) = ["web"] ∧
  ∃ owner, gets_owner None (λ _, false) nested_apps "" "/r/apps/web/cm.yaml" owner ∧
    map ri_OwningApp (w_Resources (enrichOwningApp None (λ _, false) nested_apps)) = [owner].
Proof.
  split; [by vm_compute|].
  destruct (enrichOwningApp_nearest None (λ _, false) ltac:(done) nested_apps) as (owner & Ho & E & _).
  exists (owner "" "/r/apps/web/cm.yaml"). split; [apply Ho|]. rewrite E. reflexivity.
Defined.

(** ** Values files *)

Section values.
Context (cwd : option string) (is_git : string → bool).

(** A file that is not resolved stays as it was written. *)
Lemma unresolved_same vf siblings dir :
  (resolveValueFilePrefix cwd is_git vf siblings dir).2 ≠ valueRefResolved →
  (resolveValueFilePrefix cwd is_git vf siblings dir).1 = vf.
Proof. unfold resolveValueFilePrefix. repeat case_match; cbn; try done. Qed.

Lemma resolve_ref ref rest siblings dir sibling root : ref ≠ "" → has_char "/" ref = false →
  find_first (λ s, String.eqb (as_Ref s) ref) siblings = Some sibling →
  sibling_root is_git sibling dir = Some root →
  resolveValueFilePrefix cwd is_git ("$" +:+ ref +:+ "/" +:+ rest) siblings dir =
  (default (path_clean (path_join [root; rest])) (filepath_abs cwd (path_clean (path_join [root; rest]))),
   valueRefResolved).
Proof.
  intros Hne Hn Hf Hs. unfold resolveValueFilePrefix. rewrite has_prefix_app. cbn [negb].
  change ("$" +:+ ref +:+ "/" +:+ rest) with (("$" +:+ ref) +:+ String "/" rest).
  rewrite cut_char_app by (by rewrite has_char_app, Hn).
  destruct ref as [|c ref]; [done|]. simpl in *. by rewrite Hf, Hs.
Qed.

(** Exactly the files that start with a dollar sign and a nonempty reference before a
    slash are looked up; those whose reference names a sibling are resolved below its
    root, unless it has no path and there is no repository. *)
Lemma resolve_outcome vf siblings dir :
  (resolveValueFilePrefix cwd is_git vf siblings dir).2 = valueRefResolved ↔
  ∃ ref rest sibling root, vf = "$" +:+ ref +:+ "/" +:+ rest ∧ ref ≠ "" ∧ has_char "/" ref = false ∧
    find_first (λ s, String.eqb (as_Ref s) ref) siblings = Some sibling ∧
    sibling_root is_git sibling dir = Some root.
Proof.
  split.
  - unfold resolveValueFilePrefix. destruct (has_prefix "$" vf) eqn:Hp; cbn [negb]; [|done].
    destruct (cut_char "/" vf) as [[before rest]|] eqn:Hc; [|done].
    destruct (Nat.ltb_spec (String.length before) 2) as [|Hl]; [done|].
    apply cut_char_Some in Hc as [-> Hn]. apply has_prefix_spec in Hp as [r Hr].
    destruct before as [|c [|d ref]]; simpl in Hl; try lia.
    injection Hr as -> Hr. cbn [str_drop]. rewrite has_char_cons in Hn. apply orb_false_iff in Hn as [_ Hn].
    destruct (find_first _ siblings) as [sibling|] eqn:Hf; [|done].
    destruct (sibling_root is_git sibling dir) as [root|] eqn:Hs; [|done]. intros _.
    by exists (String d ref), rest, sibling, root.
  - intros (ref & rest & sibling & root & -> & Hne & Hn & Hf & Hs).
    by erewrite resolve_ref.
Qed.

(** Rewriting the values files of a source keeps every other field, reports one
    outcome for each file, replaces exactly the files that resolve, by the path the
    reference stands for, and returns the source itself when none does. *)
Theorem rewriteHelmValueFiles_spec s siblings dir :
  let resolved := map (λ vf, resolveValueFilePrefix cwd is_git vf siblings dir) (hs_ValueFiles s) in
  ∃ files, rewriteHelmValueFiles cwd is_git (Some s) siblings dir =
             (Some {| s with hs_ValueFiles := files |}, map snd resolved) ∧
    Forall2 (λ vf file,
      (file = vf ∧ (resolveValueFilePrefix cwd is_git vf siblings dir).2 ≠ valueRefResolved) ∨
      ∃ ref rest sibling root, vf = "$" +:+ ref +:+ "/" +:+ rest ∧
        find_first (λ s, String.eqb (as_Ref s) ref) siblings = Some sibling ∧
        sibling_root is_git sibling dir = Some root ∧
        file = default (path_clean (path_join [root; rest]))
                 (filepath_abs cwd (path_clean (path_join [root; rest])))) (hs_ValueFiles s) files.
Proof.
  intros resolved. exists (map fst resolved). split.
  - assert (Hnone : existsb (λ r, bool_decide (snd r = valueRefResolved)) resolved = false →
      map fst resolved = hs_ValueFiles s).
    { intros Ex. subst resolved. rewrite map_map. rewrite <- (map_id (hs_ValueFiles s)) at 2.
      apply map_ext_in. intros x Hx%list_elem_of_In. apply unresolved_same. intros Hres.
      rewrite existsb_none in Ex. specialize (Ex (resolveValueFilePrefix cwd is_git x siblings dir)).
      rewrite bool_decide_true in Ex; [|done]. discriminate Ex. apply list_elem_of_fmap. by exists x. }
    unfold rewriteHelmValueFiles.
    assert (Hs : {| s with hs_ValueFiles := hs_ValueFiles s |} = s) by (by destruct s).
    destruct (hs_ValueFiles s) as [|vf vfs] eqn:E; [subst resolved; cbn; by rewrite Hs|]. fold resolved.
    destruct (existsb _ resolved) eqn:Ex; [done|]. by rewrite (Hnone eq_refl), Hs.
  - subst resolved. rewrite map_map. induction (hs_ValueFiles s) as [|vf vfs IH]; [constructor|]. constructor; [|done].
    destruct (decide ((resolveValueFilePrefix cwd is_git vf siblings dir).2 = valueRefResolved)) as [Hr|Hr].
    + right. pose proof Hr as (ref & rest & sibling & root & -> & Hne & Hn & Hf & Hs)%resolve_outcome.
      exists ref, rest, sibling, root. split_and!; [done..|].
      by erewrite resolve_ref.
    + left. split; [by apply unresolved_same|done].
Qed.
End values.
