(* ===== verification/Templates.v ===== *)
(** The static checks of Composition templates (src/pkg/ir/
    composition_template_check.go and orphan_sgref_check.go): the go-template text
    of each pipeline step is parsed for grammar errors and scanned, with regular
    expressions, for shapes that never converge or never tear down.

    [text/template]'s parser is a parameter: given the names the FuncMap defines
    and the text, the message of its error. *)
From Stdlib Require Import ZArith.
From S2P Require Import Prelude GoStrings Regexp Yaml Types Registries Enrich.

#[local] Open Scope string_scope.
#[local] Open Scope list_scope.

(** The double quote. *)
#[local] Notation dq := (String (byte 34) "").

(** ** The template of a step *)

(** function-go-templating's program, stored under the digest of the step's input:
    none for another input, a missing schema or an empty or absent text. *)
Definition template_text (w : World) (step : PipelineStep) : option string :=
  if negb (String.eqb (ps_InputKind step) "GoTemplate") then None
  else match w_Schemas w !! ps_InputDigest step with
       | None => None
       | Some sc =>
           let text := get_str (get_map (si_Schema sc) "inline") "template" in
           if String.eqb text "" then None else Some text
       end.
(** The loop every check makes: over the Compositions and their steps. *)
Definition for_templates {A} (check : CompositionInfo → PipelineStep → string → list A) (w : World) : list A :=
  flat_map (λ comp, flat_map (λ step,
    match template_text w step with Some text => check comp step text | None => [] end)
    (comp_Pipeline comp)) (w_Compositions w).

(** ** Grammar *)

Definition undefinedFuncRe : re :=
  MustCompile ("function " +:+ dq +:+ "([^" +:+ dq +:+ "]+)" +:+ dq +:+ " not defined").
(** The function an error says is missing. *)
Definition undefined_function (err : string) : option string :=
  (λ m, submatch 1 (snd m)) <$> FindStringSubmatch undefinedFuncRe err.
Definition compositionAppName (comp xr : string) : string :=
  if String.eqb xr "" then comp else comp +:+ ":" +:+ xr.

Section grammar.
Context (Parse : gset string → string → option string).

(** A missing function is stubbed and the text parsed again, [i] times at most. *)
Fixpoint parse_attempts (i : nat) (funcs : gset string) (text : string) : option string :=
  match i with
  | O => None
  | S i => match Parse funcs text with
           | None => None
           | Some err => match undefined_function err with
                         | None => Some err
                         | Some f => parse_attempts i ({[f]} ∪ funcs) text
                         end
           end
  end.
Definition parseGoTemplateText (text : string) : option string := parse_attempts 1000 ∅ text.

Definition grammar_result (comp : CompositionInfo) (step : PipelineStep) (err : string) : RenderResult := {|
  rres_AppName := compositionAppName (comp_Name comp) ""; rres_ChartPath := comp_Name comp; rres_Success := false;
  rres_Error := "go-template parse error in composition " +:+ quote (comp_Name comp) +:+ " (step " +:+
                quote (ps_Name step) +:+ "): " +:+ err;
  rres_ErrorKind := "crossplane-render-failed"; rres_ValuesIssues := []; rres_Source := comp_Source comp |}.
Definition checkCompositionTemplates (w : World) : World :=
  {| w with w_RenderResults := w_RenderResults w ++
       for_templates (λ comp step text, match parseGoTemplateText text with
                                        | Some err => [grammar_result comp step err]
                                        | None => []
                                        end) w |}.
End grammar.

(** ** Environment variables declared twice *)

Definition envDictRe : re := MustCompile
  ("\(dict\s+" +:+ dq +:+ "name" +:+ dq +:+ "\s+" +:+ dq +:+ "([^" +:+ dq +:+ "]+)" +:+ dq +:+ "\s+" +:+
   dq +:+ "value" +:+ dq).
(** One more occurrence of a name: the counts and the names in first-seen order. *)
Definition count_name (st : gmap string nat * list string) (name : string) : gmap string nat * list string :=
  let n := default 0 (fst st !! name) in
  (<[name := S n]> (fst st), if Nat.eqb n 0 then snd st ++ [name] else snd st).
Definition duplicate_envs (comp : CompositionInfo) (names : list string) : list DuplicateEnvFinding :=
  let '(counts, order) := foldl count_name (∅, []) names in
  flat_map (λ name, if Nat.ltb (default 0 (counts !! name)) 2 then []
                    else [MkDuplicateEnvFinding (comp_Name comp) name (Z.of_nat (default 0 (counts !! name)))
                            (comp_Source comp)]) order.
Definition env_names (text : string) : list string := map (submatch 1) (FindAllStringSubmatch envDictRe text).
Definition checkCompositionDuplicateEnv (w : World) : World :=
  {| w with w_DuplicateEnvFindings := w_DuplicateEnvFindings w ++
       for_templates (λ comp _ text,
         if negb (Nat.eqb (str_count (dq +:+ "environment" +:+ dq) text) 1) then []
         else duplicate_envs comp (env_names text)) w |}.

(** ** Non-canonical literals *)

Definition templateActionRe : re := MustCompile "\{\{.*?\}\}".
Definition defaultPipeRe : re := MustCompile "\|\s*default\b".
Definition marker : string := "task-definition/".
(** The loop over the rest of the text after each marker. *)
Fixpoint unversioned_from (fuel : nat) (rest : string) : bool :=
  match str_cut marker rest with
  | None => false
  | Some (_, after) =>
      if negb (contains after ":") then true
      else match fuel with S fuel => unversioned_from fuel after | O => false end
  end.
Definition hasUnversionedTaskDefLiteral (rhs : string) : bool :=
  let skeleton := ReplaceAllString templateActionRe rhs " " in
  unversioned_from (String.length skeleton) skeleton.
Definition rhsHasCanonicalGuard (rhs : string) : bool :=
  if contains (to_lower rhs) "taskdefarn" then true
  else if contains rhs "atProvider" then true
  else MatchString defaultPipeRe rhs.
Definition templateRHSNonCanonical (detector rhs : string) : bool :=
  let rhs := trim_space rhs in
  if String.eqb detector "arn-requires-revision" then
    if negb (hasUnversionedTaskDefLiteral rhs) then false else negb (rhsHasCanonicalGuard rhs)
  else false.
Definition leaf_re (leaf : string) : re :=
  MustCompile ("(?m)^[ \t]*" +:+ QuoteMeta leaf +:+ ":[ \t]*(.*\S)[ \t]*$").
Definition canonical_findings (comp : CompositionInfo) (text : string) (m : CanonicalFormMapping) :
    list CanonicalFormTemplateFinding :=
  let leaf := lastDotted (cm_FieldPath m) in
  flat_map (λ sub, let rhs := submatch 1 sub in
    if negb (templateRHSNonCanonical (cm_Detector m) rhs) then []
    else [MkCanonicalFormTemplateFinding (comp_Name comp) (cm_Group m) (cm_Kind m) leaf rhs (cm_Canonical m)
            (cm_Reason m) (comp_Source comp)])
    (FindAllStringSubmatch (leaf_re leaf) text).
Definition checkCompositionCanonicalForm (w : World) : World :=
  {| w with w_CanonicalFormTemplateFindings := w_CanonicalFormTemplateFindings w ++
       for_templates (λ comp _ text, flat_map (canonical_findings comp text) CanonicalFormRegistry) w |}.

(** ** Blocks written as aliases *)

Definition kind_re (kind : string) : re :=
  MustCompile ("(?m)^[ \t]*kind:[ \t]*" +:+ QuoteMeta kind +:+ "[ \t]*$").
Definition doc_separator : string := String newline "---".
(** One block per document of the template, of the given kind. *)
Definition resourceBlocksOfKind (tmplText kind : string) : list string :=
  filter (λ doc, MatchString (kind_re kind) doc = true) (str_split doc_separator tmplText).
Definition submatchOrFull (m : string * caps) : string :=
  if String.eqb (submatch 1 (snd m)) "" then fst m else submatch 1 (snd m).
Definition type_re (action : string) : re :=
  MustCompile ("(?m)^[ \t]*-?[ \t]*type:[ \t]*" +:+ QuoteMeta action +:+ "[ \t]*$").
Definition block_re (key : string) : re := MustCompile ("(?m)^[ \t]*" +:+ QuoteMeta key +:+ ":").
Definition alias_finding (comp : CompositionInfo) (m : ComputedBlockAliasMapping) (block : string) :
    list ComputedBlockAliasFinding :=
  if negb (MatchString (type_re (cbm_ActionType m)) block) then []
  else if MatchString (block_re (cbm_CanonicalBlockKey m)) block then []
  else match FindStringSubmatch (MustCompile (cbm_AliasFieldPattern m)) block with
       | None => []
       | Some alias =>
           [MkComputedBlockAliasFinding (comp_Name comp) (cbm_Group m) (cbm_Kind m) (cbm_ActionType m)
              (submatchOrFull alias) (cbm_CanonicalBlockKey m) (cbm_Reason m) (comp_Source comp)]
       end.
Definition checkCompositionComputedBlockAlias (w : World) : World :=
  {| w with w_ComputedBlockAliasFindings := w_ComputedBlockAliasFindings w ++
       for_templates (λ comp _ text, flat_map (λ m,
         flat_map (alias_finding comp m) (resourceBlocksOfKind text (cbm_Kind m))) ComputedBlockAliasRegistry) w |}.

(** ** Rules that outlive what they refer to *)

Notation label_map := (gmap string string).
Definition orphanSGRefAllowAnnotationRe : re := MustCompile "(?m)^[ \t]*xpc\.io/allow-orphan-sgref:".
Definition regexpSelectorSuffix : re := MustCompile "Selector$".
Definition isSelectorField (field : string) : bool := MatchString regexpSelectorSuffix field.
Fixpoint isBlankOrComment (line : string) : bool :=
  match line with
  | "" => true
  | String c line => if is_blank c then isBlankOrComment line else Ascii.eqb c "#"
  end.
Definition kvRe : re := MustCompile "^([ \t]*)([^:\s][^:]*):[ \t]*(.*\S)?[ \t]*$".
(** The lines read after the key, up to the first that is not a flat entry indented
    by more than [indent]. *)
Fixpoint read_labels (indent : nat) (ls : list string) (out : label_map) : label_map :=
  match ls with
  | [] => out
  | line :: ls =>
      if isBlankOrComment line then read_labels indent ls out
      else match FindStringSubmatch kvRe line with
           | None => out
           | Some (_, mm) =>
               if Nat.leb (String.length (submatch 1 mm)) indent then out
               else if String.eqb (submatch 3 mm) "" then out
               else read_labels indent ls (<[submatch 2 mm := submatch 3 mm]> out)
           end
  end.
(** nil and an empty map are not told apart by the callers. *)
Definition labelMapAfter (text : string) (mapKeyRe : re) : label_map :=
  match leftmost mapKeyRe (start text) with
  | None => ∅
  | Some (_, q, cs) => read_labels (String.length (submatch 1 cs)) (lines (p_rest q)) ∅
  end.
Definition metadataLabelsRe : re := MustCompile "(?m)^([ \t]*)labels:[ \t]*$".
Definition metadataLabels (block : string) : label_map := labelMapAfter block metadataLabelsRe.
Definition matchLabelsRe : re := MustCompile "(?m)^([ \t]*)matchLabels:[ \t]*$".
Definition selectorLabels (block field : string) : label_map :=
  match leftmost (MustCompile ("(?m)^([ \t]*)" +:+ QuoteMeta field +:+ ":[ \t]*$")) (start block) with
  | None => ∅
  | Some (_, q, _) => labelMapAfter (p_rest q) matchLabelsRe
  end.
Definition securityGroupLabelSets (tmplText sgKind : string) : list label_map :=
  filter (λ labels, labels ≠ ∅) (map metadataLabels (resourceBlocksOfKind tmplText sgKind)).
Definition labelsSubset (sel sg : label_map) : bool :=
  if bool_decide (sel = ∅) then false
  else forallb (λ kv, String.eqb (default "" (sg !! fst kv)) (snd kv)) (map_to_list sel).
Definition labelsMatchAnyLocalSG (sel : label_map) (localSGs : list label_map) : bool :=
  existsb (labelsSubset sel) localSGs.
Definition resourceNameRe : re := MustCompile "(?m)^[ \t]*name:[ \t]*(.*\S)[ \t]*$".
Definition resourceNameInBlock (block : string) : string :=
  match FindStringSubmatch resourceNameRe block with Some (_, m) => submatch 1 m | None => "" end.
Definition orphan_finding (comp : CompositionInfo) (m : OrphanSGRefMapping) (locals : list label_map)
    (block : string) : list OrphanSGRefFinding :=
  if MatchString orphanSGRefAllowAnnotationRe block then []
  else
    match FindStringSubmatch (MustCompile (osm_AttachFieldPattern m)) block,
          FindStringSubmatch (MustCompile (osm_RefFieldPattern m)) block with
    | Some attach, Some ref =>
        let attachField := submatchOrFull attach in
        let refField := submatchOrFull ref in
        if negb (isSelectorField refField) then []
        else
          let refLabels := selectorLabels block refField in
          if bool_decide (refLabels = ∅) then []
          else if negb (labelsMatchAnyLocalSG refLabels locals) then []
          else
            let attachLabels := selectorLabels block attachField in
            if isSelectorField attachField && negb (bool_decide (attachLabels = ∅)) &&
               labelsMatchAnyLocalSG attachLabels locals then []
            else [MkOrphanSGRefFinding (comp_Name comp) (osm_Group m) (osm_Kind m) (resourceNameInBlock block)
                    attachField refField (osm_Reason m) (comp_Source comp)]
    | _, _ => []
    end.
Definition scanOrphanSGRefMapping (comp : CompositionInfo) (tmplText : string) (m : OrphanSGRefMapping) :
    list OrphanSGRefFinding :=
  flat_map (orphan_finding comp m (securityGroupLabelSets tmplText (osm_RefKind m)))
    (resourceBlocksOfKind tmplText (osm_Kind m)).
Definition checkCompositionOrphanSGRef (w : World) : World :=
  {| w with w_OrphanSGRefFindings := w_OrphanSGRefFindings w ++
       for_templates (λ comp _ text, flat_map (scanOrphanSGRefMapping comp text) OrphanSGRefRegistry) w |}.

(** ** The grammar check *)

Section verdict.
Context (Parse : gset string → string → option string) (text : string) (needed : gset string).
(** What [Parse] documents: a name it says is not defined is called by the text and
    not in the FuncMap; with more names defined, a text it accepts or rejects for
    another reason gets the same answer. *)
Context (Hneeded : ∀ F err f, Parse F text = Some err → undefined_function err = Some f → f ∈ needed ∖ F).
Context (Hmore : ∀ F G, F ⊆ G → (∀ err, Parse F text = Some err → undefined_function err = None) →
                        Parse G text = Parse F text).

Lemma parse_attempts_verdict i F : F ⊆ needed → (size (needed ∖ F) < i)%nat →
  parse_attempts Parse i F text = Parse needed text.
Proof using Hneeded Hmore.
  revert F. induction i as [|i IH]; intros F HF Hi; [lia|]. simpl. destruct (Parse F text) as [err|] eqn:E.
  - destruct (undefined_function err) as [f|] eqn:Ef.
    + pose proof (Hneeded F err f E Ef) as Hf. apply IH; [set_solver|].
      assert (size (needed ∖ ({[f]} ∪ F)) < size (needed ∖ F))%nat; [|lia].
      apply subset_size. set_solver.
    + rewrite (Hmore F needed HF), E; [done|]. intros err' E'. congruence.
  - rewrite (Hmore F needed HF), E; [done|]. intros err' E'. congruence.
Qed.
End verdict.

(** A thousand attempts are enough: when the text calls fewer than a thousand
    functions the FuncMap lacks, the check answers what the parser would with all
    of them defined, so it rejects exactly the texts with a grammar error. *)
Theorem parseGoTemplateText_verdict Parse text needed :
  (∀ F err f, Parse F text = Some err → undefined_function err = Some f → f ∈ needed ∖ F) →
  (∀ F G, F ⊆ G → (∀ err, Parse F text = Some err → undefined_function err = None) → Parse G text = Parse F text) →
  (size needed < 1000)%nat →
  parseGoTemplateText Parse text = Parse needed text.
Proof.
  intros Hneeded Hmore Hn. apply parse_attempts_verdict; [done..|set_solver|].
  rewrite difference_empty_L. done.
Qed.

(** A parser of texts that are lists of calls, read left to right; "{{" is an error. *)
Definition undefined_error (f : string) : string :=
  "template: composition:1: function " +:+ dq +:+ f +:+ dq +:+ " not defined".
Fixpoint parse_calls (F : gset string) (calls : list string) : option string :=
  match calls with
  | [] => None
  | f :: calls =>
      if String.eqb f "{{" then Some "template: composition:1: unexpected {{ in operand"
      else if bool_decide (f ∈ F) then parse_calls F calls else Some (undefined_error f)
  end.
Definition call_parser (F : gset string) (text : string) : option string := parse_calls F (split_on " " text).
Definition two_calls : gset string := {["toYaml"; "dict"]}.
Lemma parseGoTemplateText_verdict_witness :
  (size two_calls < 1000)%nat ∧
  parseGoTemplateText call_parser "toYaml dict toYaml {{" = call_parser two_calls "toYaml dict toYaml {{".
Proof.
  assert (Hsize : (size two_calls < 1000)%nat) by (vm_compute; lia).
  assert (Hin : ∀ F f, f = "toYaml" ∨ f = "dict" → f ∉ F → f ∈ two_calls ∖ F) by (unfold two_calls; set_solver).
  assert (Ht : undefined_function (undefined_error "toYaml") = Some "toYaml") by reflexivity.
  assert (Hd : undefined_function (undefined_error "dict") = Some "dict") by reflexivity.
  assert (Hg : undefined_function "template: composition:1: unexpected {{ in operand" = None) by reflexivity.
  assert (Hp : ∀ F, call_parser F "toYaml dict toYaml {{" =
    if bool_decide ("toYaml" ∈ F) then
      if bool_decide ("dict" ∈ F) then Some "template: composition:1: unexpected {{ in operand"
      else Some (undefined_error "dict")
    else Some (undefined_error "toYaml")).
  { intros F. unfold call_parser. simpl. by destruct (bool_decide ("toYaml" ∈ F)), (bool_decide ("dict" ∈ F)). }
  split; [exact Hsize|]. apply (parseGoTemplateText_verdict call_parser _ two_calls); [| |exact Hsize].
  - intros F err f. rewrite Hp. destruct (bool_decide_reflect ("toYaml" ∈ F)) as [H1|H1];
      [destruct (bool_decide_reflect ("dict" ∈ F)) as [H2|H2]|]; intros [= <-] Ef; [congruence| |].
    + rewrite Hd in Ef. injection Ef as <-. auto.
    + rewrite Ht in Ef. injection Ef as <-. auto.
  - intros F G HFG HF. rewrite (Hp F) in HF |- *. rewrite (Hp G).
    destruct (bool_decide_reflect ("toYaml" ∈ F)) as [H1|H1]; [|specialize (HF _ eq_refl); congruence].
    destruct (bool_decide_reflect ("dict" ∈ F)) as [H2|H2]; [|specialize (HF _ eq_refl); congruence].
    rewrite (bool_decide_true _ (HFG _ H1)), (bool_decide_true _ (HFG _ H2)). reflexivity.
Defined.
(** At the bound the check gives up and accepts: a thousand calls and an error. *)
Definition many_calls : string := join " " (map (λ n, itoa (Z.of_nat n)) (List.seq 0 1000)) +:+ " {{".
Example accepted_at_the_bound : parseGoTemplateText call_parser many_calls = None.
Proof. vm_compute. reflexivity. Qed.

(** ** Counting *)

Definition occurrences (name : string) (names : list string) : nat :=
  length (filter (λ n, n = name) names).
Lemma occurrences_snoc n names m :
  occurrences n (names ++ [m]) = (occurrences n names + if String.eqb m n then 1 else 0)%nat.
Proof.
  unfold occurrences. rewrite filter_app, length_app. simpl. f_equal.
  destruct (String.eqb_spec m n) as [->|Hm]; [by rewrite filter_cons_True|by rewrite filter_cons_False].
Qed.
Lemma occurrences_0 n names : occurrences n names = 0 ↔ n ∉ names.
Proof.
  unfold occurrences. rewrite length_zero_iff_nil. split.
  - intros H Hn. apply (not_elem_of_nil n). rewrite <- H. by apply list_elem_of_filter.
  - intros H.
    destruct (filter (λ m, m = n) names) as [|m l] eqn:E; [done|]. exfalso. apply H.
    assert (Hm : m ∈ filter (λ m, m = n) names) by (rewrite E; left). apply list_elem_of_filter in Hm as [E1 E2]. by subst m.
Qed.
Lemma count_names_spec names : let st := foldl count_name (∅, []) names in
  (∀ n, default 0 (fst st !! n) = occurrences n names) ∧ snd st = dedup id names.
Proof.
  cbn zeta. induction names as [|m names [IH1 IH2]] using rev_ind; [done|].
  rewrite foldl_snoc, dedup_snoc. destruct (foldl count_name (∅, []) names) as [counts order]. simpl in *. split.
  - intros n. rewrite occurrences_snoc, <- IH1. destruct (String.eqb_spec m n) as [->|Hm].
    + rewrite lookup_insert_eq. simpl. lia.
    + rewrite lookup_insert_ne by done. lia.
  - rewrite IH1, list_fmap_id, IH2. destruct (Nat.eqb_spec (occurrences m names) 0) as [E|E].
    + apply occurrences_0 in E. by rewrite bool_decide_false.
    + rewrite bool_decide_true; [done|]. destruct (decide (m ∈ names)) as [?|Hn]; [done|].
      by apply occurrences_0 in Hn.
Qed.
Lemma duplicate_envs_eq comp names : duplicate_envs comp names =
  map (λ n, MkDuplicateEnvFinding (comp_Name comp) n (Z.of_nat (occurrences n names)) (comp_Source comp))
    (filter (λ n, (2 ≤ occurrences n names)%nat) (dedup id names)).
Proof.
  unfold duplicate_envs. pose proof (count_names_spec names) as [H1 H2].
  destruct (foldl count_name (∅, []) names) as [counts order]. simpl in *. subst order.
  induction (dedup id names) as [|n l IH]; [done|]. cbn [flat_map]. rewrite IH, H1.
  destruct (Nat.ltb_spec (occurrences n names) 2) as [Hlt|Hge].
  - by rewrite filter_cons_False by lia.
  - by rewrite filter_cons_True by lia.
Qed.
(** A name is reported exactly when a template with a single "environment" key
    writes it twice or more, once for the template and with the number of times it
    is written, in the order the names first appear. *)
Theorem checkCompositionDuplicateEnv_spec w :
  w_DuplicateEnvFindings (checkCompositionDuplicateEnv w) = w_DuplicateEnvFindings w ++
    for_templates (λ comp _ text,
      if decide (str_count (dq +:+ "environment" +:+ dq) text = 1)
      then map (λ n, MkDuplicateEnvFinding (comp_Name comp) n (Z.of_nat (occurrences n (env_names text))) (comp_Source comp))
             (filter (λ n, (2 ≤ occurrences n (env_names text))%nat) (dedup id (env_names text)))
      else []) w.
Proof.
  simpl. f_equal. unfold for_templates. apply flat_map_ext. intros comp. apply flat_map_ext. intros step.
  destruct (template_text w step) as [text|]; [|done]. rewrite <- duplicate_envs_eq.
  case_decide as E; [by rewrite E|]. by rewrite (proj2 (Nat.eqb_neq _ _) E).
Qed.

(** ** The line patterns *)

Lemma elem_of_for_templates {A} (check : CompositionInfo → PipelineStep → string → list A) w x :
  x ∈ for_templates check w ↔ ∃ comp step text, comp ∈ w_Compositions w ∧ step ∈ comp_Pipeline comp ∧
    template_text w step = Some text ∧ x ∈ check comp step text.
Proof.
  unfold for_templates. rewrite elem_of_flat_map. split.
  - intros (comp & Hc & (step & Hs & Hx)%elem_of_flat_map). destruct (template_text w step) as [text|] eqn:E; [|set_solver].
    eauto 10.
  - intros (comp & step & text & Hc & Hs & E & Hx). exists comp. split; [done|]. apply elem_of_flat_map.
    exists step. split; [done|]. by rewrite E.
Qed.

Definition value_is_re (key value : string) : list re :=
  RStar true blank_class :: lit key ++ RStar true blank_class :: lit value ++ [RStar true blank_class].
Lemma value_is_line c key x v : blank_class c = false → trimmed v →
  denotes (seq (value_is_re (String c key) v)) x ↔ entry_value (String c key) x = Some v.
Proof.
  intros Hc Hv. rewrite entry_value_spec by done. unfold value_is_re. change (seq (RStar true blank_class :: ?l)) with (RSeq (RStar true blank_class) (seq l)).
  split.
  - intros (b1 & y & -> & Hb1 & (z & -> & b2 & z' & -> & Hb2 & (b & -> & b3 & e & -> & Hb3 & ->)%denotes_lit)%denotes_lit).
    exists b1, b2, b3. by rewrite app_str_nil_r.
  - intros (b1 & b2 & b3 & -> & Hb1 & Hb2 & Hb3 & _). exists b1, (String c key +:+ b2 +:+ v +:+ b3).
    split_and!; [done..|]. apply denotes_lit. eexists. split; [done|]. exists b2, (v +:+ b3). split_and!; [done..|].
    apply denotes_lit. exists b3. split; [done|]. exists b3, "". by rewrite app_str_nil_r.
Qed.
Lemma one_line_value_is c key v : blank_class c = false → has_char newline (String c key) = false → trimmed v →
  has_char newline v = false → one_line (value_is_re (String c key) v).
Proof.
  intros Hc Hk Ht Hv w (b1 & b2 & b3 & -> & Hb1 & Hb2 & Hb3 & _)%value_is_line%entry_value_spec; [|done..].
  by rewrite !has_char_app, Hk, Hv, !blanks_no_newline.
Qed.
Lemma plain_value_is key v : forallb plain (value_is_re key v) = true.
Proof. unfold value_is_re. simpl. by rewrite forallb_app, plain_lit; simpl; rewrite forallb_app, plain_lit. Qed.

(** A block is of a kind when one of its lines says so. *)
Lemma elem_of_resourceBlocksOfKind text kind block :
  kind_re kind = RSeq RBol (seq_then (value_is_re "kind:" kind) (RSeq REol REmpty)) →
  trimmed kind → has_char newline kind = false →
  block ∈ resourceBlocksOfKind text kind ↔
  block ∈ str_split doc_separator text ∧ ∃ line, line ∈ lines block ∧ entry_value "kind:" line = Some kind.
Proof.
  intros Hre Ht Hn. unfold resourceBlocksOfKind. rewrite list_elem_of_filter, Hre, MatchString_line;
    [|apply plain_value_is|by apply one_line_value_is].
  setoid_rewrite value_is_line; [|done..]. tauto.
Qed.

(** A line past its blanks and the dash of a list item. *)
Definition undash (x : string) : string :=
  let s := drop_class blank_class x in match s with String "-" s' => s' | _ => s end.
Lemma entry_value_drop key x : entry_value key (drop_class blank_class x) = entry_value key x.
Proof.
  assert (E : drop_class blank_class (drop_class blank_class x) = drop_class blank_class x).
  { destruct (drop_class_outside blank_class x) as [H|H]; [by rewrite H|by apply drop_class_id]. }
  unfold entry_value. by rewrite E.
Qed.
Lemma item_is_line x v : trimmed v →
  denotes (seq (RStar true blank_class :: RAlt (RChr (Ascii.eqb "-")) REmpty :: value_is_re "type:" v)) x ↔
  entry_value "type:" (undash x) = Some v.
Proof.
  intros Hv. split.
  - intros (b & z & -> & Hb & d & y & -> & Hd & Hy%value_is_line); [|done..].
    cbn [denotes] in Hd. unfold undash. rewrite drop_class_app by done.
    destruct Hd as [(a & Hd & <-%Ascii.eqb_eq)|Hd]; subst d; [done|].
    change ("" +:+ y) with y.
    destruct (proj1 (entry_value_spec "t" "ype:" y v eq_refl) Hy) as (b1 & b2 & b3 & Ey & Hb1 & _).
    assert (Ed : drop_class blank_class y = String "t" ("ype:" +:+ b2 +:+ v +:+ b3)) by (rewrite Ey; by rewrite drop_class_app).
    rewrite Ed. change (entry_value "type:" (String "t" ("ype:" +:+ b2 +:+ v +:+ b3)) = Some v).
    by rewrite <- Ed, entry_value_drop.
  - intros H. destruct (drop_class_split blank_class x) as (b & Ex & Hb). exists b, (drop_class blank_class x).
    split_and!; [done|done|]. unfold undash in H. set (s := drop_class blank_class x) in *.
    assert (Hs : (∃ s', s = String "-" s' ∧ entry_value "type:" s' = Some v) ∨ entry_value "type:" s = Some v).
    { clearbody s. clear -H. destruct s as [|[[] [] [] [] [] [] [] []] s]; eauto. }
    destruct Hs as [(s' & -> & Hs)|Hs].
    + exists "-", s'. split_and!; [done|left; by exists "-"%char|]. by apply value_is_line.
    + exists "", s. split_and!; [done|by right|]. by apply value_is_line.
Qed.

(** The block writes a forward action ... *)
Definition forwards (block : string) : Prop :=
  ∃ line, line ∈ lines block ∧ entry_value "type:" (undash line) = Some "forward".
(** ... in its canonical form ... *)
Definition canonical_block (block : string) : Prop := ∃ line, line ∈ lines block ∧ starts_key "forward:" line = true.
(** ... or through an alias: the one of the first line that has one. *)
Definition first_alias (block : string) : option string := first_some (name_of "targetGroupArn") (lines block).

Lemma forward_trimmed : trimmed "forward".
Proof. split; [done|by exists "forwar", "d"%char]. Qed.
Lemma forwards_spec block : MatchString (type_re "forward") block = true ↔ forwards block.
Proof.
  assert (Hone : one_line (RStar true blank_class :: RAlt (RChr (Ascii.eqb "-")) REmpty :: value_is_re "type:" "forward")).
  { intros w (b & z & -> & Hb & d & y & -> & Hd & Hy). rewrite !has_char_app.
    rewrite (blanks_no_newline b Hb), (one_line_value_is "t" "ype:" "forward" eq_refl eq_refl forward_trimmed eq_refl y Hy).
    cbn [denotes] in Hd. by destruct Hd as [(a & Hd & <-%Ascii.eqb_eq)|Hd]; subst d. }
  assert (Hre : type_re "forward" = RSeq RBol (seq_then (RStar true blank_class ::
    RAlt (RChr (Ascii.eqb "-")) REmpty :: value_is_re "type:" "forward") (RSeq REol REmpty))) by reflexivity.
  rewrite Hre, MatchString_line; [|reflexivity|exact Hone].
  unfold forwards. f_equiv. intros line. by rewrite item_is_line by apply forward_trimmed.
Qed.
Lemma canonical_block_spec block : MatchString (block_re "forward") block = true ↔ canonical_block block.
Proof.
  assert (Hre : block_re "forward" = RSeq RBol (key_re "forward:")) by reflexivity.
  rewrite Hre, MatchString_lines by reflexivity. unfold canonical_block.
  split; intros (line & Hl & Hk); exists line; (split; [done|]);
    pose proof (list.Forall_forall (λ x, has_char newline x = false) (lines block)) as [Hn _];
    specialize (Hn (lines_no_newline block) line Hl); rewrite line_caps_key in * by done.
  - destruct (starts_key _ line); [done|]. by destruct Hk.
  - rewrite Hk. eauto.
Qed.
(** Group 1 of the first match, when each line's submatches are known. *)
Lemma first_group r (f : string → option string) block : within r = true →
  (∀ x, has_char newline x = false → line_caps r x = (λ v, [(1, v)]) <$> f x) →
  (λ m, submatch 1 (snd m)) <$> FindStringSubmatch (RSeq RBol r) block = first_some f (lines block).
Proof.
  intros Hr Hf. transitivity (submatch 1 <$> (snd <$> FindStringSubmatch (RSeq RBol r) block)).
  { by destruct (FindStringSubmatch _ block) as [[]|]. }
  rewrite FindStringSubmatch_lines by done. pose proof (lines_no_newline block) as Hn.
  induction (lines block) as [|x ls IH]; [done|]. inversion Hn as [|? ? Hx Hls]; subst. specialize (Hf x Hx).
  unfold line_caps in Hf. cbn [search_lines first_some]. destruct (match_at r (start x)) as [[q cs]|]; simpl in Hf.
  - destruct (f x); [|done]. injection Hf as ->. done.
  - destruct (f x); [done|]. by apply IH.
Qed.
Lemma name_of_nonempty key x f : name_of key x = Some f → key ≠ "" → f ≠ "".
Proof.
  unfold name_of. cbn [find_first]. intros H Hk. assert (Hf : f ∈ [key +:+ "Ref"; key +:+ "Selector"; key]).
  { repeat case_match; simplify_eq; set_solver. }
  assert (∀ s, key +:+ s ≠ "") by (by destruct key). set_solver.
Qed.
Lemma alias_of_block m block : m ∈ ComputedBlockAliasRegistry →
  submatchOrFull <$> FindStringSubmatch (MustCompile (cbm_AliasFieldPattern m)) block = first_alias block.
Proof.
  intros Hm. assert (Hre : MustCompile (cbm_AliasFieldPattern m) = RSeq RBol (names_re "targetGroupArn")).
  { unfold ComputedBlockAliasRegistry in Hm. rewrite !elem_of_cons in Hm.
    destruct Hm as [->|[->|Hm]]; [reflexivity..|by apply not_elem_of_nil in Hm]. }
  rewrite Hre. pose proof (first_group (names_re "targetGroupArn") (name_of "targetGroupArn") block eq_refl) as H.
  specialize (H (λ x Hx, line_caps_names "t" "argetGroupArn" x Hx eq_refl)). unfold first_alias. rewrite <- H.
  destruct (FindStringSubmatch _ block) as [[full cs]|] eqn:E; [|done]. simpl in *. f_equal. unfold submatchOrFull. simpl.
  destruct (String.eqb_spec (submatch 1 cs) "") as [Hs|Hs]; [|done]. exfalso.
  assert (Hne : ∀ ls f, first_some (name_of "targetGroupArn") ls = Some f → f ≠ "").
  { induction ls as [|x ls IH]; intros f; simpl; [done|]. destruct (name_of _ x) as [g|] eqn:Ex; [|apply IH].
    intros [= <-]. by apply name_of_nonempty in Ex. }
  symmetry in H. by apply Hne in H.
Qed.

(** An alias is reported exactly for the documents of a template whose kind is
    LBListenerRule or LBListener, that have a line typing an action forward and no
    line starting the forward block, and for the name on the first line that gives
    the target group by its ARN, reference or selector. *)
Theorem checkCompositionComputedBlockAlias_spec w f :
  f ∈ w_ComputedBlockAliasFindings (checkCompositionComputedBlockAlias w) ↔
  f ∈ w_ComputedBlockAliasFindings w ∨
  ∃ comp step text m block alias,
    comp ∈ w_Compositions w ∧ step ∈ comp_Pipeline comp ∧ template_text w step = Some text ∧
    m ∈ ComputedBlockAliasRegistry ∧ block ∈ str_split doc_separator text ∧
    (∃ line, line ∈ lines block ∧ entry_value "kind:" line = Some (cbm_Kind m)) ∧
    forwards block ∧ ¬ canonical_block block ∧ first_alias block = Some alias ∧
    f = MkComputedBlockAliasFinding (comp_Name comp) (cbm_Group m) (cbm_Kind m) (cbm_ActionType m) alias
          (cbm_CanonicalBlockKey m) (cbm_Reason m) (comp_Source comp).
Proof.
  unfold checkCompositionComputedBlockAlias. cbn [w_ComputedBlockAliasFindings].
  rewrite elem_of_app, elem_of_for_templates. f_equiv. f_equiv; intros comp. f_equiv; intros step.
  f_equiv; intros text. cbv beta. rewrite elem_of_flat_map.
  assert (Hm : ∀ m, m ∈ ComputedBlockAliasRegistry →
    f ∈ flat_map (alias_finding comp m) (resourceBlocksOfKind text (cbm_Kind m)) ↔
    ∃ block alias, block ∈ str_split doc_separator text ∧
      (∃ line, line ∈ lines block ∧ entry_value "kind:" line = Some (cbm_Kind m)) ∧
      forwards block ∧ ¬ canonical_block block ∧ first_alias block = Some alias ∧
      f = MkComputedBlockAliasFinding (comp_Name comp) (cbm_Group m) (cbm_Kind m) (cbm_ActionType m) alias
            (cbm_CanonicalBlockKey m) (cbm_Reason m) (comp_Source comp)); [|naive_solver].
  intros m Hm. assert (Hrow : cbm_ActionType m = "forward" ∧ cbm_CanonicalBlockKey m = "forward" ∧
    kind_re (cbm_Kind m) = RSeq RBol (seq_then (value_is_re "kind:" (cbm_Kind m)) (RSeq REol REmpty)) ∧
    trimmed (cbm_Kind m) ∧ has_char newline (cbm_Kind m) = false).
  { unfold ComputedBlockAliasRegistry in Hm. rewrite !elem_of_cons in Hm.
    destruct Hm as [->|[->|Hm]]; [..|by apply not_elem_of_nil in Hm]; split_and!; try reflexivity.
    - split; [done|by exists "LBListenerRul", "e"%char].
    - split; [done|by exists "LBListene", "r"%char]. }
  destruct Hrow as (Ha & Hb & Hk & Ht & Hn). rewrite elem_of_flat_map.
  f_equiv. intros block. rewrite elem_of_resourceBlocksOfKind by done. unfold alias_finding. rewrite Ha, Hb.
  pose proof (alias_of_block m block Hm) as Hal. pose proof (forwards_spec block) as Hf.
  pose proof (canonical_block_spec block) as Hc.
  cbn [negb]. split.
  - intros ([Hin Hkind] & Hx). destruct (MatchString (type_re "forward") block); [|by apply not_elem_of_nil in Hx].
    destruct (MatchString (block_re "forward") block); [by apply not_elem_of_nil in Hx|]. cbn [negb] in Hx.
    destruct (FindStringSubmatch _ block) as [alias|]; [|by apply not_elem_of_nil in Hx].
    apply list_elem_of_singleton in Hx. exists (submatchOrFull alias).
    split_and!; [done|done|by apply Hf|by intros ?%Hc|done|done].
  - intros (alias & Hin & Hkind & Hfw%Hf & Hcb & Hal' & ->). split; [done|]. rewrite Hfw, <- Hc in *.
    destruct (MatchString (block_re "forward") block); [done|]. rewrite <- Hal in Hal'.
    destruct (FindStringSubmatch _ block); [|done]. injection Hal' as <-. by apply list_elem_of_singleton.
Qed.

(** ** Versions *)

Lemma marker_apart a0 b0 a b : a0 +:+ marker +:+ b0 = a +:+ marker +:+ b →
  (String.length a0 < String.length a)%nat → ∃ c, b0 = c +:+ marker +:+ b.
Proof.
  intros E Hl. destruct (app_str_prefix _ _ _ _ E) as (u & -> & E'); [lia|].
  rewrite length_app_str in Hl. destruct (Nat.le_gt_cases (String.length marker) (String.length u)) as [Hu|Hu].
  - destruct (app_str_prefix _ _ _ _ E' Hu) as (c & _ & ->). eauto.
  - exfalso. symmetry in E'. destruct (app_str_prefix u _ marker _ E') as (v & Em & Ev); [lia|].
    set (m := "task-definition") in *. change marker with (m +:+ String "/" "") in Em, Ev, Hu.
    rewrite length_app_str in Hu. simpl String.length in Hu at 2.
    destruct (app_str_prefix u v m (String "/" "") (eq_sym Em)) as (w & Ew & ->); [simpl in *; lia|].
    assert (Hm : has_char "/" m = false) by reflexivity. rewrite !app_str_assoc in Ev. simpl in Ev.
    apply (f_equal (cut_char "/")) in Ev. rewrite !cut_char_app in Ev.
    + injection Ev as Ev _. rewrite <- Ev in Ew. apply (f_equal String.length) in Ew.
      rewrite length_app_str in Ew. simpl in *. lia.
    + clearbody m. subst m. rewrite has_char_app in Hm. by apply orb_false_iff in Hm as [_ ?].
Qed.
Lemma unversioned_from_spec fuel s : (String.length s ≤ fuel)%nat →
  unversioned_from fuel s = true ↔ ∃ a b, s = a +:+ marker +:+ b ∧ has_char ":" b = false.
Proof.
  revert s. induction fuel as [|fuel IH]; intros s Hf.
  - destruct s; [|simpl in Hf; lia]. split; [done|]. intros (a & b & E & _). by destruct a.
  - cbn [unversioned_from]. split.
    + destruct (str_cut marker s) as [[a after]|] eqn:E; [|done]. apply str_cut_Some in E as ->.
      rewrite contains_char. destruct (has_char ":" after) eqn:Ec; [|eauto]. cbn [negb]. intros H.
      apply IH in H as (a' & b & -> & Hb).
      * exists (a +:+ marker +:+ a'), b. by rewrite !app_str_assoc.
      * rewrite !length_app_str in Hf. simpl in Hf. lia.
    + intros (a & b & -> & Hb). destruct (str_cut_app marker a b) as (a0 & b0 & E & Hl). rewrite E, contains_char.
      destruct (has_char ":" b0) eqn:Ec; [|done]. cbn [negb]. apply str_cut_Some in E.
      destruct (Nat.eq_dec (String.length a0) (String.length a)) as [Hn|Hn].
      * destruct (app_str_inj _ _ _ _ (eq_sym Hn) E) as [_ E']. destruct (app_str_inj _ _ _ _ eq_refl E') as [_ ->].
        congruence.
      * destruct (marker_apart a0 b0 a b (eq_sym E)) as (c & ->); [lia|]. apply IH; [|eauto].
        rewrite E in Hf. assert (Hm : String.length marker = 16) by reflexivity.
        repeat rewrite length_app_str in Hf. repeat rewrite length_app_str. lia.
Qed.
(** The text of a right-hand side outside the template actions. *)
Definition skeleton (rhs : string) : string := ReplaceAllString templateActionRe rhs " ".
Definition unversioned (rhs : string) : Prop :=
  ∃ a b, skeleton rhs = a +:+ marker +:+ b ∧ has_char ":" b = false.
Lemma hasUnversionedTaskDefLiteral_spec rhs : hasUnversionedTaskDefLiteral rhs = true ↔ unversioned rhs.
Proof. by apply unversioned_from_spec. Qed.

(** A literal is reported exactly for the lines of a template that set
    taskDefinition to a value whose text outside the actions names a task definition
    with no colon anywhere after it, and that has none of the guards. *)
Theorem checkCompositionCanonicalForm_spec w :
  w_CanonicalFormTemplateFindings (checkCompositionCanonicalForm w) = w_CanonicalFormTemplateFindings w ++
    for_templates (λ comp _ text, flat_map (λ m, flat_map (λ line,
      match entry_value "taskDefinition:" line with
      | Some v => if hasUnversionedTaskDefLiteral (trim_space v) && negb (rhsHasCanonicalGuard (trim_space v))
                  then [MkCanonicalFormTemplateFinding (comp_Name comp) (cm_Group m) (cm_Kind m) "taskDefinition" v
                          (cm_Canonical m) (cm_Reason m) (comp_Source comp)]
                  else []
      | None => []
      end) (lines text)) CanonicalFormRegistry) w ∧
  ∀ rhs, hasUnversionedTaskDefLiteral rhs = true ↔ unversioned rhs.
Proof.
  split; [|apply hasUnversionedTaskDefLiteral_spec]. unfold checkCompositionCanonicalForm.
  cbn [w_CanonicalFormTemplateFindings]. f_equal. unfold for_templates. apply flat_map_ext. intros comp.
  apply flat_map_ext. intros step. destruct (template_text w step) as [text|]; [|done].
  unfold CanonicalFormRegistry. cbn [flat_map]. rewrite !app_nil_r. unfold canonical_findings.
  change (lastDotted (cm_FieldPath _)) with "taskDefinition".
  change (leaf_re "taskDefinition") with (RSeq RBol (value_re "taskDefinition:")).
  rewrite FindAllStringSubmatch_lines; [|reflexivity|apply value_re_whole_line].
  pose proof (lines_no_newline text) as Hn. induction (lines text) as [|x ls IH]; [done|].
  inversion Hn as [|? ? Hx Hls]; subst. rewrite omap_cons, (line_caps_value "t" "askDefinition:") by done.
  cbn [flat_map]. rewrite <- IH by done. destruct (entry_value _ x) as [v|]; [|done]. simpl fmap. cbv iota.
  cbn [flat_map]. f_equal. unfold templateRHSNonCanonical. change (submatch 1 [(1, v)]) with v. simpl.
  by destruct (hasUnversionedTaskDefLiteral (trim_space v)), (rhsHasCanonicalGuard (trim_space v)).
Qed.

(** ** Selectors *)

Definition proper_labels (l : label_map) : Prop := ∀ k, l !! k ≠ Some "".
Lemma read_labels_proper indent ls out : proper_labels out → proper_labels (read_labels indent ls out).
Proof.
  revert out. induction ls as [|line ls IH]; intros out Hout; cbn [read_labels]; [done|].
  destruct (isBlankOrComment line); [by apply IH|]. destruct (FindStringSubmatch kvRe line) as [[full mm]|]; [|done].
  destruct (Nat.leb _ _); [done|]. destruct (String.eqb_spec (submatch 3 mm) "") as [|Hv]; [done|].
  apply IH. intros k. destruct (decide (submatch 2 mm = k)) as [<-|Hk].
  - rewrite lookup_insert_eq. congruence.
  - by rewrite lookup_insert_ne.
Qed.
Lemma labelMapAfter_proper text re : proper_labels (labelMapAfter text re).
Proof.
  unfold labelMapAfter. destruct (leftmost re (start text)) as [[[a q] cs]|]; [|by intros k; rewrite lookup_empty].
  apply read_labels_proper. intros k. by rewrite lookup_empty.
Qed.
Lemma selectorLabels_proper block field : proper_labels (selectorLabels block field).
Proof.
  unfold selectorLabels. destruct (leftmost _ (start block)) as [[[a q] cs]|]; [apply labelMapAfter_proper|].
  intros k. by rewrite lookup_empty.
Qed.
(** A selector matches what carries all its labels; the empty one matches nothing. *)
Lemma labelsSubset_spec sel sg : proper_labels sel → labelsSubset sel sg = true ↔ sel ≠ ∅ ∧ sel ⊆ sg.
Proof.
  intros Hp. unfold labelsSubset. case_bool_decide as He; [by split; [done|intros [? _]]|].
  rewrite forallb_forall, map_subseteq_spec. split.
  - intros H. split; [done|]. intros k v Hk. assert (Hv : v ≠ "") by (intros ->; by apply (Hp k)).
    specialize (H (k, v)). rewrite <- list_elem_of_In, elem_of_map_to_list in H. specialize (H Hk).
    simpl in H. apply String.eqb_eq in H. destruct (sg !! k); simpl in H; congruence.
  - intros [_ H] [k v] Hk%list_elem_of_In%elem_of_map_to_list. simpl. rewrite (H k v Hk). apply String.eqb_refl.
Qed.
Lemma labelsMatchAnyLocalSG_spec sel locals : proper_labels sel →
  labelsMatchAnyLocalSG sel locals = true ↔ sel ≠ ∅ ∧ ∃ sg, sg ∈ locals ∧ sel ⊆ sg.
Proof.
  intros Hp. unfold labelsMatchAnyLocalSG. rewrite existsb_exists. setoid_rewrite labelsSubset_spec; [|done].
  setoid_rewrite <- list_elem_of_In. naive_solver.
Qed.
(** The labels of the groups a template creates. *)
Definition created (text kind : string) (labels : label_map) : Prop :=
  labels ≠ ∅ ∧ ∃ block, block ∈ resourceBlocksOfKind text kind ∧ labels = metadataLabels block.
Lemma elem_of_label_sets text kind labels : labels ∈ securityGroupLabelSets text kind ↔ created text kind labels.
Proof.
  unfold securityGroupLabelSets, created. rewrite list_elem_of_filter, list_elem_of_fmap. naive_solver.
Qed.
(** The field of a block a pattern finds. *)
Definition field_of (pattern block : string) : option string :=
  submatchOrFull <$> FindStringSubmatch (MustCompile pattern) block.

(** C24: A rule is reported exactly when, without the annotation that allows it, it
    refers through a selector to a group the template creates (one that carries all
    the selector's labels), and is not attached through a selector to such a group. *)
Theorem scanOrphanSGRefMapping_spec comp text m f :
  f ∈ scanOrphanSGRefMapping comp text m ↔
  ∃ block attach ref, block ∈ resourceBlocksOfKind text (osm_Kind m) ∧
    MatchString orphanSGRefAllowAnnotationRe block = false ∧
    field_of (osm_AttachFieldPattern m) block = Some attach ∧ field_of (osm_RefFieldPattern m) block = Some ref ∧
    isSelectorField ref = true ∧ selectorLabels block ref ≠ ∅ ∧
    (∃ labels, created text (osm_RefKind m) labels ∧ selectorLabels block ref ⊆ labels) ∧
    (isSelectorField attach = true → selectorLabels block attach ≠ ∅ →
       ∀ labels, created text (osm_RefKind m) labels → ¬ selectorLabels block attach ⊆ labels) ∧
    f = MkOrphanSGRefFinding (comp_Name comp) (osm_Group m) (osm_Kind m) (resourceNameInBlock block) attach ref
          (osm_Reason m) (comp_Source comp).
Proof.
  unfold scanOrphanSGRefMapping. rewrite elem_of_flat_map. f_equiv. intros block. unfold orphan_finding, field_of.
  set (locals := securityGroupLabelSets text (osm_RefKind m)).
  assert (Hl : ∀ field, labelsMatchAnyLocalSG (selectorLabels block field) locals = true ↔
    selectorLabels block field ≠ ∅ ∧ ∃ labels, created text (osm_RefKind m) labels ∧ selectorLabels block field ⊆ labels).
  { intros field. rewrite labelsMatchAnyLocalSG_spec by apply selectorLabels_proper.
    unfold locals. by setoid_rewrite elem_of_label_sets. }
  destruct (MatchString orphanSGRefAllowAnnotationRe block); [set_solver|].
  destruct (FindStringSubmatch _ block) as [a|]; [|set_solver].
  destruct (FindStringSubmatch (MustCompile (osm_RefFieldPattern m)) block) as [r|]; [|set_solver]. cbn [fmap option_fmap option_map].
  set (attach := submatchOrFull a). set (ref := submatchOrFull r). clearbody attach ref.
  split.
  - intros [Hin Hf]. destruct (isSelectorField ref) eqn:Hr; [|by apply not_elem_of_nil in Hf]. cbn [negb] in Hf.
    case_bool_decide as He; [by apply not_elem_of_nil in Hf|].
    destruct (labelsMatchAnyLocalSG (selectorLabels block ref) locals) eqn:Em; [|by apply not_elem_of_nil in Hf].
    cbn [negb] in Hf. apply Hl in Em as [_ Em]. exists attach, ref.
    destruct (isSelectorField attach && _ && _) eqn:Ea; [by apply not_elem_of_nil in Hf|].
    apply list_elem_of_singleton in Hf. split_and!; try done. intros Ha Hne labels Hc Hsub.
    rewrite Ha, bool_decide_false in Ea by done. simpl in Ea.
    assert (labelsMatchAnyLocalSG (selectorLabels block attach) locals = true) by (apply Hl; eauto). congruence.
  - intros (attach' & ref' & Hin & _ & [= <-] & [= <-] & Hr & Hne & Hc & Ha & ->). split; [done|].
    rewrite Hr. cbn [negb]. rewrite bool_decide_false by done.
    rewrite (proj2 (Hl ref) (conj Hne Hc)). cbn [negb].
    destruct (isSelectorField attach && _ && _) eqn:Ea; [|by apply list_elem_of_singleton]. exfalso.
    apply andb_true_iff in Ea as [[Hs He%negb_true_iff%bool_decide_eq_false]%andb_true_iff Em].
    apply Hl in Em as (_ & labels & Hcl & Hsub). by eapply Ha.
Qed.

(** A branch that ends in a bare family is missed when a later ARN follows it. *)
Example bare_branch_missed :
  map hasUnversionedTaskDefLiteral
    ["{{ if $e }}arn:aws:ecs:r:1:task-definition/web{{ end }}";
     "{{ if $e }}arn:aws:ecs:r:1:task-definition/web{{ else }}arn:aws:ecs:r:1:task-definition/web:7{{ end }}"]
  = [true; false].
Proof. reflexivity. Qed.
(** A selector without matchLabels is read the labels of the selector after it. *)
Example selector_runs_over :
  let block := join (String newline "")
    ["  securityGroupIdSelector:"; "    matchControllerRef: true";
     "  sourceSecurityGroupIdSelector:"; "    matchLabels:"; "      app: web"] in
  selectorLabels block "securityGroupIdSelector" = {["app" := "web"]}.
Proof. vm_compute. reflexivity. Qed.
