(* ===== verification/Values.v ===== *)
(** Helm values (src/pkg/renderer/helm.go): the merge of the chart's defaults, the
    values files, the Application's values object and its inline values, and the
    text the merged map is written as.

    [deepMerge] writes into the maps it is given and stores the maps it reads, so it
    is modelled on a store of maps; [merge_map] is what it computes. *)
From Stdlib Require Import ZArith Floats.SpecFloat.
From S2P Require Import Prelude GoStrings Yaml Json.

#[local] Open Scope string_scope.
#[local] Open Scope list_scope.

(** ** Maps as lists of entries *)

Fixpoint get_key {A} (m : list (string * A)) (k : string) : option A :=
  match m with [] => None | (k', v) :: m => if String.eqb k' k then Some v else get_key m k end.
(** [m[k] = v]. *)
Fixpoint set_key {A} (m : list (string * A)) (k : string) (v : A) : list (string * A) :=
  match m with
  | [] => [(k, v)]
  | (k', v') :: m => if String.eqb k' k then (k, v) :: m else (k', v') :: set_key m k v
  end.

(** ** The merge on a store *)

(** A value is a map in the store, or anything else ([deepMerge] never writes below a
    list). *)
Inductive slot : Type := Atom (v : value) | Ref (l : positive).
Notation cells := (list (string * slot)).
Notation store := (gmap positive cells).

(** [deepMerge(a, b)] for maps that are not nil; the fuel is the nesting of [b]. *)
Fixpoint deepMerge (fuel : nat) (s : store) (a b : positive) : store :=
  match fuel with
  | O => s
  | S fuel =>
      foldl (λ s kv,
        let cs := default [] (s !! a) in
        match get_key cs (fst kv), snd kv with
        | Some (Ref em), Ref nm => deepMerge fuel s em nm
        | _, v => <[a := set_key cs (fst kv) v]> s
        end) s (default [] (s !! b))
  end.

(** ** What it computes *)

Fixpoint merge_value (old : option value) (new : value) : value :=
  match new with
  | VMap m =>
      match old with
      | Some (VMap a) =>
          VMap ((fix go a m := match m with
                               | [] => a
                               | (k, v) :: m => go (set_key a k (merge_value (get_key a k) v)) m
                               end) a m)
      | _ => new
      end
  | _ => new
  end.
Definition merge_entry (a : obj) (kv : string * value) : obj :=
  set_key a (fst kv) (merge_value (get_key a (fst kv)) (snd kv)).
Definition merge_map (a b : obj) : obj := foldl merge_entry a b.
Lemma merge_value_map a b : merge_value (Some (VMap a)) (VMap b) = VMap (merge_map a b).
Proof. simpl. f_equal. revert a. induction b as [|[k v] b IH]; intros a; [done|]. simpl. by rewrite IH. Qed.

Lemma get_set_key {A} (m : list (string * A)) k v k' :
  get_key (set_key m k v) k' = if String.eqb k k' then Some v else get_key m k'.
Proof.
  induction m as [|[j w] m IH]; simpl; [done|]. destruct (String.eqb_spec j k) as [->|Hj]; simpl.
  - by destruct (String.eqb k k').
  - rewrite IH. destruct (String.eqb_spec j k') as [->|]; [|done].
    destruct (String.eqb_spec k k') as [->|]; [done|done].
Qed.
Lemma get_key_lookup m k : lookup_key m k = get_key m k.
Proof. induction m as [|[j w] m IH]; simpl; [done|]. by rewrite IH. Qed.
Lemma get_key_None {A} (m : list (string * A)) k : get_key m k = None ↔ k ∉ m.*1.
Proof.
  induction m as [|[j w] m IH]; simpl; [split; [intros _; apply not_elem_of_nil|done]|]. rewrite not_elem_of_cons.
  destruct (String.eqb_spec j k) as [->|Hj]; [split; [done|by intros []]|]. rewrite IH. split; [intros; by split|by intros []].
Qed.
Lemma merge_map_lookup a b k : wf_map b →
  get_key (merge_map a b) k =
  match get_key b k with None => get_key a k | Some v => Some (merge_value (get_key a k) v) end.
Proof.
  revert a. induction b as [|[j w] b IH]; intros a Hb; [done|]. unfold wf_map in Hb. simpl in Hb.
  apply NoDup_cons in Hb as [Hj Hb]. simpl. change (foldl merge_entry ?x b) with (merge_map x b). rewrite IH by done.
  unfold merge_entry; simpl. rewrite get_set_key. destruct (String.eqb_spec j k) as [->|]; [|done].
  apply get_key_None in Hj. by rewrite Hj.
Qed.
Lemma wf_set_key {A} (m : list (string * A)) k v : NoDup m.*1 → NoDup (set_key m k v).*1.
Proof.
  assert (Hk : ∀ m : list (string * A), ∀ j, j ∈ (set_key m k v).*1 → j = k ∨ j ∈ m.*1).
  { clear m. intros m j. induction m as [|[i w] m IH]; simpl; [set_solver|].
    destruct (String.eqb_spec i k) as [->|]; simpl; set_solver. }
  induction m as [|[j w] m IH]; simpl; [intros; apply NoDup_singleton|]. intros [Hj Hm]%NoDup_cons.
  destruct (String.eqb_spec j k) as [->|Hne]; simpl; apply NoDup_cons; [done|]. split; [|by apply IH].
  intros H%Hk. by destruct H.
Qed.
Lemma wf_merge_map a b : wf_map a → wf_map (merge_map a b).
Proof.
  unfold wf_map. revert a. induction b as [|kv b IH]; intros a Ha; simpl; [done|]. apply IH. by apply wf_set_key.
Qed.

(** ** Trees in the store

    [rep s t x fp]: the slot [x] holds the tree [t], whose maps are at the places
    [fp], each once. *)
Fixpoint rep (s : store) (t : value) (x : slot) (fp : gset positive) {struct t} : Prop :=
  match t with
  | VMap m => ∃ l cs f, x = Ref l ∧ s !! l = Some cs ∧ l ∉ f ∧ fp = {[l]} ∪ f ∧
      (fix go (m : obj) (cs : cells) (f : gset positive) : Prop :=
         match m, cs with
         | [], [] => f = ∅
         | (k, t) :: m, (k', c) :: cs =>
             k' = k ∧ ∃ f1 f2, rep s t c f1 ∧ go m cs f2 ∧ f1 ## f2 ∧ f = f1 ∪ f2
         | _, _ => False
         end) m cs f
  | _ => x = Atom t ∧ fp = ∅
  end.
Fixpoint reps (s : store) (m : obj) (cs : cells) (f : gset positive) : Prop :=
  match m, cs with
  | [], [] => f = ∅
  | (k, t) :: m, (k', c) :: cs =>
      k' = k ∧ ∃ f1 f2, rep s t c f1 ∧ reps s m cs f2 ∧ f1 ## f2 ∧ f = f1 ∪ f2
  | _, _ => False
  end.
Lemma rep_map s m x fp : rep s (VMap m) x fp ↔
  ∃ l cs f, x = Ref l ∧ s !! l = Some cs ∧ l ∉ f ∧ fp = {[l]} ∪ f ∧ reps s m cs f.
Proof.
  assert (H : ∀ m cs f, (fix go (m : obj) (cs : cells) (f : gset positive) : Prop :=
         match m, cs with
         | [], [] => f = ∅
         | (k, t) :: m, (k', c) :: cs =>
             k' = k ∧ ∃ f1 f2, rep s t c f1 ∧ go m cs f2 ∧ f1 ## f2 ∧ f = f1 ∪ f2
         | _, _ => False
         end) m cs f ↔ reps s m cs f).
  { clear. induction m as [|[k t] m IH]; intros [|[k' c] cs] f; simpl; [done..|].
    f_equiv. f_equiv; intros f1. f_equiv; intros f2. by rewrite IH. }
  simpl. f_equiv; intros l. f_equiv; intros cs. f_equiv; intros f. by rewrite H.
Qed.
Lemma rep_ref s t x l fp : rep s t x fp → x = Ref l → ∃ m, t = VMap m.
Proof. destruct t; simpl; try (intros [-> _]; done). eauto. Qed.
Lemma rep_atom s t x fp : rep s t x fp → (∀ m, t ≠ VMap m) → x = Atom t ∧ fp = ∅.
Proof. destruct t; simpl; try done. intros _ H. by destruct (H m). Qed.

(** Only the places of a tree matter to it. *)
Lemma rep_frame s s' t x fp : rep s t x fp → (∀ l, l ∈ fp → s' !! l = s !! l) → rep s' t x fp.
Proof.
  revert x fp. induction t as [| | | | | |l _|m IH|] using value_ind'; intros x fp; try done.
  rewrite !rep_map. intros (l & cs & f & -> & Hl & Hn & -> & Hr) Hs. exists l, cs, f.
  split_and!; [done|rewrite Hs; set_solver|done|done|].
  assert (Hf : ∀ j, j ∈ f → s' !! j = s !! j) by set_solver. clear Hs Hl Hn.
  revert cs f Hr Hf. induction m as [|[k t] m IHm]; intros [|[k' c] cs] f; simpl; try done.
  apply Forall_cons in IH as [IH1 IH2]. intros (-> & f1 & f2 & H1 & H2 & Hd & ->) Hf. split; [done|].
  exists f1, f2. split_and!; [|apply IHm; [done|done|set_solver]|done|done]. apply IH1; [done|set_solver].
Qed.
Lemma reps_frame s s' m cs f : reps s m cs f → (∀ l, l ∈ f → s' !! l = s !! l) → reps s' m cs f.
Proof.
  revert cs f. induction m as [|[k t] m IH]; intros [|[k' c] cs] f; simpl; try done.
  intros (-> & f1 & f2 & H1 & H2 & Hd & ->) Hf. split; [done|]. exists f1, f2.
  split_and!; [eapply rep_frame; [done|set_solver]|apply IH; [done|set_solver]|done|done].
Qed.
Lemma reps_app s m1 m2 cs f : reps s (m1 ++ m2) cs f ↔ ∃ cs1 cs2 f1 f2, cs = cs1 ++ cs2 ∧
  reps s m1 cs1 f1 ∧ reps s m2 cs2 f2 ∧ f1 ## f2 ∧ f = f1 ∪ f2.
Proof.
  revert cs f. induction m1 as [|[k t] m1 IH]; intros cs f; simpl.
  - split.
    + intros H. exists [], cs, ∅, f. split_and!; [done..|set_solver|set_solver].
    + intros ([|] & cs2 & f1 & f2 & -> & Hf & H & _ & ->); [|done]. subst f1. by rewrite union_empty_l_L.
  - split.
    + destruct cs as [|[k' c] cs]; [done|]. intros (-> & f1 & f2 & H1 & H2 & Hd & ->).
      apply IH in H2 as (cs1 & cs2 & g1 & g2 & -> & Hg1 & Hg2 & Hdg & ->).
      exists ((k, c) :: cs1), cs2, (f1 ∪ g1), g2. split_and!; try done; set_solver.
    + intros ([|[k' c] cs1] & cs2 & f1 & f2 & -> & H1 & H2 & Hd & ->); [done|].
      destruct H1 as (-> & g1 & g2 & Hg1 & Hg2 & Hdg & ->). split; [done|]. exists g1, (g2 ∪ f2).
      split_and!; [done| |set_solver|set_solver]. apply IH. exists cs1, cs2, g2, f2. split_and!; [done..|set_solver|done].
Qed.

Lemma set_key_fresh {A} (m : list (string * A)) k v : get_key m k = None → set_key m k v = m ++ [(k, v)].
Proof.
  induction m as [|[j w] m IH]; simpl; [done|]. destruct (String.eqb j k); [done|]. intros H. by rewrite IH.
Qed.
Lemma reps_fresh s m cs f k : reps s m cs f → get_key m k = None → get_key cs k = None.
Proof.
  revert cs f. induction m as [|[j t] m IH]; intros [|[j' c] cs] f; simpl; try done.
  intros (-> & f1 & f2 & _ & H & _). destruct (String.eqb j k); [done|]. eauto.
Qed.
(** The entry of a key, the same in the tree and in the store. *)
Lemma reps_entry s m cs f k t : reps s m cs f → get_key m k = Some t →
  ∃ m1 m2 cs1 cs2 c f1 fc f2, m = m1 ++ (k, t) :: m2 ∧ cs = cs1 ++ (k, c) :: cs2 ∧ get_key cs k = Some c ∧
    (∀ v, set_key m k v = m1 ++ (k, v) :: m2) ∧ (∀ c, set_key cs k c = cs1 ++ (k, c) :: cs2) ∧
    reps s m1 cs1 f1 ∧ rep s t c fc ∧ reps s m2 cs2 f2 ∧ f1 ## fc ∧ f1 ## f2 ∧ fc ## f2 ∧ f = f1 ∪ fc ∪ f2.
Proof.
  revert cs f. induction m as [|[j u] m IH]; intros [|[j' c] cs] f; cbn [reps get_key]; try done.
  intros (-> & g1 & g2 & H1 & H2 & Hd & ->). destruct (String.eqb_spec j k) as [->|Hj].
  - intros [= ->]. exists [], m, [], cs, c, ∅, g1, g2. cbn [set_key get_key]. rewrite String.eqb_refl.
    split_and!; try done; set_solver.
  - intros Ht. destruct (IH cs g2 H2 Ht) as (m1 & m2 & cs1 & cs2 & d & f1 & fc & f2 & -> & -> & Hg & Hm & Hc & R1 & R & R2 & D1 & D2 & D3 & ->).
    exists ((j, u) :: m1), m2, ((j, c) :: cs1), cs2, d, (g1 ∪ f1), fc, f2. cbn [set_key get_key].
    rewrite (proj2 (String.eqb_neq j k)) by done.
    split_and!; try done; [..|set_solver|set_solver|set_solver].
    + intros v. by rewrite Hm.
    + intros v. by rewrite Hc.
    + split; [done|]. exists g1, f1. split_and!; try done. set_solver.
Qed.
Lemma reps_one s k t c f : reps s [(k, t)] [(k, c)] f ↔ rep s t c f.
Proof.
  simpl. split.
  - intros (_ & f1 & f2 & H & -> & _ & ->). by rewrite union_empty_r_L.
  - intros H. split; [done|]. exists f, ∅. split_and!; try done; set_solver.
Qed.
(** Writing a tree under a key. *)
Lemma reps_set s m cs f k t c fc : reps s m cs f → rep s t c fc → f ## fc →
  ∃ f', reps s (set_key m k t) (set_key cs k c) f' ∧ f' ⊆ f ∪ fc.
Proof.
  intros Hm Ht Hd. destruct (get_key m k) as [u|] eqn:E.
  - destruct (reps_entry s m cs f k u Hm E) as (m1 & m2 & cs1 & cs2 & d & f1 & fd & f2 & -> & -> & _ & Sm & Sc & R1 & _ & R2 & D1 & D2 & D3 & ->).
    rewrite Sm, Sc. exists (f1 ∪ (fc ∪ f2)). split; [|set_solver]. apply reps_app.
    exists cs1, ((k, c) :: cs2), f1, (fc ∪ f2). split_and!; try done; [|set_solver].
    split; [done|]. exists fc, f2. split_and!; try done. set_solver.
  - rewrite !set_key_fresh by eauto using reps_fresh. exists (f ∪ fc). split; [|done].
    apply reps_app. exists cs, [(k, c)], f, fc. split_and!; try done. by apply reps_one.
Qed.

(** One entry of [b]: the body of the loop. *)
Definition merge_slot (fuel : nat) (a : positive) (s : store) (kv : string * slot) : store :=
  let cs := default [] (s !! a) in
  match get_key cs (fst kv), snd kv with
  | Some (Ref em), Ref nm => deepMerge fuel s em nm
  | _, v => <[a := set_key cs (fst kv) v]> s
  end.
(** [s'] is [s] with the tree [t] at [a], built of places of [fa] and [fb], and with
    no other place written. *)
Definition merged_at (s s' : store) (a : positive) (t : obj) (fa fb : gset positive) : Prop :=
  ∃ fa', rep s' (VMap t) (Ref a) fa' ∧ fa' ⊆ fa ∪ fb ∧ ∀ l, l ∉ fa ∪ fb → s' !! l = s !! l.

Lemma write_merged s a ta fa k v c fv : rep s (VMap ta) (Ref a) fa → rep s v c fv → fa ## fv →
  merged_at s (<[a := set_key (default [] (s !! a)) k c]> s) a (set_key ta k v) fa fv.
Proof.
  rewrite rep_map. intros (l & cs & f & [= <-] & Hs & Hn & -> & Hr) Hv Hd. rewrite Hs; simpl.
  assert (Hf : ∀ j, j ≠ a → <[a := set_key cs k c]> s !! j = s !! j) by (intros; by rewrite lookup_insert_ne).
  destruct (reps_set s ta cs f k v c fv Hr Hv) as (f' & Hr' & Hsub); [set_solver|].
  exists ({[a]} ∪ f'). split_and!; [|set_solver|intros j Hj; apply Hf; set_solver].
  apply rep_map. exists a, (set_key cs k c), f'. split_and!; [done|by rewrite lookup_insert_eq|set_solver|done|].
  eapply reps_frame; [done|]. intros j Hj. apply Hf. set_solver.
Qed.
Lemma merge_value_new old v : (∀ a m, old = Some (VMap a) → v = VMap m → False) → merge_value old v = v.
Proof. intros H. destruct v; try done. destruct old as [[]|]; try done. by destruct (H _ _ eq_refl eq_refl). Qed.

Section step.
Context (fuel : nat).
Context (IH : ∀ s a b ta tb fa fb, rep s (VMap ta) (Ref a) fa → rep s (VMap tb) (Ref b) fb → fa ## fb →
  (depth (VMap tb) ≤ fuel)%nat → merged_at s (deepMerge fuel s a b) a (merge_map ta tb) fa fb).

Lemma merge_slot_refines s a ta fa k v c fv : rep s (VMap ta) (Ref a) fa → rep s v c fv → fa ## fv →
  (depth v ≤ fuel)%nat → merged_at s (merge_slot fuel a s (k, c)) a (merge_entry ta (k, v)) fa fv.
Proof using IH.
  intros Ha Hv Hd Hfuel. pose proof (write_merged s a ta fa k v c fv Ha Hv Hd) as Hw.
  unfold merge_slot, merge_entry; cbn [fst snd]. pose proof Ha as Ha'. rewrite rep_map in Ha'.
  destruct Ha' as (l & cs & f & [= <-] & Hs & Hn & -> & Hr). rewrite Hs in Hw |- *. simpl default in *.
  destruct (get_key ta k) as [u|] eqn:Eu.
  2: { rewrite (reps_fresh _ _ _ _ _ Hr Eu). by rewrite merge_value_new. }
  destruct (reps_entry s ta cs f k u Hr Eu) as (m1 & m2 & cs1 & cs2 & d & f1 & fd & f2 & -> & -> & Hg & Sm & Sc & R1 & R & R2 & D1 & D2 & D3 & ->).
  rewrite Hg. destruct d as [w|em].
  { rewrite merge_value_new; [done|]. intros mu mv [= ->] ->. rewrite rep_map in R. by destruct R as (? & ? & ? & ? & _). }
  destruct c as [w|nm].
  { rewrite merge_value_new; [done|]. intros mu mv _ ->. rewrite rep_map in Hv. by destruct Hv as (? & ? & ? & ? & _). }
  destruct (rep_ref _ _ _ _ _ R eq_refl) as [mu ->]. destruct (rep_ref _ _ _ _ _ Hv eq_refl) as [mv ->].
  rewrite merge_value_map, Sm. clear Hw.
  assert (Hdisj : fd ## fv) by (clear -Hd; set_solver).
  destruct (IH s em nm mu mv fd fv R Hv Hdisj Hfuel) as (fd' & Hd' & Hsub & Hframe).
  assert (Hout : ∀ g : gset positive, g ## fd ∪ fv → ∀ j, j ∈ g → deepMerge fuel s em nm !! j = s !! j).
  { intros g Hg' j Hj. apply Hframe. clear -Hg' Hj. set_solver. }
  assert (Ha0 : {[a]} ## fd ∪ fv) by (clear -Hd Hn; set_solver).
  assert (H1 : f1 ## fd ∪ fv) by (clear -Hd D1; set_solver).
  assert (H2 : f2 ## fd ∪ fv) by (clear -Hd D3; set_solver).
  assert (Hn' : a ∉ f1 ∪ (fd' ∪ f2)) by (clear -Hn Hsub Ha0; set_solver).
  assert (Hd1 : f1 ## fd' ∪ f2) by (clear -H1 D2 Hsub; set_solver).
  assert (Hd2 : fd' ## f2) by (clear -H2 Hsub; set_solver).
  assert (Hs' : deepMerge fuel s em nm !! a = Some (cs1 ++ (k, Ref em) :: cs2)).
  { rewrite (Hout {[a]} Ha0 a); [done|]. by apply elem_of_singleton. }
  pose proof (reps_frame _ _ _ _ _ R1 (Hout f1 H1)) as R1'. pose proof (reps_frame _ _ _ _ _ R2 (Hout f2 H2)) as R2'.
  exists ({[a]} ∪ (f1 ∪ (fd' ∪ f2))). split_and!.
  - apply rep_map. exists a, (cs1 ++ (k, Ref em) :: cs2), (f1 ∪ (fd' ∪ f2)). split_and!; [done..|].
    apply reps_app. exists cs1, ((k, Ref em) :: cs2), f1, (fd' ∪ f2). split_and!; [done..| |done|done].
    split; [done|]. exists fd', f2. by split_and!.
  - clear -Hsub. set_solver.
  - intros j Hj. apply Hframe. clear -Hj. set_solver.
Qed.
Lemma merge_slots_refine s a ta fa m cs f : rep s (VMap ta) (Ref a) fa → reps s m cs f → fa ## f →
  (∀ k v, (k, v) ∈ m → (depth v ≤ fuel)%nat) →
  merged_at s (foldl (merge_slot fuel a) s cs) a (merge_map ta m) fa f.
Proof using IH.
  revert s ta fa cs f. induction m as [|[k v] m IHm]; intros s ta fa [|[k' c] cs] f Ha Hm Hd Hdep; try done.
  - simpl in Hm. subst f. exists fa. split_and!; [done|set_solver|done].
  - destruct Hm as (-> & f1 & f2 & H1 & H2 & D & ->).
    destruct (merge_slot_refines s a ta fa k v c f1 Ha H1) as (fa1 & Ha1 & Hsub1 & Hfr1);
      [clear -Hd; set_solver|eapply Hdep; by left|].
    destruct (IHm (merge_slot fuel a s (k, c)) (merge_entry ta (k, v)) fa1 cs f2 Ha1) as (fa2 & Ha2 & Hsub2 & Hfr2).
    + eapply reps_frame; [done|]. intros j Hj; apply Hfr1. clear -Hd D Hj. set_solver.
    + clear -Hd D Hsub1. set_solver.
    + intros j w Hj. eapply Hdep. by right.
    + exists fa2. split_and!; [done|clear -Hsub1 Hsub2; set_solver|]. intros l Hl.
      rewrite Hfr2, Hfr1 by (clear -Hl Hsub1; set_solver). done.
Qed.
End step.

Lemma deepMerge_eq fuel s a b :
  deepMerge (S fuel) s a b = foldl (merge_slot fuel a) s (default [] (s !! b)).
Proof. done. Qed.
Lemma depth_entry k v m : (k, v) ∈ m → (depth v < depth (VMap m))%nat.
Proof.
  intros H. simpl. induction m as [|[k' v'] m IH]; [by apply not_elem_of_nil in H|].
  apply elem_of_cons in H as [[= <- <-]|H]; [lia|]. specialize (IH H). lia.
Qed.
Lemma deepMerge_merged fuel s a b ta tb fa fb : rep s (VMap ta) (Ref a) fa → rep s (VMap tb) (Ref b) fb →
  fa ## fb → (depth (VMap tb) ≤ fuel)%nat → merged_at s (deepMerge fuel s a b) a (merge_map ta tb) fa fb.
Proof.
  revert s a b ta tb fa fb. induction fuel as [|fuel IH]; intros s a b ta tb fa fb Ha Hb Hd Hf; [simpl in Hf; lia|].
  rewrite deepMerge_eq. rewrite rep_map in Hb. destruct Hb as (l & cs & f & [= <-] & Hs & Hn & -> & Hr).
  rewrite Hs. simpl default. destruct (merge_slots_refine fuel IH s a ta fa tb cs f Ha Hr) as (fa' & H1 & H2 & H3).
  - clear -Hd. set_solver.
  - intros k v Hk. apply depth_entry in Hk. lia.
  - exists fa'. split_and!; [done|clear -H2; set_solver|]. intros j Hj. apply H3. clear -Hj. set_solver.
Qed.

(** Layers are merged in order, each with the nesting it needs. *)
Definition merge_layers (s : store) (a : positive) (bs : list (positive * nat)) : store :=
  foldl (λ s b, deepMerge (snd b) s a (fst b)) s bs.
(** The layers hold trees, at places of their own. *)
Inductive layers_at (s : store) : list (positive * nat) → list obj → gset positive → Prop :=
  | layers_nil : layers_at s [] [] ∅
  | layers_cons b fuel bs t ts f fs : rep s (VMap t) (Ref b) f → (depth (VMap t) ≤ fuel)%nat →
      layers_at s bs ts fs → f ## fs → layers_at s ((b, fuel) :: bs) (t :: ts) (f ∪ fs).
Lemma layers_frame s s' bs ts f : layers_at s bs ts f → (∀ l, l ∈ f → s' !! l = s !! l) → layers_at s' bs ts f.
Proof.
  induction 1 as [|b fuel bs t ts f fs Hr Hf Hl IH Hd]; intros Hs; constructor; try done.
  - eapply rep_frame; [done|]. intros l Hl'. apply Hs. clear -Hl'. set_solver.
  - apply IH. intros l Hl'. apply Hs. clear -Hl'. set_solver.
Qed.
(** C23: Merging layers held in the store, where nested maps are written in place and
    shared rather than copied, leaves at the destination the tree that merging them
    as values gives: at every path the last layer that has it wins, maps are merged
    key by key, and everything else is replaced whole. *)
Theorem merge_layers_refines s a ta fa bs ts fs : rep s (VMap ta) (Ref a) fa → layers_at s bs ts fs → fa ## fs →
  ∃ fa', rep (merge_layers s a bs) (VMap (foldl merge_map ta ts)) (Ref a) fa' ∧ fa' ⊆ fa ∪ fs.
Proof.
  intros Ha Hl. revert s ta fa Ha Hl. revert ts fs. induction bs as [|[b fuel] bs IH]; intros ts fs s ta fa Ha Hl Hd;
    inversion Hl as [|? ? ? t ts' f fs' Hr Hf Hl' Hd']; subst.
  - exists fa. split; [done|set_solver].
  - destruct (deepMerge_merged fuel s a b ta t fa f Ha Hr) as (fa1 & Ha1 & Hsub & Hfr); [clear -Hd; set_solver|done|].
    destruct (IH ts' fs' (deepMerge fuel s a b) (merge_map ta t) fa1 Ha1) as (fa2 & Ha2 & Hsub2).
    + eapply layers_frame; [done|]. intros l Hin. apply Hfr. clear -Hd Hd' Hin. set_solver.
    + clear -Hd Hd' Hsub. set_solver.
    + exists fa2. split; [done|]. clear -Hsub Hsub2. set_solver.
Qed.

(** The tree at a place, for stores without cycles. *)
Fixpoint load (fuel : nat) (s : store) (x : slot) : value :=
  match fuel, x with
  | S fuel, Ref l => VMap (map (λ kv, (fst kv, load fuel s (snd kv))) (default [] (s !! l)))
  | O, Ref _ => VNull
  | _, Atom v => v
  end.
(** Chart defaults at 1, the values object of an Application at 2, inline values at 4. *)
Definition leak_store : store := {[
  1%positive := []; 2%positive := [("image", Ref 3)]; 3%positive := [("repo", Atom (VStr "web"))];
  4%positive := [("image", Ref 5)]; 5%positive := [("debug", Atom (VBool true))] ]}.
Lemma merge_layers_refines_witness : ∃ fa',
  rep (merge_layers leak_store 1 [(2%positive, 2); (4%positive, 2)])
    (VMap (foldl merge_map [] [[("image", VMap [("repo", VStr "web")])]; [("image", VMap [("debug", VBool true)])]]))
    (Ref 1) fa' ∧ fa' ⊆ {[1%positive]} ∪ ({[2%positive; 3%positive]} ∪ ({[4%positive; 5%positive]} ∪ ∅)).
Proof.
  assert (Hleaf : ∀ l k v, (∀ m, v ≠ VMap m) → leak_store !! l = Some [(k, Atom v)] →
    rep leak_store (VMap [(k, v)]) (Ref l) {[l]}).
  { intros l k v Hv Hl. apply rep_map. exists l, [(k, Atom v)], ∅. split_and!; [done|done|set_solver|set_solver|].
    apply reps_one. destruct v; try done. by destruct (Hv m). }
  assert (Hnode : ∀ l k v c f, leak_store !! l = Some [(k, c)] → rep leak_store v c f → l ∉ f →
    rep leak_store (VMap [(k, v)]) (Ref l) ({[l]} ∪ f)).
  { intros l k v c f Hl Hr Hn. apply rep_map. exists l, [(k, c)], f. split_and!; try done. by apply reps_one. }
  apply merge_layers_refines.
  - apply rep_map. exists 1%positive, [], ∅. split_and!; [done|done|set_solver|set_solver|done].
  - constructor; [|simpl; lia| |set_solver].
    + eapply Hnode; [reflexivity|by apply Hleaf|set_solver].
    + constructor; [|simpl; lia|constructor|set_solver]. eapply Hnode; [reflexivity|by apply Hleaf|set_solver].
  - set_solver.
Defined.
(** The values object itself is then no longer what the Application says: the inline
    values are in it, for every later render that shares it. *)
Example inline_values_leak :
  load 3 leak_store (Ref 2) = VMap [("image", VMap [("repo", VStr "web")])] ∧
  load 3 (merge_layers leak_store 1 [(2%positive, 2); (4%positive, 2)]) (Ref 2) =
    VMap [("image", VMap [("repo", VStr "web"); ("debug", VBool true)])].
Proof. split; vm_compute; reflexivity. Qed.

(** ** The layers of a source *)

(** What reading a path gives ([readFile] and [isNotExist]). *)
Inductive file : Type := Absent | Unreadable (err : string) | Bytes (b : string).
#[local] Notation Result A := (A + string)%type.

Section layers.
(** [yaml.Unmarshal] into a map variable: what it leaves there and its error. *)
Context (read : string → file) (Unmarshal : string → raw * option string).
Context (fmt_float : spec_float → string) (other : string → option string).

Definition readFileIfExists (path : string) : Result string :=
  match read path with Absent => inl "" | Unreadable err => inr err | Bytes b => inl b end.
(** [merged = deepMerge(merged, b)]: a nil map is made first, a nil [b] adds nothing. *)
Definition merge_raw (a b : raw) : raw := Some (merge_map (default [] a) (default [] b)).
Definition resolve_values (chartPath f : string) : string :=
  if negb (is_abs f) then path_join [chartPath; f] else f.

(** *** The map, errors ignored *)

Definition add_file (chartPath : string) (merged : raw) (f : string) : raw :=
  match readFileIfExists (resolve_values chartPath f) with
  | inl b => if String.eqb b "" then merged
             else match Unmarshal b with (tmp, None) => merge_raw merged tmp | _ => merged end
  | inr _ => merged
  end.
Definition chart_defaults (chartPath : string) : raw :=
  match readFileIfExists (path_join [chartPath; "values.yaml"]) with
  | inl b => if String.eqb b "" then Some [] else fst (Unmarshal b)
  | inr _ => Some []
  end.
Definition add_object (merged valuesObject : raw) : raw :=
  match valuesObject with Some ((_ :: _) as o) => merge_raw merged (Some o) | _ => merged end.
Definition MergedValues (chartPath : string) (valueFiles : list string) (valuesObject : raw)
    (inlineValues : string) : raw :=
  let merged := add_object (foldl (add_file chartPath) (chart_defaults chartPath) valueFiles) valuesObject in
  if String.eqb inlineValues "" then merged
  else match Unmarshal inlineValues with (tmp, None) => merge_raw merged tmp | _ => merged end.

(** *** The bytes, errors returned *)

(** [json.Marshal] of what [canonicalize] makes: a map is the list of its entries,
    by key, each an object of one member. *)
Definition entry_object (kv : string * string) : string := "{" +:+ json_member kv +:+ "}".
Definition json_array (es : list string) : string := "[" +:+ join "," es +:+ "]".
Fixpoint canonical_json (v : value) : option string :=
  match v with
  | VMap m =>
      (λ es, json_array (map entry_object (sort_slice key_before es))) <$>
      (fix go m := match m with
                   | [] => Some []
                   | (k, v) :: m => match canonical_json v, go m with
                                    | Some e, Some es => Some ((k, e) :: es)
                                    | _, _ => None
                                    end
                   end) m
  | VList l =>
      json_array <$>
      (fix go l := match l with
                   | [] => Some []
                   | v :: l => match canonical_json v, go l with
                               | Some e, Some es => Some (e :: es)
                               | _, _ => None
                               end
                   end) l
  | v => json_value fmt_float other v
  end.
(** A nil map is canonicalized to an empty list too. *)
Definition sortedJSON (m : raw) : Result string :=
  match canonical_json (VMap (default [] m)) with Some b => inl b | None => inr "json: unsupported value" end.

Definition read_defaults (chartPath : string) : Result raw :=
  match readFileIfExists (path_join [chartPath; "values.yaml"]) with
  | inl b => if String.eqb b "" then inl (Some [])
             else match Unmarshal b with
                  | (m, None) => inl m
                  | (_, Some err) => inr ("decoding chart values.yaml: " +:+ err)
                  end
  | inr _ => inl (Some [])
  end.
Definition read_values (chartPath : string) (merged : Result raw) (f : string) : Result raw :=
  match merged with
  | inr err => inr err
  | inl merged =>
      let resolved := resolve_values chartPath f in
      match readFileIfExists resolved with
      | inr err => inr ("reading values file " +:+ resolved +:+ ": " +:+ err)
      | inl b =>
          if String.eqb b "" then inl merged
          else match Unmarshal b with
               | (tmp, None) => inl (merge_raw merged tmp)
               | (_, Some err) => inr ("decoding values file " +:+ resolved +:+ ": " +:+ err)
               end
      end
  end.
Definition mergeValuesBytes (chartPath : string) (valueFiles : list string) (valuesObject : raw)
    (inlineValues : string) : Result string :=
  match foldl (read_values chartPath) (read_defaults chartPath) valueFiles with
  | inr err => inr err
  | inl merged =>
      let merged := add_object merged valuesObject in
      if String.eqb inlineValues "" then sortedJSON merged
      else match Unmarshal inlineValues with
           | (tmp, None) => sortedJSON (merge_raw merged tmp)
           | (_, Some err) => inr ("decoding inline values: " +:+ err)
           end
  end.

(** When the values a chart is rendered with can be put together, they are the
    text of the map its schema is checked against: the two walks over the layers
    agree wherever the first returns no error. *)
Theorem mergeValuesBytes_MergedValues chartPath valueFiles valuesObject inlineValues bytes :
  mergeValuesBytes chartPath valueFiles valuesObject inlineValues = inl bytes →
  sortedJSON (MergedValues chartPath valueFiles valuesObject inlineValues) = inl bytes.
Proof.
  unfold mergeValuesBytes, MergedValues.
  assert (Herr : ∀ fs err, foldl (read_values chartPath) (inr err) fs = inr err) by (induction fs; simpl; auto).
  assert (Hfiles : ∀ fs m m', foldl (read_values chartPath) (inl m) fs = inl m' →
    foldl (add_file chartPath) m fs = m').
  { induction fs as [|f fs IH]; intros m m'; simpl; [by intros [= ->]|]. unfold add_file at 2.
    destruct (readFileIfExists (resolve_values chartPath f)) as [b|err]; [|by rewrite Herr].
    destruct (String.eqb b ""); [apply IH|]. destruct (Unmarshal b) as [tmp [err|]]; [by rewrite Herr|apply IH]. }
  assert (Hd : ∀ m, read_defaults chartPath = inl m → chart_defaults chartPath = m).
  { intros m. unfold read_defaults, chart_defaults. destruct (readFileIfExists _) as [b|]; [|by intros [= ->]].
    destruct (String.eqb b ""); [by intros [= ->]|]. destruct (Unmarshal b) as [v [err|]]; [done|by intros [= ->]]. }
  destruct (read_defaults chartPath) as [m|err]; [|by rewrite Herr]. rewrite (Hd m eq_refl).
  destruct (foldl (read_values chartPath) (inl m) valueFiles) as [m'|err] eqn:E; [|done].
  rewrite (Hfiles _ _ _ E). destruct (String.eqb inlineValues ""); [done|].
  by destruct (Unmarshal inlineValues) as [tmp [err|]].
Qed.

Lemma canonical_json_map m : canonical_json (VMap m) =
  (λ es, json_array (map entry_object (sort_slice key_before es))) <$>
  mapM (λ kv, (λ e, (fst kv, e)) <$> canonical_json (snd kv)) m.
Proof.
  simpl. apply (f_equal (fmap _)). induction m as [|[k v] m IH]; simpl; [done|]. rewrite IH.
  by destruct (canonical_json v), (mapM _ m).
Qed.
(** The values text of any map is a list, and never the mapping a values file holds. *)
Lemma sortedJSON_is_a_list m bytes : sortedJSON m = inl bytes → ∃ rest, bytes = "[" +:+ rest.
Proof.
  unfold sortedJSON. rewrite canonical_json_map. destruct (mapM _ _) as [es|]; simpl; [|done].
  intros [= <-]. unfold json_array. eauto.
Qed.
End layers.

(** A chart with defaults and one more file, and documents the decoder knows. *)
Definition some_read (path : string) : file :=
  if String.eqb path "/c/values.yaml" then Bytes "defaults"
  else if String.eqb path "/c/prod.yaml" then Bytes "prod" else Absent.
Definition some_unmarshal (b : string) : raw * option string :=
  if String.eqb b "defaults" then (Some [("image", VMap [("tag", VStr "v1"); ("pull", VBool true)])], None)
  else if String.eqb b "prod" then (Some [("image", VMap [("tag", VStr "v2")]); ("replicas", VInt 3)], None)
  else (None, Some "yaml: unknown document").
Lemma mergeValuesBytes_MergedValues_witness :
  sortedJSON (λ _, "0") (λ _, None)
    (MergedValues some_read some_unmarshal "/c" ["prod.yaml"; "none.yaml"] (Some [("name", VStr "web")]) "") =
  mergeValuesBytes some_read some_unmarshal (λ _, "0") (λ _, None) "/c" ["prod.yaml"; "none.yaml"]
    (Some [("name", VStr "web")]) "".
Proof.
  destruct (mergeValuesBytes some_read some_unmarshal (λ _, "0") (λ _, None) "/c" ["prod.yaml"; "none.yaml"]
    (Some [("name", VStr "web")]) "") as [bytes|err] eqn:E; [|vm_compute in E; discriminate E].
  apply (mergeValuesBytes_MergedValues some_read some_unmarshal (λ _, "0") (λ _, None) "/c" ["prod.yaml"; "none.yaml"]
    (Some [("name", VStr "web")]) "" bytes E).
Defined.
