(* ===== verification/Renderer.v ===== *)
(** The renderers (src/pkg/renderer): chart resolution, the two-tier render cache,
    the helm and kustomize invocations around it, and the double render that looks
    for output that is not deterministic.

    The external binaries are a parameter that threads the state [W] of whatever
    they depend on, so that two runs may differ; so are the directory digest, the
    probe of a binary, and the temporary file.  Times are nanoseconds. *)
From Stdlib Require Import ZArith Floats.SpecFloat.
From S2P Require Import Prelude GoStrings Yaml Types Sha256 Json Schemas Values.

#[local] Open Scope string_scope.
#[local] Open Scope list_scope.

(** An error: its message, and whether it wraps the "binary absent" sentinel. *)
Record RenderError : Type := MkRenderError { re_msg : string; re_absent : bool }.
#[local] Notation Result A := (A + RenderError)%type.
Definition plain_error (msg : string) : RenderError := MkRenderError msg false.
#[export] Instance RenderError_eq_dec : EqDecision RenderError.
Proof. solve_decision. Defined.

(** ** Charts *)

(** None is ErrRemoteChart. *)
Definition ResolveChart (src : ArgoSource) (cwd : string) : option string :=
  if String.eqb (as_Path src) "" then None
  else if is_abs (as_Path src) then Some (path_clean (as_Path src))
  else Some (path_clean (path_join [cwd; as_Path src])).

(** ** The render cache *)

Definition DefaultTTL : Z := (15 * 60 * 1000000000)%Z.
(** The memory tier holds the bytes and when they were rendered; the disk tier is the
    files of DiskDir by name (the keys are hex digests), with their modification
    times. *)
Notation tier := (gmap string (string * Z)).
Record RenderCache : Type := MkRenderCache { rc_DiskDir : string; rc_mem : tier; rc_disk : tier }.
Definition fresh (now rendered : Z) : bool := (now - rendered <? DefaultTTL)%Z.
(** [readable]: whether reading a file that is there succeeds; looking at it and removing
    it do. *)
Definition get_from_disk (readable : string → bool) (now : Z) (key : string) (c : RenderCache) :
    option string * RenderCache :=
  if String.eqb (rc_DiskDir c) "" then (None, c)
  else match rc_disk c !! key with
       | None => (None, c)
       | Some (data, mtime) =>
           if negb (fresh now mtime) then (None, {| c with rc_disk := delete key (rc_disk c) |})
           else if readable key
                then (Some data, {| c with rc_mem := <[key := (data, mtime)]> (rc_mem c) |})
                else (None, c)
       end.
Definition RenderCache_Get (readable : string → bool) (now : Z) (key : string) (c : RenderCache) :
    option string * RenderCache :=
  match rc_mem c !! key with
  | Some (data, rendered) =>
      if fresh now rendered then (Some data, c)
      else get_from_disk readable now key {| c with rc_mem := delete key (rc_mem c) |}
  | None => get_from_disk readable now key c
  end.
(** [written]: None when the file is written; otherwise what the failed write leaves
    of it. *)
Definition RenderCache_Put (written : option (option (string * Z))) (now : Z) (key data : string) (c : RenderCache) :
    RenderCache :=
  let c := {| c with rc_mem := <[key := (data, now)]> (rc_mem c) |} in
  if String.eqb (rc_DiskDir c) "" then c
  else match written with
       | None => {| c with rc_disk := <[key := (data, now)]> (rc_disk c) |}
       | Some rest => {| rc_DiskDir := ""; rc_mem := rc_mem c;
                         rc_disk := match rest with Some f => <[key := f]> (rc_disk c)
                                                  | None => delete key (rc_disk c) end |}
       end.

(** *** What the cache answers *)

Inductive cache_op : Type :=
  | OGet (key : string) (readable : string → bool)
  | OPut (key data : string) (written : option (option (string * Z)))
  | OWait (dt : Z).
(** One operation of a process, at its time. *)
Definition cache_step (st : Z * RenderCache) (op : cache_op) : Z * RenderCache :=
  let '(now, c) := st in
  match op with
  | OGet key readable => (now, snd (RenderCache_Get readable now key c))
  | OPut key data written => (now, RenderCache_Put written now key data c)
  | OWait dt => ((now + Z.max 0 dt)%Z, c)
  end.
(** What was last put under a key, and when: before the process, what is on disk. *)
Definition last_step (st : Z * (string → option (string * Z))) (op : cache_op) : Z * (string → option (string * Z)) :=
  let '(now, last) := st in
  match op with
  | OGet _ _ => st
  | OPut key data _ => (now, λ k, if String.eqb k key then Some (data, now) else last k)
  | OWait dt => ((now + Z.max 0 dt)%Z, last)
  end.
(** Both tiers hold the last bytes put under each key. *)
Definition cache_inv (last : string → option (string * Z)) (c : RenderCache) : Prop :=
  (∀ key e, rc_mem c !! key = Some e → last key = Some e) ∧
  (rc_DiskDir c ≠ "" → ∀ key e, rc_disk c !! key = Some e → last key = Some e).

Lemma get_from_disk_inv readable now key c last : cache_inv last c →
  cache_inv last (snd (get_from_disk readable now key c)) ∧
  ∀ data, fst (get_from_disk readable now key c) = Some data →
    ∃ t, last key = Some (data, t) ∧ fresh now t = true.
Proof.
  intros [Hm Hd]. unfold get_from_disk. destruct (String.eqb_spec (rc_DiskDir c) "") as [|Hdir]; [by split|].
  specialize (Hd Hdir). destruct (rc_disk c !! key) as [[data mtime]|] eqn:E; [|by split].
  destruct (fresh now mtime) eqn:Ef; cbn [negb].
  - destruct (readable key); [|by split]. split; [|intros d [= ->]; eauto]. split; [|done].
    intros k e. simpl. destruct (decide (key = k)) as [<-|Hk]; [rewrite lookup_insert_eq|rewrite lookup_insert_ne by done; apply Hm].
    intros [= <-]. by apply Hd.
  - split; [|done]. split; [done|]. simpl. intros _ k e. destruct (decide (key = k)) as [<-|Hk];
      [by rewrite lookup_delete_eq|rewrite lookup_delete_ne by done; apply Hd].
Qed.
Lemma Get_inv readable now key c last : cache_inv last c →
  cache_inv last (snd (RenderCache_Get readable now key c)) ∧
  ∀ data, fst (RenderCache_Get readable now key c) = Some data →
    ∃ t, last key = Some (data, t) ∧ fresh now t = true.
Proof.
  intros Hi. pose proof Hi as [Hm Hd]. unfold RenderCache_Get.
  destruct (rc_mem c !! key) as [[data t]|] eqn:E; [|by apply get_from_disk_inv].
  destruct (fresh now t) eqn:Ef.
  - split; [done|]. intros d [= <-]. eauto.
  - apply get_from_disk_inv. split; [|done]. intros k e. simpl. destruct (decide (key = k)) as [<-|Hk];
      [by rewrite lookup_delete_eq|rewrite lookup_delete_ne by done; apply Hm].
Qed.
Lemma Put_inv written now key data c last : cache_inv last c →
  cache_inv (λ k, if String.eqb k key then Some (data, now) else last k) (RenderCache_Put written now key data c).
Proof.
  intros [Hm Hd]. assert (Hins : ∀ t : tier, (∀ k e, t !! k = Some e → last k = Some e) →
    ∀ k e, <[key := (data, now)]> t !! k = Some e → (if String.eqb k key then Some (data, now) else last k) = Some e).
  { intros t Ht k e. destruct (String.eqb_spec k key) as [->|Hk]; [by rewrite lookup_insert_eq|].
    rewrite lookup_insert_ne by done. apply Ht. }
  unfold RenderCache_Put; cbn [rc_DiskDir]. destruct (String.eqb_spec (rc_DiskDir c) "") as [Hdir|Hdir].
  - split; simpl; [by apply Hins|done].
  - destruct written; (split; simpl; [by apply Hins|]); [done|]. intros _. by apply Hins, Hd.
Qed.

(** C22: Whatever a process puts, gets and waits, and whichever reads and writes of the
    directory fail, an answer of the cache is the last bytes put under the key (or
    those the directory held before) and less than the time to live old. *)
Theorem cache_answers_last now0 c0 ops readable key data :
  rc_mem c0 = ∅ →
  let st := foldl cache_step (now0, c0) ops in
  let last := foldl last_step (now0, λ k, rc_disk c0 !! k) ops in
  fst (RenderCache_Get readable (fst st) key (snd st)) = Some data →
  ∃ t, snd last key = Some (data, t) ∧ (fst st - t < DefaultTTL)%Z.
Proof.
  intros Hmem. cbn zeta. assert (H : fst (foldl cache_step (now0, c0) ops) = fst (foldl last_step (now0, λ k, rc_disk c0 !! k) ops) ∧
    cache_inv (snd (foldl last_step (now0, λ k, rc_disk c0 !! k) ops)) (snd (foldl cache_step (now0, c0) ops))).
  { induction ops as [|op ops IH] using rev_ind.
    - split; [done|]. split; simpl; [by intros k e; rewrite Hmem, lookup_empty|done].
    - rewrite !foldl_snoc. destruct (foldl cache_step (now0, c0) ops) as [now c], (foldl last_step _ ops) as [now' last].
      simpl in IH. destruct IH as [<- Hi]. destruct op as [k r|k d w|dt]; simpl; (split; [done|]).
      + by apply Get_inv.
      + by apply Put_inv.
      + done. }
  destruct H as [_ Hi]. intros Hg. destruct (Get_inv readable (fst (foldl cache_step (now0, c0) ops)) key _ _ Hi) as [_ H].
  destruct (H data Hg) as (t & Hl & Hf). exists t. split; [done|]. by apply Z.ltb_lt.
Qed.

Definition some_ops : list cache_op :=
  [OPut "a" "one" None; OWait 900000000000; OGet "a" (λ _, true); OPut "a" "two" (Some None); OWait 5].
Definition some_cache : RenderCache := MkRenderCache "/cache" ∅ {["b" := ("old", 0%Z)]}.
Lemma cache_answers_last_witness : ∃ t,
  snd (foldl last_step (0%Z, λ k, rc_disk some_cache !! k) some_ops) "a" = Some ("two", t) ∧
  (fst (foldl cache_step (0%Z, some_cache) some_ops) - t < DefaultTTL)%Z.
Proof. apply (cache_answers_last 0 some_cache some_ops (λ _, true) "a" "two"); vm_compute; reflexivity. Defined.

(** ** Running a renderer *)

Definition sha256_hex (data : string) : string := str_drop (String.length "sha256:") (hashBytes data).
Definition field_line (name value : string) : string := name +:+ ":" +:+ value +:+ nl.
Record CacheKeyInput : Type := MkCacheKeyInput {
  ck_ChartDirDigest : string; ck_ValuesBytes : string; ck_HelmVersion : string;
  ck_ReleaseName : string; ck_Namespace : string }.
Definition Key (i : CacheKeyInput) : string :=
  sha256_hex (field_line "chart" (ck_ChartDirDigest i) +:+ field_line "helm" (ck_HelmVersion i) +:+
    field_line "release" (ck_ReleaseName i) +:+ field_line "ns" (ck_Namespace i) +:+ "values:" +:+ ck_ValuesBytes i).
Definition kustomizeKey (treeDigest version : string) (kustSrc : option ArgoKustomizeSource) : string :=
  let pairs name (m : gmap string string) := String.concat "" (map (λ k, name +:+ ":" +:+ k +:+ "=" +:+ default "" (m !! k) +:+ nl)
    (sort_slice str_lt (map_to_list m).*1)) in
  sha256_hex (field_line "tree" treeDigest +:+ field_line "kustomize" version +:+
    match kustSrc with
    | None => ""
    | Some k => field_line "namePrefix" (ks_NamePrefix k) +:+ field_line "nameSuffix" (ks_NameSuffix k) +:+
        String.concat "" (map (field_line "image") (sort_slice str_lt (ks_Images k))) +:+
        pairs "label" (ks_CommonLabels k) +:+ pairs "annotation" (ks_CommonAnnotations k)
    end).
(** The parts in the order of their digests; of parts with one digest, the last. *)
Definition compositionKey (version : string) (parts : list string) : string :=
  let byHash := foldl (λ m p, <[sha256_hex p := p]> m) (∅ : gmap string string) parts in
  let part k := let p := default "" (byHash !! k) in
    "part:" +:+ itoa (Z.of_nat (String.length p)) +:+ ":" +:+ p +:+ String (byte 0) "" in
  sha256_hex (field_line "crossplane" version +:+ String.concat "" (map part (sort_slice str_lt (map sha256_hex parts)))).

Definition maxTail : nat := 4096.
Definition subprocessErrTail (stdout stderr : string) : string :=
  let pick := trim_space stderr in
  let pick := if String.eqb pick "" then trim_space stdout else pick in
  if String.eqb pick "" then "(no output)"
  else if Nat.ltb maxTail (String.length pick)
  then "..." +:+ str_drop (String.length pick - maxTail) pick else pick.

(** A run of a binary that failed. *)
Record failure : Type := MkFailure { f_err : string; f_stdout : string; f_stderr : string }.

Section renderers.
Context {W : Type} (clock : W → Z) (readable : string → bool).
(** The binary, its arguments, and the contents of the temporary values file. *)
Context (run : string → list string → option string → W → (string + failure) * W).
(** The outcome of each probe: the binary and its version. *)
Context (helm kustomize crossplane : Result (string * string)).
(** [HashChartDir] and [HashKustomizeDir]; the temporary file's path. *)
Context (hash_dir : string → option string) (temp_file : Result string).
(** What writing the cache's file under a key does. *)
Context (cache_write : string → W → option (option (string * Z))).
Context (read : string → file) (Unmarshal : string → raw * option string).
Context (fmt_float : spec_float → string) (other : string → option string).

(** The cache of a renderer, if it has one, and the world around it. *)
Notation state := (option RenderCache * W)%type.

(** A cached computation: the answer of the cache, or the work and its result put. *)
Definition with_cache (key : option string) (work : W → Result string * W) (st : state) : Result string * state :=
  let '(cache, w) := st in
  match cache, key with
  | Some c, Some key =>
      match RenderCache_Get readable (clock w) key c with
      | (Some data, c) => (inl data, (Some c, w))
      | (None, c) =>
          match work w with
          | (inr err, w) => (inr err, (Some c, w))
          | (inl out, w) => (inl out, (Some (RenderCache_Put (cache_write key w) (clock w) key out c), w))
          end
      end
  | _, _ => let '(r, w) := work w in (r, (cache, w))
  end.
Definition run_tool (bin : string) (args : list string) (values : option string) (error : failure → string) (w : W) :
    Result string * W :=
  match run bin args values w with
  | (inl out, w) => (inl out, w)
  | (inr f, w) => (inr (plain_error (error f)), w)
  end.

(** *** Helm *)

Definition release_name (helmSrc : option ArgoHelmSource) : string :=
  match helmSrc with
  | Some h => if String.eqb (hs_ReleaseName h) "" then "release" else hs_ReleaseName h
  | None => "release"
  end.
Definition helm_files (helmSrc : option ArgoHelmSource) : list string :=
  match helmSrc with Some h => hs_ValueFiles h | None => [] end.
Definition helm_object (helmSrc : option ArgoHelmSource) : raw :=
  match helmSrc with Some h => hs_ValuesObject h | None => None end.
Definition helm_inline (helmSrc : option ArgoHelmSource) : string :=
  match helmSrc with Some h => hs_Values h | None => "" end.
Definition set_args (helmSrc : option ArgoHelmSource) : list string :=
  match helmSrc with
  | Some h => flat_map (λ p, if String.eqb (hp_Name p) "" then []
                             else ["--set"; hp_Name p +:+ "=" +:+ hp_Value p]) (hs_Parameters h)
  | None => []
  end.
Definition own_values (helmSrc : option ArgoHelmSource) : bool :=
  match helm_object helmSrc with Some (_ :: _) => true | _ => negb (String.eqb (helm_inline helmSrc) "") end.
Definition helm_args (chartPath : string) (helmSrc : option ArgoHelmSource) (namespace : string) (tmp : list string) :
    list string :=
  ["template"; release_name helmSrc; chartPath] ++
  (if String.eqb namespace "" then [] else ["--namespace"; namespace]) ++
  flat_map (λ f, ["-f"; resolve_values chartPath f]) (helm_files helmSrc) ++ tmp ++ set_args helmSrc.
Definition helm_error (chartPath : string) (f : failure) : string :=
  "helm template " +:+ chartPath +:+ " failed: " +:+ f_err f +:+ ": " +:+ subprocessErrTail (f_stdout f) (f_stderr f).
(** The merged values go to a temporary file when the Application has its own. *)
Definition helm_template (bin chartPath : string) (helmSrc : option ArgoHelmSource) (namespace values : string) (w : W) :
    Result string * W :=
  if own_values helmSrc then
    match temp_file with
    | inr err => (inr err, w)
    | inl path => run_tool bin (helm_args chartPath helmSrc namespace ["-f"; path]) (Some values) (helm_error chartPath) w
    end
  else run_tool bin (helm_args chartPath helmSrc namespace []) None (helm_error chartPath) w.
Definition chart_values (chartPath : string) (helmSrc : option ArgoHelmSource) : string + string :=
  mergeValuesBytes read Unmarshal fmt_float other chartPath (helm_files helmSrc) (helm_object helmSrc) (helm_inline helmSrc).
Definition RenderChart (chartPath : string) (helmSrc : option ArgoHelmSource) (namespace : string) (st : state) :
    Result string * state :=
  match helm with
  | inr err => (inr err, st)
  | inl (bin, version) =>
      match chart_values chartPath helmSrc with
      | inr err => (inr (plain_error err), st)
      | inl values =>
          let key := (λ digest, Key (MkCacheKeyInput digest values version (release_name helmSrc) namespace)) <$>
                       hash_dir chartPath in
          with_cache key (helm_template bin chartPath helmSrc namespace values) st
      end
  end.
Definition Render_helm (src : ArgoSource) (workdir : string) (st : state) : Result string * state :=
  if negb (String.eqb (as_Renderer src) "helm") then
    (inr (plain_error ("renderer: unsupported source kind: expected helm, got " +:+ as_Renderer src)), st)
  else match ResolveChart src workdir with
       | None => (inr (plain_error "renderer: remote chart (no path)"), st)
       | Some chartPath => RenderChart chartPath (as_Helm src) "" st
       end.

(** *** Kustomize *)

Definition kustomize_error (overlayPath : string) (f : failure) : string :=
  "kustomize build " +:+ overlayPath +:+ " failed: " +:+ f_err f +:+ ": " +:+ subprocessErrTail (f_stdout f) (f_stderr f).
Definition RenderOverlay (overlayPath : string) (kustSrc : option ArgoKustomizeSource) (st : state) :
    Result string * state :=
  match kustomize with
  | inr err => (inr err, st)
  | inl (bin, version) =>
      with_cache ((λ digest, kustomizeKey digest version kustSrc) <$> hash_dir overlayPath)
        (run_tool bin ["build"; overlayPath] None (kustomize_error overlayPath)) st
  end.
Definition Render_kustomize (src : ArgoSource) (workdir : string) (st : state) : Result string * state :=
  if negb (String.eqb (as_Renderer src) "kustomize") then
    (inr (plain_error ("renderer: unsupported source kind: expected kustomize, got " +:+ as_Renderer src)), st)
  else match ResolveChart src workdir with
       | None => (inr (plain_error "renderer: remote chart (no path)"), st)
       | Some overlayPath => RenderOverlay overlayPath (as_Kustomize src) st
       end.

(** *** Rendering twice *)

(** [s[lo:hi]]: a run-time panic out of range. *)
Definition str_slice (s : string) (lo hi : Z) : option string :=
  if ((0 <=? lo) && (lo <=? hi) && (hi <=? Z.of_nat (String.length s)))%Z
  then Some (str_take (Z.to_nat (hi - lo)) (str_drop (Z.to_nat lo) s)) else None.
(** The first position where two texts differ, from position [i] on. *)
Fixpoint first_diff (i : Z) (a b : string) : option Z :=
  match a, b with
  | String x a, String y b => if Ascii.eqb x y then first_diff (i + 1) a b else Some i
  | _, _ => None
  end.
Definition summarizeDiff (a b : string) : option string :=
  let la := Z.of_nat (String.length a) in
  let lb := Z.of_nat (String.length b) in
  if negb (la =? lb)%Z then
    Some ("outputs differ in length: " +:+ itoa la +:+ " vs " +:+ itoa lb +:+ " bytes")
  else match first_diff 0 a b with
       | None => Some "outputs differ (summary unavailable)"
       | Some i =>
           let lo := Z.max 0 (i - 16) in
           let hi := Z.min la (i + 16) in
           match str_slice a lo hi, str_slice b lo hi with
           | Some x, Some y =>
               Some ("outputs differ at byte " +:+ itoa i +:+ ": " +:+ quote x +:+ " vs " +:+ quote y)
           | _, _ => None
           end
       end.
(** Both outputs, or the error of the first render that failed; no cache. *)
Definition render_twice (render : state → Result string * state) (w : W) : Result (string * string) * W :=
  match render (None, w) with
  | (inr err, (_, w)) => (inr err, w)
  | (inl a, (_, w)) => match render (None, w) with
                       | (inr err, (_, w)) => (inr err, w)
                       | (inl b, (_, w)) => (inl (a, b), w)
                       end
  end.
(** The mismatch and its summary. *)
Definition double_render (render : state → Result string * state) (w : W) : Result (bool * option string) * W :=
  match render_twice render w with
  | (inr err, w) => (inr err, w)
  | (inl (a, b), w) => (inl (if String.eqb a b then (false, Some "") else (true, summarizeDiff a b)), w)
  end.
Definition DoubleRenderHelm (chartPath namespace : string) (helmSrc : option ArgoHelmSource) :
    W → Result (bool * option string) * W := double_render (RenderChart chartPath helmSrc namespace).
Definition DoubleRenderKustomize (overlayPath : string) (kustSrc : option ArgoKustomizeSource) :
    W → Result (bool * option string) * W := double_render (RenderOverlay overlayPath kustSrc).

(** *** Compositions *)

Definition CompositionRenderTimeout : string := "30s".
(** [timed_out]: whether the run reached its deadline. *)
Definition crossplane_error (timed_out : bool) (f : failure) : string :=
  if timed_out then "crossplane render: timed out after " +:+ CompositionRenderTimeout
  else "crossplane render: " +:+ f_err f +:+ ": " +:+ trim_space (f_stderr f).
(** The three inputs are written to a directory of their own: [render_in] is the
    binary run there. *)
Definition CompositionRender (render_in : string → string → string → string → W → (string + (bool * failure)) * W)
    (temp_dir : Result ()) (xrYAML compYAML fnsYAML : string) (st : state) : Result string * state :=
  match crossplane with
  | inr err => (inr err, st)
  | inl (bin, version) =>
      with_cache (Some (compositionKey version [xrYAML; compYAML; fnsYAML]))
        (λ w, match temp_dir with
              | inr err => (inr err, w)
              | inl _ => match render_in bin xrYAML compYAML fnsYAML w with
                         | (inl out, w) => (inl out, w)
                         | (inr (late, f), w) => (inr (plain_error (crossplane_error late f)), w)
                         end
              end) st
  end.
End renderers.

(** ** Values schemas and error kinds *)

(** [show] prints a value in a message, as in Schemas.v.  A schema that does not decode is an error; [None] inside is a panic of the walk. *)
Definition ValidateValues (show : value → string) (decode : string → raw + string) (schemaJSON : string) (values : raw) :
    option (list ValuesIssue) + string :=
  if String.eqb schemaJSON "" then inl (Some [])
  else match decode schemaJSON with
       | inr err => inr ("parsing values.schema.json: " +:+ err)
       | inl schema =>
           inl (map (λ f, MkValuesIssue (rf_Path f) (rf_Message f)) <$> ValidateManifest show schema values)
       end.
Definition deadline (msg : string) : bool := contains msg "context deadline exceeded" || contains msg "timed out".
(** The builder's classification of a render error. *)
Definition classifyRenderError (err : RenderError) : string :=
  if re_absent err then "helm-absent"
  else if deadline (re_msg err) then "helm-timeout"
  else if contains (re_msg err) "helm template" then "helm-template-failed" else "other".
Definition classifyKustomizeError (err : RenderError) : string :=
  if re_absent err then "kustomize-absent"
  else if deadline (re_msg err) then "kustomize-timeout"
  else if contains (re_msg err) "kustomize build" then "kustomize-build-failed" else "other".
Definition ClassifyCompositionError (err : RenderError) : string :=
  if re_absent err then "crossplane-absent"
  else if contains (re_msg err) "timed out" then "crossplane-timeout" else "crossplane-render-failed".

(** ** Slices of a summary *)

Lemma length_str_drop n s : String.length (str_drop n s) = (String.length s - n)%nat.
Proof. revert n. induction s as [|c s IH]; intros [|n]; simpl; auto. Qed.
Lemma length_str_take n s : String.length (str_take n s) = Nat.min n (String.length s).
Proof. revert n. induction s as [|c s IH]; intros [|n]; simpl; auto. Qed.
Lemma str_take_drop n s : str_take n s +:+ str_drop n s = s.
Proof. revert n. induction s as [|c s IH]; intros [|n]; simpl; [done..|]. by rewrite IH. Qed.
Lemma str_drop_add n m s : str_drop m (str_drop n s) = str_drop (n + m) s.
Proof. revert n. induction s as [|c s IH]; intros [|n]; simpl; [done|by destruct m|done|apply IH]. Qed.
Lemma first_diff_spec i a b : String.length a = String.length b →
  match first_diff i a b with
  | None => a = b
  | Some j => ∃ p x y sa sb, a = p +:+ String x sa ∧ b = p +:+ String y sb ∧ x ≠ y ∧
                             (j = i + Z.of_nat (String.length p))%Z
  end.
Proof.
  revert i b. induction a as [|x a IH]; intros i [|y b] Hl; simpl in *; try done.
  injection Hl as Hl. destruct (Ascii.eqb_spec x y) as [->|Hne].
  - specialize (IH (i + 1)%Z b Hl). destruct (first_diff (i + 1) a b) as [j|]; [|by rewrite IH].
    destruct IH as (p & x & z & sa & sb & -> & -> & Hn & ->). exists (String y p), x, z, sa, sb.
    split_and!; try done. simpl. lia.
  - exists "", x, y, a, b. split_and!; try done. simpl. lia.
Qed.
Lemma str_slice_in s lo hi : (0 <= lo <= hi)%Z → (hi <= Z.of_nat (String.length s))%Z →
  ∃ t, str_slice s lo hi = Some t ∧ Z.of_nat (String.length t) = (hi - lo)%Z ∧
       s = str_take (Z.to_nat lo) s +:+ t +:+ str_drop (Z.to_nat hi) s.
Proof.
  intros Hlo Hhi. unfold str_slice. exists (str_take (Z.to_nat (hi - lo)) (str_drop (Z.to_nat lo) s)). split_and!.
  - destruct (Z.leb_spec 0 lo), (Z.leb_spec lo hi), (Z.leb_spec hi (Z.of_nat (String.length s))); try lia. done.
  - rewrite length_str_take, length_str_drop. lia.
  - replace (Z.to_nat hi) with (Z.to_nat lo + Z.to_nat (hi - lo))%nat by lia.
    by rewrite <- str_drop_add, !str_take_drop.
Qed.
(** C30: The summary of a mismatch is always made: for different outputs of one length
    it gives the first differing position and, of each output, the bytes from at
    most 16 before it to at most 16 from it, within bounds and covering it; the
    fallback text is never used. *)
Theorem summarizeDiff_in_bounds a b : a ≠ b →
  (String.length a ≠ String.length b ∧
   summarizeDiff a b = Some ("outputs differ in length: " +:+ itoa (Z.of_nat (String.length a)) +:+ " vs " +:+
     itoa (Z.of_nat (String.length b)) +:+ " bytes")) ∨
  (String.length a = String.length b ∧ ∃ p x y sa sb pa wa qa pb wb qb,
     a = p +:+ String x sa ∧ b = p +:+ String y sb ∧ x ≠ y ∧
     summarizeDiff a b = Some ("outputs differ at byte " +:+ itoa (Z.of_nat (String.length p)) +:+ ": " +:+
       quote wa +:+ " vs " +:+ quote wb) ∧
     a = pa +:+ wa +:+ qa ∧ b = pb +:+ wb +:+ qb ∧ String.length pa = String.length pb ∧
     String.length wa = String.length wb ∧ (String.length pa <= String.length p < String.length pa + String.length wa)%nat ∧
     (String.length wa <= 32)%nat).
Proof.
  intros Hne. unfold summarizeDiff. destruct (Z.eqb_spec (Z.of_nat (String.length a)) (Z.of_nat (String.length b))) as [Hl|Hl];
    [right|left; split; [lia|done]]. split; [lia|]. cbn [negb].
  pose proof (first_diff_spec 0 a b ltac:(lia)) as H. destruct (first_diff 0 a b) as [j|]; [|done].
  destruct H as (p & x & y & sa & sb & Ea & Eb & Hxy & ->). rewrite Z.add_0_l.
  set (i := Z.of_nat (String.length p)). set (lo := Z.max 0 (i - 16)). set (hi := Z.min (Z.of_nat (String.length a)) (i + 16)).
  assert (Hi : (0 <= i < Z.of_nat (String.length a))%Z).
  { subst i. rewrite Ea, length_app_str. simpl. lia. }
  destruct (str_slice_in a lo hi) as (wa & Wa & La & Sa); [lia..|].
  destruct (str_slice_in b lo hi) as (wb & Wb & Lb & Sb); [lia..|]. rewrite Wa, Wb.
  exists p, x, y, sa, sb, (str_take (Z.to_nat lo) a), wa, (str_drop (Z.to_nat hi) a),
    (str_take (Z.to_nat lo) b), wb, (str_drop (Z.to_nat hi) b).
  rewrite !length_str_take. split_and!; try done; lia.
Qed.
Lemma summarizeDiff_in_bounds_witness :
  let a := "replicas: 3, password: abcdefgh, image: web" in
  let b := "replicas: 3, password: abcdzfgh, image: web" in
  ∃ n wa wb, summarizeDiff a b = Some ("outputs differ at byte " +:+ itoa n +:+ ": " +:+ quote wa +:+ " vs " +:+ quote wb) ∧
    (String.length wa <= 32)%nat.
Proof.
  destruct (summarizeDiff_in_bounds "replicas: 3, password: abcdefgh, image: web"
    "replicas: 3, password: abcdzfgh, image: web" ltac:(discriminate))
    as [[Hl _]|(_ & p & x & y & sa & sb & pa & wa & qa & pb & wb & qb & Ea & Eb & Hxy & Es & _ & _ & _ & _ & _ & Hw)].
  - by destruct Hl.
  - exists (Z.of_nat (String.length p)), wa, wb. split; [exact Es|exact Hw].
Defined.

(** ** What the cache does to renders *)

Section cached.
Context {W : Type} (clock : W → Z) (readable : string → bool).
Context (run : string → list string → option string → W → (string + failure) * W).
Context (helm : Result (string * string)) (hash_dir : string → option string) (temp_file : Result string).
Context (cache_write : string → W → option (option (string * Z))).
Context (read : string → file) (Unmarshal : string → raw * option string).
Context (fmt_float : spec_float → string) (other : string → option string).
#[local] Notation render := (RenderChart clock readable run helm hash_dir temp_file cache_write read Unmarshal fmt_float other).
#[local] Notation values := (chart_values read Unmarshal fmt_float other).
#[local] Notation cached := (with_cache clock readable cache_write).

(** After an answer the memory tier holds it, fresh. *)
Lemma with_cache_holds key work c w out c' w' : (∀ w, (clock w ≤ clock (snd (work w)))%Z) →
  cached (Some key) work (Some c, w) = (inl out, (c', w')) →
  ∃ c0 t, c' = Some c0 ∧ rc_mem c0 !! key = Some (out, t) ∧ fresh (clock w') t = true.
Proof.
  intros Hclock. unfold with_cache. assert (Hd : ∀ c1 d c2, get_from_disk readable (clock w) key c1 = (Some d, c2) →
    ∃ t, rc_mem c2 !! key = Some (d, t) ∧ fresh (clock w) t = true).
  { intros c1 d c2. unfold get_from_disk. destruct (String.eqb (rc_DiskDir c1) ""); [done|].
    destruct (rc_disk c1 !! key) as [[e t]|]; [|done]. destruct (fresh (clock w) t) eqn:Ef; [|done]. cbn [negb].
    destruct (readable key); [|done]. intros [= <- <-]. exists t. simpl. by rewrite lookup_insert_eq. }
  assert (Hp : ∀ cw now d c1, rc_mem (RenderCache_Put cw now key d c1) !! key = Some (d, now)).
  { intros cw now d c1. unfold RenderCache_Put. cbn [rc_DiskDir].
    destruct (String.eqb (rc_DiskDir c1) ""); [|destruct cw]; simpl; by rewrite lookup_insert_eq. }
  assert (Hz : ∀ z, fresh z z = true) by (intros z; unfold fresh; rewrite Z.sub_diag; reflexivity).
  unfold RenderCache_Get. destruct (rc_mem c !! key) as [[d t]|] eqn:E; [destruct (fresh (clock w) t) eqn:Ef|].
  { intros [= <- <- <-]. eauto. }
  all: destruct (get_from_disk _ _ _ _) as [[d'|] c1] eqn:Eg;
    [intros [= <- <- <-]; destruct (Hd _ _ _ Eg) as (t' & ? & ?); eauto|];
    destruct (work w) as [[o|err] w1]; intros [= <- <- <-]; eauto 10.
Qed.
Lemma with_cache_hit key work c w out t : rc_mem c !! key = Some (out, t) → fresh (clock w) t = true →
  cached (Some key) work (Some c, w) = (inl out, (Some c, w)).
Proof. intros Hm Hf. unfold with_cache, RenderCache_Get. by rewrite Hm, Hf. Qed.

(** What a chart rendered to is given again, and helm is not run, for any source
    with the same chart directory, values text, release name and namespace, whatever
    its --set parameters are: they are not part of the key. *)
Theorem RenderChart_again chart1 chart2 h1 h2 namespace c w out c' w' digest bytes :
  hash_dir chart1 = Some digest → hash_dir chart2 = Some digest →
  values chart1 h1 = inl bytes → values chart2 h2 = inl bytes → release_name h1 = release_name h2 →
  (∀ bin args v w, (clock w ≤ clock (snd (run bin args v w)))%Z) →
  render chart1 h1 namespace (Some c, w) = (inl out, (c', w')) →
  render chart2 h2 namespace (c', w') = (inl out, (c', w')).
Proof.
  intros H1 H2 V1 V2 Hr Hclock. unfold RenderChart. destruct helm as [[bin version]|err]; [|done].
  rewrite H1, H2, V1, V2, Hr. cbn [fmap option_fmap option_map]. intros H. apply with_cache_holds in H as (c0 & t & -> & Hm & Hf).
  - by apply (with_cache_hit _ _ _ _ _ t).
  - intros w0. assert (Ht : ∀ args v e, (clock w0 ≤ clock (snd (run_tool run bin args v e w0)))%Z).
    { intros args v e. specialize (Hclock bin args v w0). unfold run_tool. by destruct (run bin args v w0) as [[]]. }
    unfold helm_template. destruct (own_values h1); [|apply Ht]. destruct temp_file; [apply Ht|]. simpl. lia.
Qed.
End cached.

(** Two sources that differ in one parameter, and a binary that echoes its arguments. *)
Definition echo_run (bin : string) (args : list string) (v : option string) (w : Z) : (string + failure) * Z :=
  (inl (join " " args), (w + 1)%Z).
Definition with_param (v : string) : option ArgoHelmSource :=
  Some {| zero_ArgoHelmSource with hs_Parameters := [MkArgoHelmParam "tag" v] |}.
#[local] Notation echo_render := (RenderChart id (λ _, true) echo_run (inl ("helm", "v3")) (λ _, Some "d") (inl "/tmp/v")
  (λ _ _, None) (λ _, Absent) (λ _, (None, None)) (λ _, "0") (λ _, None)).
Lemma RenderChart_again_witness : ∃ c',
  echo_render "/c" (with_param "v1") "prod" (Some (MkRenderCache "" ∅ ∅), 0%Z) =
    (inl "template release /c --namespace prod --set tag=v1", (c', 1%Z)) ∧
  echo_render "/c" (with_param "v2") "prod" (c', 1%Z) =
    (inl "template release /c --namespace prod --set tag=v1", (c', 1%Z)).
Proof.
  eexists. assert (H : ∀ c', echo_render "/c" (with_param "v1") "prod" (Some (MkRenderCache "" ∅ ∅), 0%Z) =
    (inl "template release /c --namespace prod --set tag=v1", (c', 1%Z)) →
    echo_render "/c" (with_param "v1") "prod" (Some (MkRenderCache "" ∅ ∅), 0%Z) =
    (inl "template release /c --namespace prod --set tag=v1", (c', 1%Z)) ∧
    echo_render "/c" (with_param "v2") "prod" (c', 1%Z) =
    (inl "template release /c --namespace prod --set tag=v1", (c', 1%Z))).
  { intros c' H. split; [exact H|].
    apply (RenderChart_again id (λ _, true) echo_run (inl ("helm", "v3")) (λ _, Some "d") (inl "/tmp/v")
      (λ _ _, None) (λ _, Absent) (λ _, (None, None)) (λ _, "0") (λ _, None) "/c" "/c" (with_param "v1") (with_param "v2")
      "prod" (MkRenderCache "" ∅ ∅) 0%Z "template release /c --namespace prod --set tag=v1" c' 1%Z "d" "[]");
      [reflexivity..| |exact H].
    intros bin args v w. unfold echo_run, id. simpl. lia. }
  apply H. reflexivity.
Defined.
