(* ===== verification/Tools.v ===== *)
(** The renderers as the builder uses them: what a builder needs of helm, kustomize and
    crossplane as a class over the state they share, the download of remote charts
    (src/pkg/renderer/helm.go, PullRemote), and the instance that Renderer.v gives. *)
From Stdlib Require Import ZArith Floats.SpecFloat.
From S2P Require Import Prelude GoStrings Yaml Types Sha256 Json Schemas Values Renderer.

#[local] Open Scope string_scope.
#[local] Open Scope list_scope.

#[local] Notation Result A := (A + RenderError)%type.

(** ** The interface

    [S] is the state of the tools: the renderers built so far, with their caches, and
    whatever the binaries depend on.  [open_helm] and the like build the renderer on
    its first use.  The summary of a double render is None when making it panics. *)
Class Renderers (S : Type) : Type := {
  open_helm : S → S;
  open_kustomize : S → S;
  open_composition : S → S;
  helm_render : string → option ArgoHelmSource → string → S → Result string * S;
  kustomize_render : string → option ArgoKustomizeSource → S → Result string * S;
  composition_render : string → string → string → S → Result string * S;
  helm_twice : string → string → option ArgoHelmSource → S → Result (bool * option string) * S;
  kustomize_twice : string → option ArgoKustomizeSource → S → Result (bool * option string) * S;
  helm_pull : ArgoSource → S → (string + string) * S }.
(** What the builder relies on: a summary is always made, and is empty exactly when
    the two renders agree. *)
Definition summary_law (r : Result (bool * option string)) : Prop :=
  match r with
  | inl (mismatch, d) => ∃ summary, d = Some summary ∧ (mismatch = true ↔ summary ≠ "")
  | inr _ => True
  end.
Class RenderersLaws (S : Type) `{!Renderers S} : Prop := {
  helm_twice_law chart namespace h s : summary_law (fst (helm_twice chart namespace h s));
  kustomize_twice_law overlay k s : summary_law (fst (kustomize_twice overlay k s)) }.

(** ** Remote charts *)

(** The file system: an error is a message.  [fs_pull] runs helm and gives, of a
    failure, its error and combined output. *)
Record file_ops (W : Type) : Type := MkFileOps {
  fs_is_dir : string → W → bool;
  fs_mkdir_all : string → W → option string * W;
  fs_mkdir_temp : string → string → W → (string + string) * W;
  fs_remove_all : string → W → W;
  fs_pull : string → list string → W → option (string * string) * W;
  fs_read_dir : string → W → list (string * bool) + string;
  fs_rename : string → string → W → option string * W }.
Arguments fs_is_dir {W}. Arguments fs_mkdir_all {W}. Arguments fs_mkdir_temp {W}. Arguments fs_remove_all {W}.
Arguments fs_pull {W}. Arguments fs_read_dir {W}. Arguments fs_rename {W}.

Section pull.
Context {W : Type} (fs : file_ops W) (helm : Result (string * string)).

Definition chart_key (src : ArgoSource) : string :=
  as_RepoURL src +:+ "/" +:+ as_Chart src +:+ "/" +:+ as_TargetRevision src.
Definition chart_dir (cacheDir : string) (src : ArgoSource) : string :=
  path_join [cacheDir; "charts"; sha256_hex (chart_key src)].
Definition pull_args (src : ArgoSource) (tmp : string) : list string :=
  ["pull"; as_Chart src; "--repo"; as_RepoURL src; "--destination"; tmp; "--untar"] ++
  if String.eqb (as_TargetRevision src) "" then [] else ["--version"; as_TargetRevision src].
Definition pull_error (src : ArgoSource) (err output : string) : string :=
  "helm pull " +:+ as_Chart src +:+ " --repo " +:+ as_RepoURL src +:+
  (if String.eqb (as_TargetRevision src) "" then "" else " --version " +:+ as_TargetRevision src) +:+
  ": " +:+ err +:+ ":" +:+ nl +:+ trim_space output.
(** From the temporary directory on; the caller removes it. *)
Definition pull_into (cached tmp : string) (src : ArgoSource) (w : W) : (string + string) * W :=
  match helm with
  | inr err => (inr (re_msg err), w)
  | inl (bin, _) =>
      match fs_pull fs bin (pull_args src tmp) w with
      | (Some (err, output), w) => (inr (pull_error src err output), w)
      | (None, w) =>
          match fs_read_dir fs tmp w with
          | inr err => (inr ("reading helm pull tmp dir " +:+ tmp +:+ ": " +:+ err), w)
          | inl [(name, true)] =>
              let chartTmp := path_join [tmp; name] in
              match fs_rename fs chartTmp cached w with
              | (None, w) => (inl cached, w)
              | (Some err, w) =>
                  if fs_is_dir fs cached w then (inl cached, w)
                  else (inr ("rename " +:+ chartTmp +:+ " → " +:+ cached +:+ ": " +:+ err), w)
              end
          | inl entries =>
              (inr ("helm pull produced " +:+ itoa (Z.of_nat (length entries)) +:+ " entries in " +:+ tmp +:+
                    ", want exactly 1 untarred chart dir"), w)
          end
      end
  end.
Definition PullRemote (cacheDir : string) (src : ArgoSource) (w : W) : (string + string) * W :=
  if String.eqb cacheDir "" then
    (inr "remote charts require a configured ChartCacheDir (use --helm-cache-dir)", w)
  else if String.eqb (as_Chart src) "" then (inr "remote chart pull requires src.Chart to be set", w)
  else if String.eqb (as_RepoURL src) "" then (inr "remote chart pull requires src.RepoURL to be set", w)
  else
    let cached := chart_dir cacheDir src in
    if fs_is_dir fs cached w then (inl cached, w)
    else match fs_mkdir_all fs (path_join [cacheDir; "charts"]) w with
         | (Some err, w) => (inr err, w)
         | (None, w) =>
             let tmpRoot := path_join [cacheDir; "tmp"] in
             match fs_mkdir_all fs tmpRoot w with
             | (Some err, w) => (inr err, w)
             | (None, w) =>
                 match fs_mkdir_temp fs tmpRoot (sha256_hex (chart_key src) +:+ "-") w with
                 | (inr err, w) => (inr err, w)
                 | (inl tmp, w) =>
                     let '(r, w) := pull_into cached tmp src w in (r, fs_remove_all fs tmp w)
                 end
             end
         end.
End pull.

(** ** The instance *)

(** [NewCache]: the default directory below the home directory; none when it cannot
    be made.  [made]: whether making a directory succeeds. *)
Definition new_cache (home : option string) (made : string → bool) (kind diskDir : string) (disk : tier) : RenderCache :=
  let dir := if String.eqb diskDir "" then
               match home with Some h => path_join [h; ".cache"; "xpc"; kind] | None => "" end
             else diskDir in
  let dir := if String.eqb dir "" then "" else if made dir then dir else "" in
  MkRenderCache dir ∅ disk.

(** What the tools depend on, as the parameters of Renderer.v. *)
Record tool_env (W : Type) : Type := MkToolEnv {
  te_clock : W → Z; te_readable : string → bool;
  te_run : string → list string → option string → W → (string + failure) * W;
  te_helm : Result (string * string); te_kustomize : Result (string * string);
  te_crossplane : Result (string * string);
  te_hash_dir : string → option string; te_temp_file : Result string; te_temp_dir : Result ();
  te_render_in : string → string → string → string → W → (string + (bool * failure)) * W;
  te_cache_write : string → W → option (option (string * Z));
  te_read : string → file; te_unmarshal : string → raw * option string;
  te_fmt_float : spec_float → string; te_other : string → option string;
  te_files : file_ops W; te_helm_cache_dir : string;
  te_home : option string; te_made : string → bool }.
(** The renderers built so far: each with its own memory tier, helm's and kustomize's
    over one directory, crossplane's over another. *)
Record toolbox (W : Type) : Type := MkToolbox {
  tb_helm : option (string * tier); tb_kustomize : option (string * tier); tb_composition : option (string * tier);
  tb_renders : tier; tb_compositions : tier; tb_world : W }.
Arguments MkToolbox {W}. Arguments tb_helm {W}. Arguments tb_kustomize {W}. Arguments tb_composition {W}.
Arguments tb_renders {W}. Arguments tb_compositions {W}. Arguments tb_world {W}.

Section instance.
Context {W : Type} (env : tool_env W).

Definition opened (kind : string) (handle : option (string * tier)) : string * tier :=
  match handle with
  | Some h => h
  | None => let c := new_cache (te_home W env) (te_made W env) kind "" ∅ in (rc_DiskDir c, rc_mem c)
  end.
Definition cache_of (handle : string * tier) (disk : tier) : option RenderCache :=
  Some (MkRenderCache (fst handle) (snd handle) disk).
Definition handle_of (c : option RenderCache) : string * tier :=
  match c with Some c => (rc_DiskDir c, rc_mem c) | None => ("", ∅) end.
Definition disk_of (c : option RenderCache) : tier := match c with Some c => rc_disk c | None => ∅ end.

Definition chart_render (chart : string) (h : option ArgoHelmSource) (namespace : string) :=
  RenderChart (te_clock W env) (te_readable W env) (te_run W env) (te_helm W env) (te_hash_dir W env) (te_temp_file W env)
    (te_cache_write W env) (te_read W env) (te_unmarshal W env) (te_fmt_float W env) (te_other W env) chart h namespace.
Definition overlay_render (overlay : string) (k : option ArgoKustomizeSource) :=
  RenderOverlay (te_clock W env) (te_readable W env) (te_run W env) (te_kustomize W env) (te_hash_dir W env)
    (te_cache_write W env) overlay k.
Definition crossplane_render (xr comp fns : string) :=
  CompositionRender (te_clock W env) (te_readable W env) (te_crossplane W env) (te_cache_write W env)
    (te_render_in W env) (te_temp_dir W env) xr comp fns.

#[export] Instance toolbox_renderers : Renderers (toolbox W) := {
  open_helm tb := {| tb with tb_helm := Some (opened "renders" (tb_helm tb)) |};
  open_kustomize tb := {| tb with tb_kustomize := Some (opened "renders" (tb_kustomize tb)) |};
  open_composition tb := {| tb with tb_composition := Some (opened "compositions" (tb_composition tb)) |};
  helm_render chart h namespace tb :=
    let '(r, (c, w)) := chart_render chart h namespace (cache_of (opened "renders" (tb_helm tb)) (tb_renders tb), tb_world tb) in
    (r, {| tb with tb_helm := Some (handle_of c); tb_renders := disk_of c; tb_world := w |});
  kustomize_render overlay k tb :=
    let '(r, (c, w)) := overlay_render overlay k (cache_of (opened "renders" (tb_kustomize tb)) (tb_renders tb), tb_world tb) in
    (r, {| tb with tb_kustomize := Some (handle_of c); tb_renders := disk_of c; tb_world := w |});
  composition_render xr comp fns tb :=
    let '(r, (c, w)) := crossplane_render xr comp fns
      (cache_of (opened "compositions" (tb_composition tb)) (tb_compositions tb), tb_world tb) in
    (r, {| tb with tb_composition := Some (handle_of c); tb_compositions := disk_of c; tb_world := w |});
  helm_twice chart namespace h tb :=
    let '(r, w) := double_render (chart_render chart h namespace) (tb_world tb) in (r, {| tb with tb_world := w |});
  kustomize_twice overlay k tb :=
    let '(r, w) := double_render (overlay_render overlay k) (tb_world tb) in (r, {| tb with tb_world := w |});
  helm_pull src tb :=
    let '(r, w) := PullRemote (te_files W env) (te_helm W env) (te_helm_cache_dir W env) src (tb_world tb) in
    (r, {| tb with tb_world := w |}) }.

(** *** The instance keeps the laws *)

Lemma summarizeDiff_made a b : a ≠ b → ∃ t, summarizeDiff a b = Some t ∧ t ≠ "".
Proof.
  intros Hne. unfold summarizeDiff.
  destruct (Z.eqb_spec (Z.of_nat (String.length a)) (Z.of_nat (String.length b))) as [Hl|]; [|by eexists]. cbn [negb].
  pose proof (first_diff_spec 0 a b ltac:(lia)) as H. destruct (first_diff 0 a b) as [j|]; [|done].
  destruct H as (p & x & y & sa & sb & Ea & Eb & _ & ->).
  assert (Hp : (Z.of_nat (String.length p) < Z.of_nat (String.length a))%Z).
  { rewrite Ea, length_app_str. simpl. lia. }
  destruct (str_slice_in a (Z.max 0 (0 + Z.of_nat (String.length p) - 16))
    (Z.min (Z.of_nat (String.length a)) (0 + Z.of_nat (String.length p) + 16))) as (ta & -> & _); [lia..|].
  destruct (str_slice_in b (Z.max 0 (0 + Z.of_nat (String.length p) - 16))
    (Z.min (Z.of_nat (String.length a)) (0 + Z.of_nat (String.length p) + 16))) as (tb & -> & _); [lia..|].
  by eexists.
Qed.
Lemma double_render_law (render : option RenderCache * W → Result string * (option RenderCache * W)) w :
  summary_law (fst (double_render render w)).
Proof.
  unfold double_render. destruct (render_twice render w) as [[[a b]|err] w']; simpl; [|done].
  destruct (String.eqb_spec a b) as [|Hne]; simpl; [by exists ""|].
  destruct (summarizeDiff_made a b Hne) as (t & Et & Ht). by exists t.
Qed.
#[export] Instance toolbox_laws : RenderersLaws (toolbox W).
Proof.
  split; simpl; intros.
  - pose proof (double_render_law (chart_render chart h namespace) (tb_world s)) as H. by destruct (double_render _ _).
  - pose proof (double_render_law (overlay_render overlay k) (tb_world s)) as H. by destruct (double_render _ _).
Qed.
End instance.

(** ** What a pull gives *)

(** A download ends at one place only: whatever the file system does, a chart that is
    given is the directory of its key in the cache, which was there before helm ran or
    was put there by this pull; and without a cache directory, a chart name or a
    repository nothing is touched. *)
Theorem PullRemote_place {W} (fs : file_ops W) helm cacheDir src w r w' :
  PullRemote fs helm cacheDir src w = (r, w') →
  match r with
  | inl dir => dir = chart_dir cacheDir src ∧ cacheDir ≠ "" ∧ as_Chart src ≠ "" ∧ as_RepoURL src ≠ "" ∧
      (w' = w ∧ fs_is_dir fs dir w = true ∨
       ∃ bin version tmp name w1 w2 w3, helm = inl (bin, version) ∧
         fs_pull fs bin (pull_args src tmp) w1 = (None, w2) ∧ fs_read_dir fs tmp w2 = inl [(name, true)] ∧
         (fs_rename fs (path_join [tmp; name]) dir w2 = (None, w3) ∨
          (∃ err, fs_rename fs (path_join [tmp; name]) dir w2 = (Some err, w3)) ∧ fs_is_dir fs dir w3 = true) ∧
         w' = fs_remove_all fs tmp w3)
  | inr _ => cacheDir = "" ∨ as_Chart src = "" ∨ as_RepoURL src = "" → w' = w
  end.
Proof.
  unfold PullRemote, pull_into. destruct (String.eqb_spec cacheDir "") as [->|H1]; [by intros [= <- <-]|].
  destruct (String.eqb_spec (as_Chart src) "") as [|H2]; [by intros [= <- <-]|].
  destruct (String.eqb_spec (as_RepoURL src) "") as [|H3]; [by intros [= <- <-]|]. cbv zeta.
  destruct (fs_is_dir fs _ w) eqn:Ed; [intros [= <- <-]; split_and!; auto|].
  destruct (fs_mkdir_all fs _ w) as [[|] w1]; [intros [= <- <-]; naive_solver|].
  destruct (fs_mkdir_all fs _ w1) as [[|] w2]; [intros [= <- <-]; naive_solver|].
  destruct (fs_mkdir_temp fs _ _ w2) as [[tmp|] w3]; [|intros [= <- <-]; naive_solver].
  destruct helm as [[bin version]|err]; [|intros [= <- <-]; naive_solver].
  destruct (fs_pull fs bin (pull_args src tmp) w3) as [[[]|] w4] eqn:Ep; [intros [= <- <-]; naive_solver|].
  destruct (fs_read_dir fs tmp w4) as [[|[name [|]] [|]]|] eqn:Er; try (intros [= <- <-]; naive_solver).
  destruct (fs_rename fs (path_join [tmp; name]) _ w4) as [[err|] w5] eqn:En.
  - destruct (fs_is_dir fs _ w5) eqn:Ed'; intros [= <- <-]; [|naive_solver].
    split_and!; try done. right. exists bin, version, tmp, name, w3, w4, w5. split_and!; eauto.
  - intros [= <- <-]. split_and!; try done. right. exists bin, version, tmp, name, w3, w4, w5. split_and!; eauto.
Qed.

(** Two charts under one key: the separator of the key also occurs in its parts. *)
Definition chart_at (repo chart : string) : ArgoSource :=
  {| zero_ArgoSource with as_RepoURL := repo; as_Chart := chart; as_TargetRevision := "1.0" |}.
Example chart_keys_collide :
  chart_dir "/c" (chart_at "https://x/stable" "web") = chart_dir "/c" (chart_at "https://x" "stable/web").
Proof. reflexivity. Qed.
(** A file system that starts empty, and a helm that pulls one directory. *)
Definition pull_fs : file_ops (gset string) :=
  MkFileOps _ (λ p w, bool_decide (p ∈ w)) (λ p w, (None, {[p]} ∪ w)) (λ d n w, (inl (d +:+ "/" +:+ n), w))
    (λ _ w, w) (λ _ _ w, (None, w)) (λ _ _, inl [("web", true)]) (λ _ p w, (None, {[p]} ∪ w)).
Lemma PullRemote_place_witness :
  ∃ dir w', PullRemote pull_fs (inl ("helm", "v3")) "/c" (chart_at "https://x" "web") ∅ = (inl dir, w') ∧
    dir = chart_dir "/c" (chart_at "https://x" "web").
Proof.
  destruct (PullRemote pull_fs (inl ("helm", "v3")) "/c" (chart_at "https://x" "web") ∅) as [[dir|err] w'] eqn:E.
  - exists dir, w'. split; [reflexivity|]. exact (proj1 (PullRemote_place _ _ _ _ _ _ _ E)).
  - exfalso. assert (H : match fst (PullRemote pull_fs (inl ("helm", "v3")) "/c" (chart_at "https://x" "web") ∅) with
                         | inl _ => True | inr _ => False end) by (vm_compute; exact I).
    rewrite E in H. exact H.
Defined.
