(* ===== verification/Build.v ===== *)
(** The World builder as a whole (src/pkg/ir/builder.go, Build, and
    composition_render.go): the documents with the rendering hook, the expansion of
    ApplicationSets, owners, the determinism checks, the rendering of Compositions,
    the template checks, produced Secrets and the enrichment, in the order of the code.

    The state is the World, the diagnostics of the expansion, and the state of the
    tools behind the [Renderers] interface; [None] is a run-time panic.  Values maps
    are trees here, as if each merge copied; Values.v has their sharing. *)
From Stdlib Require Import Floats.SpecFloat.
From S2P Require Import Prelude GoStrings Paths Yaml Types Registries Config Schemas AppSet Enrich Documents Loader Owner Templates Values Renderer Tools.

#[local] Open Scope string_scope.
#[local] Open Scope list_scope.

(** The options of a Builder. *)
Record Builder : Type := MkBuilder {
  bu_SkipRender : bool; bu_SkipAppSetExpand : bool; bu_HelmCacheDir : string;
  bu_AppSetContext : ExpansionContext; bu_SSAMPMode : string; bu_Config : option Config }.
(** What the builder reads of its surroundings: the file system, the decoders and
    encoders of the libraries, fmt, and the iteration orders of maps of the code. *)
Record build_env : Type := MkBuildEnv {
  be_cwd : option string; be_is_git : string → bool; be_exists : string → bool; be_read : string → file;
  be_glob : string → option (list string);
  be_unmarshal : string → raw * option string; be_schema : string → raw + string;
  be_decode : string → list yaml_node * option string; be_marshal : raw → string + string;
  be_parse : gset string → string → option string;
  be_show : value → string; be_fmt_float : spec_float → string; be_other : string → option string;
  be_functions : list (string * list string); be_order : leaf_order }.

(** A loop whose body may panic. *)
Fixpoint try_fold {A St : Type} (f : A → St → option St) (l : list A) (st : St) : option St :=
  match l with
  | [] => Some st
  | x :: l => match f x st with Some st => try_fold f l st | None => None end
  end.

Section build.
Context {T : Type} `{!Renderers T} (b : Builder) (env : build_env).
(** The World, ExpansionDiags, and the tools. *)
#[local] Notation state := (World * (list Diagnostic * T))%type.

(** ** Changes of the state *)

Definition with_world (f : World → World) (st : state) : state := (f (fst st), snd st).
Definition with_tools (f : T → T) (st : state) : state := (fst st, (fst (snd st), f (snd (snd st)))).
(** A call of a tool: its answer and the state after it. *)
Definition call_tool {A} (f : T → A * T) (st : state) : A * state :=
  let '(a, t) := f (snd (snd st)) in (a, (fst st, (fst (snd st), t))).
Definition add_diags (ds : list Diagnostic) (st : state) : state := (fst st, (fst (snd st) ++ ds, snd (snd st))).
Definition add_result (r : RenderResult) : state → state :=
  with_world (λ w, {| w with w_RenderResults := w_RenderResults w ++ [r] |}).
Definition add_resources (rs : list ResourceInfo) : state → state :=
  with_world (λ w, {| w with w_Resources := w_Resources w ++ rs |}).
Definition add_determinism (d : DeterminismResult) : state → state :=
  with_world (λ w, {| w with w_DeterminismResults := w_DeterminismResults w ++ [d] |}).

(** ** Rendering an Application's sources *)

Definition failed_render (app : ArgoApplication) (chartPath err kind : string) : RenderResult :=
  MkRenderResult (app_Name app) chartPath false err kind [] (app_Source app).
(** A rendered document, tagged with who rendered it. *)
Definition rendered_resource (source : SourceLocation) (provenance owner : string) (d : LoadedDocument) : ResourceInfo :=
  let r := resourceInfoFromDoc d in
  {| r with ri_Source := source; ri_Provenance := provenance; ri_OwningApp := owner |}.
(** The outcome of a render that succeeded: its documents, or why they do not parse. *)
Definition add_rendered (result : RenderResult) (provenance owner parse_kind rendered sourcePath : string)
    (st : state) : state :=
  match LoadReader (be_decode env) rendered sourcePath with
  | inr err => add_result {| result with rres_Success := false; rres_Error := "parsing rendered YAML: " +:+ err;
                                         rres_ErrorKind := parse_kind |} st
  | inl docs => add_result result (add_resources (map (rendered_resource (rres_Source result) provenance owner) docs) st)
  end.
(** The diagnostic of a values file that does not resolve. *)
Definition ref_diag (app : ArgoApplication) (vf : string) (o : valueRefOutcome) : list Diagnostic :=
  let diag code message detail remedy :=
    [{| zero_Diagnostic with dg_Code := code; dg_Severity := SeverityInfo; dg_Source := app_Source app;
        dg_Message := app_Name app +:+ ": valueFile " +:+ quote vf +:+ message; dg_Detail := detail; dg_Fix := remedy |}] in
  match o with
  | valueRefUnknownRef => diag "XPC.H.values-ref-unknown" " names an unknown source ref"
      "No sibling source on this Application has a matching `ref:` field."
      "add the missing source, or fix the ref name in valueFiles."
  | valueRefRemote => diag "XPC.H.values-ref-remote" " resolves to a remote repo not locally checked out"
      "xpc's first cut only resolves $<ref>/... when the values repo is the same as the appfile's (walk-up to .git). Remote-repo values are not cloned."
      "run xpc from inside a checkout of the values repo, or inline the values."
  | _ => []
  end.
(** The values that break the chart's schema; none when there is no schema to read. *)
Definition values_issues (chartPath : string) (helmSrc : option ArgoHelmSource) : option (list ValuesIssue) :=
  match be_read env (path_join [chartPath; "values.schema.json"]) with
  | Bytes schema =>
      if String.eqb schema "" then Some []
      else
        let merged := MergedValues (be_read env) (be_unmarshal env) chartPath (helm_files helmSrc)
                        (helm_object helmSrc) (helm_inline helmSrc) in
        match ValidateValues (be_show env) (be_schema env) schema merged with
        | inl issues => issues
        | inr _ => Some []
        end
  | _ => Some []
  end.
Definition render_chart (app : ArgoApplication) (appFile : string) (src : ArgoSource) (cwd chartPath : string)
    (st : state) : option state :=
  let '(helmSrc, outcomes) := rewriteHelmValueFiles (be_cwd env) (be_is_git env) (as_Helm src) (app_Sources app) cwd in
  let st := add_diags (flat_map (λ vo, ref_diag app (fst vo) (snd vo)) (zip (helm_files (as_Helm src)) outcomes)) st in
  match values_issues chartPath helmSrc with
  | None => None
  | Some issues =>
      let '(r, st) := call_tool (helm_render chartPath helmSrc (dest_Namespace (app_Destination app))) st in
      Some match r with
           | inr err => add_result (MkRenderResult (app_Name app) chartPath false (re_msg err) (classifyRenderError err)
                                      issues (app_Source app)) st
           | inl rendered =>
               add_rendered (MkRenderResult (app_Name app) chartPath true "" "" issues (app_Source app))
                 ("rendered:helm:" +:+ app_Name app) (app_Name app) "other" rendered appFile st
           end
  end.
Definition renderHelmSource (app : ArgoApplication) (appFile : string) (src : ArgoSource) (st : state) : option state :=
  if negb (String.eqb (as_Renderer src) "helm") then Some st
  else
    let cwd := sourcePathCwd (be_is_git env) (be_exists env) appFile (as_Path src) in
    match ResolveChart src cwd with
    | Some chartPath => render_chart app appFile src cwd chartPath st
    | None =>
        if String.eqb (bu_HelmCacheDir b) "" then
          Some (add_result (failed_render app "" "remote Helm chart requires --helm-cache-dir" "helm-remote-unsupported") st)
        else
          let '(pulled, st) := call_tool (helm_pull src) st in
          match pulled with
          | inr err => Some (add_result (failed_render app "" ("helm pull: " +:+ err) "helm-pull-failed") st)
          | inl chartPath => render_chart app appFile src cwd chartPath st
          end
    end.
Definition renderHelmSources (app : ArgoApplication) (appFile : string) (st : state) : option state :=
  match app_Sources app with
  | [] => Some st
  | sources => try_fold (renderHelmSource app appFile) sources (with_tools open_helm st)
  end.
Definition renderKustomizeSource (app : ArgoApplication) (appFile : string) (st : state) (src : ArgoSource) : state :=
  if negb (String.eqb (as_Renderer src) "kustomize") then st
  else
    match ResolveChart src (sourcePathCwd (be_is_git env) (be_exists env) appFile (as_Path src)) with
    | None => add_result (failed_render app "" "renderer: remote chart (no path)" "other") st
    | Some overlayPath =>
        let '(r, st) := call_tool (kustomize_render overlayPath (as_Kustomize src)) st in
        match r with
        | inr err => add_result (failed_render app overlayPath (re_msg err) (classifyKustomizeError err)) st
        | inl rendered =>
            add_rendered (MkRenderResult (app_Name app) overlayPath true "" "" [] (app_Source app))
              ("rendered:kustomize:" +:+ app_Name app) (app_Name app) "other" rendered appFile st
        end
    end.
Definition renderKustomizeSources (app : ArgoApplication) (appFile : string) (st : state) : state :=
  match app_Sources app with
  | [] => st
  | sources => foldl (renderKustomizeSource app appFile) (with_tools open_kustomize st) sources
  end.
(** The rendering hook of [addArgoApplication] and [expandAppSets]. *)
Definition render_app (app : ArgoApplication) (appFile : string) (st : state) : option state :=
  if bu_SkipRender b then Some st
  else match renderHelmSources app appFile st with
       | Some st => Some (renderKustomizeSources app appFile st)
       | None => None
       end.

(** ** ApplicationSets *)

Definition add_app (appFile : string) (app : ArgoApplication) (st : state) : option state :=
  render_app app appFile (with_world (λ w, {| w with w_ArgoApps := w_ArgoApps w ++ [app] |}) st).
Definition expand_set (a : ArgoApplicationSet) (st : state) : option state :=
  let res := ExpandAppSet (be_glob env) a (bu_AppSetContext b) in
  try_fold (add_app (sl_File (aset_Source a))) (er_Applications res) (add_diags (er_Diagnostics res) st).
Definition expandAppSets (st : state) : option state := try_fold expand_set (w_ArgoAppSets (fst st)) st.

(** ** Determinism *)

(** What a double render adds: nothing when a render failed. *)
Definition add_double (app : ArgoApplication) (kind : string) (r : (bool * option string) + RenderError) (st : state) :
    option state :=
  match r with
  | inr _ => Some st
  | inl (_, None) => None
  | inl (mismatch, Some summary) =>
      Some (add_determinism (MkDeterminismResult (app_Name app) kind mismatch summary (app_Source app)) st)
  end.
Definition check_source (app : ArgoApplication) (src : ArgoSource) (st : state) : option state :=
  let path := ResolveChart src (sourcePathCwd (be_is_git env) (be_exists env) (sl_File (app_Source app)) (as_Path src)) in
  if String.eqb (as_Renderer src) "helm" then
    let st := with_tools open_helm st in
    match path with
    | None => Some st
    | Some chartPath =>
        let '(r, st) := call_tool (helm_twice chartPath (dest_Namespace (app_Destination app)) (as_Helm src)) st in
        add_double app "helm" r st
    end
  else if String.eqb (as_Renderer src) "kustomize" then
    let st := with_tools open_kustomize st in
    match path with
    | None => Some st
    | Some overlayPath =>
        let '(r, st) := call_tool (kustomize_twice overlayPath (as_Kustomize src)) st in
        add_double app "kustomize" r st
    end
  else Some st.
Definition runDeterminismChecks (st : state) : option state :=
  try_fold (λ app, try_fold (check_source app) (app_Sources app)) (w_ArgoApps (fst st)) st.

(** ** Rendering Compositions *)

Definition indexXRDocs (docs : list LoadedDocument) : gmap string (list LoadedDocument) :=
  foldl (λ out d,
    if String.eqb (ld_APIVersion d) "" || String.eqb (ld_Kind d) "" then out
    else if negb (String.eqb (ClassifyDocument d) "resource") then out
    else let key := ld_APIVersion d +:+ "/" +:+ ld_Kind d in <[key := default [] (out !! key) ++ [d]]> out) ∅ docs.
Definition indexFunctionDocs (docs : list LoadedDocument) : list LoadedDocument :=
  filter (λ d, ClassifyDocument d = "function") docs.
(** The separator is written even after a document that does not marshal. *)
Definition binding (first : bool) (d : LoadedDocument) : string :=
  (if first then "" else "---" +:+ nl) +:+ match be_marshal env (ld_Raw d) with inl data => data | inr _ => "" end.
Definition concatFunctionBindings (fns : list LoadedDocument) : string :=
  match fns with [] => "" | d :: fns => binding true d +:+ String.concat "" (map (binding false) fns) end.
Definition marshalDoc (sourceFile : string) (docs : list LoadedDocument) : string + string :=
  match find_first (λ d, String.eqb (sl_File (ld_Source d)) sourceFile && String.eqb (ld_Kind d) "Composition") docs with
  | Some d => be_marshal env (ld_Raw d)
  | None => inr "composition source doc not found"
  end.
Definition nameFromDoc (d : LoadedDocument) : string := get_str (get_map (ld_Raw d) "metadata") "name".
Definition buildAPIVersion (group version : string) : string :=
  if String.eqb group "" then version else group +:+ "/" +:+ version.
Definition composition_result (comp : CompositionInfo) (xr : string) (success : bool) (err kind : string) : RenderResult :=
  MkRenderResult (compositionAppName (comp_Name comp) xr) (comp_Name comp) success err kind [] (comp_Source comp).
Definition render_xr (comp : CompositionInfo) (compYAML functionsYAML : string) (st : state) (xr : LoadedDocument) : state :=
  let name := nameFromDoc xr in
  match be_marshal env (ld_Raw xr) with
  | inr err => add_result (composition_result comp name false ("marshal XR: " +:+ err) "crossplane-render-failed") st
  | inl xrYAML =>
      let '(r, st) := call_tool (composition_render xrYAML compYAML functionsYAML) st in
      match r with
      | inr err => add_result (composition_result comp name false (re_msg err) (ClassifyCompositionError err)) st
      | inl rendered =>
          add_rendered (composition_result comp name true "" "") ("rendered:composition:" +:+ name)
            (compositionAppName (comp_Name comp) name) "crossplane-render-failed" rendered (sl_File (comp_Source comp)) st
      end
  end.
Definition render_composition (docs : list LoadedDocument) (st : state) (comp : CompositionInfo) : state :=
  let ref := comp_CompositeTypeRef comp in
  if String.eqb (gvk_Kind ref) "" then st
  else match indexXRDocs docs !! (buildAPIVersion (gvk_Group ref) (gvk_Version ref) +:+ "/" +:+ gvk_Kind ref) with
       | None | Some [] => st
       | Some xrs =>
           match marshalDoc (sl_File (comp_Source comp)) docs with
           | inr err => add_result (composition_result comp "" false ("marshal composition: " +:+ err)
                                      "crossplane-render-failed") st
           | inl compYAML =>
               foldl (render_xr comp compYAML (concatFunctionBindings (indexFunctionDocs docs))) st xrs
           end
       end.
Definition renderCompositions (docs : list LoadedDocument) (st : state) : state :=
  match w_Compositions (fst st) with
  | [] => st
  | comps => foldl (render_composition docs) (with_tools open_composition st) comps
  end.

(** ** Build *)

(** The knobs of the configuration, resolved onto the World. *)
Definition resolve_knobs (w : World) : World :=
  let cfg := bu_Config b in
  let label := ResolveEnvLabel cfg in
  {| w with
     w_SSAMPMode := bu_SSAMPMode b;
     w_ProdPatterns := Some (ResolveProdPatterns cfg);
     w_NameCarveouts := Some {["crossplane-state-needs-orphan" := ResolveCrossplaneStateNeedsOrphanCarveouts cfg]};
     w_BypassKeys := MkBypassKeySet (Some (ResolveAllowDeleteKeys cfg)) (Some (ResolveAllowImmutableChangeKeys cfg));
     w_ImmutableFields := Some (ResolveImmutableFields cfg ImmutableFieldRegistry);
     w_StateBearingKinds := Some (ResolveStateBearingKinds cfg StateBearingKindsRegistry);
     w_AllowedProviderConfigs := ResolveAllowedProviderConfigs cfg;
     w_EnvLabelKey := fst (fst label); w_EnvLabelClaimKinds := snd (fst label); w_EnvLabelAllowedValues := snd label;
     w_ESOAllowedStoreNames := ResolveExternalSecretStoreNames cfg |}.
Definition check_templates (w : World) : World :=
  checkCompositionOrphanSGRef (checkCompositionComputedBlockAlias (checkCompositionDuplicateEnv
    (checkCompositionCanonicalForm (checkCompositionTemplates (be_parse env) w)))).
(** From owners on: what runs once every document and ApplicationSet is in. *)
Definition finish_build (docs : list LoadedDocument) (st : state) : option state :=
  let st := with_world (enrichOwningApp (be_cwd env) (be_is_git env)) st in
  match (if bu_SkipRender b then Some st
         else match runDeterminismChecks st with Some st => Some (renderCompositions docs st) | None => None end) with
  | None => None
  | Some st =>
      let w := EnrichTrajectoryData (be_order env) (synthesizeExternalSecretTargets (check_templates (fst st))) in
      match EnrichFieldValidation (be_show env) w with
      | Some w => Some (w, snd st)
      | None => None
      end
  end.
Definition Build (docs : list LoadedDocument) (st : state) : option (state + string) :=
  match add_documents (be_fmt_float env) (be_other env) (be_functions env) render_app docs (with_world resolve_knobs st) with
  | None => None
  | Some (inr err) => Some (inr err)
  | Some (inl st) =>
      match (if bu_SkipAppSetExpand b then Some st else expandAppSets st) with
      | None => None
      | Some st => inl <$> finish_build docs st
      end
  end.
End build.

(** ** What rendering can do to a World

    Every change the rendering passes make, as steps: one more Application (with
    [apps]), a failed or a successful render with the documents it tagged, a double
    render. *)

(** The kinds of error a render result can have. *)
Definition error_kinds : list string := [
  "helm-remote-unsupported"; "helm-pull-failed"; "other"; "helm-absent"; "helm-timeout"; "helm-template-failed";
  "kustomize-absent"; "kustomize-timeout"; "kustomize-build-failed";
  "crossplane-absent"; "crossplane-timeout"; "crossplane-render-failed"].
Definition failed (r : RenderResult) : Prop := rres_Success r = false ∧ rres_ErrorKind r ∈ error_kinds.
Definition succeeded (r : RenderResult) : Prop := rres_Success r = true ∧ rres_Error r = "" ∧ rres_ErrorKind r = "".
Inductive rendering (apps : bool) (w : World) : World → Prop :=
  | rend_none : rendering apps w w
  | rend_app w' app : apps = true → rendering apps w w' → rendering apps w {| w' with w_ArgoApps := w_ArgoApps w' ++ [app] |}
  | rend_failed w' r : rendering apps w w' → failed r →
      rendering apps w {| w' with w_RenderResults := w_RenderResults w' ++ [r] |}
  | rend_done w' r provenance docs : rendering apps w w' → succeeded r →
      rendering apps w {| w' with
        w_Resources := w_Resources w' ++ map (rendered_resource (rres_Source r) provenance (rres_AppName r)) docs;
        w_RenderResults := w_RenderResults w' ++ [r] |}
  | rend_double w' d : rendering apps w w' → (dr_Mismatch d = true ↔ dr_DiffSummary d ≠ "") →
      rendering apps w {| w' with w_DeterminismResults := w_DeterminismResults w' ++ [d] |}.
#[local] Hint Constructors rendering : core.

Lemma rendering_trans apps w1 w2 w3 : rendering apps w1 w2 → rendering apps w2 w3 → rendering apps w1 w3.
Proof. intros H12. induction 1; eauto. Qed.

Lemma classifyRenderError_kind err : classifyRenderError err ∈ error_kinds.
Proof. unfold classifyRenderError. repeat case_match; set_solver. Qed.
Lemma classifyKustomizeError_kind err : classifyKustomizeError err ∈ error_kinds.
Proof. unfold classifyKustomizeError. repeat case_match; set_solver. Qed.
Lemma ClassifyCompositionError_kind err : ClassifyCompositionError err ∈ error_kinds.
Proof. unfold ClassifyCompositionError. repeat case_match; set_solver. Qed.
#[local] Hint Resolve classifyRenderError_kind classifyKustomizeError_kind ClassifyCompositionError_kind : core.

Section steps.
Context {T : Type} `{!Renderers T} (b : Builder) (env : build_env) (apps : bool).
#[local] Notation state := (World * (list Diagnostic * T))%type.
#[local] Notation steps st st' := (rendering apps (fst st) (fst st')).

Lemma try_fold_steps {A} (f : A → state → option state) l st st' :
  (∀ x st st', x ∈ l → f x st = Some st' → steps st st') → try_fold f l st = Some st' → steps st st'.
Proof.
  revert st. induction l as [|x l IH]; intros st Hf; simpl; [by intros [= ->]|].
  destruct (f x st) as [st1|] eqn:E; [|done]. intros H. apply (rendering_trans _ _ (fst st1)).
  - eapply Hf; [by left|done].
  - apply IH; [|done]. intros y s s' Hy. apply Hf. by right.
Qed.
Lemma foldl_steps {A} (f : state → A → state) l st :
  (∀ x st, steps st (f st x)) → steps st (foldl f st l).
Proof.
  intros Hf. revert st. induction l as [|x l IH]; intros st; simpl; [constructor|].
  eapply rendering_trans; [apply Hf|apply IH].
Qed.
Lemma call_tool_world {A} (f : T → A * T) (st : state) a st' : call_tool f st = (a, st') → fst st' = fst st.
Proof. unfold call_tool. destruct (f _). by intros [= <- <-]. Qed.
Lemma add_result_failed (st : state) r : failed r → steps st (add_result r st).
Proof. intros H. simpl. auto. Qed.
Lemma add_rendered_steps (st : state) result provenance kind rendered sourcePath :
  succeeded result → kind ∈ error_kinds →
  steps st (add_rendered env result provenance (rres_AppName result) kind rendered sourcePath st).
Proof.
  intros Hr Hk. unfold add_rendered. destruct (LoadReader _ _ _) as [docs|err]; simpl; [by auto|].
  apply rend_failed; [done|]. by split.
Qed.
#[local] Hint Resolve add_result_failed : core.

Lemma render_chart_steps app appFile src cwd chartPath st st' :
  render_chart env app appFile src cwd chartPath st = Some st' → steps st st'.
Proof.
  unfold render_chart. destruct (rewriteHelmValueFiles _ _ _ _ _) as [helmSrc outcomes].
  destruct (values_issues env chartPath helmSrc) as [issues|]; [|done].
  destruct (call_tool _ _) as [r st1] eqn:E. apply call_tool_world in E. intros [= <-].
  assert (E' : fst st1 = fst st) by done. rewrite <- E'. destruct r as [rendered|err].
  - eapply (add_rendered_steps st1 (MkRenderResult _ _ true "" "" issues _)); [by split|set_solver].
  - apply add_result_failed. by split; simpl.
Qed.
Lemma renderHelmSource_steps app appFile src st st' :
  renderHelmSource b env app appFile src st = Some st' → steps st st'.
Proof.
  unfold renderHelmSource. destruct (negb _); [by intros [= <-]|]. destruct (ResolveChart _ _); [apply render_chart_steps|].
  destruct (String.eqb _ _); [intros [= <-]; apply add_result_failed; split; [done|set_solver]|].
  destruct (call_tool _ _) as [pulled st1] eqn:E. apply call_tool_world in E. rewrite <- E.
  destruct pulled; [apply render_chart_steps|]. intros [= <-]. apply add_result_failed; split; [done|set_solver].
Qed.
Lemma renderKustomizeSource_steps app appFile src st : steps st (renderKustomizeSource env app appFile st src).
Proof.
  unfold renderKustomizeSource. destruct (negb _); [done|]. destruct (ResolveChart _ _) as [overlay|].
  2: { apply add_result_failed; split; [done|set_solver]. }
  destruct (call_tool _ _) as [r st1] eqn:E. apply call_tool_world in E. rewrite <- E. destruct r as [rendered|err].
  - eapply (add_rendered_steps st1 (MkRenderResult _ _ true "" "" [] _)); [by split|set_solver].
  - apply add_result_failed. by split; simpl.
Qed.
Lemma render_app_steps app appFile st st' : render_app b env app appFile st = Some st' → steps st st'.
Proof.
  unfold render_app, renderHelmSources, renderKustomizeSources. destruct (bu_SkipRender b); [by intros [= <-]|].
  destruct (app_Sources app) as [|src l]; [by intros [= <-]|]. generalize (src :: l) as sources. intros sources.
  destruct (try_fold _ _ _) as [st1|] eqn:E; [|done]. intros [= <-]. apply (rendering_trans _ _ (fst st1)).
  - apply try_fold_steps in E; [exact E|]. intros x s s' _. apply renderHelmSource_steps.
  - apply (foldl_steps _ _ (with_tools open_kustomize st1)). intros x s. apply renderKustomizeSource_steps.
Qed.
Lemma expandAppSets_steps st st' : apps = true → expandAppSets b env st = Some st' → steps st st'.
Proof.
  intros Happs. apply try_fold_steps. intros a s s' _ H. unfold expand_set in H. apply try_fold_steps in H; [exact H|].
  intros app s1 s2 _ H'. apply render_app_steps in H'. eapply rendering_trans; [|exact H']. simpl. auto.
Qed.

Lemma add_double_steps app kind r (st st' : state) : summary_law r →
  add_double app kind r st = Some st' → steps st st'.
Proof.
  destruct r as [[m [summary|]]|err]; simpl; [|done|by intros _ [= <-]].
  intros (t & [= <-] & Hm) [= <-]. by apply rend_double.
Qed.
Lemma call_tool_fst {A} (f : T → A * T) (st : state) a st' : call_tool f st = (a, st') → a = fst (f (snd (snd st))).
Proof. unfold call_tool. destruct (f _). by intros [= <- <-]. Qed.
Lemma runDeterminismChecks_steps `{!RenderersLaws T} st st' : runDeterminismChecks env st = Some st' → steps st st'.
Proof.
  apply try_fold_steps. intros app s s' _ H. apply try_fold_steps in H; [exact H|].
  clear s s' H. intros src s s' _. unfold check_source. destruct (String.eqb _ "helm"); [|destruct (String.eqb _ "kustomize"); [|by intros [= <-]]].
  all: destruct (ResolveChart _ _) as [path|]; [|by intros [= <-]].
  all: match goal with |- context [call_tool ?f ?st] => destruct (call_tool f st) as [r s1] eqn:E end.
  all: pose proof (call_tool_world _ _ _ _ E) as Hw; apply call_tool_fst in E; intros H.
  all: apply add_double_steps in H; [rewrite Hw in H; exact H|rewrite E].
  - apply helm_twice_law.
  - apply kustomize_twice_law.
Qed.
(** A double render never panics, so neither does the pass. *)
Lemma runDeterminismChecks_total `{!RenderersLaws T} (st : state) : is_Some (runDeterminismChecks env st).
Proof.
  unfold runDeterminismChecks. assert (Hf : ∀ A (f : A → state → option state) l s,
    (∀ x s, is_Some (f x s)) → is_Some (try_fold f l s)).
  { intros A f l s Hf. revert s. induction l as [|x l IH]; intros s; simpl; [by eexists|].
    destruct (Hf x s) as [s' ->]. apply IH. }
  apply Hf. intros app s. apply Hf. clear Hf s. intros src s. unfold check_source.
  assert (Hd : ∀ kind r s1, summary_law r → is_Some (add_double app kind r (s1 : state))).
  { intros kind [[m d]|err] s1; simpl; [|by eexists]. intros (t & -> & _). by eexists. }
  destruct (String.eqb _ "helm"); [|destruct (String.eqb _ "kustomize"); [|by eexists]].
  all: destruct (ResolveChart _ _) as [path|]; [|by eexists].
  all: match goal with |- context [call_tool ?f ?st] => destruct (call_tool f st) as [r s1] eqn:E end.
  all: apply call_tool_fst in E; apply Hd; rewrite E; [apply helm_twice_law || apply kustomize_twice_law].
Qed.
Lemma render_xr_steps comp compYAML fns st xr : steps st (render_xr env comp compYAML fns st xr).
Proof.
  unfold render_xr. destruct (be_marshal env _) as [xrYAML|err].
  2: { apply add_result_failed; split; [done|set_solver]. }
  destruct (call_tool _ _) as [r st1] eqn:E. apply call_tool_world in E. rewrite <- E. destruct r as [rendered|err].
  - eapply (add_rendered_steps st1 (composition_result comp _ true "" "")); [by split|set_solver].
  - apply add_result_failed. by split; simpl.
Qed.
Lemma renderCompositions_steps docs st : steps st (renderCompositions env docs st).
Proof.
  unfold renderCompositions. destruct (w_Compositions (fst st)) as [|c l]; [done|].
  apply (foldl_steps _ _ (with_tools open_composition st)). clear. intros comp st. unfold render_composition.
  destruct (String.eqb _ _); [done|]. destruct (indexXRDocs docs !! _) as [[|xr xrs]|]; [done| |done].
  destruct (marshalDoc env _ docs) as [compYAML|err].
  2: { apply add_result_failed; split; [done|set_solver]. }
  apply foldl_steps. intros x s. apply render_xr_steps.
Qed.
End steps.

(** ** The invariant of the render results *)

(** The document was rendered by the run the result reports. *)
Definition rendered_by (r : RenderResult) (res : ResourceInfo) : Prop :=
  succeeded r ∧ ri_Source res = rres_Source r ∧ (rres_AppName r ≠ "" → ri_OwningApp res = rres_AppName r).
Definition is_rendered (res : ResourceInfo) : Prop := has_prefix "rendered:" (ri_Provenance res) = true.
Record accounted (w : World) : Prop := MkAccounted {
  acc_results : ∀ r, r ∈ w_RenderResults w → failed r ∨ succeeded r;
  acc_resources : ∀ res, res ∈ w_Resources w → is_rendered res → ∃ r, r ∈ w_RenderResults w ∧ rendered_by r res;
  acc_doubles : ∀ d, d ∈ w_DeterminismResults w → dr_Mismatch d = true ↔ dr_DiffSummary d ≠ "" }.

Lemma rendering_accounted apps w w' : rendering apps w w' → accounted w → accounted w'.
Proof.
  intros Hr Hw. induction Hr as [|w' app _ Hr IH|w' r Hr IH Hf|w' r prov docs Hr IH Hs|w' d Hr IH Hd]; [done|..];
    destruct IH as [H1 H2 H3]; split; simpl; try done.
  - intros r' [?| ->%list_elem_of_singleton]%elem_of_app; eauto.
  - intros res Hres Hp. destruct (H2 res Hres Hp) as (r' & Hr' & Hby). exists r'. split; [apply elem_of_app; by left|done].
  - intros r' [?| ->%list_elem_of_singleton]%elem_of_app; eauto.
  - intros res [Hres|Hres]%elem_of_app Hp.
    + destruct (H2 res Hres Hp) as (r' & Hr' & Hby). exists r'. split; [apply elem_of_app; by left|done].
    + apply list_elem_of_fmap in Hres as (d & -> & _). exists r.
      split; [apply elem_of_app; right; by left|]. by split_and!.
  - intros d' [?| ->%list_elem_of_singleton]%elem_of_app; eauto.
Qed.
(** A pass that keeps the render results and changes resources in nothing but an
    empty owner, or adds some that are not rendered. *)
Lemma accounted_same w w' : w_RenderResults w' = w_RenderResults w → w_DeterminismResults w' = w_DeterminismResults w →
  (∀ res', res' ∈ w_Resources w' → is_rendered res' → ∃ res, res ∈ w_Resources w ∧ is_rendered res ∧
     ri_Source res' = ri_Source res ∧ (ri_OwningApp res ≠ "" → ri_OwningApp res' = ri_OwningApp res)) →
  accounted w → accounted w'.
Proof.
  intros Er Ed Hres [H1 H2 H3]. split; rewrite ?Er, ?Ed; [done| |done]. intros res' Hin Hp.
  destruct (Hres res' Hin Hp) as (res & Hr & Hp' & Hs & Ho). destruct (H2 res Hr Hp') as (r & Hr' & Hsu & Hso & Ho').
  exists r. split; [done|]. split_and!; [done|congruence|]. intros Hne. rewrite Ho; rewrite Ho' by done; done.
Qed.

(** ** The other passes *)

Lemma accounted_built fmt_float other order w d : accounted w → accounted (built fmt_float other order w [d]).
Proof.
  apply accounted_same; [done..|]. intros res. cbn [w_Resources built]. intros [H|H]%elem_of_app Hp; [eauto|].
  unfold facts in H. cbn [flat_map] in H. destruct (in_category _ d); [|by apply not_elem_of_nil in H].
  rewrite app_nil_r in H. apply list_elem_of_singleton in H as ->. done.
Qed.
Lemma accounted_owners cwd is_git w : accounted w → accounted (enrichOwningApp cwd is_git w).
Proof.
  apply accounted_same; unfold enrichOwningApp; [by repeat case_match..|].
  assert (Hid : ∀ res, res ∈ w_Resources w → is_rendered res → ∃ res0, res0 ∈ w_Resources w ∧ is_rendered res0 ∧
     ri_Source res = ri_Source res0 ∧ (ri_OwningApp res0 ≠ "" → ri_OwningApp res = ri_OwningApp res0)) by eauto.
  destruct (w_ArgoApps w); [done|]. destruct (buildOwnerPrefixes cwd is_git w) as [|p ps]; [done|]. clear Hid.
  intros res' (res & -> & Hr)%list_elem_of_fmap Hp. exists res. split_and!; [done..|]. intros Ho. simpl. unfold owner_of.
  by destruct (String.eqb_spec (ri_OwningApp res) "").
Qed.
Lemma accounted_templates env w : accounted w → accounted (check_templates env w).
Proof.
  intros [H1 H2 H3]. split; simpl; [|intros res Hr Hp; destruct (H2 res Hr Hp) as (r & Hr' & Hb); exists r;
    split; [apply elem_of_app; by left|done]|done].
  intros r [Hr|Hr]%elem_of_app; [by apply H1|]. left. unfold for_templates in Hr.
  apply elem_of_flat_map in Hr as (comp & _ & Hr). apply elem_of_flat_map in Hr as (step & _ & Hr).
  destruct (template_text w step) as [text|]; [|by apply not_elem_of_nil in Hr].
  destruct (parseGoTemplateText _ text) as [err|]; [|by apply not_elem_of_nil in Hr].
  apply list_elem_of_singleton in Hr as ->. split; [done|]. simpl. set_solver.
Qed.
Lemma synth_produced rs seen synth seen' synth' : foldl synth_step (seen, synth) rs = (seen', synth') →
  (∀ res, res ∈ synth → ¬ is_rendered res) → ∀ res, res ∈ synth' → ¬ is_rendered res.
Proof.
  revert seen synth. induction rs as [|r rs IH]; cbn [foldl]; intros seen synth; [by intros [= <- <-]|].
  unfold synth_step at 2. repeat case_match; try apply IH. intros Hf Hs. eapply IH; [exact Hf|].
  intros res [?| ->%list_elem_of_singleton]%elem_of_app; [by apply Hs|]. done.
Qed.
Lemma accounted_secrets w : accounted w → accounted (synthesizeExternalSecretTargets w).
Proof.
  unfold synthesizeExternalSecretTargets. destruct (foldl synth_step _ _) as [seen synth] eqn:E.
  apply accounted_same; [done..|]. intros res. cbn [w_Resources]. intros [H|H]%elem_of_app Hp; [eauto|].
  destruct (synth_produced _ _ _ _ _ E) with res; [by intros ? ?%not_elem_of_nil|done..].
Qed.
Lemma accounted_enriched order w : accounted w → accounted (EnrichTrajectoryData order w).
Proof. rewrite EnrichTrajectoryData_refs, registry_joins_eq. apply accounted_same; [done..|eauto]. Qed.
Lemma accounted_validated show w w' : EnrichFieldValidation show w = Some w' → accounted w → accounted w'.
Proof.
  rewrite EnrichFieldValidation_eq. cbv zeta. destruct (field_facts _ _ _); [|done]. intros [= <-].
  apply accounted_same; [done..|eauto].
Qed.

Section whole.
Context {T : Type} `{!Renderers T} (b : Builder) (env : build_env).
#[local] Notation state := (World * (list Diagnostic * T))%type.

Lemma add_documents_accounted docs (st st' : state) : accounted (fst st) →
  add_documents (be_fmt_float env) (be_other env) (be_functions env) (render_app b env) docs st = Some (inl st') →
  accounted (fst st').
Proof.
  apply (add_documents_inv _ _ _ _ (λ st, accounted (fst st))).
  - intros d w e _. apply accounted_built.
  - intros d w e s _ Hs Hr. eapply rendering_accounted; [by apply (render_app_steps _ _ false) in Hr|]. by apply accounted_built.
Qed.
Lemma finish_accounted `{!RenderersLaws T} docs (st st' : state) : accounted (fst st) →
  finish_build b env docs st = Some st' → accounted (fst st').
Proof.
  intros H. apply (accounted_owners (be_cwd env) (be_is_git env)) in H. unfold finish_build.
  set (st1 := with_world _ st). change (enrichOwningApp _ _ (fst st)) with (fst st1) in H.
  destruct (if bu_SkipRender b then Some st1 else _) as [st2|] eqn:E; [|done].
  assert (H2 : accounted (fst st2)).
  { destruct (bu_SkipRender b); [by injection E as <-|]. destruct (runDeterminismChecks env st1) as [st3|] eqn:E3; [|done].
    injection E as <-. pose proof (runDeterminismChecks_steps env false _ _ E3) as E4. eapply rendering_accounted; [|exact H].
    eapply rendering_trans; [exact E4|apply renderCompositions_steps]. }
  destruct (EnrichFieldValidation _ _) as [w|] eqn:Ev; [|done]. intros [= <-].
  eapply accounted_validated; [exact Ev|]. by apply accounted_enriched, accounted_secrets, accounted_templates.
Qed.
End whole.

(** ** One result for each source *)

Definition needs_render (src : ArgoSource) : bool :=
  String.eqb (as_Renderer src) "helm" || String.eqb (as_Renderer src) "kustomize".
Definition render_count (app : ArgoApplication) : nat := length (filter (λ s, needs_render s = true) (app_Sources app)).
(** The Applications of the results the sources get, in order. *)
Definition expected_results (apps : list ArgoApplication) : list string :=
  flat_map (λ app, replicate (render_count app) (app_Name app)) apps.

Section count.
Context {T : Type} `{!Renderers T} (b : Builder) (env : build_env).
#[local] Notation state := (World * (list Diagnostic * T))%type.

(** [k] more results, all for [app], and no change to the Applications. *)
Definition reports (app : ArgoApplication) (k : nat) (st st' : state) : Prop :=
  w_ArgoApps (fst st') = w_ArgoApps (fst st) ∧
  ∃ rs, w_RenderResults (fst st') = w_RenderResults (fst st) ++ rs ∧ map rres_AppName rs = replicate k (app_Name app).
Lemma reports_0 app (st st' : state) : fst st' = fst st → reports app 0 st st'.
Proof. intros E. split; [by rewrite E|]. exists []. by rewrite E, app_nil_r. Qed.
Lemma reports_trans app k l (st1 st2 st3 : state) :
  reports app k st1 st2 → reports app l st2 st3 → reports app (k + l) st1 st3.
Proof.
  intros [H1 (rs1 & H2 & H3)] [H4 (rs2 & H5 & H6)]. split; [congruence|]. exists (rs1 ++ rs2).
  rewrite H5, H2, map_app, H3, H6, replicate_add. by rewrite (assoc_L (++)).
Qed.
Lemma reports_1 app (st st1 : state) r : fst st1 = fst st → rres_AppName r = app_Name app →
  reports app 1 st (add_result r st1).
Proof. intros E Hr. split; [simpl; by rewrite E|]. exists [r]. simpl. by rewrite E, Hr. Qed.
Lemma reports_rendered app (st st1 : state) r provenance owner kind rendered sourcePath :
  fst st1 = fst st → rres_AppName r = app_Name app →
  reports app 1 st (add_rendered env r provenance owner kind rendered sourcePath st1).
Proof.
  intros E Hr. unfold add_rendered. destruct (LoadReader _ _ _); simpl; (split; [simpl; by rewrite E|]).
  - exists [r]. simpl. by rewrite E, Hr.
  - eexists [_]. simpl. split; [by rewrite E|]. by rewrite Hr.
Qed.

Lemma renderHelmSource_reports app appFile src (st st' : state) : renderHelmSource b env app appFile src st = Some st' →
  reports app (if String.eqb (as_Renderer src) "helm" then 1 else 0) st st'.
Proof.
  unfold renderHelmSource. destruct (String.eqb _ "helm"); cbn [negb]; [|by intros [= <-]; apply reports_0].
  assert (Hc : ∀ cwd chart st1 st2, render_chart env app appFile src cwd chart st1 = Some st2 →
    fst st1 = fst st → reports app 1 st st2).
  { intros cwd chart st1 st2. unfold render_chart. destruct (rewriteHelmValueFiles _ _ _ _ _).
    destruct (values_issues env chart _) as [issues|]; [|done]. destruct (call_tool _ _) as [r st3] eqn:E.
    apply call_tool_world in E. intros [= <-] Hst. assert (fst st3 = fst st) by (rewrite E; exact Hst).
    destruct r; [by apply reports_rendered|by apply reports_1]. }
  destruct (ResolveChart _ _); [intros H; by eapply Hc|].
  destruct (String.eqb _ _); [intros [= <-]; by apply reports_1|].
  destruct (call_tool _ _) as [pulled st1] eqn:E. apply call_tool_world in E.
  destruct pulled; [intros H; by eapply Hc|]. intros [= <-]. by apply reports_1.
Qed.
Lemma renderKustomizeSource_reports app appFile src (st : state) :
  reports app (if String.eqb (as_Renderer src) "kustomize" then 1 else 0) st (renderKustomizeSource env app appFile st src).
Proof.
  unfold renderKustomizeSource. destruct (String.eqb _ "kustomize"); cbn [negb]; [|by apply reports_0].
  destruct (ResolveChart _ _) as [overlay|]; [|by apply reports_1].
  destruct (call_tool _ _) as [r st1] eqn:E. apply call_tool_world in E.
  destruct r; [by apply reports_rendered|by apply reports_1].
Qed.
Lemma reports_tools app k (f : T → T) (st st' : state) : reports app k (with_tools f st) st' → reports app k st st'.
Proof. done. Qed.
Lemma render_app_reports app appFile (st st' : state) : bu_SkipRender b = false →
  render_app b env app appFile st = Some st' → reports app (render_count app) st st'.
Proof.
  intros Hskip. unfold render_app, renderHelmSources, renderKustomizeSources, render_count. rewrite Hskip.
  destruct (app_Sources app) as [|src0 l0] eqn:Es; [by intros [= <-]; apply reports_0|].
  generalize (src0 :: l0) as l. clear src0 l0 Es. intros l.
  assert (Hh : ∀ st st', try_fold (renderHelmSource b env app appFile) l st = Some st' →
    reports app (sum_list_with (λ s, if String.eqb (as_Renderer s) "helm" then 1 else 0) l) st st').
  { clear. induction l as [|s l IH]; simpl; intros st st'; [by intros [= <-]; apply reports_0|].
    destruct (renderHelmSource _ _ _ _ _ _) as [st1|] eqn:E; [|done]. intros H.
    eapply reports_trans; [by eapply renderHelmSource_reports|by apply IH]. }
  assert (Hk : ∀ st, reports app (sum_list_with (λ s, if String.eqb (as_Renderer s) "kustomize" then 1 else 0) l) st
    (foldl (renderKustomizeSource env app appFile) st l)).
  { clear. induction l as [|s l IH]; simpl; intros st; [by apply reports_0|].
    eapply reports_trans; [apply renderKustomizeSource_reports|apply IH]. }
  destruct (try_fold _ _ _) as [st1|] eqn:E; [|done]. intros [= <-].
  pose proof (reports_trans _ _ _ _ _ _ (reports_tools _ _ _ _ _ (Hh _ _ E)) (reports_tools _ _ open_kustomize _ _ (Hk _))) as H.
  assert (Hn : length (filter (λ s, needs_render s = true) l) =
    sum_list_with (λ s, if String.eqb (as_Renderer s) "helm" then 1 else 0) l +
    sum_list_with (λ s, if String.eqb (as_Renderer s) "kustomize" then 1 else 0) l); [|rewrite Hn; exact H].
  clear. induction l as [|s l IH]; [done|]. rewrite filter_cons. cbn [sum_list_with].
  assert (En : needs_render s = String.eqb (as_Renderer s) "helm" || String.eqb (as_Renderer s) "kustomize") by done.
  destruct (String.eqb_spec (as_Renderer s) "helm") as [E1|E1], (String.eqb_spec (as_Renderer s) "kustomize") as [E2|E2];
    simpl in En; rewrite En;
    [congruence|rewrite decide_True by done; cbn [length]; lia|rewrite decide_True by done; cbn [length]; lia|].
  rewrite decide_False by done. lia.
Qed.

Definition counted (st : state) : Prop :=
  map rres_AppName (w_RenderResults (fst st)) = expected_results (w_ArgoApps (fst st)).
(** The hook, called right after its Application is appended. *)
Lemma counted_app w (e : list Diagnostic * T) app appFile st' : bu_SkipRender b = false →
  counted (w, e) → render_app b env app appFile ({| w with w_ArgoApps := w_ArgoApps w ++ [app] |}, e) = Some st' →
  counted st'.
Proof.
  intros Hskip Hc H. apply render_app_reports in H as [Ha (rs & Hr & Hn)]; [|done]. unfold counted in *.
  rewrite Hr, Ha. cbn [fst w_RenderResults w_ArgoApps]. unfold expected_results. rewrite map_app, flat_map_app. cbn [flat_map].
  rewrite app_nil_r. by f_equal.
Qed.
Lemma counted_expand st st' : bu_SkipRender b = false → counted st → expandAppSets b env st = Some st' → counted st'.
Proof.
  intros Hskip. assert (Hf : ∀ A (f : A → state → option state) l s s',
    (∀ x s s', counted s → f x s = Some s' → counted s') → counted s → try_fold f l s = Some s' → counted s').
  { clear. intros A f l s s' Hf. revert s. induction l as [|x l IH]; simpl; intros s Hs; [by intros [= <-]|].
    destruct (f x s) as [s1|] eqn:E; [|done]. apply IH. by eapply Hf. }
  apply Hf. intros a s s' Hs. apply Hf; [|exact Hs]. intros app [w e] s2 Hw. by apply counted_app.
Qed.
Lemma counted_documents docs st st' : bu_SkipRender b = false → counted st →
  add_documents (be_fmt_float env) (be_other env) (be_functions env) (render_app b env) docs st = Some (inl st') → counted st'.
Proof.
  intros Hskip. apply add_documents_inv.
  - intros d w e Hd Hw. unfold counted in *. cbn [fst built w_RenderResults w_ArgoApps] in *. unfold facts at 1.
    cbn [flat_map]. rewrite Hd, app_nil_r. exact Hw.
  - intros d w e s Hd Hw. rewrite built_application by done. by apply counted_app.
Qed.
End count.

(** Two Worlds with the same Applications, and the results of one first in the other. *)
Definition extends (w w' : World) : Prop :=
  w_ArgoApps w' = w_ArgoApps w ∧ ∃ rest, w_RenderResults w' = w_RenderResults w ++ rest.
#[export] Instance extends_preorder : PreOrder extends.
Proof.
  split; [intros w; split; [done|exists []; by rewrite app_nil_r]|].
  intros w1 w2 w3 [A1 (r1 & R1)] [A2 (r2 & R2)]. split; [congruence|]. exists (r1 ++ r2). by rewrite R2, R1, (assoc_L (++)).
Qed.
Lemma extends_eq w w' : w_ArgoApps w' = w_ArgoApps w → w_RenderResults w' = w_RenderResults w → extends w w'.
Proof. intros A R. split; [done|]. exists []. by rewrite app_nil_r. Qed.
Lemma rendering_extends w w' : rendering false w w' → extends w w'.
Proof.
  induction 1 as [|w' app Hf|w' r _ IH _|w' r prov docs _ IH _|w' d _ IH _]; [done|done|..].
  1, 2: etrans; [exact IH|]; split; [done|by eexists].
  etrans; [exact IH|]. by apply extends_eq.
Qed.
(** No pass before the enrichment touches the facts the enrichment extracts. *)
Record same_facts (w w' : World) : Prop := MkSameFacts {
  sf_mounts : w_MountRefs w' = w_MountRefs w; sf_accounts : w_SARefs w' = w_SARefs w;
  sf_bindings : w_RBACBindings w' = w_RBACBindings w; sf_rules : w_RBACRules w' = w_RBACRules w;
  sf_selectors : w_SelectorUsages w' = w_SelectorUsages w; sf_late : w_LateInitUsages w' = w_LateInitUsages w;
  sf_canonical : w_CanonicalFormUsages w' = w_CanonicalFormUsages w;
  sf_fixed : w_FixedPointUsages w' = w_FixedPointUsages w; sf_ssa : w_SSAMPConflicts w' = w_SSAMPConflicts w;
  sf_deletion : w_CPDeletionPolicyFacts w' = w_CPDeletionPolicyFacts w;
  sf_fields : w_ResourceFieldFacts w' = w_ResourceFieldFacts w;
  sf_adopt : w_ExternalNameAdoptFindings w' = w_ExternalNameAdoptFindings w;
  sf_index : w_SchemaIndex w' = w_SchemaIndex w }.
#[export] Instance same_facts_preorder : PreOrder same_facts.
Proof. split; [by split|]. intros w1 w2 w3 [] []. split; congruence. Qed.
Lemma rendering_facts apps w w' : rendering apps w w' → same_facts w w'.
Proof. induction 1 as [|w' app _ Hr IH|w' r Hr IH _|w' r prov docs Hr IH _|w' d Hr IH _]; [by split|..]; destruct IH; split; simpl; assumption. Qed.
(** No fact yet, and no schema index. *)
Definition no_facts (w : World) : Prop := clear_facts w = w ∧ w_SchemaIndex w = None.
Lemma cleared_eq w : clear_facts w = w ↔ w_MountRefs w = [] ∧ w_SARefs w = [] ∧ w_RBACBindings w = [] ∧ w_RBACRules w = [] ∧
  w_SelectorUsages w = [] ∧ w_LateInitUsages w = [] ∧ w_CanonicalFormUsages w = [] ∧ w_FixedPointUsages w = [] ∧
  w_SSAMPConflicts w = [] ∧ w_CPDeletionPolicyFacts w = [] ∧ w_ResourceFieldFacts w = [] ∧ w_ExternalNameAdoptFindings w = [].
Proof.
  split; [intros <-; by split_and!|]. destruct w; simpl. intros (-> & -> & -> & -> & -> & -> & -> & -> & -> & -> & -> & ->).
  reflexivity.
Qed.
Lemma no_facts_same w w' : same_facts w w' → no_facts w → no_facts w'.
Proof. intros [] [H Hi]. split; [|congruence]. revert H. rewrite !cleared_eq. intros H. destruct_and! H. split_and!; congruence. Qed.
(** A World whose facts were computed in one go, from its own documents and from
    nothing else: no older fact is among them, and no older index was used. *)
Definition enriched_once (env : build_env) (w : World) : Prop :=
  ∃ w0, no_facts w0 ∧ same_documents w0 w ∧
        EnrichFieldValidation (be_show env) (EnrichTrajectoryData (be_order env) w0) = Some w.
Lemma once_documents show order w0 w :
  EnrichFieldValidation show (EnrichTrajectoryData order w0) = Some w → same_documents w0 w.
Proof. intros H%EnrichFieldValidation_documents. etrans; [apply EnrichTrajectoryData_documents|exact H]. Qed.

Section result.
Context {T : Type} `{!Renderers T} (b : Builder) (env : build_env).
#[local] Notation state := (World * (list Diagnostic * T))%type.

(** The passes of [finish_build], composed. *)
Definition last_passes (w : World) : option World :=
  EnrichFieldValidation (be_show env)
    (EnrichTrajectoryData (be_order env) (synthesizeExternalSecretTargets (check_templates env w))).
Lemma finish_build_inv docs (st st' : state) : finish_build b env docs st = Some st' → ∃ st1 : state,
  (if bu_SkipRender b then st1 = with_world (enrichOwningApp (be_cwd env) (be_is_git env)) st
   else ∃ st0, runDeterminismChecks env (with_world (enrichOwningApp (be_cwd env) (be_is_git env)) st) = Some st0 ∧
               st1 = renderCompositions env docs st0) ∧
  last_passes (fst st1) = Some (fst st') ∧ snd st' = snd st1.
Proof.
  unfold finish_build, last_passes. destruct (bu_SkipRender b); [|destruct (runDeterminismChecks env _) as [st0|]; [|done]].
  all: destruct (EnrichFieldValidation _ _) as [w|] eqn:E; [|done]; intros [= <-].
  - eexists. split; [reflexivity|]. by rewrite E.
  - eexists. split; [by eauto|]. by rewrite E.
Qed.
Lemma owners_keep cwd is_git w : w_RenderResults (enrichOwningApp cwd is_git w) = w_RenderResults w ∧
  w_ArgoApps (enrichOwningApp cwd is_git w) = w_ArgoApps w ∧ same_facts w (enrichOwningApp cwd is_git w).
Proof.
  unfold enrichOwningApp. destruct (w_ArgoApps w) eqn:E; [by rewrite E|].
  destruct (buildOwnerPrefixes cwd is_git w); [by rewrite E|]. by split_and!.
Qed.
Lemma validated_keep show w w' : EnrichFieldValidation show w = Some w' →
  w_ArgoApps w' = w_ArgoApps w ∧ w_RenderResults w' = w_RenderResults w.
Proof.
  rewrite EnrichFieldValidation_eq. cbv zeta. destruct (field_facts _ _ _); [|done].
  intros H. apply (inj Some) in H as <-. done.
Qed.
Lemma enriched_keep order w : w_ArgoApps (EnrichTrajectoryData order w) = w_ArgoApps w ∧
  w_RenderResults (EnrichTrajectoryData order w) = w_RenderResults w.
Proof. rewrite EnrichTrajectoryData_refs, registry_joins_eq. split; reflexivity. Qed.
Lemma secrets_keep w : w_ArgoApps (synthesizeExternalSecretTargets w) = w_ArgoApps w ∧
  w_RenderResults (synthesizeExternalSecretTargets w) = w_RenderResults w ∧ same_facts w (synthesizeExternalSecretTargets w).
Proof.
  unfold synthesizeExternalSecretTargets. destruct (foldl synth_step _ _) as [seen synth]. split_and!; [reflexivity..|].
  split; reflexivity.
Qed.
Lemma templates_keep w : w_ArgoApps (check_templates env w) = w_ArgoApps w ∧
  (∃ rest, w_RenderResults (check_templates env w) = w_RenderResults w ++ rest) ∧ same_facts w (check_templates env w).
Proof. split_and!; [reflexivity|eexists; reflexivity|]. split; reflexivity. Qed.
Lemma last_passes_extends w w' : last_passes w = Some w' → extends w w'.
Proof.
  unfold last_passes. intros H. transitivity (check_templates env w); [split; apply templates_keep|].
  transitivity (synthesizeExternalSecretTargets (check_templates env w)); [apply extends_eq; apply secrets_keep|].
  transitivity (EnrichTrajectoryData (be_order env) (synthesizeExternalSecretTargets (check_templates env w)));
    [apply extends_eq; apply enriched_keep|].
  apply validated_keep in H as [A R]. by apply extends_eq.
Qed.
Lemma last_passes_facts w w' : no_facts w → last_passes w = Some w' → enriched_once env w'.
Proof.
  unfold last_passes. assert (Hk : same_facts w (synthesizeExternalSecretTargets (check_templates env w))).
  { etrans; [apply templates_keep|apply secrets_keep]. }
  revert Hk. generalize (synthesizeExternalSecretTargets (check_templates env w)) as w0. intros w0 Hk Hw H. exists w0.
  split; [exact (no_facts_same _ _ Hk Hw)|]. split; [exact (once_documents _ _ _ _ H)|exact H].
Qed.

(** What [finish_build] adds to a World, and what [Build] adds before. *)
Lemma finish_build_extends `{!RenderersLaws T} docs (st st' : state) :
  finish_build b env docs st = Some st' → extends (fst st) (fst st').
Proof.
  intros (st1 & H1 & H2 & _)%finish_build_inv. apply last_passes_extends in H2. etrans; [|exact H2].
  transitivity (enrichOwningApp (be_cwd env) (be_is_git env) (fst st)); [apply extends_eq; apply owners_keep|].
  destruct (bu_SkipRender b); [by rewrite H1|]. destruct H1 as (st0 & H1 & ->). apply rendering_extends.
  pose proof (runDeterminismChecks_steps env false _ _ H1) as Hd. eapply rendering_trans; [exact Hd|apply renderCompositions_steps].
Qed.
Lemma finish_build_facts `{!RenderersLaws T} docs (st st' : state) : no_facts (fst st) →
  finish_build b env docs st = Some st' → enriched_once env (fst st').
Proof.
  intros Hw (st1 & H1 & H2 & _)%finish_build_inv. eapply last_passes_facts; [|exact H2]. eapply no_facts_same; [|exact Hw].
  transitivity (enrichOwningApp (be_cwd env) (be_is_git env) (fst st)); [apply owners_keep|].
  destruct (bu_SkipRender b); [by rewrite H1|]. destruct H1 as (st0 & H1 & ->). apply (rendering_facts false).
  pose proof (runDeterminismChecks_steps env false _ _ H1) as Hd. eapply rendering_trans; [exact Hd|apply renderCompositions_steps].
Qed.
Lemma resolve_knobs_facts w : same_facts w (resolve_knobs b w).
Proof. split; reflexivity. Qed.
Lemma add_documents_facts docs (st st' : state) :
  add_documents (be_fmt_float env) (be_other env) (be_functions env) (render_app b env) docs st = Some (inl st') →
  same_facts (fst st) (fst st').
Proof.
  apply (add_documents_inv _ _ _ _ (λ s, same_facts (fst st) (fst s))); [| |done].
  - intros d w e _ H. etrans; [exact H|]. split; reflexivity.
  - intros d w e s _ H Hr. etrans; [exact H|]. apply (render_app_steps _ _ false), rendering_facts in Hr.
    etrans; [|exact Hr]. split; reflexivity.
Qed.
(** The loops of ApplicationSets with nothing to render. *)
Definition expansions (w : World) : list ExpansionResult :=
  if bu_SkipAppSetExpand b then [] else map (λ a, ExpandAppSet (be_glob env) a (bu_AppSetContext b)) (w_ArgoAppSets w).
Lemma add_apps_skip f apps w (e : list Diagnostic * T) : bu_SkipRender b = true →
  try_fold (add_app b env f) apps (w, e) = Some ({| w with w_ArgoApps := w_ArgoApps w ++ apps |}, e).
Proof.
  intros Hskip. revert w. induction apps as [|app apps IH]; intros w; cbn [try_fold]; [rewrite app_nil_r; by destruct w|].
  assert (E : add_app b env f app (w, e) = Some ({| w with w_ArgoApps := w_ArgoApps w ++ [app] |}, e))
    by (unfold add_app, render_app; by rewrite Hskip).
  rewrite E, IH. cbn [w_ArgoApps]. by rewrite <- (assoc_L (++)).
Qed.
Lemma expand_sets_skip l w ds (t : T) : bu_SkipRender b = true →
  try_fold (expand_set b env) l (w, (ds, t)) =
  let res := map (λ a, ExpandAppSet (be_glob env) a (bu_AppSetContext b)) l in
  Some ({| w with w_ArgoApps := w_ArgoApps w ++ flat_map er_Applications res |}, (ds ++ flat_map er_Diagnostics res, t)).
Proof.
  intros Hskip. cbv zeta. revert w ds. induction l as [|a l IH]; intros w ds; cbn [try_fold map flat_map].
  { rewrite !app_nil_r. by destruct w. }
  assert (E : expand_set b env a (w, (ds, t)) = let res := ExpandAppSet (be_glob env) a (bu_AppSetContext b) in
    Some ({| w with w_ArgoApps := w_ArgoApps w ++ er_Applications res |}, (ds ++ er_Diagnostics res, t)))
    by (unfold expand_set, add_diags; by rewrite add_apps_skip).
  rewrite E. cbv beta iota zeta. rewrite IH. cbn [w_ArgoApps]. by rewrite <- !(assoc_L (++)).
Qed.
Lemma expand_skip w ds (t : T) : bu_SkipRender b = true →
  (if bu_SkipAppSetExpand b then Some (w, (ds, t)) else expandAppSets b env (w, (ds, t))) =
  let res := expansions w in
  Some ({| w with w_ArgoApps := w_ArgoApps w ++ flat_map er_Applications res |}, (ds ++ flat_map er_Diagnostics res, t)).
Proof.
  intros Hskip. unfold expansions, expandAppSets. destruct (bu_SkipAppSetExpand b); [|by apply expand_sets_skip].
  cbn [flat_map]. rewrite !app_nil_r. by destruct w.
Qed.
End result.

(** ** What the last passes keep *)

Lemma synthesized_provenance rs acc : Forall (λ r, has_prefix "produced:externalsecret:" (ri_Provenance r) = true) acc.2 →
  Forall (λ r, has_prefix "produced:externalsecret:" (ri_Provenance r) = true) (foldl synth_step acc rs).2.
Proof.
  revert acc. induction rs as [|r rs IH]; intros [seen synth] H; [done|]. apply IH. cbn [synth_step].
  destruct (isExternalSecret r); cbn [negb]; [|done]. destruct (String.eqb _ ""); [done|]. case_decide; [done|].
  cbn [snd] in *. apply Forall_app. split; [done|]. apply Forall_singleton. apply has_prefix_app.
Qed.
Definition produced_secrets (w : World) : list ResourceInfo :=
  (foldl synth_step (committed_secrets (w_Resources w), []) (w_Resources w)).2.
Lemma synthesized_eq w : synthesizeExternalSecretTargets w = {| w with w_Resources := w_Resources w ++ produced_secrets w |}.
Proof. unfold synthesizeExternalSecretTargets, produced_secrets. by destruct (foldl synth_step _ _). Qed.
Lemma last_passes_keep env w w' : last_passes env w = Some w' →
  ∃ secrets, secrets = produced_secrets w ∧ same_documents {| w with w_Resources := w_Resources w ++ secrets |} w'.
Proof.
  unfold last_passes. rewrite synthesized_eq. intros H%EnrichFieldValidation_documents.
  exists (produced_secrets w). split; [done|]. etrans; [|exact H]. etrans; [|apply EnrichTrajectoryData_documents].
  split; reflexivity.
Qed.

(** ** Properties *)

Section properties.
Context {T : Type} `{!Renderers T} (b : Builder) (env : build_env).
#[local] Notation state := (World * (list Diagnostic * T))%type.
#[local] Notation Build := (Build b env).

(** The two halves of a build that ends with a World. *)
Lemma Build_halves docs (st st' : state) : Build docs st = Some (inl st') → ∃ st1 st2 : state,
  add_documents (be_fmt_float env) (be_other env) (be_functions env) (render_app b env) docs
    (with_world (resolve_knobs b) st) = Some (inl st1) ∧
  (if bu_SkipAppSetExpand b then Some st1 else expandAppSets b env st1) = Some st2 ∧
  finish_build b env docs st2 = Some st'.
Proof.
  unfold Build.Build. destruct (add_documents _ _ _ _ _ _) as [[st1|]|]; [|done..].
  destruct (if bu_SkipAppSetExpand b then _ else _) as [st2|] eqn:E2; [|done].
  destruct (finish_build _ _ _ _) eqn:E3; [|done]. intros [= <-]. exists st1, st2. by split_and!.
Qed.

(** The state that starts a build: no World yet, no diagnostics, the tools as they are. *)
Definition NewBuilder (t : T) : state := (zero_World, ([], t)).

(** C8: What every render left behind is accounted for: each render result is a success
    with no error or a failure with one of the known kinds; each document that says it
    was rendered was rendered by a run that succeeded, whose Application it names and
    whose source it has; and a determinism check has a summary exactly when the two
    renders differ. *)
Theorem Build_accounted `{!RenderersLaws T} docs (st st' : state) :
  accounted (fst st) → Build docs st = Some (inl st') → accounted (fst st').
Proof.
  intros Hw (st1 & st2 & H1 & H2 & H3)%Build_halves.
  apply add_documents_accounted in H1; [|by apply (accounted_same (fst st)); [done..|eauto|]].
  refine (finish_accounted b env docs st2 st' _ H3). destruct (bu_SkipAppSetExpand b); [by injection H2 as <-|].
  apply (expandAppSets_steps _ _ true) in H2; [|done]. by eapply rendering_accounted.
Qed.

(** C11: Every source that has a renderer is reported once: when rendering is on, the
    render results begin with one result for each helm or kustomize source of each
    Application of the World, those of ApplicationSets included, in their order; the
    results of Compositions and of templates follow. *)
Theorem Build_results `{!RenderersLaws T} docs (st st' : state) :
  bu_SkipRender b = false → counted st → Build docs st = Some (inl st') →
  ∃ rs rest, w_RenderResults (fst st') = rs ++ rest ∧ map rres_AppName rs = expected_results (w_ArgoApps (fst st')).
Proof.
  intros Hskip Hc (st1 & st2 & H1 & H2 & H3)%Build_halves. apply counted_documents in H1; [|done..].
  assert (Hc2 : counted st2).
  { destruct (bu_SkipAppSetExpand b); [by injection H2 as <-|]. by eapply counted_expand. }
  destruct (finish_build_extends _ _ _ _ _ H3) as [Ha (rest & Hr)]. exists (w_RenderResults (fst st2)), rest.
  split; [exact Hr|]. rewrite Ha. exact Hc2.
Qed.

(** Without rendering the build is a function of the documents and of the knobs: the
    tools are left alone, and the World is the facts of the documents, the
    Applications the sets expand to, and the passes over them; it fails with the first
    document that lacks a spec it needs. *)
Theorem Build_skip_render docs w ds (t : T) : bu_SkipRender b = true →
  Build docs (w, (ds, t)) =
  match find_first (λ d, bool_decide (refused d)) docs with
  | Some d => Some (inr (processing_error d (missing_spec d)))
  | None =>
      let w1 := built (be_fmt_float env) (be_other env) (be_functions env) (resolve_knobs b w) docs in
      let sets := expansions b env w1 in
      let w2 := {| w1 with w_ArgoApps := w_ArgoApps w1 ++ flat_map er_Applications sets |} in
      (λ w', inl (w', (ds ++ flat_map er_Diagnostics sets, t)))
        <$> last_passes env (enrichOwningApp (be_cwd env) (be_is_git env) w2)
  end.
Proof.
  intros Hskip. unfold Build.Build, with_world. cbn [fst snd].
  pose proof (add_documents_closed (be_fmt_float env) (be_other env) (be_functions env) docs (resolve_knobs b w) (ds, t)) as H.
  assert (Eh : render_app b env = λ _ _ st, Some st) by (unfold render_app; by rewrite Hskip).
  rewrite Eh. destruct (find_first _ docs); rewrite H; [done|]. rewrite expand_skip by done. cbv zeta.
  unfold finish_build, last_passes. rewrite Hskip. unfold with_world. cbn [fst snd].
  by destruct (EnrichFieldValidation _ _).
Qed.

Lemma Build_facts `{!RenderersLaws T} docs (st st' : state) :
  no_facts (fst st) → Build docs st = Some (inl st') → enriched_once env (fst st').
Proof.
  intros Hw (st1 & st2 & H1 & H2 & H3)%Build_halves. refine (finish_build_facts b env docs st2 st' _ H3).
  eapply no_facts_same; [|exact Hw]. apply add_documents_facts in H1.
  etrans; [apply resolve_knobs_facts|]. etrans; [exact H1|].
  destruct (bu_SkipAppSetExpand b); [by injection H2 as <-|].
  apply (expandAppSets_steps _ _ true) in H2; [|done]. by eapply rendering_facts.
Qed.
(** A build leaves nothing for a later enrichment to do: started with no facts, its World
    re-enriched, in any order of the maps, is the same World but for the order of the
    fixed-point usages. *)
Theorem Build_enriched `{!RenderersLaws T} docs order (st st' : state) :
  (∀ res m, be_order env res m ≡ₚ order res m) → no_facts (fst st) → Build docs st = Some (inl st') →
  ∃ fp, fp ≡ₚ w_FixedPointUsages (fst st') ∧ ReEnrich (be_show env) order (fst st') = Some (with_fixed_points (fst st') fp).
Proof.
  intros Ho Hw (w0 & [Hc _] & _ & H)%Build_facts; [|done]. rewrite <- Hc in H. rewrite (ReEnrich_again _ (be_order env) _ w0 _ H).
  by apply (ReEnrich_order _ (be_order env)).
Qed.

(** The only error of a build is a document without the spec it needs, the first one,
    whatever the tools do: a chart that does not render, a values file that is missing
    or an ApplicationSet that cannot be expanded never fails it. *)
Theorem Build_error docs (st : state) :
  match Build docs st with
  | None => True
  | Some (inl _) => find_first (λ d, bool_decide (refused d)) docs = None
  | Some (inr err) => ∃ d, find_first (λ d, bool_decide (refused d)) docs = Some d ∧
                           err = processing_error d (missing_spec d)
  end.
Proof.
  pose proof (add_documents_error (be_fmt_float env) (be_other env) (be_functions env) (render_app b env) docs
    (with_world (resolve_knobs b) st)) as H.
  unfold Build.Build. destruct (add_documents _ _ _ _ _ _) as [[st1|err]|]; [|exact H|done].
  destruct (if bu_SkipAppSetExpand b then _ else _); [|done]. by destruct (finish_build _ _ _ _).
Qed.
End properties.

(** ** A build that renders *)

(** Tools that count their calls: helm renders one ConfigMap, kustomize is not there,
    and the two renders of a check differ. *)
#[local] Instance counting_tools : Renderers nat := {
  open_helm n := n; open_kustomize n := n; open_composition n := n;
  helm_render _ _ _ n := (inl "rendered", S n);
  kustomize_render _ _ n := (inr (MkRenderError "kustomize: not found" true), S n);
  composition_render _ _ _ n := (inl "", S n);
  helm_twice _ _ _ n := (inl (true, Some "differs"), S n);
  kustomize_twice _ _ n := (inr (MkRenderError "kustomize: not found" true), S n);
  helm_pull _ n := (inr "offline", S n) }.
#[local] Instance counting_laws : RenderersLaws nat.
Proof. split; simpl; [|done]. intros. by exists "differs". Qed.
Definition demo_env : build_env := {|
  be_cwd := Some "/repo"; be_is_git := λ _, false; be_exists := λ _, true; be_read := λ _, Absent; be_glob := λ _, None;
  be_unmarshal := λ _, (None, None); be_schema := λ _, inr ""; be_marshal := λ _, inr "";
  be_decode := λ _, ([MkYamlNode true (Some (1, 1)%Z) (inl (Some
    [("apiVersion", VStr "v1"); ("kind", VStr "ConfigMap"); ("metadata", VMap [("name", VStr "web")])]))], None);
  be_parse := λ _ _, None; be_show := λ _, ""; be_fmt_float := λ _, ""; be_other := λ _, None;
  be_functions := knownFunctions; be_order := stored_order |}.
Definition demo_app : LoadedDocument :=
  MkLoadedDocument (MkSourceLocation "apps/web.yaml" 1 1) "argoproj.io/v1alpha1" "Application" (Some [
    ("metadata", VMap [("name", VStr "web")]);
    ("spec", VMap [("sources", VList [
       VMap [("path", VStr "charts/web"); ("helm", VMap [("releaseName", VStr "web")])];
       VMap [("path", VStr "overlays/web"); ("kustomize", VMap [("namePrefix", VStr "x-")])];
       VMap [("path", VStr "plain")]])])]).
Definition no_spec : LoadedDocument :=
  MkLoadedDocument (MkSourceLocation "comp.yaml" 1 1) "apiextensions.crossplane.io/v1" "Composition"
    (Some [("metadata", VMap [("name", VStr "db")])]).
Definition demo_builder (skip : bool) : Builder :=
  MkBuilder skip false "" (MkExpansionContext ∅ "") "" None.

Example demo_build :
  (λ r, match r with
        | inl (w, (ds, n)) => (map (λ r, (rres_Success r, rres_ErrorKind r)) (w_RenderResults w),
                               map ri_Provenance (w_Resources w), map dr_Mismatch (w_DeterminismResults w), n)
        | inr _ => ([], [], [], 0)
        end) <$> Build (demo_builder false) demo_env [demo_app] (NewBuilder 0) =
  Some ([(true, ""); (false, "kustomize-absent")], ["rendered:helm:web"], [true], 4).
Proof. vm_compute. reflexivity. Qed.
(** The World a build of the demo ends with. *)
Lemma demo_accounted : accounted zero_World.
Proof. split; [intros r H|intros r H|intros r H]; by apply not_elem_of_nil in H. Qed.
Lemma Build_accounted_witness :
  ∃ st', Build (demo_builder false) demo_env [demo_app] (NewBuilder 0) = Some (inl st') ∧ accounted (fst st').
Proof.
  destruct (Build (demo_builder false) demo_env [demo_app] (NewBuilder 0)) as [[st'|err]|] eqn:E;
    [|vm_compute in E; discriminate..].
  exists st'. split; [reflexivity|]. exact (Build_accounted _ _ _ (NewBuilder 0) _ demo_accounted E).
Defined.
Lemma Build_results_witness :
  ∃ st' rs rest, Build (demo_builder false) demo_env [demo_app] (NewBuilder 0) = Some (inl st') ∧
    w_RenderResults (fst st') = rs ++ rest ∧ map rres_AppName rs = expected_results (w_ArgoApps (fst st')).
Proof.
  destruct (Build (demo_builder false) demo_env [demo_app] (NewBuilder 0)) as [[st'|err]|] eqn:E;
    [|vm_compute in E; discriminate..].
  destruct (Build_results (demo_builder false) demo_env _ (NewBuilder 0) _ eq_refl eq_refl E) as (rs & rest & H).
  exists st', rs, rest. split; [reflexivity|exact H].
Defined.
Lemma Build_skip_render_witness :
  Build (demo_builder true) demo_env [demo_app; no_spec] (NewBuilder 0) =
  Some (inr "processing Composition db from comp.yaml:1: Composition missing spec").
Proof.
  etrans; [apply (Build_skip_render (demo_builder true) demo_env _ _ _ 0); reflexivity|].
  reflexivity.
Defined.
Lemma Build_enriched_witness :
  ∃ st' fp, Build (demo_builder false) demo_env [demo_app] (NewBuilder 0) = Some (inl st') ∧
    ReEnrich (be_show demo_env) reversed_order (fst st') = Some (with_fixed_points (fst st') fp).
Proof.
  destruct (Build (demo_builder false) demo_env [demo_app] (NewBuilder 0)) as [[st'|err]|] eqn:E;
    [|vm_compute in E; discriminate..].
  destruct (Build_enriched (demo_builder false) demo_env _ reversed_order (NewBuilder 0) _
    (λ _ m, Permutation_rev (map_to_list m)) (conj eq_refl eq_refl) E) as (fp & _ & H).
  exists st', fp. split; [reflexivity|exact H].
Defined.

(** Two Compositions in one file: the document found for the second is the first. *)
Definition composition_doc (name : string) : LoadedDocument :=
  MkLoadedDocument (MkSourceLocation "comps.yaml" 1 1) "apiextensions.crossplane.io/v1" "Composition"
    (Some [("metadata", VMap [("name", VStr name)]); ("spec", VMap [])]).
Definition name_env : build_env := {| demo_env with
  be_marshal := λ r, inl (get_str (get_map r "metadata") "name") |}.
Example marshalDoc_first :
  marshalDoc name_env "comps.yaml" [composition_doc "first"; composition_doc "second"] = inl "first".
Proof. reflexivity. Qed.
