(* ===== verification/Wire.v ===== *)
(** encoding/json over the structs of src/pkg/types/types.go: one instance of [Wire]
    for each struct a snapshot, a proof or a report writes, with the names and the
    omitempty options of its tags, in the order of its fields; and the two layouts,
    compact ([json.Marshal]) and indented by two spaces.

    An empty slice or map is written as the nil one.  What the standard library makes
    of floats and of the dynamic types the program never matches is a parameter, as in
    Json.v; None is the error of the call. *)
From Stdlib Require Import ZArith Floats.SpecFloat.
From S2P Require Import Prelude GoStrings Yaml Types Json.

#[local] Open Scope string_scope.
#[local] Open Scope list_scope.

(** ** Trees and layouts *)

(** A token that needs no quotes, a string, an array, an object in member order. *)
Inductive json : Type :=
  | JText (t : string)
  | JString (s : string)
  | JArr (l : list json)
  | JObj (m : list (string * json)).

Fixpoint compact (j : json) : string :=
  match j with
  | JText t => t
  | JString s => json_string s
  | JArr l => "[" +:+ join "," (map compact l) +:+ "]"
  | JObj m => json_object (map (λ kv, (fst kv, compact (snd kv))) m)
  end.
(** [pad] is the indentation of the line the value starts on. *)
Fixpoint indented (pad : string) (j : json) : string :=
  match j with
  | JText t => t
  | JString s => json_string s
  | JArr [] => "[]"
  | JArr l => "[" +:+ join "," (map (λ j, nl +:+ (pad +:+ "  ") +:+ indented (pad +:+ "  ") j) l) +:+ nl +:+ pad +:+ "]"
  | JObj [] => "{}"
  | JObj m => "{" +:+ join "," (map (λ kv, nl +:+ (pad +:+ "  ") +:+ json_string (fst kv) +:+ ": " +:+
                                           indented (pad +:+ "  ") (snd kv)) m) +:+ nl +:+ pad +:+ "}"
  end.
(** [Encoder.SetIndent("", "  ")] and [MarshalIndent]: the encoder ends the text with
    a line break. *)
Definition encode_indented (j : json) : string := indented "" j +:+ nl.

(** ** The encoding of a type *)

Record printers : Type := MkPrinters { pt_float : spec_float → string; pt_other : string → option string }.
(** [is_empty] is what omitempty leaves out: false, 0, nil and what has no elements. *)
Class Wire (A : Type) : Type := { wire : printers → A → option json; is_empty : A → bool }.
#[export] Hint Mode Wire ! : typeclass_instances.

Definition field {A} `{Wire A} (p : printers) (name : string) (a : A) : option (list (string * json)) :=
  (λ j, [(name, j)]) <$> wire p a.
Definition omitempty {A} `{Wire A} (p : printers) (name : string) (a : A) : option (list (string * json)) :=
  if is_empty a then Some [] else field p name a.
Definition members (fs : list (option (list (string * json)))) : option json :=
  (λ ms, JObj (concat ms)) <$> mapM id fs.
Definition struct {A} (fields : printers → A → list (option (list (string * json)))) : Wire A :=
  {| wire p a := members (fields p a); is_empty _ := false |}.

#[export] Instance wire_string : Wire string := {| wire _ s := Some (JString s); is_empty s := String.eqb s "" |}.
#[export] Instance wire_int : Wire Z := {| wire _ z := Some (JText (itoa z)); is_empty z := Z.eqb z 0 |}.
#[export] Instance wire_bool : Wire bool :=
  {| wire _ (b : bool) := Some (JText (if b then "true" else "false")); is_empty := negb |}.
#[export] Instance wire_pointer {A} `{Wire A} : Wire (option A) := {|
  wire p o := match o with Some a => wire p a | None => Some (JText "null") end;
  is_empty o := match o with Some _ => false | None => true end |}.
Definition wire_array {A} (f : A → option json) (l : list A) : option json :=
  match l with [] => Some (JText "null") | _ => JArr <$> mapM f l end.
#[export] Instance wire_list {A} `{Wire A} : Wire (list A) :=
  {| wire p := wire_array (wire p); is_empty l := match l with [] => true | _ => false end |}.
(** A map, its members by key. *)
Definition wire_members {A} (f : A → option json) (m : list (string * A)) : option json :=
  (λ ms, JObj (sort_slice key_before ms)) <$> mapM (λ kv, pair (fst kv) <$> f (snd kv)) m.
#[export] Instance wire_map {A} `{Wire A} : Wire (gmap string A) := {|
  wire p m := if decide (m = ∅) then Some (JText "null") else wire_members (wire p) (map_to_list m);
  is_empty m := bool_decide (m = ∅) |}.
(** A decoded document. *)
Fixpoint wire_value (p : printers) (v : value) : option json :=
  match v with
  | VNull => Some (JText "null")
  | VBool b => Some (JText (if b then "true" else "false"))
  | VInt z | VUint z => Some (JText (itoa z))
  | VFloat f => JText <$> json_float (pt_float p) f
  | VStr s => Some (JString s)
  | VList l => JArr <$> (fix go l := match l with
                                     | [] => Some []
                                     | v :: l => match wire_value p v, go l with
                                                 | Some j, Some js => Some (j :: js)
                                                 | _, _ => None
                                                 end
                                     end) l
  | VMap m => (λ ms, JObj (sort_slice key_before ms)) <$>
      (fix go m := match m with
                   | [] => Some []
                   | (k, v) :: m => match wire_value p v, go m with
                                    | Some j, Some js => Some ((k, j) :: js)
                                    | _, _ => None
                                    end
                   end) m
  | VOther s => JText <$> pt_other p s
  end.
#[export] Instance wire_raw : Wire raw | 0 := {|
  wire p r := match r with Some m => wire_value p (VMap m) | None => Some (JText "null") end;
  is_empty r := match r with Some (_ :: _) => false | _ => true end |}.
#[export] Instance wire_Severity : Wire Severity := {|
  wire _ s := Some (JString match s with SeverityError => "error" | SeverityWarning => "warning" | SeverityInfo => "info" end);
  is_empty _ := false |}.

(** [json.Marshal] and [json.MarshalIndent] of any of these. *)
Definition marshal {A} `{Wire A} (p : printers) (a : A) : option string := compact <$> wire p a.
Definition marshal_indent {A} `{Wire A} (p : printers) (a : A) : option string := indented "" <$> wire p a.

(** ** The structs *)

#[export] Instance wire_CRDVersion : Wire CRDVersion := struct (λ p x, [
  field p "name" (cv_Name x); field p "served" (cv_Served x); field p "storage" (cv_Storage x);
  omitempty p "referenceable" (cv_Referenceable x); omitempty p "schemaDigest" (cv_SchemaDigest x)]).
#[export] Instance wire_ConversionInfo : Wire ConversionInfo := struct (λ p x, [
  field p "strategy" (ci_Strategy x); field p "costClass" (ci_CostClass x);
  omitempty p "webhookService" (ci_WebhookService x)]).
#[export] Instance wire_SourceLocation : Wire SourceLocation := struct (λ p x, [
  field p "file" (sl_File x); field p "line" (sl_Line x); field p "column" (sl_Column x)]).
#[export] Instance wire_CRDInfo : Wire CRDInfo := struct (λ p x, [
  field p "group" (crd_Group x); field p "kind" (crd_Kind x); field p "scope" (crd_Scope x);
  field p "versions" (crd_Versions x); field p "conversion" (crd_Conversion x);
  field p "source" (crd_Source x); field p "isXRD" (crd_IsXRD x); omitempty p "apiVersion" (crd_APIVersion x);
  omitempty p "owningApp" (crd_OwningApp x)]).
#[export] Instance wire_ProviderInfo : Wire ProviderInfo := struct (λ p x, [
  field p "name" (pr_Name x); field p "package" (pr_Package x); omitempty p "annotations" (pr_Annotations x);
  field p "source" (pr_Source x); omitempty p "owningApp" (pr_OwningApp x)]).
#[export] Instance wire_FunctionInfo : Wire FunctionInfo := struct (λ p x, [
  field p "name" (fn_Name x); field p "package" (fn_Package x); field p "inputVersions" (fn_InputVersions x);
  field p "source" (fn_Source x); omitempty p "owningApp" (fn_OwningApp x)]).
#[export] Instance wire_ConfigurationInfo : Wire ConfigurationInfo := struct (λ p x, [
  field p "name" (cfgi_Name x); field p "package" (cfgi_Package x); field p "source" (cfgi_Source x)]).
#[export] Instance wire_GVK : Wire GVK := struct (λ p x, [
  field p "group" (gvk_Group x); field p "version" (gvk_Version x); field p "kind" (gvk_Kind x)]).
#[export] Instance wire_PipelineStep : Wire PipelineStep := struct (λ p x, [
  field p "name" (ps_Name x); field p "functionRef" (ps_FunctionRef x);
  omitempty p "inputAPIVersion" (ps_InputAPIVersion x); omitempty p "inputKind" (ps_InputKind x);
  omitempty p "inputDigest" (ps_InputDigest x)]).
#[export] Instance wire_ResourceBase : Wire ResourceBase := struct (λ p x, [
  field p "apiVersion" (rb_APIVersion x); field p "kind" (rb_Kind x)]).
#[export] Instance wire_TransformInfo : Wire TransformInfo := struct (λ p x, [
  field p "type" (ti_Type x); omitempty p "convert" (ti_Convert x)]).
#[export] Instance wire_PatchInfo : Wire PatchInfo := struct (λ p x, [
  field p "type" (pi_Type x); omitempty p "fromFieldPath" (pi_FromFieldPath x);
  omitempty p "toFieldPath" (pi_ToFieldPath x); omitempty p "transforms" (pi_Transforms x)]).
#[export] Instance wire_ComposedResource : Wire ComposedResource := struct (λ p x, [
  field p "name" (cr_Name x); field p "base" (cr_Base x); omitempty p "patches" (cr_Patches x)]).
#[export] Instance wire_CompositionInfo : Wire CompositionInfo := struct (λ p x, [
  field p "name" (comp_Name x); field p "compositeTypeRef" (comp_CompositeTypeRef x);
  field p "mode" (comp_Mode x); omitempty p "pipeline" (comp_Pipeline x);
  omitempty p "resources" (comp_Resources x); field p "source" (comp_Source x);
  omitempty p "owningApp" (comp_OwningApp x)]).
#[export] Instance wire_ResourceInfo : Wire ResourceInfo := struct (λ p x, [
  field p "apiVersion" (ri_APIVersion x); field p "kind" (ri_Kind x); field p "name" (ri_Name x);
  omitempty p "namespace" (ri_Namespace x); omitempty p "annotations" (ri_Annotations x);
  omitempty p "labels" (ri_Labels x); field p "source" (ri_Source x); omitempty p "raw" (ri_Raw x);
  omitempty p "provenance" (ri_Provenance x); omitempty p "owningApp" (ri_OwningApp x)]).
#[export] Instance wire_SyncWaveEntry : Wire SyncWaveEntry := struct (λ p x, [
  field p "kind" (swe_Kind x); field p "name" (swe_Name x); field p "wave" (swe_Wave x)]).
#[export] Instance wire_ArgoHelmParam : Wire ArgoHelmParam := struct (λ p x, [
  field p "name" (hp_Name x); field p "value" (hp_Value x)]).
#[export] Instance wire_ArgoHelmSource : Wire ArgoHelmSource := struct (λ p x, [
  omitempty p "valueFiles" (hs_ValueFiles x); omitempty p "valuesObject" (hs_ValuesObject x);
  omitempty p "values" (hs_Values x); omitempty p "releaseName" (hs_ReleaseName x);
  omitempty p "parameters" (hs_Parameters x)]).
#[export] Instance wire_ArgoKustomizeSource : Wire ArgoKustomizeSource := struct (λ p x, [
  omitempty p "namePrefix" (ks_NamePrefix x); omitempty p "nameSuffix" (ks_NameSuffix x);
  omitempty p "images" (ks_Images x); omitempty p "commonLabels" (ks_CommonLabels x);
  omitempty p "commonAnnotations" (ks_CommonAnnotations x)]).
#[export] Instance wire_ArgoDirectorySource : Wire ArgoDirectorySource := struct (λ p x, [
  omitempty p "recurse" (ds_Recurse x); omitempty p "exclude" (ds_Exclude x);
  omitempty p "include" (ds_Include x)]).
#[export] Instance wire_ArgoPluginEnv : Wire ArgoPluginEnv := struct (λ p x, [
  field p "name" (pe_Name x); field p "value" (pe_Value x)]).
#[export] Instance wire_ArgoPluginSource : Wire ArgoPluginSource := struct (λ p x, [
  field p "name" (pls_Name x); omitempty p "env" (pls_Env x)]).
#[export] Instance wire_ArgoSource : Wire ArgoSource := struct (λ p x, [
  field p "repoURL" (as_RepoURL x); omitempty p "path" (as_Path x);
  omitempty p "targetRevision" (as_TargetRevision x); omitempty p "chart" (as_Chart x);
  omitempty p "ref" (as_Ref x); field p "renderer" (as_Renderer x); omitempty p "helm" (as_Helm x);
  omitempty p "kustomize" (as_Kustomize x); omitempty p "directory" (as_Directory x);
  omitempty p "plugin" (as_Plugin x)]).
#[export] Instance wire_ArgoDestination : Wire ArgoDestination := struct (λ p x, [
  omitempty p "server" (dest_Server x); omitempty p "name" (dest_Name x);
  omitempty p "namespace" (dest_Namespace x)]).
#[export] Instance wire_ArgoAutomatedSync : Wire ArgoAutomatedSync := struct (λ p x, [
  field p "prune" (au_Prune x); field p "selfHeal" (au_SelfHeal x)]).
#[export] Instance wire_ArgoSyncOptions : Wire ArgoSyncOptions := struct (λ p x, [
  omitempty p "replace" (so_Replace x); omitempty p "serverSideApply" (so_ServerSideApply x);
  omitempty p "prune" (so_Prune x); omitempty p "pruneLast" (so_PruneLast x);
  omitempty p "createNamespace" (so_CreateNamespace x);
  omitempty p "applyOutOfSyncOnly" (so_ApplyOutOfSyncOnly x); omitempty p "validate" (so_Validate x);
  omitempty p "failOnSharedResource" (so_FailOnSharedResource x);
  omitempty p "respectIgnoreDifferences" (so_RespectIgnoreDifferences x)]).
#[export] Instance wire_ArgoRetryPolicy : Wire ArgoRetryPolicy := struct (λ p x, [
  omitempty p "limit" (rp_Limit x); omitempty p "backoffDurationSec" (rp_BackoffDurationSec x);
  omitempty p "backoffMaxDurationSec" (rp_BackoffMaxDurationSec x);
  omitempty p "backoffFactor" (rp_BackoffFactor x)]).
#[export] Instance wire_ArgoSyncPolicy : Wire ArgoSyncPolicy := struct (λ p x, [
  omitempty p "automated" (sp_Automated x); field p "syncOptions" (sp_SyncOptions x);
  omitempty p "retry" (sp_Retry x);
  omitempty p "preserveResourcesOnDeletion" (sp_PreserveResourcesOnDeletion x)]).
#[export] Instance wire_ArgoIgnoreDiff : Wire ArgoIgnoreDiff := struct (λ p x, [
  omitempty p "group" (igd_Group x); omitempty p "kind" (igd_Kind x); omitempty p "name" (igd_Name x);
  omitempty p "namespace" (igd_Namespace x); omitempty p "jsonPointers" (igd_JSONPointers x);
  omitempty p "jqPathExpressions" (igd_JQPathExpressions x);
  omitempty p "managedFieldsManagers" (igd_ManagedFieldsManagers x)]).
#[export] Instance wire_ResourceRef : Wire ResourceRef := struct (λ p x, [
  field p "apiVersion" (rr_APIVersion x); field p "kind" (rr_Kind x); field p "name" (rr_Name x);
  omitempty p "namespace" (rr_Namespace x)]).
#[export] Instance wire_ArgoHook : Wire ArgoHook := struct (λ p x, [
  field p "phase" (hk_Phase x); omitempty p "deletePolicy" (hk_DeletePolicy x);
  field p "resource" (hk_Resource x); field p "wave" (hk_Wave x)]).
#[export] Instance wire_ArgoApplication : Wire ArgoApplication := struct (λ p x, [
  field p "name" (app_Name x); omitempty p "namespace" (app_Namespace x);
  field p "trackingMode" (app_TrackingMode x); field p "syncWaves" (app_SyncWaves x);
  field p "source" (app_Source x); omitempty p "project" (app_Project x);
  omitempty p "sources" (app_Sources x); field p "destination" (app_Destination x);
  field p "syncPolicy" (app_SyncPolicy x); omitempty p "ignoreDifferences" (app_IgnoreDifferences x);
  omitempty p "hooks" (app_Hooks x); omitempty p "finalizers" (app_Finalizers x);
  omitempty p "annotations" (app_Annotations x)]).
#[export] Instance wire_ArgoAppSetGitDir : Wire ArgoAppSetGitDir := struct (λ p x, [
  field p "path" (gd_Path x); omitempty p "exclude" (gd_Exclude x)]).
#[export] Instance wire_ArgoAppSetGitFile : Wire ArgoAppSetGitFile := struct (λ p x, [
  field p "path" (gf_Path x)]).
#[export] Instance wire_ArgoAppSetGitGenerator : Wire ArgoAppSetGitGenerator := struct (λ p x, [
  field p "repoURL" (gg_RepoURL x); omitempty p "revision" (gg_Revision x);
  omitempty p "directories" (gg_Directories x); omitempty p "files" (gg_Files x)]).
(** A generator holds generators. *)
Fixpoint wire_generator (p : printers) (x : ArgoAppSetGenerator) : option json :=
  members [
    field p "kind" (gen_Kind x); omitempty p "listElements" (gen_ListElements x);
    omitempty p "clusterSelector" (gen_ClusterSelector x); omitempty p "git" (gen_Git x);
    match gen_MatrixGenerators x with [] => Some [] | l => (λ js, [("matrixGenerators", JArr js)]) <$> mapM (wire_generator p) l end;
    match gen_MergeGenerators x with [] => Some [] | l => (λ js, [("mergeGenerators", JArr js)]) <$> mapM (wire_generator p) l end;
    omitempty p "mergeKeys" (gen_MergeKeys x)].
#[export] Instance wire_ArgoAppSetGenerator : Wire ArgoAppSetGenerator := {| wire := wire_generator; is_empty _ := false |}.
#[export] Instance wire_ArgoAppSetTemplate : Wire ArgoAppSetTemplate := struct (λ p x, [
  omitempty p "name" (tm_Name x); omitempty p "namespace" (tm_Namespace x);
  omitempty p "finalizers" (tm_Finalizers x); omitempty p "project" (tm_Project x);
  omitempty p "source" (tm_Source x); omitempty p "sources" (tm_Sources x);
  field p "destination" (tm_Destination x); field p "syncPolicy" (tm_SyncPolicy x);
  omitempty p "ignoreDifferences" (tm_IgnoreDifferences x)]).
#[export] Instance wire_ArgoAppSetSyncPolicy : Wire ArgoAppSetSyncPolicy := struct (λ p x, [
  omitempty p "preserveResourcesOnDeletion" (asp_PreserveResourcesOnDeletion x)]).
#[export] Instance wire_ArgoApplicationSet : Wire ArgoApplicationSet := struct (λ p x, [
  field p "name" (aset_Name x); field p "source" (aset_Source x); field p "generators" (aset_Generators x);
  field p "template" (aset_Template x); field p "appsetSyncPolicy" (aset_SyncPolicy x)]).
#[export] Instance wire_ArgoProjectDestination : Wire ArgoProjectDestination := struct (λ p x, [
  omitempty p "server" (pd_Server x); omitempty p "name" (pd_Name x); omitempty p "namespace" (pd_Namespace x)]).
#[export] Instance wire_ArgoGroupKind : Wire ArgoGroupKind := struct (λ p x, [
  field p "group" (gk_Group x); field p "kind" (gk_Kind x)]).
#[export] Instance wire_ArgoSyncWindow : Wire ArgoSyncWindow := struct (λ p x, [
  field p "kind" (sw_Kind x); field p "schedule" (sw_Schedule x); field p "duration" (sw_Duration x);
  omitempty p "applications" (sw_Applications x); omitempty p "namespaces" (sw_Namespaces x);
  omitempty p "clusters" (sw_Clusters x)]).
#[export] Instance wire_ArgoAppProject : Wire ArgoAppProject := struct (λ p x, [
  field p "name" (ap_Name x); field p "source" (ap_Source x); omitempty p "sourceRepos" (ap_SourceRepos x);
  omitempty p "destinations" (ap_Destinations x);
  omitempty p "clusterResourceWhitelist" (ap_ClusterResourceWhitelist x);
  omitempty p "clusterResourceWhitelistSet" (ap_ClusterResourceWhitelistSet x);
  omitempty p "clusterResourceBlacklist" (ap_ClusterResourceBlacklist x);
  omitempty p "namespaceResourceWhitelist" (ap_NamespaceResourceWhitelist x);
  omitempty p "namespaceResourceWhitelistSet" (ap_NamespaceResourceWhitelistSet x);
  omitempty p "namespaceResourceBlacklist" (ap_NamespaceResourceBlacklist x);
  omitempty p "syncWindows" (ap_SyncWindows x); omitempty p "signatureKeys" (ap_SignatureKeys x)]).
#[export] Instance wire_SchemaInfo : Wire SchemaInfo := struct (λ p x, [
  field p "digest" (si_Digest x); field p "schema" (si_Schema x)]).
#[export] Instance wire_ObligationRef : Wire ObligationRef := struct (λ p x, [
  field p "id" (ob_ID x); field p "category" (ob_Category x); field p "generator" (ob_Generator x)]).
#[export] Instance wire_Diagnostic : Wire Diagnostic := struct (λ p x, [
  field p "code" (dg_Code x); field p "severity" (dg_Severity x); field p "message" (dg_Message x);
  field p "source" (dg_Source x); omitempty p "detail" (dg_Detail x); omitempty p "fix" (dg_Fix x);
  omitempty p "related" (dg_Related x); omitempty p "obligation" (dg_Obligation x)]).

(** ** Types whose values all encode

    Nothing of them is a decoded document. *)
Class WireTotal (A : Type) `{!Wire A} : Prop := wire_total (p : printers) (a : A) : is_Some (wire p a).

Lemma mapM_total {A B} (f : A → option B) l : (∀ x, x ∈ l → is_Some (f x)) → is_Some (mapM f l).
Proof.
  induction l as [|x l IH]; intros H; [by eexists|]. cbn [mapM]. destruct (H x) as [y ->]; [by left|].
  destruct IH as [ys ->]; [intros z Hz; apply H; by right|]. by eexists.
Qed.
Lemma members_total fs : Forall is_Some fs → is_Some (members fs).
Proof.
  rewrite Forall_forall. intros H. unfold members. destruct (mapM_total id fs) as [ms ->]; [exact H|]. by eexists.
Qed.
Lemma field_total {A} `{WireTotal A} p name (a : A) : is_Some (field p name a).
Proof. unfold field. destruct (wire_total p a) as [j ->]. by eexists. Qed.
Lemma omitempty_total {A} `{WireTotal A} p name (a : A) : is_Some (omitempty p name a).
Proof. unfold omitempty. destruct (is_empty a); [by eexists|apply field_total]. Qed.
Ltac solve_total :=
  intros ??; apply members_total;
  repeat (apply Forall_cons; split); [first [apply field_total | apply omitempty_total | by eexists]..|apply Forall_nil_2].

#[export] Instance total_string : WireTotal string.
Proof. intros p s. by eexists. Qed.
#[export] Instance total_int : WireTotal Z.
Proof. intros p z. by eexists. Qed.
#[export] Instance total_bool : WireTotal bool.
Proof. intros p b. by eexists. Qed.
#[export] Instance total_Severity : WireTotal Severity.
Proof. intros p s. by eexists. Qed.
#[export] Instance total_pointer {A} `{WireTotal A} : WireTotal (option A).
Proof. intros p [a|]; [exact (wire_total p a)|by eexists]. Qed.
#[export] Instance total_list {A} `{WireTotal A} : WireTotal (list A).
Proof.
  intros p l. cbn. unfold wire_array. destruct l as [|x l]; [by eexists|].
  destruct (mapM_total (wire p) (x :: l)) as [js ->]; [|by eexists]. intros y _. apply wire_total.
Qed.
#[export] Instance total_SourceLocation : WireTotal SourceLocation.
Proof. solve_total. Qed.
#[export] Instance total_ObligationRef : WireTotal ObligationRef.
Proof. solve_total. Qed.
#[export] Instance total_Diagnostic : WireTotal Diagnostic.
Proof. solve_total. Qed.
#[export] Instance total_CRDVersion : WireTotal CRDVersion.
Proof. solve_total. Qed.
#[export] Instance total_ConversionInfo : WireTotal ConversionInfo.
Proof. solve_total. Qed.
#[export] Instance total_CRDInfo : WireTotal CRDInfo.
Proof. solve_total. Qed.

(** The tree of a decoded document prints as Json.v's text. *)
Lemma wire_value_list p l : wire_value p (VList l) = JArr <$> mapM (wire_value p) l.
Proof.
  simpl. apply (f_equal (fmap _)). induction l as [|v l IH]; simpl; [done|]. rewrite IH.
  by destruct (wire_value p v), (mapM _ l).
Qed.
Lemma wire_value_map p m : wire_value p (VMap m) = wire_members (wire_value p) m.
Proof.
  unfold wire_members. simpl. apply (f_equal (fmap _)). induction m as [|[k v] m IH]; simpl; [done|]. rewrite IH.
  by destruct (wire_value p v), (mapM _ m).
Qed.
Lemma mapM_compact {A B C} (f : A → option B) (g : A → option C) (h : B → C) l :
  Forall (λ x, h <$> f x = g x) l → map h <$> mapM f l = mapM g l.
Proof.
  induction 1 as [|x l Hx _ IH]; [done|]. cbn [mapM]. rewrite <- Hx, <- IH. by destruct (f x), (mapM f l).
Qed.
Theorem wire_value_compact p v : compact <$> wire_value p v = json_value (pt_float p) (pt_other p) v.
Proof.
  induction v as [| | | |f|s|l IH|m IH|s] using value_ind'; try done.
  - simpl. by destruct (json_float _ _).
  - rewrite wire_value_list, json_value_list, <- (mapM_compact (wire_value p) _ compact) by done.
    by destruct (mapM (wire_value p) l).
  - rewrite wire_value_map, json_value_map. unfold wire_members.
    set (h := λ kv : string * json, (fst kv, compact (snd kv))).
    rewrite <- (mapM_compact (λ kv, pair (fst kv) <$> wire_value p (snd kv)) _ h).
    + destruct (mapM _ m) as [ms|]; simpl; [|done]. unfold encode_object. do 2 f_equal.
      change (map h ?l) with (h <$> l). by rewrite (sort_slice_map key_before).
    + eapply Forall_impl; [exact IH|]. intros [k v] Hv. unfold encode_member. cbn [fst snd] in *. rewrite <- Hv.
      by destruct (wire_value p v).
  - simpl. by destruct (pt_other p s).
Qed.
