(* ===== verification/Snapshot.v ===== *)
(** Snapshots (src/pkg/snapshot/snapshot.go): taking one from a World and giving the
    World back, the digest over its sections, the printed diff of two, and the merge of
    a snapshot into a World of manifests (src/cmd/xpc/main.go,
    mergeSnapshotIntoWorld).

    A time is a number of nanoseconds; its two texts, the JSON encodings of floats and
    of foreign values and the iteration order of the maps of the code are
    parameters. *)
From Stdlib Require Import ZArith Floats.SpecFloat.
From stdpp Require Import fin_maps fin_sets.
From S2P Require Import Prelude GoStrings Yaml Types Sha256 Json Wire.

#[local] Open Scope string_scope.
#[local] Open Scope list_scope.

(** ** Data *)

Record ProviderStatus : Type := MkProviderStatus { pst_ProviderInfo : ProviderInfo; pst_Version : string; pst_Healthy : bool }.
Record FunctionStatus : Type := MkFunctionStatus { fst_FunctionInfo : FunctionInfo; fst_Version : string; fst_Healthy : bool }.
Record Snapshot : Type := MkSnapshot {
  sn_Version : Z;
  sn_Digest : string;
  sn_Timestamp : Z;
  sn_ClusterName : string;
  sn_KubernetesVersion : string;
  sn_CRDs : list CRDInfo;
  sn_XRDs : list CRDInfo;
  sn_Providers : list ProviderStatus;
  sn_Functions : list FunctionStatus;
  sn_Configurations : list ConfigurationInfo;
  sn_Compositions : list CompositionInfo;
  sn_ArgoTrackingMode : string;
  sn_Schemas : gmap string SchemaInfo;
  sn_Resources : list ResourceInfo;
  sn_ArgoApps : list ArgoApplication;
  sn_ArgoAppSets : list ArgoApplicationSet;
  sn_ArgoProjects : list ArgoAppProject;
  sn_SigningIdentity : string;
  sn_Signature : string;
}.
Definition New (now : Z) (clusterName : string) : Snapshot := {|
  sn_Version := 1; sn_Digest := ""; sn_Timestamp := now; sn_ClusterName := clusterName; sn_KubernetesVersion := "";
  sn_CRDs := []; sn_XRDs := []; sn_Providers := []; sn_Functions := []; sn_Configurations := []; sn_Compositions := [];
  sn_ArgoTrackingMode := ""; sn_Schemas := ∅; sn_Resources := []; sn_ArgoApps := []; sn_ArgoAppSets := [];
  sn_ArgoProjects := []; sn_SigningIdentity := ""; sn_Signature := "" |}.

(** An embedded struct writes its fields among those of the struct around it. *)
Definition embedded (o : option json) : option (list (string * json)) :=
  match o with Some (JObj m) => Some m | _ => None end.
#[export] Instance wire_ProviderStatus : Wire ProviderStatus := struct (λ p x, [
  embedded (wire p (pst_ProviderInfo x)); omitempty p "version" (pst_Version x); field p "healthy" (pst_Healthy x)]).
#[export] Instance wire_FunctionStatus : Wire FunctionStatus := struct (λ p x, [
  embedded (wire p (fst_FunctionInfo x)); omitempty p "version" (fst_Version x); field p "healthy" (fst_Healthy x)]).

(** ** The digest *)

Definition crdKey (c : CRDInfo) : string := crd_Group c +:+ "/" +:+ crd_Kind c.
Definition crd_keys (c : CRDInfo) : list string := [crdKey c].
Definition provider_keys (p : ProviderStatus) : list string := [pr_Name (pst_ProviderInfo p)].
Definition function_keys (f : FunctionStatus) : list string := [fn_Name (fst_FunctionInfo f)].
Definition composition_keys (c : CompositionInfo) : list string := [comp_Name c].
Definition resource_keys (r : ResourceInfo) : list string := [ri_APIVersion r; ri_Kind r; ri_Namespace r; ri_Name r].
Definition app_keys (a : ArgoApplication) : list string := [app_Namespace a; app_Name a].
Definition appset_keys (a : ArgoApplicationSet) : list string := [tm_Namespace (aset_Template a); aset_Name a].
Definition project_keys (p : ArgoAppProject) : list string := [ap_Name p].

Section digest.
Context (p : printers).

(** A section: its elements sorted by their keys; one that does not encode adds nothing. *)
Definition section {A} `{Wire A} (keys : A → list string) (l : list A) : string :=
  join "" (map (λ x, default "" (marshal p x)) (sort_slice (λ a b, keys_lt (keys a) (keys b)) l)).
Definition digest_content (s : Snapshot) : string := join "" [
  "v" +:+ itoa (sn_Version s); sn_ClusterName s; sn_KubernetesVersion s;
  section crd_keys (sn_CRDs s); section crd_keys (sn_XRDs s);
  section provider_keys (sn_Providers s); section function_keys (sn_Functions s);
  section composition_keys (sn_Compositions s); sn_ArgoTrackingMode s;
  section resource_keys (sn_Resources s); section app_keys (sn_ArgoApps s);
  section appset_keys (sn_ArgoAppSets s); section project_keys (sn_ArgoProjects s)].
Definition computeDigest (s : Snapshot) : string := hashBytes (digest_content s).
Definition ComputeDigest (s : Snapshot) : Snapshot := {| s with sn_Digest := computeDigest s |}.
Definition Verify (s : Snapshot) : bool := String.eqb (computeDigest s) (sn_Digest s).

(** ** Worlds *)

Definition FromWorldWithOptions (now : Z) (w : World) (clusterName : string) (include_resources : bool) : Snapshot :=
  let s := New now clusterName in
  let s := {| s with
    sn_CRDs := w_CRDs w; sn_XRDs := w_XRDs w; sn_Compositions := w_Compositions w; sn_Schemas := w_Schemas w;
    sn_Providers := map (λ p, MkProviderStatus p "" true) (w_Providers w);
    sn_Functions := map (λ f, MkFunctionStatus f "" true) (w_Functions w);
    sn_Configurations := w_Configurations w;
    sn_ArgoTrackingMode := match w_ArgoApps w with [] => "" | a :: _ => app_TrackingMode a end |} in
  let s := if include_resources then
             {| s with sn_Resources := w_Resources w; sn_ArgoApps := w_ArgoApps w;
                       sn_ArgoAppSets := w_ArgoAppSets w; sn_ArgoProjects := w_ArgoProjects w |}
           else s in
  ComputeDigest s.
Definition FromWorld (now : Z) (w : World) (clusterName : string) : Snapshot := FromWorldWithOptions now w clusterName false.
End digest.

Definition ToWorld (s : Snapshot) : World := let w := zero_World in {| w with
  w_CRDs := sn_CRDs s; w_XRDs := sn_XRDs s; w_Compositions := sn_Compositions s; w_Schemas := sn_Schemas s;
  w_Providers := map pst_ProviderInfo (sn_Providers s); w_Functions := map fst_FunctionInfo (sn_Functions s);
  w_Configurations := sn_Configurations s; w_Resources := sn_Resources s; w_ArgoApps := sn_ArgoApps s;
  w_ArgoAppSets := sn_ArgoAppSets s; w_ArgoProjects := sn_ArgoProjects s |}.

(** [IsStale], and the default: 15 minutes. *)
Definition SnapshotTTL : Z := (15 * 60 * 1000000000)%Z.
Definition IsStale (now ttl : Z) (s : Snapshot) : bool := Z.ltb ttl (now - sn_Timestamp s).

(** [Save]: the snapshot, given a digest if it had none, and the text of its file, or
    None when it does not encode.  [time_json] is the JSON text of a time. *)
Definition snapshot_json (time_json : Z → string) (p : printers) (s : Snapshot) : option json := members [
  field p "version" (sn_Version s); field p "digest" (sn_Digest s);
  Some [("timestamp", JText (time_json (sn_Timestamp s)))]; field p "clusterName" (sn_ClusterName s);
  omitempty p "kubernetesVersion" (sn_KubernetesVersion s); field p "crds" (sn_CRDs s); field p "xrds" (sn_XRDs s);
  field p "providers" (sn_Providers s); field p "functions" (sn_Functions s);
  field p "configurations" (sn_Configurations s); field p "compositions" (sn_Compositions s);
  omitempty p "argoTrackingMode" (sn_ArgoTrackingMode s); omitempty p "schemas" (sn_Schemas s);
  omitempty p "resources" (sn_Resources s); omitempty p "argo_apps" (sn_ArgoApps s);
  omitempty p "argo_app_sets" (sn_ArgoAppSets s); omitempty p "argo_projects" (sn_ArgoProjects s);
  omitempty p "signingIdentity" (sn_SigningIdentity s); omitempty p "signature" (sn_Signature s)].
Definition Save (time_json : Z → string) (p : printers) (s : Snapshot) : Snapshot * option string :=
  let s := if String.eqb (sn_Digest s) "" then ComputeDigest p s else s in
  (s, indented "" <$> snapshot_json time_json p s).

(** ** The diff of two snapshots *)

(** A slice indexed by a key: the last element of a key wins. *)
Definition index_by {A} (key : A → string) (l : list A) : gmap string A :=
  foldl (λ m a, <[key a := a]> m) ∅ l.
Definition pst_Name (p : ProviderStatus) : string := pr_Name (pst_ProviderInfo p).
Definition pst_Package (p : ProviderStatus) : string := pr_Package (pst_ProviderInfo p).
Definition fst_Name (f : FunctionStatus) : string := fn_Name (fst_FunctionInfo f).
Definition fst_Package (f : FunctionStatus) : string := fn_Package (fst_FunctionInfo f).
Definition truncDigest (s : string) : string := if Nat.ltb 20 (String.length s) then str_take 20 s else s.
Definition changed (label before after : string) : string := label +:+ ": " +:+ before +:+ " → " +:+ after.
Definition if_differ (a b line : string) : list string := if String.eqb a b then [] else [line].
Definition bool_text (b : bool) : string := if b then "true" else "false".

Section diff.
(** [rfc3339] prints a time; [order i m] is the order in which the i-th loop of the
    function meets the entries of its map. *)
Context (rfc3339 : Z → string) (order : ∀ A, nat → gmap string A → list (string * A)).

Definition crd_lines (a : gmap string CRDInfo) (kb : string * CRDInfo) : list string :=
  let '(key, b) := kb in
  match a !! key with
  | None => ["  + CRD " +:+ key]
  | Some a =>
      if_differ (StorageVersion a) (StorageVersion b)
        (changed ("  ~ CRD " +:+ key +:+ " storage") (StorageVersion a) (StorageVersion b)) ++
      if_differ (ci_CostClass (crd_Conversion a)) (ci_CostClass (crd_Conversion b))
        (changed ("  ~ CRD " +:+ key +:+ " conversion") (ci_CostClass (crd_Conversion a)) (ci_CostClass (crd_Conversion b)))
  end.
Definition provider_lines (a : gmap string ProviderStatus) (kb : string * ProviderStatus) : list string :=
  let '(name, b) := kb in
  match a !! name with
  | None => ["  + Provider " +:+ name +:+ " (" +:+ pst_Package b +:+ ")"]
  | Some a =>
      if_differ (pst_Package a) (pst_Package b) (changed ("  ~ Provider " +:+ name) (pst_Package a) (pst_Package b)) ++
      (if Bool.eqb (pst_Healthy a) (pst_Healthy b) then []
       else [changed ("  ~ Provider " +:+ name +:+ " healthy") (bool_text (pst_Healthy a)) (bool_text (pst_Healthy b))])
  end.
Definition function_lines (a : gmap string FunctionStatus) (kb : string * FunctionStatus) : list string :=
  let '(name, b) := kb in
  match a !! name with
  | None => ["  + Function " +:+ name +:+ " (" +:+ fst_Package b +:+ ")"]
  | Some a => if_differ (fst_Package a) (fst_Package b) (changed ("  ~ Function " +:+ name) (fst_Package a) (fst_Package b))
  end.
Definition removed_line {A B} (label : string) (b : gmap string B) (ka : string * A) : list string :=
  match b !! fst ka with None => ["  - " +:+ label +:+ " " +:+ fst ka] | Some _ => [] end.
(** The two loops over one pair of indexes. *)
Definition diff_section {A} (i : nat) (label : string) (lines : gmap string A → string * A → list string)
    (a b : gmap string A) : list string :=
  flat_map (lines a) (order A i b) ++ flat_map (removed_line label b) (order A (S i) a).
Definition diff_lines (a b : Snapshot) : list string :=
  ["Snapshot diff: " +:+ truncDigest (sn_Digest a) +:+ " vs " +:+ truncDigest (sn_Digest b);
   changed "  Cluster" (sn_ClusterName a) (sn_ClusterName b);
   changed "  Time" (rfc3339 (sn_Timestamp a)) (rfc3339 (sn_Timestamp b))] ++
  if_differ (sn_KubernetesVersion a) (sn_KubernetesVersion b)
    (changed "  K8s version" (sn_KubernetesVersion a) (sn_KubernetesVersion b)) ++
  diff_section 0 "CRD" crd_lines (index_by crdKey (sn_CRDs a)) (index_by crdKey (sn_CRDs b)) ++
  diff_section 2 "Provider" provider_lines (index_by pst_Name (sn_Providers a)) (index_by pst_Name (sn_Providers b)) ++
  diff_section 4 "Function" function_lines (index_by fst_Name (sn_Functions a)) (index_by fst_Name (sn_Functions b)) ++
  if_differ (sn_ArgoTrackingMode a) (sn_ArgoTrackingMode b)
    (changed "  Argo tracking" (sn_ArgoTrackingMode a) (sn_ArgoTrackingMode b)).
Definition Diff (a b : Snapshot) : string := join "" (map (λ line, line +:+ nl) (diff_lines a b)).
End diff.

(** ** Merging a snapshot into a World *)

(** The elements of [new] whose key no element of [have] has: the loop tests the index
    of the World as it was before. *)
Definition merge_by {A} (key : A → string) (have new : list A) : list A :=
  have ++ filter (λ x, key x ∉ map key have) new.
Definition bar (a b : string) : string := a +:+ "|" +:+ b.
Definition resource_id (r : ResourceInfo) : string :=
  bar (ri_APIVersion r) (bar (ri_Kind r) (bar (ri_Namespace r) (ri_Name r))).
Definition app_id (a : ArgoApplication) : string := bar (app_Namespace a) (app_Name a).
Definition appset_id (a : ArgoApplicationSet) : string := bar (tm_Namespace (aset_Template a)) (aset_Name a).
Definition mergeSnapshotIntoWorld (w : World) (snap : Snapshot) : World := {| w with
  w_SchemaIndex := None; w_IgnoreDiffEntries := None;
  w_CRDs := merge_by crdKey (w_CRDs w) (sn_CRDs snap);
  w_XRDs := merge_by crdKey (w_XRDs w) (sn_XRDs snap);
  w_Functions := merge_by fn_Name (w_Functions w) (map fst_FunctionInfo (sn_Functions snap));
  w_Providers := merge_by pr_Name (w_Providers w) (map pst_ProviderInfo (sn_Providers snap));
  w_Schemas := w_Schemas w ∪ sn_Schemas snap;
  w_Resources := merge_by resource_id (w_Resources w) (sn_Resources snap);
  w_ArgoApps := merge_by app_id (w_ArgoApps w) (sn_ArgoApps snap);
  w_ArgoAppSets := merge_by appset_id (w_ArgoAppSets w) (sn_ArgoAppSets snap);
  w_ArgoProjects := merge_by ap_Name (w_ArgoProjects w) (sn_ArgoProjects snap) |}.

(** ** Lemmas *)

Lemma section_perm p {A} `{Wire A} (keys : A → list string) n l k :
  (∀ x, length (keys x) = n) → NoDup (map keys l) → l ≡ₚ k → section p keys l = section p keys k.
Proof.
  intros Hn Hnd Hp. unfold section. f_equal. f_equal.
  assert (Ho : KeyOrder (λ a b : A, keys_lt (keys a) (keys b)) keys) by (split; [done|intros a b; by rewrite !Hn]).
  apply sort_slice_perm_eq; [apply _| |done]. intros x y Hx Hy H1 H2.
  apply (NoDup_fmap_elem keys l); try done. apply keys_lt_total; [by rewrite !Hn|done..].
Qed.

Lemma app_eq_self {A} (l k : list A) : l ++ k = l ↔ k = [].
Proof. split; [intros H; apply (app_inv_head l); by rewrite app_nil_r|intros ->; by rewrite app_nil_r]. Qed.
Lemma flat_map_nil {A B} (f : A → list B) l : flat_map f l = [] ↔ Forall (λ x, f x = []) l.
Proof.
  induction l as [|x l IH]; simpl; [by split|]. rewrite Forall_cons, <- IH. split; [apply app_nil|].
  intros [-> ->]. done.
Qed.
Lemma if_differ_nil a b line : if_differ a b line = [] ↔ a = b.
Proof. unfold if_differ. destruct (String.eqb_spec a b); by split. Qed.

Section order.
Context (order : ∀ A, nat → gmap string A → list (string * A))
  (order_perm : ∀ A i m, order A i m ≡ₚ map_to_list m).

Lemma order_forall {A} i (m : gmap string A) (P : string * A → Prop) :
  Forall P (order A i m) ↔ ∀ k x, m !! k = Some x → P (k, x).
Proof.
  rewrite Forall_forall. setoid_rewrite order_perm. split.
  - intros H k x Hk. apply H. by apply elem_of_map_to_list.
  - intros H [k x] Hk%elem_of_map_to_list. by apply H.
Qed.
Lemma diff_section_nil {A O} (observe : A → O) i label (lines : gmap string A → string * A → list string) a b :
  (∀ k y, lines a (k, y) = [] ↔ observe <$> a !! k = Some (observe y)) →
  diff_section order i label lines a b = [] ↔ ∀ k, observe <$> a !! k = observe <$> b !! k.
Proof.
  intros Hl. unfold diff_section. split.
  - intros [H1 H2]%app_nil k. apply flat_map_nil in H1, H2. rewrite order_forall in H1, H2.
    destruct (b !! k) as [y|] eqn:Eb; [by apply Hl, H1|]. destruct (a !! k) as [x|] eqn:Ea; [|done].
    specialize (H2 k x Ea). unfold removed_line in H2. cbn [fst] in H2. by rewrite Eb in H2.
  - intros H. apply app_nil. split; apply flat_map_nil; apply order_forall; intros k x Hk.
    + apply Hl. by rewrite H, Hk.
    + unfold removed_line. cbn [fst]. specialize (H k). rewrite Hk in H. by destruct (b !! k).
Qed.
End order.
Lemma diff_section_perm order order' {A} i label (lines : gmap string A → string * A → list string) a b :
  (∀ A i m, order A i m ≡ₚ map_to_list m) → (∀ A i m, order' A i m ≡ₚ map_to_list m) →
  diff_section order i label lines a b ≡ₚ diff_section order' i label lines a b.
Proof.
  intros H1 H2. unfold diff_section. rewrite (H1 A i b), (H1 A (S i) a), (H2 A i b), (H2 A (S i) a). done.
Qed.

(** What the diff compares of two elements with one key. *)
Definition observe_crd (c : CRDInfo) : string * string := (StorageVersion c, ci_CostClass (crd_Conversion c)).
Definition observe_provider (p : ProviderStatus) : string * bool := (pst_Package p, pst_Healthy p).
Lemma crd_lines_nil a k y : crd_lines a (k, y) = [] ↔ observe_crd <$> a !! k = Some (observe_crd y).
Proof.
  unfold crd_lines, observe_crd. destruct (a !! k) as [x|]; [|by split]. rewrite app_nil, !if_differ_nil. simpl.
  split; [by intros [-> ->]|by intros [= -> ->]].
Qed.
Lemma provider_lines_nil a k y : provider_lines a (k, y) = [] ↔ observe_provider <$> a !! k = Some (observe_provider y).
Proof.
  unfold provider_lines, observe_provider. destruct (a !! k) as [x|]; [|by split]. rewrite app_nil, if_differ_nil. simpl.
  destruct (Bool.eqb_spec (pst_Healthy x) (pst_Healthy y)) as [->|Hne].
  - split; [by intros [-> _]|by intros [= ->]].
  - split; [by intros [_ ?]|by intros [= _ ?]].
Qed.
Lemma function_lines_nil a k y : function_lines a (k, y) = [] ↔ fst_Package <$> a !! k = Some (fst_Package y).
Proof.
  unfold function_lines. destruct (a !! k) as [x|]; [|by split]. rewrite if_differ_nil. simpl.
  split; [by intros ->|by intros [= ->]].
Qed.

(** The elements of one key, of a merge. *)
Definition with_key {A} (key : A → string) (k : string) : list A → list A := filter (λ x, key x = k).
Definition merged {A} (key : A → string) (have new out : list A) : Prop :=
  ∀ k, with_key key k out = if decide (k ∈ map key have) then with_key key k have else with_key key k new.
Lemma with_key_nil {A} (key : A → string) k l : k ∉ map key l → with_key key k l = [].
Proof.
  intros Hk. unfold with_key. induction l as [|x l IH]; [done|]. cbn [map] in Hk. apply not_elem_of_cons in Hk as [H1 H2].
  rewrite filter_cons, decide_False by congruence. by apply IH.
Qed.
Lemma merge_by_merged {A} (key : A → string) have new : merged key have new (merge_by key have new).
Proof.
  intros k. unfold merge_by, with_key. rewrite filter_app. fold (with_key key k have).
  assert (H : filter (λ x, key x = k) (filter (λ x, key x ∉ map key have) new) =
              if decide (k ∈ map key have) then [] else with_key key k new).
  { rewrite list_filter_filter. unfold with_key. destruct (decide (k ∈ map key have)) as [Hk|Hk].
    - induction new as [|x new IH]; [done|]. rewrite filter_cons, decide_False; [done|]. by intros [-> ?].
    - apply list_filter_iff. intros x. split; [by intros [? _]|by intros ->]. }
  rewrite H. destruct (decide _); [by rewrite app_nil_r|]. by rewrite with_key_nil.
Qed.
Lemma merge_by_again {A} (key : A → string) have new :
  merge_by key (merge_by key have new) new = merge_by key have new.
Proof.
  unfold merge_by at 1. apply app_eq_self.
  assert (H : ∀ x, x ∈ new → key x ∈ map key (merge_by key have new)).
  { intros x Hx. unfold merge_by. rewrite map_app. apply elem_of_app.
    destruct (decide (key x ∈ map key have)) as [Hk|Hk]; [by left|right]. apply list_elem_of_fmap_2, list_elem_of_filter. by split. }
  revert H. generalize (map key (merge_by key have new)) as ks. intros ks. induction new as [|x new IH]; intros H; [done|].
  rewrite filter_cons, decide_False; [apply IH; intros y Hy; apply H; by right|]. intros Hx. apply Hx, H. by left.
Qed.

(** ** Properties *)

(** A section with the same elements, told apart by their keys. *)
Definition same_section {A} (keys : A → list string) (l k : list A) : Prop := NoDup (map keys l) ∧ l ≡ₚ k.
Record same_content (s t : Snapshot) : Prop := MkSameContent {
  sc_Version : sn_Version s = sn_Version t;
  sc_ClusterName : sn_ClusterName s = sn_ClusterName t;
  sc_KubernetesVersion : sn_KubernetesVersion s = sn_KubernetesVersion t;
  sc_ArgoTrackingMode : sn_ArgoTrackingMode s = sn_ArgoTrackingMode t;
  sc_CRDs : same_section crd_keys (sn_CRDs s) (sn_CRDs t);
  sc_XRDs : same_section crd_keys (sn_XRDs s) (sn_XRDs t);
  sc_Providers : same_section provider_keys (sn_Providers s) (sn_Providers t);
  sc_Functions : same_section function_keys (sn_Functions s) (sn_Functions t);
  sc_Compositions : same_section composition_keys (sn_Compositions s) (sn_Compositions t);
  sc_Resources : same_section resource_keys (sn_Resources s) (sn_Resources t);
  sc_ArgoApps : same_section app_keys (sn_ArgoApps s) (sn_ArgoApps t);
  sc_ArgoAppSets : same_section appset_keys (sn_ArgoAppSets s) (sn_ArgoAppSets t);
  sc_ArgoProjects : same_section project_keys (sn_ArgoProjects s) (sn_ArgoProjects t) }.

(** The digest of a snapshot depends on its version, its names and the elements of nine
    of its sections, whatever order these are in, and on nothing else: neither the
    time and the signature nor the configurations and the schemas. *)
Theorem computeDigest_content p s t : same_content s t → computeDigest p s = computeDigest p t.
Proof.
  intros H. unfold computeDigest, digest_content. f_equal. f_equal.
  rewrite (sc_Version _ _ H), (sc_ClusterName _ _ H), (sc_KubernetesVersion _ _ H), (sc_ArgoTrackingMode _ _ H).
  rewrite (section_perm p crd_keys 1 (sn_CRDs s) (sn_CRDs t)) by (done || apply H).
  rewrite (section_perm p crd_keys 1 (sn_XRDs s) (sn_XRDs t)) by (done || apply H).
  rewrite (section_perm p provider_keys 1 (sn_Providers s) (sn_Providers t)) by (done || apply H).
  rewrite (section_perm p function_keys 1 (sn_Functions s) (sn_Functions t)) by (done || apply H).
  rewrite (section_perm p composition_keys 1 (sn_Compositions s) (sn_Compositions t)) by (done || apply H).
  rewrite (section_perm p resource_keys 4 (sn_Resources s) (sn_Resources t)) by (done || apply H).
  rewrite (section_perm p app_keys 2 (sn_ArgoApps s) (sn_ArgoApps t)) by (done || apply H).
  rewrite (section_perm p appset_keys 2 (sn_ArgoAppSets s) (sn_ArgoAppSets t)) by (done || apply H).
  rewrite (section_perm p project_keys 1 (sn_ArgoProjects s) (sn_ArgoProjects t)) by (done || apply H).
  done.
Qed.

(** A snapshot with its resources gives its World back, as far as it holds it, and the
    snapshot of that World is the snapshot again, with the same digest, which
    verifies. *)
Theorem FromWorld_ToWorld p now w clusterName :
  let s := FromWorldWithOptions p now w clusterName true in
  ToWorld s = (let z := zero_World in {| z with
    w_CRDs := w_CRDs w; w_XRDs := w_XRDs w; w_Compositions := w_Compositions w; w_Schemas := w_Schemas w;
    w_Providers := w_Providers w; w_Functions := w_Functions w; w_Configurations := w_Configurations w;
    w_Resources := w_Resources w; w_ArgoApps := w_ArgoApps w; w_ArgoAppSets := w_ArgoAppSets w;
    w_ArgoProjects := w_ArgoProjects w |}) ∧
  FromWorldWithOptions p now (ToWorld s) clusterName true = s ∧ Verify p s = true.
Proof.
  cbv zeta. assert (E : ToWorld (FromWorldWithOptions p now w clusterName true) = (let z := zero_World in {| z with
    w_CRDs := w_CRDs w; w_XRDs := w_XRDs w; w_Compositions := w_Compositions w; w_Schemas := w_Schemas w;
    w_Providers := w_Providers w; w_Functions := w_Functions w; w_Configurations := w_Configurations w;
    w_Resources := w_Resources w; w_ArgoApps := w_ArgoApps w; w_ArgoAppSets := w_ArgoAppSets w;
    w_ArgoProjects := w_ArgoProjects w |})).
  { unfold ToWorld, FromWorldWithOptions, ComputeDigest. cbn. rewrite !map_map. cbn. by rewrite !map_id. }
  split_and!; [exact E|by rewrite E|]. apply String.eqb_eq. reflexivity.
Qed.

(** The diff of two snapshots says nothing more than its header exactly when they agree
    on what it looks at: the versions, the tracking mode, and, for each CRD, provider
    and function by its key, its presence, its storage version and conversion class,
    its package and health; and the order in which the maps of the code are iterated
    changes nothing but the order of the lines. *)
Theorem diff_lines_spec rfc3339 order order' a b :
  (∀ A i m, order A i m ≡ₚ map_to_list m) → (∀ A i m, order' A i m ≡ₚ map_to_list m) →
  diff_lines rfc3339 order a b ≡ₚ diff_lines rfc3339 order' a b ∧
  (diff_lines rfc3339 order a b = take 3 (diff_lines rfc3339 order a b) ↔
   sn_KubernetesVersion a = sn_KubernetesVersion b ∧ sn_ArgoTrackingMode a = sn_ArgoTrackingMode b ∧
   (∀ k, observe_crd <$> index_by crdKey (sn_CRDs a) !! k = observe_crd <$> index_by crdKey (sn_CRDs b) !! k) ∧
   (∀ k, observe_provider <$> index_by pst_Name (sn_Providers a) !! k =
         observe_provider <$> index_by pst_Name (sn_Providers b) !! k) ∧
   (∀ k, fst_Package <$> index_by fst_Name (sn_Functions a) !! k =
         fst_Package <$> index_by fst_Name (sn_Functions b) !! k)).
Proof.
  intros Ho Ho'. split.
  - unfold diff_lines. rewrite !(diff_section_perm order order') by done. done.
  - unfold diff_lines. cbn [app take].
    match goal with |- context [_ :: _ :: _ :: ?l] => assert (E : (∀ x y z : string, x :: y :: z :: l = [x; y; z] ↔ l = [])) end.
    { intros x y z. split; [by intros [= ->]|by intros ->]. }
    rewrite E. clear E. rewrite !app_nil, !if_differ_nil.
    rewrite (diff_section_nil order Ho observe_crd) by apply crd_lines_nil.
    rewrite (diff_section_nil order Ho observe_provider) by apply provider_lines_nil.
    rewrite (diff_section_nil order Ho fst_Package) by apply function_lines_nil. tauto.
Qed.

(** C33: Merging a snapshot into the World of the manifests: for each key a kind of object
    is told apart by, the World keeps its own objects when it has any and takes all of
    the snapshot's when it has none; a schema the World has stays; the caches are
    dropped; configurations are not merged; and merging the same snapshot again
    changes nothing. *)
Theorem mergeSnapshotIntoWorld_spec w snap :
  let w' := mergeSnapshotIntoWorld w snap in
  merged crdKey (w_CRDs w) (sn_CRDs snap) (w_CRDs w') ∧
  merged crdKey (w_XRDs w) (sn_XRDs snap) (w_XRDs w') ∧
  merged fn_Name (w_Functions w) (map fst_FunctionInfo (sn_Functions snap)) (w_Functions w') ∧
  merged pr_Name (w_Providers w) (map pst_ProviderInfo (sn_Providers snap)) (w_Providers w') ∧
  merged resource_id (w_Resources w) (sn_Resources snap) (w_Resources w') ∧
  merged app_id (w_ArgoApps w) (sn_ArgoApps snap) (w_ArgoApps w') ∧
  merged appset_id (w_ArgoAppSets w) (sn_ArgoAppSets snap) (w_ArgoAppSets w') ∧
  merged ap_Name (w_ArgoProjects w) (sn_ArgoProjects snap) (w_ArgoProjects w') ∧
  (∀ d, w_Schemas w' !! d = match w_Schemas w !! d with Some s => Some s | None => sn_Schemas snap !! d end) ∧
  w_SchemaIndex w' = None ∧ w_IgnoreDiffEntries w' = None ∧ w_Configurations w' = w_Configurations w ∧
  mergeSnapshotIntoWorld w' snap = w'.
Proof.
  cbv zeta. split_and!; [apply merge_by_merged..| | | | |].
  - intros d. cbn [mergeSnapshotIntoWorld w_Schemas]. rewrite lookup_union.
    by destruct (w_Schemas w !! d), (sn_Schemas snap !! d).
  - reflexivity.
  - reflexivity.
  - reflexivity.
  - unfold mergeSnapshotIntoWorld. cbn -[merge_by union]. rewrite !merge_by_again.
    by rewrite <- (assoc_L (∪)), (idemp_L (∪)).
Qed.

(** ** Two snapshots of one cluster *)

Definition plain : printers := MkPrinters (λ _, "") (λ _, None).
Definition demo_crd (kind version : string) : CRDInfo := {| zero_CRDInfo with
  crd_Group := "example.org"; crd_Kind := kind;
  crd_Versions := [{| zero_CRDVersion with cv_Name := version; cv_Served := true; cv_Storage := true |}] |}.
Definition demo_snapshot : Snapshot := let s := New 0 "prod" in {| s with
  sn_CRDs := [demo_crd "Bucket" "v1"; demo_crd "Queue" "v1"];
  sn_Providers := [MkProviderStatus {| zero_ProviderInfo with pr_Name := "aws"; pr_Package := "p:1" |} "" true] |}.
(** The same CRDs in another order, later, with a schema and a configuration. *)
Definition later_snapshot : Snapshot := let s := demo_snapshot in {| s with
  sn_Timestamp := 60; sn_CRDs := [demo_crd "Queue" "v1"; demo_crd "Bucket" "v1"];
  sn_Schemas := {["sha256:1" := MkSchemaInfo "sha256:1" None]};
  sn_Configurations := [{| zero_ConfigurationInfo with cfgi_Name := "platform" |}] |}.
Lemma computeDigest_content_witness : computeDigest plain demo_snapshot = computeDigest plain later_snapshot.
Proof.
  apply computeDigest_content. split; try reflexivity; split; try reflexivity; apply (bool_decide_unpack _); reflexivity.
Defined.
(** The parts of the digest are not told apart. *)
Example digest_ambiguous :
  let s := New 0 "prod-eu" in let t := New 0 "prod" in
  computeDigest plain s = computeDigest plain {| t with sn_KubernetesVersion := "-eu" |}.
Proof. reflexivity. Qed.
(** A resource that does not encode, because of a NaN, is not part of the digest. *)
Example digest_drops :
  let s := demo_snapshot in
  computeDigest plain {| s with sn_Resources := [{| zero_ResourceInfo with ri_Raw := Some [("x", VFloat S754_nan)] |}] |} =
  computeDigest plain s.
Proof. reflexivity. Qed.
(** Without its resources a snapshot forgets the tracking mode on the way back. *)
Example tracking_mode_lost :
  let app := {| zero_ArgoApplication with app_TrackingMode := "label" |} in
  let w := {| zero_World with w_ArgoApps := [app] |} in
  let s := FromWorld plain 0 w "prod" in
  (sn_ArgoTrackingMode s, sn_ArgoTrackingMode (FromWorld plain 0 (ToWorld s) "prod")) = ("label", "").
Proof. reflexivity. Qed.

(** Maps iterated by key, and backwards. *)
Definition forwards (A : Type) (i : nat) (m : gmap string A) : list (string * A) := sort_slice key_before (map_to_list m).
Definition backwards (A : Type) (i : nat) (m : gmap string A) : list (string * A) := rev (forwards A i m).
Lemma forwards_perm A i (m : gmap string A) : forwards A i m ≡ₚ map_to_list m.
Proof. apply sort_slice_perm. Qed.
Lemma backwards_perm A i (m : gmap string A) : backwards A i m ≡ₚ map_to_list m.
Proof. unfold backwards. by rewrite <- Permutation_rev, forwards_perm. Qed.
Definition upgraded : Snapshot := let s := demo_snapshot in {| s with
  sn_CRDs := [demo_crd "Bucket" "v2"; demo_crd "Topic" "v1"] |}.
Example diff_depends_on_order :
  map (λ order, drop 3 (diff_lines (λ _, "t") order demo_snapshot upgraded)) [forwards; backwards] = [
    ["  ~ CRD example.org/Bucket storage: v1 → v2"; "  + CRD example.org/Topic"; "  - CRD example.org/Queue"];
    ["  + CRD example.org/Topic"; "  ~ CRD example.org/Bucket storage: v1 → v2"; "  - CRD example.org/Queue"]].
Proof. vm_compute. reflexivity. Qed.
Lemma diff_lines_spec_witness :
  diff_lines (λ _, "t") forwards demo_snapshot upgraded ≡ₚ diff_lines (λ _, "t") backwards demo_snapshot upgraded.
Proof. exact (proj1 (diff_lines_spec _ forwards backwards demo_snapshot upgraded forwards_perm backwards_perm)). Defined.
