(* ===== verification/Report.v ===== *)
(** The reports (src/pkg/report/reporter.go): the texts of the human and the agent
    format with their source excerpts and wrapped details, the JSON, SARIF and LSP
    documents, and the JUnit document with the escapes of encoding/xml.

    A report is the text it writes; a failed write is ignored, as in the code.  The
    source files the excerpts come from are a parameter.  An empty list of diagnostics
    is the nil slice. *)
From Stdlib Require Import NArith ZArith.
From stdpp Require Import fin_maps.
From S2P Require Import Prelude GoStrings Types Json Wire.

#[local] Open Scope string_scope.
#[local] Open Scope list_scope.

Definition line (s : string) : string := s +:+ nl.
Definition unlines (l : list string) : string := join "" (map line l).
Definition count_severity (s : Severity) (diags : list Diagnostic) : Z :=
  Z.of_nat (length (filter (λ d, dg_Severity d = s) diags)).
Definition severity_text (s : Severity) : string :=
  match s with SeverityError => "error" | SeverityWarning => "warning" | SeverityInfo => "info" end.

Definition formatLocation (src : SourceLocation) : string :=
  if String.eqb (sl_File src) "" then "<unknown>"
  else if Z.ltb 0 (sl_Column src) then sl_File src +:+ ":" +:+ itoa (sl_Line src) +:+ ":" +:+ itoa (sl_Column src)
  else sl_File src +:+ ":" +:+ itoa (sl_Line src).

(** ** Wrapping *)

Fixpoint wrap_words (width : nat) (current : string) (words : list string) : list string :=
  match words with
  | [] => [current]
  | word :: words =>
      if Nat.ltb width (String.length current + 1 + String.length word) then current :: wrap_words width word words
      else wrap_words width (current +:+ " " +:+ word) words
  end.
Definition wordWrap (s : string) (width : nat) : list string :=
  match fields s with [] => [] | w :: ws => wrap_words width w ws end.

(** ** Excerpts *)

Fixpoint repeat_str (n : nat) (s : string) : string := match n with 0 => "" | S n => s +:+ repeat_str n s end.
(** The bytes of the token from [s] on: up to a space or a line break. *)
Fixpoint token_length (s : string) : nat :=
  match s with
  | "" => 0
  | String c r => if Ascii.eqb c " " || Ascii.eqb c (byte 10) then 0 else S (token_length r)
  end.
Definition getSourceExcerpt (read : string → option string) (file : string) (ln col : Z) : string :=
  match read file with
  | None => ""
  | Some data =>
      if Z.ltb ln 1 then ""
      else match split_on (byte 10) data !! Z.to_nat (ln - 1) with
           | None => ""
           | Some sourceLine =>
               let linePrefix := "  " +:+ itoa ln +:+ " | " in
               linePrefix +:+ sourceLine +:+ nl +:+
               if Z.ltb 0 col && Z.leb col (Z.of_nat (String.length sourceLine)) then
                 repeat_str (String.length linePrefix + Z.to_nat (col - 1)) " " +:+
                 repeat_str (token_length (str_drop (Z.to_nat (col - 1)) sourceLine)) "^"
               else ""
           end
  end.

(** ** The texts *)

Section texts.
Context (read : string → option string).

Definition human_diagnostic (d : Diagnostic) : string :=
  let src := dg_Source d in
  line (formatLocation src +:+ ": " +:+ severity_text (dg_Severity d) +:+ ": " +:+ dg_Code d +:+ ": " +:+ dg_Message d) +:+
  (if String.eqb (sl_File src) "" || String.eqb (sl_File src) "<stdin>" then ""
   else let excerpt := getSourceExcerpt read (sl_File src) (sl_Line src) (sl_Column src) in
        if String.eqb excerpt "" then "" else nl +:+ line excerpt) +:+
  (if String.eqb (dg_Detail d) "" then ""
   else nl +:+ unlines (map (λ l, "  " +:+ l) (wordWrap (dg_Detail d) 78))) +:+
  (match dg_Related d with
   | [] => ""
   | related => nl +:+ unlines (map (λ r, "  Related: " +:+ formatLocation r) related)
   end) +:+
  (if String.eqb (dg_Fix d) "" then ""
   else nl +:+ line "  Fix:" +:+ unlines (map (λ l, "    " +:+ l) (split_on (byte 10) (dg_Fix d)))) +:+
  nl +:+ line ("  Why this rule exists: https://xpc.dev/errors/" +:+ dg_Code d).
Definition reportHuman (diags : list Diagnostic) : string :=
  match diags with
  | [] => line "No issues found."
  | _ => join nl (map human_diagnostic diags) +:+ nl +:+
         line ("Found " +:+ itoa (count_severity SeverityError diags) +:+ " error(s), " +:+
               itoa (count_severity SeverityWarning diags) +:+ " warning(s).")
  end.
End texts.

Definition compactString (s : string) : string :=
  join " " (filter (λ t, t ≠ "") (map trim_space (split_on (byte 10) s))).
(** The annotation a fix asks for: from the first [xpc.dev/] of the text on. *)
Fixpoint until_break (s : string) : string :=
  match s with
  | "" => ""
  | String c r => if Ascii.eqb c " " || Ascii.eqb c (byte 10) || Ascii.eqb c (byte 34) then ""
                  else String c (until_break r)
  end.
Definition ack_of (remedy : string) : option string :=
  if contains remedy "xpc.dev/accept" || contains remedy "xpc.dev/declassify" then
    match str_cut "xpc.dev/" remedy with
    | Some (_, after) => Some ("xpc.dev/" +:+ until_break after)
    | None => None
    end
  else None.
Definition agent_fix (remedy : string) : string :=
  match split_on (byte 10) (trim_space remedy) with
  | [] => ""
  | first :: rest =>
      line ("  fix:      " +:+ first) +:+
      unlines (map (λ l, "            " +:+ l) (filter (λ t, t ≠ "") (map trim_space rest)))
  end.
Definition agent_diagnostic (d : Diagnostic) : string :=
  line (dg_Code d +:+ " " +:+ formatLocation (dg_Source d)) +:+
  line ("  rule:     " +:+ dg_Message d) +:+
  line ("  severity: " +:+ severity_text (dg_Severity d)) +:+
  (if String.eqb (dg_Detail d) "" then "" else line ("  problem:  " +:+ compactString (dg_Detail d))) +:+
  unlines (map (λ r, "  source:   " +:+ formatLocation r) (dg_Related d)) +:+
  (if String.eqb (dg_Fix d) "" then "" else agent_fix (dg_Fix d)) +:+
  (match ack_of (dg_Fix d) with Some ack => line ("  ack:      add annotation " +:+ ack) | None => "" end) +:+
  line ("  docs:     https://xpc.dev/errors/" +:+ dg_Code d).
Definition reportAgent (diags : list Diagnostic) : string :=
  match diags with
  | [] => line "xpc: ok (no issues)"
  | _ => join nl (map agent_diagnostic diags) +:+ nl +:+
         line ("xpc: " +:+ itoa (count_severity SeverityError diags) +:+ " error(s), " +:+
               itoa (count_severity SeverityWarning diags) +:+ " warning(s)")
  end.

(** ** The JSON documents *)

(** No diagnostic holds a float or a foreign value. *)
Definition no_values : printers := MkPrinters (λ _, "") (λ _, None).
Definition encoded (o : option json) : string + string :=
  match o with Some j => inl (encode_indented j) | None => inr "json: unsupported value" end.
Definition reportJSON (diags : list Diagnostic) : string + string := encoded (wire no_values diags).

Record sarifRule : Type := MkSarifRule { sru_ID : string; sru_ShortDescription : string; sru_HelpURI : string }.
Record sarifResult : Type := MkSarifResult {
  sre_RuleID : string; sre_Level : string; sre_Message : string; sre_URI : string; sre_StartLine : Z; sre_StartColumn : Z }.
Definition sarif_message (text : string) : json := JObj [("text", JString text)].
#[export] Instance wire_sarifRule : Wire sarifRule := struct (λ p x, [
  field p "id" (sru_ID x); Some [("shortDescription", sarif_message (sru_ShortDescription x))];
  field p "helpUri" (sru_HelpURI x)]).
#[export] Instance wire_sarifResult : Wire sarifResult := struct (λ p x, [
  field p "ruleId" (sre_RuleID x); field p "level" (sre_Level x); Some [("message", sarif_message (sre_Message x))];
  (λ region, [("locations", JArr [JObj [("physicalLocation", JObj [
       ("artifactLocation", JObj [("uri", JString (sre_URI x))]); ("region", region)])]])]) <$>
    members [field p "startLine" (sre_StartLine x); omitempty p "startColumn" (sre_StartColumn x)]]).
(** The rules seen so far and in the order they were. *)
Definition add_rule (rules : list sarifRule) (d : Diagnostic) : list sarifRule :=
  if bool_decide (dg_Code d ∈ map sru_ID rules) then rules
  else rules ++ [MkSarifRule (dg_Code d) (dg_Code d) ("https://xpc.dev/errors/" +:+ dg_Code d)].
Definition sarif_rules (diags : list Diagnostic) : list sarifRule := foldl add_rule [] diags.
Definition sarif_result (d : Diagnostic) : sarifResult :=
  MkSarifResult (dg_Code d)
    match dg_Severity d with SeverityWarning => "warning" | SeverityInfo => "note" | SeverityError => "error" end
    (dg_Message d +:+ nl +:+ nl +:+ dg_Detail d) (sl_File (dg_Source d)) (sl_Line (dg_Source d)) (sl_Column (dg_Source d)).
Definition reportSARIF (diags : list Diagnostic) : string + string :=
  let p := no_values in
  encoded (members [
    field p "$schema" "https://json.schemastore.org/sarif-2.1.0.json"; field p "version" "2.1.0";
    (λ run, [("runs", JArr [run])]) <$> members [
      (λ driver, [("tool", JObj [("driver", driver)])]) <$> members [
        field p "name" "xpc"; field p "version" "0.1.0"; field p "informationUri" "https://xpc.dev";
        field p "rules" (sarif_rules diags)];
      field p "results" (map sarif_result diags)]]).

Record lspDiag : Type := MkLspDiag {
  lsp_StartLine : Z; lsp_StartCharacter : Z; lsp_EndLine : Z; lsp_EndCharacter : Z;
  lsp_Severity : Z; lsp_Code : string; lsp_Source : string; lsp_Message : string }.
Definition lsp_position (ln character : Z) : json :=
  JObj [("line", JText (itoa ln)); ("character", JText (itoa character))].
#[export] Instance wire_lspDiag : Wire lspDiag := struct (λ p x, [
  Some [("range", JObj [("start", lsp_position (lsp_StartLine x) (lsp_StartCharacter x));
                        ("end", lsp_position (lsp_EndLine x) (lsp_EndCharacter x))])];
  field p "severity" (lsp_Severity x); field p "code" (lsp_Code x); field p "source" (lsp_Source x);
  field p "message" (lsp_Message x)]).
Definition lsp_of (d : Diagnostic) : lspDiag :=
  let ln := (sl_Line (dg_Source d) - 1)%Z in
  let character := Z.max 0 (sl_Column (dg_Source d) - 1) in
  MkLspDiag ln character ln (character + 1)
    match dg_Severity d with SeverityError => 1 | SeverityWarning => 2 | SeverityInfo => 3 end
    (dg_Code d) "xpc" (dg_Message d +:+ nl +:+ dg_Detail d).
Definition add_lsp (m : gmap string (list lspDiag)) (d : Diagnostic) : gmap string (list lspDiag) :=
  let file := sl_File (dg_Source d) in <[file := default [] (m !! file) ++ [lsp_of d]]> m.
Definition by_file (diags : list Diagnostic) : gmap string (list lspDiag) := foldl add_lsp ∅ diags.
(** The map is made, so without diagnostics it is the empty object. *)
Definition reportLSP (diags : list Diagnostic) : string + string :=
  encoded (wire_members (wire (A := list lspDiag) no_values) (map_to_list (by_file diags))).

(** ** JUnit *)

(** [xml.EscapeText]: a rune that XML does not allow, or a byte that is not UTF-8,
    becomes U+FFFD.  [skip] bytes are left of the current rune. *)
Definition replacement : string := bytes [239; 191; 189]%N.
Definition xml_ascii (n : N) : string :=
  match find_first (λ p : N * string, N.eqb (fst p) n)
          [(34, "&#34;"); (39, "&#39;"); (38, "&amp;"); (60, "&lt;"); (62, "&gt;");
           (9, "&#x9;"); (10, "&#xA;"); (13, "&#xD;")]%N with
  | Some (_, e) => e
  | None => if (n <? 32)%N then replacement else bytes [n]
  end.
Fixpoint xml_body (skip : nat) (copy : bool) (l : list N) : string :=
  match l with
  | [] => ""
  | n :: rest =>
      match skip with
      | S skip => (if copy then bytes [n] else "") +:+ xml_body skip copy rest
      | 0 =>
          if (n <? 128)%N then xml_ascii n +:+ xml_body 0 true rest
          else match rune_len l with
               | None => replacement +:+ xml_body 0 true rest
               | Some k =>
                   match l with
                   | 239%N :: 191%N :: 190%N :: _ | 239%N :: 191%N :: 191%N :: _ =>
                       replacement +:+ xml_body (k - 1) false rest
                   | _ => bytes [n] +:+ xml_body (k - 1) true rest
                   end
               end
      end
  end.
Definition xml_text (s : string) : string := xml_body 0 true (map N_of_ascii (String.list_ascii_of_string s)).
Definition attribute (name v : string) : string :=
  " " +:+ name +:+ "=" +:+ String (byte 34) (xml_text v +:+ String (byte 34) "").

Record junitFailure : Type := MkJunitFailure { jf_Message : string; jf_Type : string; jf_Text : string }.
Record junitTestCase : Type := MkJunitTestCase { jt_Name : string; jt_ClassName : string; jt_Failure : option junitFailure }.
Record junitTestSuite : Type := MkJunitTestSuite { js_Name : string; js_Tests : Z; js_Failures : Z; js_Cases : list junitTestCase }.
Definition junit_case (d : Diagnostic) : junitTestCase :=
  MkJunitTestCase (dg_Code d +:+ ": " +:+ dg_Message d) (sl_File (dg_Source d))
    match dg_Severity d with
    | SeverityError => Some (MkJunitFailure (dg_Message d) (dg_Code d) (dg_Detail d))
    | _ => None
    end.
Definition junit_suite (diags : list Diagnostic) : junitTestSuite :=
  MkJunitTestSuite "xpc" (Z.of_nat (length diags)) (count_severity SeverityError diags) (map junit_case diags).
(** An element that holds elements puts each, and its own end, on a line of its own. *)
Definition xml_failure (f : junitFailure) : string :=
  "<failure" +:+ attribute "message" (jf_Message f) +:+ attribute "type" (jf_Type f) +:+ ">" +:+
  xml_text (jf_Text f) +:+ "</failure>".
Definition xml_case (c : junitTestCase) : string :=
  "<testcase" +:+ attribute "name" (jt_Name c) +:+ attribute "classname" (jt_ClassName c) +:+ ">" +:+
  (match jt_Failure c with
   | Some f => nl +:+ "      " +:+ xml_failure f +:+ nl +:+ "    "
   | None => ""
   end) +:+ "</testcase>".
Definition xml_suite (s : junitTestSuite) : string :=
  "<testsuite" +:+ attribute "name" (js_Name s) +:+ attribute "tests" (itoa (js_Tests s)) +:+
  attribute "failures" (itoa (js_Failures s)) +:+ ">" +:+
  join "" (map (λ c, nl +:+ "    " +:+ xml_case c) (js_Cases s)) +:+
  (match js_Cases s with [] => "" | _ => nl +:+ "  " end) +:+ "</testsuite>".
Definition reportJUnit (diags : list Diagnostic) : string :=
  "<?xml version=" +:+ quote "1.0" +:+ " encoding=" +:+ quote "UTF-8" +:+ "?>" +:+ nl +:+
  "<testsuites>" +:+ nl +:+ "  " +:+ xml_suite (junit_suite diags) +:+ nl +:+ "</testsuites>".

Definition Report (read : string → option string) (diags : list Diagnostic) (format : string) : string + string :=
  if String.eqb format "human" then inl (reportHuman read diags)
  else if String.eqb format "agent" then inl (reportAgent diags)
  else if String.eqb format "json" then reportJSON diags
  else if String.eqb format "junit" then inl (reportJUnit diags)
  else if String.eqb format "sarif" then reportSARIF diags
  else if String.eqb format "lsp" then reportLSP diags
  else inr ("unknown format: " +:+ format).

(** ** Lemmas *)

(** Lines that are groups of words: each holds a word and fits, unless it is one word;
    the first word of a line did not fit on the line before. *)
Definition line_ok (width : nat) (g : list string) : Prop :=
  g ≠ [] ∧ (String.length (join " " g) ≤ width ∨ length g = 1)%nat.
Inductive greedy (width : nat) : list (list string) → Prop :=
  | greedy_nil : greedy width []
  | greedy_one g : greedy width [g]
  | greedy_cons g w h gs : (width < String.length (join " " g) + 1 + String.length w)%nat →
      greedy width ((w :: h) :: gs) → greedy width (g :: (w :: h) :: gs).

Lemma wrap_groups width words : ∀ cur, line_ok width cur → ∃ g gs,
  wrap_words width (join " " cur) words = map (join " ") ((cur ++ g) :: gs) ∧
  (cur ++ g) ++ concat gs = cur ++ words ∧ Forall (line_ok width) ((cur ++ g) :: gs) ∧ greedy width ((cur ++ g) :: gs).
Proof.
  induction words as [|w ws IH]; intros cur Hcur; cbn [wrap_words].
  { exists [], []. cbn [concat]. rewrite !app_nil_r. split_and!; [done|done|by apply Forall_singleton|constructor]. }
  destruct (Nat.ltb_spec width (String.length (join " " cur) + 1 + String.length w)) as [Hlt|Hge].
  - destruct (IH [w]) as (g & gs & E & Ec & Hf & Hg); [split; [done|by right]|]. cbn [app] in E, Ec, Hf, Hg.
    exists [], ((w :: g) :: gs). rewrite app_nil_r. split_and!.
    + cbn [map]. f_equal. exact E.
    + cbn [concat]. f_equal. exact Ec.
    + by constructor.
    + by constructor.
  - assert (Ej : join " " (cur ++ [w]) = join " " cur +:+ " " +:+ w) by (apply join_snoc; apply Hcur).
    rewrite <- Ej. destruct (IH (cur ++ [w])) as (g & gs & E & Ec & Hf & Hg).
    { split; [by destruct cur|left]. rewrite Ej, !length_app_str. simpl. lia. }
    exists ([w] ++ g), gs. rewrite (assoc_L (++) cur [w] g). split_and!; [exact E| |done..].
    rewrite Ec, <- (assoc_L (++)). done.
Qed.

Lemma add_rule_ids rules d : map sru_ID (add_rule rules d) =
  if bool_decide (dg_Code d ∈ map sru_ID rules) then map sru_ID rules else map sru_ID rules ++ [dg_Code d].
Proof. unfold add_rule. destruct (bool_decide _); [done|]. by rewrite map_app. Qed.
Lemma sarif_rules_ids diags : ∀ rules, NoDup (map sru_ID rules) →
  NoDup (map sru_ID (foldl add_rule rules diags)) ∧
  ∀ c, c ∈ map sru_ID (foldl add_rule rules diags) ↔ c ∈ map sru_ID rules ∨ c ∈ map dg_Code diags.
Proof.
  induction diags as [|d diags IH]; intros rules Hr; cbn [foldl map].
  { split; [done|]. intros c. rewrite elem_of_nil. naive_solver. }
  destruct (IH (add_rule rules d)) as [H1 H2].
  { rewrite add_rule_ids. case_bool_decide as Hd; [done|]. apply NoDup_app. split_and!; [done| |apply NoDup_singleton].
    intros x Hx ->%list_elem_of_singleton. done. }
  split; [done|]. intros c. rewrite H2, add_rule_ids, elem_of_cons.
  case_bool_decide as Hd; [naive_solver|]. rewrite elem_of_app, list_elem_of_singleton. naive_solver.
Qed.

Lemma by_file_lookup diags : ∀ (m : gmap string (list lspDiag)) file, foldl add_lsp m diags !! file =
  let new := map lsp_of (filter (λ d, sl_File (dg_Source d) = file) diags) in
  match m !! file, new with
  | None, [] => None
  | old, _ => Some (default [] old ++ new)
  end.
Proof.
  induction diags as [|d diags IH]; intros m file; cbn [foldl].
  { cbn. destruct (m !! file); [|done]. by rewrite app_nil_r. }
  rewrite IH, filter_cons. cbv zeta. destruct (decide (sl_File (dg_Source d) = file)) as [<-|Hne].
  - unfold add_lsp. cbv zeta. rewrite lookup_insert_eq. cbn [map]. destruct (m !! _); simpl; [|done].
    by rewrite <- (assoc_L (++)).
  - unfold add_lsp. cbv zeta. by rewrite lookup_insert_ne.
Qed.

(** The bytes XML gives a meaning. *)
Definition xml_special : list ascii := map byte [34; 39; 60; 62; 9; 10; 13]%N.
Lemma has_char_byte c n : (n < 256)%N → has_char c (bytes [n]) = N.eqb (N_of_ascii c) n.
Proof.
  intros Hn. unfold bytes. cbn [map String.string_of_list_ascii]. rewrite has_char_cons.
  destruct (N.eqb_spec (N_of_ascii c) n) as [<-|Hne].
  - unfold byte. by rewrite ascii_N_embedding, Ascii.eqb_refl.
  - rewrite (proj2 (Ascii.eqb_neq c (byte n))); [done|]. intros ->. apply Hne. unfold byte. by rewrite N_ascii_embedding.
Qed.
Ltac split_tests :=
  repeat match goal with
         | H : _ && _ = true |- _ => apply andb_prop in H as [? ?]
         | H : (_ <=? _)%N = true |- _ => apply N.leb_le in H
         | H : (if ?c then _ else _) = true |- _ => destruct c eqn:?
         | H : (_ =? _)%N = true |- _ => apply N.eqb_eq in H
         end.
Lemma rune_len_high l k : rune_len l = Some k → (2 ≤ k)%nat ∧ Forall (λ n, (128 <= n)%N) (take k l).
Proof.
  unfold rune_len, in_range, continues. cbn [forallb]. destruct l as [|b0 [|b1 rest]]; try done.
  destruct ((_ && _) && (_ && _)) eqn:E1.
  { intros [= <-]. split; [lia|]. split_tests. cbn [take]. repeat (apply Forall_cons; split); try apply Forall_nil_2; lia. }
  destruct rest as [|b2 rest]; [done|]. clear E1. destruct (_ && _) eqn:E2.
  { intros [= <-]. split; [lia|]. unfold in_range in E2. split_tests; cbn [take]; repeat (apply Forall_cons; split); try apply Forall_nil_2; lia. }
  destruct rest as [|b3 rest]; [done|]. clear E2. destruct (_ && _) eqn:E3; [|done].
  intros [= <-]. split; [lia|]. unfold in_range in E3. split_tests; cbn [take]; repeat (apply Forall_cons; split); try apply Forall_nil_2; lia.
Qed.
Lemma xml_special_cases (P : ascii → Prop) :
  P (byte 34) → P (byte 39) → P (byte 60) → P (byte 62) → P (byte 9) → P (byte 10) → P (byte 13) →
  ∀ c, c ∈ xml_special → P c.
Proof. intros ??????? c Hc. unfold xml_special in Hc. cbn [map] in Hc. set_unfold. by destruct_or!; subst. Qed.
Lemma xml_ascii_safe n : (n < 256)%N → ∀ c, c ∈ xml_special → has_char c (xml_ascii n) = false.
Proof.
  intros Hn. unfold xml_ascii. destruct (find_first _ _) as [[m e]|] eqn:E.
  - apply find_first_Some in E as [He _]. repeat (apply elem_of_cons in He as [[= _ ->]|He]; [by apply xml_special_cases|]).
    by apply not_elem_of_nil in He.
  - destruct (N.ltb_spec n 32); [by apply xml_special_cases|].
    apply xml_special_cases; rewrite has_char_byte by done; apply N.eqb_neq; intros <-; vm_compute in E; discriminate.
Qed.
Lemma high_safe n : (128 <= n)%N → (n < 256)%N → ∀ c, c ∈ xml_special → has_char c (bytes [n]) = false.
Proof. intros H1 H2. apply xml_special_cases; rewrite has_char_byte by done; apply N.eqb_neq; cbn; lia. Qed.
Lemma xml_body_safe c l : c ∈ xml_special → ∀ skip copy, Forall (λ n, (n < 256)%N) l →
  Forall (λ n, (128 <= n)%N) (take skip l) → has_char c (xml_body skip copy l) = false.
Proof.
  intros Hc. induction l as [|n rest IH]; intros skip copy Hl Hs; [done|]. pose proof Hl as [Hn Hl']%Forall_cons.
  destruct skip as [|skip]; cbn [xml_body].
  - destruct (N.ltb_spec n 128) as [Hlt|Hge].
    { rewrite has_char_app, (xml_ascii_safe n Hn c Hc), IH; [done|done|apply Forall_nil_2]. }
    assert (Hr : has_char c replacement = false) by by apply (xml_special_cases (λ c, has_char c replacement = false)).
    destruct (rune_len (n :: rest)) as [k|] eqn:Ek.
    2: { rewrite has_char_app, Hr, IH; [done|done|apply Forall_nil_2]. }
    apply rune_len_high in Ek as [Hk Hh]. destruct k as [|[|k]]; [lia..|]. cbn [take] in Hh.
    apply Forall_cons in Hh as [_ Hh]. replace (S (S k) - 1) with (S k) by lia.
    assert (H1 : has_char c (bytes [n] +:+ xml_body (S k) true rest) = false).
    { rewrite has_char_app, (high_safe n Hge Hn c Hc), IH; done. }
    assert (H2 : has_char c (replacement +:+ xml_body (S k) false rest) = false).
    { rewrite has_char_app, Hr, IH; done. }
    repeat case_match; assumption.
  - cbn [take] in Hs. apply Forall_cons in Hs as [Hn' Hs]. rewrite has_char_app, IH by done.
    rewrite orb_false_r. destruct copy; [by apply high_safe|done].
Qed.

#[export] Instance total_sarifRule : WireTotal sarifRule.
Proof. solve_total. Qed.
#[export] Instance total_sarifResult : WireTotal sarifResult.
Proof.
  intros p x. apply members_total. repeat (apply Forall_cons; split); [apply field_total..|by eexists| |apply Forall_nil_2].
  destruct (members_total [field p "startLine" (sre_StartLine x); omitempty p "startColumn" (sre_StartColumn x)]) as [j ->];
    [|by eexists]. repeat (apply Forall_cons; split); [apply field_total|apply omitempty_total|apply Forall_nil_2].
Qed.
#[export] Instance total_lspDiag : WireTotal lspDiag.
Proof. solve_total. Qed.
Lemma encoded_total o : is_Some o → ∃ text, encoded o = inl text.
Proof. intros [j ->]. by eexists. Qed.
Lemma reportJSON_total diags : ∃ text, reportJSON diags = inl text.
Proof. apply encoded_total, wire_total. Qed.
Lemma reportSARIF_total diags : ∃ text, reportSARIF diags = inl text.
Proof.
  apply encoded_total. apply members_total. repeat (apply Forall_cons; split); [by eexists..| |apply Forall_nil_2].
  destruct (field_total no_values "rules" (sarif_rules diags)) as [rules Hr].
  destruct (field_total no_values "results" (map sarif_result diags)) as [results Hs].
  rewrite Hr, Hs. by eexists.
Qed.
Lemma reportLSP_total diags : ∃ text, reportLSP diags = inl text.
Proof.
  apply encoded_total. unfold wire_members. edestruct (mapM_total (λ kv : string * list lspDiag, pair (fst kv) <$> wire no_values (snd kv)))
    as [ms ->]; [|by eexists]. intros [file ds] _. destruct (wire_total no_values ds) as [j Hj]. cbn [fst snd]. rewrite Hj. by eexists.
Qed.

(** ** Properties *)

(** Wrapping loses no word and respects the width: the lines are the words in order,
    each line non-empty and no longer than the width unless it is a single word, and a
    line is broken only where the next word did not fit. *)
Theorem wordWrap_spec s width : ∃ groups,
  wordWrap s width = map (join " ") groups ∧ concat groups = fields s ∧
  Forall (line_ok width) groups ∧ greedy width groups.
Proof.
  unfold wordWrap. destruct (fields s) as [|w ws] eqn:E; [by exists []; split_and!; constructor|].
  destruct (wrap_groups width ws [w]) as (g & gs & Ew & Ec & Hf & Hg); [split; [done|by right]|].
  exists (([w] ++ g) :: gs). by split_and!.
Qed.

(** A report is written for each of the six formats, whatever the diagnostics are, and
    for no other; and the error names the format. *)
Theorem Report_formats read diags format :
  match Report read diags format with
  | inl _ => format ∈ ["human"; "agent"; "json"; "junit"; "sarif"; "lsp"]
  | inr err => format ∉ ["human"; "agent"; "json"; "junit"; "sarif"; "lsp"] ∧ err = "unknown format: " +:+ format
  end.
Proof.
  destruct (reportJSON_total diags) as [t1 H1], (reportSARIF_total diags) as [t2 H2], (reportLSP_total diags) as [t3 H3].
  unfold Report. rewrite H1, H2, H3.
  repeat match goal with |- context [String.eqb format ?f] => destruct (String.eqb_spec format f) as [->|]; [set_solver|] end.
  split; [|done]. rewrite !not_elem_of_cons. split_and!; [done..|apply not_elem_of_nil].
Qed.

(** The machine-readable reports carry every diagnostic: SARIF has one result for each,
    in order, and exactly one rule for each code; LSP has, under each file and no
    other, its diagnostics in order; and JUnit counts as failures the cases that hold
    one, those of the errors. *)
Theorem reports_complete diags :
  (NoDup (map sru_ID (sarif_rules diags)) ∧ (∀ c, c ∈ map sru_ID (sarif_rules diags) ↔ c ∈ map dg_Code diags) ∧
   map sre_RuleID (map sarif_result diags) = map dg_Code diags) ∧
  (∀ file, by_file diags !! file =
     match map lsp_of (filter (λ d, sl_File (dg_Source d) = file) diags) with [] => None | ds => Some ds end) ∧
  (js_Tests (junit_suite diags) = Z.of_nat (length (js_Cases (junit_suite diags))) ∧
   js_Failures (junit_suite diags) = Z.of_nat (length (omap jt_Failure (js_Cases (junit_suite diags)))) ∧
   omap jt_Failure (js_Cases (junit_suite diags)) =
     map (λ d, MkJunitFailure (dg_Message d) (dg_Code d) (dg_Detail d)) (filter (λ d, dg_Severity d = SeverityError) diags)).
Proof.
  assert (Hj : omap jt_Failure (map junit_case diags) =
    map (λ d, MkJunitFailure (dg_Message d) (dg_Code d) (dg_Detail d)) (filter (λ d, dg_Severity d = SeverityError) diags)).
  { induction diags as [|d diags IH]; [done|]. rewrite filter_cons. cbn [map]. csimpl. rewrite IH.
    destruct (dg_Severity d) eqn:E; [by rewrite decide_True|by rewrite decide_False..]. }
  split_and!.
  - apply sarif_rules_ids. constructor.
  - intros c. destruct (sarif_rules_ids diags []) as [_ H]; [constructor|]. unfold sarif_rules. rewrite H, elem_of_nil. tauto.
  - rewrite map_map. done.
  - intros file. unfold by_file. rewrite by_file_lookup, lookup_empty. cbv zeta. by destruct (map lsp_of _).
  - simpl. by rewrite length_map.
  - simpl. rewrite Hj, length_map. done.
  - exact Hj.
Qed.

(** Text put into the JUnit document cannot end the attribute or the element it is in:
    whatever bytes it has, no quote, angle bracket, tab or line break is left. *)
Theorem xml_text_safe s c : c ∈ xml_special → has_char c (xml_text s) = false.
Proof.
  intros Hc. unfold xml_text. apply xml_body_safe; [done| |apply Forall_nil_2].
  apply Forall_forall. intros n (a & -> & _)%list_elem_of_fmap. apply N_ascii_bounded.
Qed.
Lemma xml_text_safe_witness :
  has_char (byte 34) (xml_text ("</a>" +:+ bytes [34; 255; 239; 191; 190; 195; 169]%N)) = false.
Proof. apply xml_text_safe. unfold xml_special. left. Defined.

(** ** Reports of one diagnostic *)

Definition leak : Diagnostic := {| zero_Diagnostic with
  dg_Code := "XPC010"; dg_Severity := SeverityError; dg_Message := "secret taint leak";
  dg_Source := MkSourceLocation "comp.yaml" 2 3; dg_Detail := "a  password" +:+ nl +:+ " leaks";
  dg_Fix := "see https://xpc.dev/errors/XPC010" +:+ nl +:+ "or set xpc.dev/declassify: yes" |}.
Example agent_leak : reportAgent [leak] = unlines [
  "XPC010 comp.yaml:2:3"; "  rule:     secret taint leak"; "  severity: error"; "  problem:  a  password leaks";
  "  fix:      see https://xpc.dev/errors/XPC010"; "            or set xpc.dev/declassify: yes";
  "  ack:      add annotation xpc.dev/errors/XPC010"; "  docs:     https://xpc.dev/errors/XPC010"; "";
  "xpc: 1 error(s), 0 warning(s)"].
Proof. vm_compute. reflexivity. Qed.
Example excerpt_leak :
  getSourceExcerpt (λ _, Some ("a: 1" +:+ nl +:+ "  key: v")) "comp.yaml" 2 3 =
  "  2 |   key: v" +:+ nl +:+ "        ^^^^".
Proof. vm_compute. reflexivity. Qed.
Example wrap_leak : wordWrap "one two three" 7 = ["one two"; "three"].
Proof. vm_compute. reflexivity. Qed.
(** Without diagnostics, JSON and SARIF hold null where a list is expected. *)
Example empty_reports :
  reportJSON [] = inl ("null" +:+ nl) ∧
  match reportSARIF [] with
  | inl text => contains text (quote "results" +:+ ": null") && contains text (quote "rules" +:+ ": null")
  | inr _ => false
  end = true ∧ reportLSP [] = inl ("{}" +:+ nl).
Proof. vm_compute. done. Qed.
(** A diagnostic without a position is at line -1 for LSP. *)
Example lsp_unknown_position :
  (lsp_StartLine (lsp_of zero_Diagnostic), lsp_StartCharacter (lsp_of zero_Diagnostic)) = (-1, 0)%Z.
Proof. reflexivity. Qed.
