(* ===== verification/SExpr.v ===== *)
(** The s-expression of a World and its digest (src/pkg/ir/sexpr.go).

    The iteration order of the maps of the code, and fmt's %v of what is neither a
    string, a bool nor a map, are parameters; a decoded schema is iterated in the order
    of its list. *)
From Stdlib Require Import ZArith DecimalString.
From S2P Require Import Prelude GoStrings Yaml Types Sha256.

#[local] Open Scope string_scope.
#[local] Open Scope list_scope.

Definition bool_word (b : bool) : string := if b then "true" else "false".
Definition concat_str (l : list string) : string := join "" l.
(** A parenthesis closed, the line and an empty line ended. *)
Definition close : string := ")" +:+ nl +:+ nl.
Fixpoint indentation (n : nat) : string := match n with 0 => "" | S n => "  " +:+ indentation n end.

Definition writeSourceSExpr (src : SourceLocation) (indent : nat) : string :=
  indentation indent +:+ "(source (file " +:+ quote (sl_File src) +:+ ") (line " +:+ itoa (sl_Line src) +:+ "))" +:+ nl.

Section sexpr.
Context (show : value → string) (order : ∀ A, gmap string A → list (string * A)).

(** One entry of a schema. *)
Fixpoint schema_entry (indent : nat) (k : string) (v : value) : string :=
  let prefix := indentation indent in
  match v with
  | VMap m =>
      prefix +:+ "(" +:+ k +:+ nl +:+ concat_str (map (λ kv, schema_entry (S indent) (fst kv) (snd kv)) m) +:+ prefix +:+ ")" +:+ nl
  | VStr s => prefix +:+ "(" +:+ k +:+ " " +:+ quote s +:+ ")" +:+ nl
  | VBool b => prefix +:+ "(" +:+ k +:+ " " +:+ bool_word b +:+ ")" +:+ nl
  | v => prefix +:+ "(" +:+ k +:+ " " +:+ show v +:+ ")" +:+ nl
  end.
Definition writeSchemaValue (schema : raw) (indent : nat) : string :=
  concat_str (map (λ kv, schema_entry indent (fst kv) (snd kv)) (default [] schema)).
Definition schema_sexpr (ds : string * SchemaInfo) : string :=
  "(schema " +:+ quote (fst ds) +:+ nl +:+ writeSchemaValue (si_Schema (snd ds)) 1 +:+ close.

Definition version_sexpr (isXRD : bool) (v : CRDVersion) : string :=
  "    (version (name " +:+ quote (cv_Name v) +:+ ") (served " +:+ bool_word (cv_Served v) +:+ ") (storage " +:+
  bool_word (cv_Storage v) +:+ ")" +:+
  (if isXRD then " (referenceable " +:+ bool_word (cv_Referenceable v) +:+ ")" else "") +:+
  (if String.eqb (cv_SchemaDigest v) "" then ""
   else nl +:+ "             (schema-ref " +:+ quote (cv_SchemaDigest v) +:+ ")") +:+ ")" +:+ nl.
Definition conversion_sexpr (c : ConversionInfo) : string :=
  "  (conversion" +:+ nl +:+ "    (strategy " +:+ ci_Strategy c +:+ ")" +:+ nl +:+ "    (cost-class " +:+ ci_CostClass c +:+ ")" +:+
  (if String.eqb (ci_WebhookService c) "" then ""
   else nl +:+ "    (webhook-service " +:+ quote (ci_WebhookService c) +:+ ")") +:+ ")" +:+ nl.
Definition writeCRDSExpr (isXRD : bool) (crd : CRDInfo) : string :=
  "(" +:+ (if isXRD then "xrd" else "crd") +:+ nl +:+ "  (group " +:+ quote (crd_Group crd) +:+ ")" +:+ nl +:+
  "  (kind " +:+ quote (crd_Kind crd) +:+ ")" +:+ nl +:+ "  (scope " +:+ crd_Scope crd +:+ ")" +:+ nl +:+
  (if isXRD && negb (String.eqb (crd_APIVersion crd) "") then "  (api-version " +:+ quote (crd_APIVersion crd) +:+ ")" +:+ nl else "") +:+
  "  (versions" +:+ nl +:+ concat_str (map (version_sexpr isXRD) (crd_Versions crd)) +:+ "  )" +:+ nl +:+
  (if isXRD then "" else conversion_sexpr (crd_Conversion crd)) +:+
  writeSourceSExpr (crd_Source crd) 1 +:+ close.

Definition step_sexpr (s : PipelineStep) : string :=
  "    (step (name " +:+ quote (ps_Name s) +:+ ")" +:+ nl +:+ "          (function-ref " +:+ quote (ps_FunctionRef s) +:+ ")" +:+ nl +:+
  (if String.eqb (ps_InputAPIVersion s) "" then ""
   else "          (input-api-version " +:+ quote (ps_InputAPIVersion s) +:+ ")" +:+ nl +:+
        "          (input-kind " +:+ quote (ps_InputKind s) +:+ ")") +:+ ")" +:+ nl.
Definition writeCompositionSExpr (comp : CompositionInfo) : string :=
  let ref := comp_CompositeTypeRef comp in
  "(composition" +:+ nl +:+ "  (name " +:+ quote (comp_Name comp) +:+ ")" +:+ nl +:+
  "  (composite-type-ref (api-version " +:+ quote (gvk_Group ref +:+ "/" +:+ gvk_Version ref) +:+ ") (kind " +:+
  quote (gvk_Kind ref) +:+ "))" +:+ nl +:+ "  (mode " +:+ comp_Mode comp +:+ ")" +:+ nl +:+
  (if String.eqb (comp_Mode comp) "Pipeline"
   then "  (pipeline" +:+ nl +:+ concat_str (map step_sexpr (comp_Pipeline comp)) +:+ "  )" +:+ nl else "") +:+
  writeSourceSExpr (comp_Source comp) 1 +:+ close.

(** What functions, providers and configurations share. *)
Definition package_sexpr (tag name package more : string) (src : SourceLocation) : string :=
  "(" +:+ tag +:+ nl +:+ "  (name " +:+ quote name +:+ ")" +:+ nl +:+ "  (package " +:+ quote package +:+ ")" +:+ nl +:+
  more +:+ writeSourceSExpr src 1 +:+ close.
Definition function_sexpr (fn : FunctionInfo) : string :=
  package_sexpr "function" (fn_Name fn) (fn_Package fn)
    match fn_InputVersions fn with
    | [] => ""
    | vs => "  (input-versions (" +:+ join " " (map quote vs) +:+ "))" +:+ nl
    end (fn_Source fn).
Definition provider_sexpr (p : ProviderInfo) : string :=
  package_sexpr "provider" (pr_Name p) (pr_Package p) "" (pr_Source p).
Definition configuration_sexpr (c : ConfigurationInfo) : string :=
  package_sexpr "configuration" (cfgi_Name c) (cfgi_Package c) "" (cfgi_Source c).
Definition annotation_sexpr (kv : string * string) : string :=
  "    (" +:+ quote (fst kv) +:+ " " +:+ quote (snd kv) +:+ ")" +:+ nl.
Definition resource_sexpr (r : ResourceInfo) : string :=
  "(resource" +:+ nl +:+ "  (api-version " +:+ quote (ri_APIVersion r) +:+ ")" +:+ nl +:+ "  (kind " +:+ quote (ri_Kind r) +:+ ")" +:+ nl +:+
  "  (name " +:+ quote (ri_Name r) +:+ ")" +:+ nl +:+
  (if String.eqb (ri_Namespace r) "" then "" else "  (namespace " +:+ quote (ri_Namespace r) +:+ ")" +:+ nl) +:+
  match order string (ri_Annotations r) with
  | [] => ""
  | kvs => "  (annotations" +:+ nl +:+ concat_str (map annotation_sexpr kvs) +:+ "  )" +:+ nl
  end +:+
  writeSourceSExpr (ri_Source r) 1 +:+ close.
Definition wave_sexpr (sw : SyncWaveEntry) : string :=
  "    (resource (kind " +:+ quote (swe_Kind sw) +:+ ") (name " +:+ quote (swe_Name sw) +:+ ") (wave " +:+ itoa (swe_Wave sw) +:+ "))" +:+ nl.
Definition app_sexpr (app : ArgoApplication) : string :=
  "(argo-application" +:+ nl +:+ "  (name " +:+ quote (app_Name app) +:+ ")" +:+ nl +:+
  "  (tracking-mode " +:+ app_TrackingMode app +:+ ")" +:+ nl +:+
  match app_SyncWaves app with
  | [] => ""
  | sws => "  (sync-waves" +:+ nl +:+ concat_str (map wave_sexpr sws) +:+ "  )" +:+ nl
  end +:+
  writeSourceSExpr (app_Source app) 1 +:+ close.

(** The chunks the builder is given, in order. *)
Definition sexpr_chunks (w : World) : list string :=
  ["(xpcir-version 1)" +:+ nl +:+ nl] ++ map (writeCRDSExpr false) (w_CRDs w) ++ map (writeCRDSExpr true) (w_XRDs w) ++
  map schema_sexpr (order SchemaInfo (w_Schemas w)) ++ map writeCompositionSExpr (w_Compositions w) ++
  map function_sexpr (w_Functions w) ++ map provider_sexpr (w_Providers w) ++
  map configuration_sexpr (w_Configurations w) ++ map resource_sexpr (w_Resources w) ++ map app_sexpr (w_ArgoApps w).
Definition ToSExpr (w : World) : string := concat_str (sexpr_chunks w).
Definition DigestWorld (w : World) : string := hashBytes (ToSExpr w).
End sexpr.

(** ** Reading the text back as parentheses

    The state of a reader is the depth and whether it is inside a string; None when a
    parenthesis closes nothing or a string ends in a backslash. *)
Fixpoint scan (s : string) (d : nat) (quoted : bool) : option (nat * bool) :=
  match s with
  | "" => Some (d, quoted)
  | String c r =>
      if quoted then
        if Ascii.eqb c "\" then match r with String _ r => scan r d true | "" => None end
        else scan r d (negb (Ascii.eqb c (byte 34)))
      else if Ascii.eqb c (byte 34) then scan r d true
      else if Ascii.eqb c "(" then scan r (S d) false
      else if Ascii.eqb c ")" then match d with S d => scan r d false | 0 => None end
      else scan r d false
  end.
Definition balanced (s : string) : Prop := scan s 0 false = Some (0, false).
(** Symbols are written without quotes. *)
Definition plain (s : string) : Prop :=
  has_char "(" s = false ∧ has_char ")" s = false ∧ has_char (byte 34) s = false.

(** [s] is read from depth [a] to depth [b], outside strings. *)
Definition moves (a : nat) (s : string) (b : nat) : Prop := scan s a false = Some (b, false).
Lemma scan_app s t : ∀ d q d' q', scan s d q = Some (d', q') → scan (s +:+ t) d q = scan t d' q'.
Proof.
  assert (H : ∀ n s, (String.length s <= n)%nat → ∀ d q d' q', scan s d q = Some (d', q') → scan (s +:+ t) d q = scan t d' q').
  { intros n. induction n as [|n IH]; intros [|c r] Hn d q d' q'; cbn [String.length] in Hn; try lia; [by intros [= -> ->]..|].
    cbn [scan String.append]. destruct q.
    - destruct (Ascii.eqb c "\"); [|apply IH; lia]. destruct r as [|e r]; [done|]. apply IH. cbn in Hn. lia.
    - destruct (Ascii.eqb c (byte 34)); [apply IH; lia|]. destruct (Ascii.eqb c "("); [apply IH; lia|].
      destruct (Ascii.eqb c ")"); [|apply IH; lia]. destruct d; [done|]. apply IH; lia. }
  intros. by eapply H.
Qed.
Lemma moves_app a s b t c : moves a s b → moves b t c → moves a (s +:+ t) c.
Proof. unfold moves. intros H1 H2. by rewrite (scan_app _ _ _ _ _ _ H1). Qed.
Lemma moves_plain a s : plain s → moves a s a.
Proof.
  unfold moves, plain. induction s as [|c s IH]; [done|]. rewrite !has_char_cons. intros (H1 & H2 & H3).
  apply orb_false_iff in H1 as [H1 H1'], H2 as [H2 H2'], H3 as [H3 H3'].
  cbn [scan]. rewrite (Ascii.eqb_sym c (byte 34)), H3, (Ascii.eqb_sym c "("), H1, (Ascii.eqb_sym c ")"), H2. by apply IH.
Qed.
Lemma scan_quote_char c t d : scan (quote_char c +:+ t) d true = scan t d true.
Proof. destruct c as [[] [] [] [] [] [] [] []]; reflexivity. Qed.
Lemma scan_hex_escape c t d : scan (hex_escape c +:+ t) d true = scan t d true.
Proof. destruct c as [[] [] [] [] [] [] [] []]; reflexivity. Qed.
Lemma scan_quote_body skip s t d : scan (quote_body skip s +:+ t) d true = scan t d true.
Proof.
  revert skip. induction s as [|c s IH]; intros skip; [done|]. cbn [quote_body].
  repeat case_match; by rewrite app_str_assoc, ?scan_quote_char, ?scan_hex_escape, IH.
Qed.
Lemma moves_quote a s : moves a (quote s) a.
Proof. unfold moves, quote. cbn [scan]. by rewrite scan_quote_body. Qed.
Lemma moves_concat a l : Forall (λ s, moves a s a) l → moves a (concat_str l) a.
Proof.
  unfold concat_str. induction 1 as [|s [|t l] Hs Hl IH]; [done|done|]. cbn [join]. eapply moves_app; [exact Hs|exact IH].
Qed.
Lemma plain_itoa z : plain (itoa z).
Proof.
  unfold itoa, plain. destruct (Z.to_int z) as [u|u]; cbn [NilZero.string_of_int].
  all: assert (H : all_digits (NilZero.string_of_uint u) = true) by
    (destruct u; try reflexivity; apply string_of_uint_digits).
  all: rewrite ?has_char_cons, !all_digits_no_char by done; done.
Qed.
Lemma plain_bool b : plain (bool_word b).
Proof. by destruct b. Qed.
Lemma moves_indentation a n : moves a (indentation n) a.
Proof. apply moves_plain. induction n as [|n (H1 & H2 & H3)]; [done|]. unfold plain. cbn [indentation]. by rewrite !has_char_app, H1, H2, H3. Qed.

(** Reads one piece after another; what is not a literal, a quoted string, a number or
    white space is left to the hypotheses. *)
Ltac read_piece :=
  lazymatch goal with
  | |- moves _ (quote _) _ => apply moves_quote
  | |- moves _ (itoa _) _ => apply moves_plain, plain_itoa
  | |- moves _ (bool_word _) _ => apply moves_plain, plain_bool
  | |- moves _ (indentation _) _ => apply moves_indentation
  | |- moves _ (String _ _) _ => reflexivity
  | |- moves _ EmptyString _ => reflexivity
  | |- moves _ nl _ => reflexivity
  | |- moves _ close _ => reflexivity
  | |- moves _ (_ +:+ _) _ => eapply moves_app; [read_piece|read_piece]
  | |- _ => solve [eauto using moves_plain]
  end.
Ltac read_pieces := repeat (eapply moves_app; [read_piece|]); try read_piece.

Lemma moves_list {A} (f : A → string) a l : (∀ x, x ∈ l → moves a (f x) a) → moves a (concat_str (map f l)) a.
Proof. intros H. apply moves_concat, Forall_forall. intros s (x & -> & Hx)%list_elem_of_fmap. by apply H. Qed.
Lemma moves_source a src n : moves a (writeSourceSExpr src n) a.
Proof. unfold writeSourceSExpr. read_pieces. Qed.
#[local] Hint Resolve moves_source moves_list : core.

Section balanced.
Context (show : value → string) (order : ∀ A, gmap string A → list (string * A)).

(** The symbols of a schema: its keys, and what %v prints. *)
Fixpoint plain_entry (k : string) (v : value) : Prop :=
  plain k ∧ match v with
            | VMap m => (fix go m := match m with [] => True | (k, v) :: m => plain_entry k v ∧ go m end) m
            | VStr _ | VBool _ => True
            | v => plain (show v)
            end.
Definition plain_crd (c : CRDInfo) : Prop :=
  plain (crd_Scope c) ∧ plain (ci_Strategy (crd_Conversion c)) ∧ plain (ci_CostClass (crd_Conversion c)).
Definition plain_world (w : World) : Prop :=
  Forall plain_crd (w_CRDs w ++ w_XRDs w) ∧
  Forall (λ ds, Forall (λ kv, plain_entry (fst kv) (snd kv)) (default [] (si_Schema (snd ds)))) (order SchemaInfo (w_Schemas w)) ∧
  Forall (λ c, plain (comp_Mode c)) (w_Compositions w) ∧ Forall (λ a, plain (app_TrackingMode a)) (w_ArgoApps w).

Lemma moves_entry v : ∀ a n k, plain_entry k v → moves a (schema_entry show n k v) a.
Proof.
  induction v as [| | | | | |l IH|m IH|] using value_ind'; intros a n k [Hk Hv];
    cbn [schema_entry]; cbn in Hv; try (solve [read_pieces]).
  eapply moves_app; [read_piece|]. eapply moves_app; [read_piece|]. eapply moves_app; [read_piece|].
  eapply moves_app; [read_piece|]. eapply moves_app; [apply moves_concat|read_pieces]. clear Hk. induction IH as [|[k' v'] m Hx _ IHm]; [constructor|]. destruct Hv as [H1 H2].
  constructor; [by apply Hx|by apply IHm].
Qed.
Lemma moves_schema a ds : Forall (λ kv, plain_entry (fst kv) (snd kv)) (default [] (si_Schema (snd ds))) →
  moves a (schema_sexpr show ds) a.
Proof.
  intros H. unfold schema_sexpr, writeSchemaValue. rewrite Forall_forall in H.
  do 3 (eapply moves_app; [read_piece|]). eapply moves_app; [apply moves_list|read_pieces].
  intros kv Hkv. by apply moves_entry, H.
Qed.
Lemma moves_crd a isXRD c : plain_crd c → moves a (writeCRDSExpr isXRD c) a.
Proof.
  intros (H1 & H2 & H3). unfold writeCRDSExpr, conversion_sexpr.
  assert (Hv : ∀ b v, moves b (version_sexpr isXRD v) b).
  { intros b v. unfold version_sexpr. destruct isXRD, (String.eqb (cv_SchemaDigest v) ""); read_pieces. }
  destruct isXRD, (String.eqb (crd_APIVersion c) ""), (String.eqb (ci_WebhookService (crd_Conversion c)) ""); cbn [andb negb]; read_pieces.
Qed.
Lemma moves_composition a c : plain (comp_Mode c) → moves a (writeCompositionSExpr c) a.
Proof.
  intros H. unfold writeCompositionSExpr. cbv zeta.
  assert (Hs : ∀ b s, moves b (step_sexpr s) b) by (intros b s; unfold step_sexpr; case_match; read_pieces).
  destruct (String.eqb (comp_Mode c) "Pipeline"); read_pieces.
Qed.
Lemma moves_package a tag name package more src : plain tag → moves (S a) more (S a) →
  moves a (package_sexpr tag name package more src) a.
Proof. intros Ht Hm. unfold package_sexpr. read_pieces. Qed.
Lemma moves_join a l : moves a (join " " (map quote l)) a.
Proof.
  induction l as [|s [|t l] IH]; [done|apply moves_quote|]. cbn [map] in *. rewrite join_cons by done.
  eapply moves_app; [read_piece|]. eapply moves_app; [read_piece|exact IH].
Qed.
#[local] Hint Resolve moves_join : core.
Lemma moves_function a fn : moves a (function_sexpr fn) a.
Proof.
  apply moves_package; [done|]. destruct (fn_InputVersions fn) as [|v vs]; [done|]. generalize (v :: vs) as l. intros l.
  read_pieces.
Qed.
Lemma moves_resource a r : moves a (resource_sexpr order r) a.
Proof.
  unfold resource_sexpr. assert (Ha : ∀ b kv, moves b (annotation_sexpr kv) b) by (intros; unfold annotation_sexpr; read_pieces).
  destruct (String.eqb (ri_Namespace r) ""), (order string (ri_Annotations r)) as [|kv kvs]; try generalize (kv :: kvs); intros;
    read_pieces.
Qed.
Lemma moves_app_sexpr a app : plain (app_TrackingMode app) → moves a (app_sexpr app) a.
Proof.
  intros H. unfold app_sexpr. assert (Hw : ∀ b sw, moves b (wave_sexpr sw) b) by (intros; unfold wave_sexpr; read_pieces).
  destruct (app_SyncWaves app) as [|sw sws]; try generalize (sw :: sws); intros; read_pieces.
Qed.
End balanced.

(** ** Properties *)

(** The text is well formed: read back, its parentheses match and its strings end,
    whatever the names, annotations and other quoted texts of the World are, as long
    as what is written without quotes (scopes, strategies, modes, the keys of schemas
    and what %v prints) holds no parenthesis and no quote. *)
Theorem ToSExpr_balanced show order w : plain_world show order w → balanced (ToSExpr show order w).
Proof.
  intros (Hc & Hs & Hm & Ha). apply Forall_app in Hc as [Hc Hx]. unfold balanced, ToSExpr. apply moves_concat.
  unfold sexpr_chunks. rewrite !Forall_app, !Forall_map. rewrite Forall_forall in Hc, Hx. rewrite Forall_forall in Hs. rewrite Forall_forall in Hm. rewrite Forall_forall in Ha.
  split_and!; try (apply Forall_forall; intros x Hin).
  - by apply list_elem_of_singleton in Hin as ->.
  - by apply moves_crd, Hc.
  - by apply moves_crd, Hx.
  - by apply moves_schema, Hs.
  - by apply moves_composition, Hm.
  - apply moves_function.
  - by apply moves_package.
  - by apply moves_package.
  - apply moves_resource.
  - by apply moves_app_sexpr, Ha.
Qed.

(** What of a resource, a composition and an Application the text holds. *)
Definition resource_view (r : ResourceInfo) : ResourceInfo := {| zero_ResourceInfo with
  ri_APIVersion := ri_APIVersion r; ri_Kind := ri_Kind r; ri_Name := ri_Name r; ri_Namespace := ri_Namespace r;
  ri_Annotations := ri_Annotations r; ri_Source := ri_Source r |}.
Definition composition_view (c : CompositionInfo) : CompositionInfo := {| zero_CompositionInfo with
  comp_Name := comp_Name c; comp_CompositeTypeRef := comp_CompositeTypeRef c; comp_Mode := comp_Mode c;
  comp_Pipeline := comp_Pipeline c; comp_Source := comp_Source c |}.
Definition app_view (a : ArgoApplication) : ArgoApplication := {| zero_ArgoApplication with
  app_Name := app_Name a; app_TrackingMode := app_TrackingMode a; app_SyncWaves := app_SyncWaves a; app_Source := app_Source a |}.
(** The part of a World its digest covers. *)
Definition digest_view (w : World) : World := let z := zero_World in {| z with
  w_CRDs := w_CRDs w; w_XRDs := w_XRDs w; w_Schemas := w_Schemas w; w_Functions := w_Functions w;
  w_Providers := w_Providers w; w_Configurations := w_Configurations w;
  w_Compositions := map composition_view (w_Compositions w); w_Resources := map resource_view (w_Resources w);
  w_ArgoApps := map app_view (w_ArgoApps w) |}.

(** The digest of a World covers no more than this view of it: not the bodies, labels
    and owners of its resources, the composed resources and patches of its
    Compositions, the sources and sync policies of its Applications, nor its
    ApplicationSets, AppProjects and render results. *)
Theorem DigestWorld_view show order w : DigestWorld show order w = DigestWorld show order (digest_view w).
Proof.
  unfold DigestWorld, ToSExpr, sexpr_chunks. do 2 f_equal. cbn [digest_view w_CRDs w_XRDs w_Schemas w_Functions w_Providers
    w_Configurations w_Compositions w_Resources w_ArgoApps]. rewrite !map_map. reflexivity.
Qed.

(** ** Texts of small Worlds *)

Definition keep_order (A : Type) (m : gmap string A) : list (string * A) := map_to_list m.
Definition other_order (A : Type) (m : gmap string A) : list (string * A) := rev (map_to_list m).
Definition show_int (v : value) : string := match v with VInt z => itoa z | _ => "[]" end.
Definition small_world : World := let z := zero_World in {| z with
  w_CRDs := [{| zero_CRDInfo with crd_Group := "ex(ample"; crd_Kind := "Bucket"; crd_Scope := "Namespaced";
                crd_Source := MkSourceLocation "a.yaml" 3 1 |}];
  w_Schemas := {["d1" := MkSchemaInfo "d1" (Some [("maximum", VInt 9)])]};
  w_Resources := [{| zero_ResourceInfo with ri_Kind := "Pod";
                     ri_Annotations := list_to_map [("a", "(1"); ("b", "2")] |}] |}.
Lemma ToSExpr_balanced_witness : balanced (ToSExpr show_int keep_order small_world).
Proof.
  apply ToSExpr_balanced. split_and!; repeat constructor.
Defined.
(** One World, two digests: annotations and schemas are written in the order the
    runtime iterates their map. *)
Example digest_depends_on_order :
  bool_decide (DigestWorld show_int keep_order small_world = DigestWorld show_int other_order small_world) = false.
Proof. vm_compute. reflexivity. Qed.
(** A scope is written as it is in the document. *)
Example scope_unbalances :
  let w := zero_World in
  bool_decide (balanced (ToSExpr show_int keep_order
    {| w with w_CRDs := [{| zero_CRDInfo with crd_Scope := "Cluster) (" |}; {| zero_CRDInfo with crd_Scope := "Cluster)" |}] |}))
  = false.
Proof. vm_compute. reflexivity. Qed.
