(* ===== verification/Cluster.v ===== *)
(** Capturing a live cluster (src/pkg/clustersrc/kubectl.go): the kubectl calls, the
    choice of the managed resource types at their storage versions, the unwrapping of
    kubectl's lists, and the snapshot of what they hold.

    kubectl is a function of its timeout and arguments: two calls of one capture with
    the same arguments are answered alike. *)
From Stdlib Require Import ZArith.
From S2P Require Import Prelude GoStrings Paths Yaml Types Config AppSet Enrich Documents Loader Owner Templates Tools Build Json Wire Snapshot.

#[local] Open Scope string_scope.
#[local] Open Scope list_scope.

(** ** Data *)

Record target : Type := MkTarget { tg_selector : string; tg_namespaced : bool; tg_label : string; tg_optional : bool }.
Definition fixedTargets : list target := [
  MkTarget "customresourcedefinitions" false "CRD" false;
  MkTarget "compositeresourcedefinitions" false "XRD" true;
  MkTarget "compositions" false "Composition" true;
  MkTarget "providers.pkg.crossplane.io" false "Crossplane Provider" true;
  MkTarget "functions.pkg.crossplane.io" false "Crossplane Function" true;
  MkTarget "configurations.pkg.crossplane.io" false "Crossplane Configuration" true;
  MkTarget "applications.argoproj.io" true "Argo Application" true;
  MkTarget "applicationsets.argoproj.io" true "Argo ApplicationSet" true;
  MkTarget "appprojects.argoproj.io" true "Argo AppProject" true ].
Definition providerGroupSuffixes : list string := [
  ".aws.upbound.io"; "aws.upbound.io"; ".sql.crossplane.io"; ".m.crossplane.io"; ".signoz.crossplane.io";
  "signoz.crossplane.io"; "external-secrets.io"; "generators.external-secrets.io" ].
Record Capturer : Type := MkCapturer {
  cp_KubectlBin : string; cp_Context : string; cp_Timeout : Z; cp_resolved : string; cp_probed : bool }.
(** Nanoseconds. *)
Definition CaptureTimeout : Z := 60 * 10 ^ 9.
Definition ProbeTimeout : Z := 10 * 10 ^ 9.
(** An error wraps ErrKubectlAbsent or does not. *)
Inductive CaptureError : Type := KubectlAbsent (err : string) | CaptureFailed (err : string).
Definition IsKubectlAbsent (e : CaptureError) : bool := match e with KubectlAbsent _ => true | CaptureFailed _ => false end.

(** ** Resource types *)

(** [strings.EqualFold]: besides the two cases of a letter, the Kelvin sign is a k and
    the long s is an s. *)
Fixpoint fold_case (s : string) : string :=
  match s with
  | String a (String b r as tail) =>
      if bool_decide (a = byte 197 ∧ b = byte 191) then String "s" (fold_case r)
      else match r with
           | String c r => if bool_decide (a = byte 226 ∧ b = byte 132 ∧ c = byte 170) then String "k" (fold_case r)
                           else String (lower_char a) (fold_case tail)
           | "" => String (lower_char a) (fold_case tail)
           end
  | String a r => String (lower_char a) (fold_case r)
  | "" => ""
  end.
Definition matchesProviderGroup (group : string) : bool :=
  existsb (λ suffix, String.eqb group suffix || has_suffix suffix group) providerGroupSuffixes.
Definition managed_target (fields : list string) : list target :=
  match fields with
  | plural :: group :: rest =>
      if negb (matchesProviderGroup group) then []
      else let namespaced := match rest with scope :: _ => negb (String.eqb (fold_case scope) "cluster") | [] => true end in
           let selector := match rest with
                           | _ :: version :: _ => if String.eqb version "" then plural +:+ "." +:+ group
                                                  else plural +:+ "." +:+ version +:+ "." +:+ group
                           | _ => plural +:+ "." +:+ group
                           end in
           [MkTarget selector namespaced selector false]
  | _ => []
  end.
Definition parseManagedCRDs (s : string) : list target := flat_map (λ l, managed_target (fields l)) (split_on (byte 10) s).
Definition isMissingResourceType (err : string) : bool :=
  contains err "doesn't have a resource type" || contains err "the server could not find the requested resource" ||
  contains err "could not find the requested resource".

(** ** kubectl *)

Section capture.
Context (env : build_env) (look_path : string → string + string)
  (run : Z → string → list string → string + string) (decode_version : string → option string).

Definition probe (c : Capturer) : Capturer * option CaptureError :=
  if cp_probed c then (c, None)
  else let c := {| c with cp_probed := true |} in
       match look_path (if String.eqb (cp_KubectlBin c) "" then "kubectl" else cp_KubectlBin c) with
       | inl resolved => ({| c with cp_resolved := resolved |}, None)
       | inr err => (c, Some (KubectlAbsent ("clustersrc: kubectl binary absent: " +:+ err)))
       end.
Definition timeout (c : Capturer) : Z := if Z.ltb 0 (cp_Timeout c) then cp_Timeout c else CaptureTimeout.
Definition baseArgs (c : Capturer) (args : list string) : list string :=
  (if String.eqb (cp_Context c) "" then [] else ["--context=" +:+ cp_Context c]) ++ args.
Definition get (c : Capturer) (t : target) : string + string :=
  run (timeout c) (cp_resolved c)
    (baseArgs c (["get"; tg_selector t] ++ (if tg_namespaced t then ["-A"] else []) ++ ["-o"; "yaml"])).
(** [decode_version]: the serverVersion.gitVersion of a JSON text. *)
Definition parseServerVersion (out : string) : string := default "" (decode_version out).
Definition serverVersion (c : Capturer) : string :=
  match run ProbeTimeout (cp_resolved c) (baseArgs c ["version"; "-o"; "json"]) with
  | inl out => parseServerVersion out
  | inr _ => ""
  end.
Definition jp : string :=
  "{range .items[*]}{.spec.names.plural}{" +:+ quote " " +:+ "}{.spec.group}{" +:+ quote " " +:+ "}{.spec.scope}{" +:+
  quote " " +:+ "}{.spec.versions[?(@.storage==true)].name}{" +:+ quote nl +:+ "}{end}".
Definition discoverManagedCRDs (c : Capturer) : list target + CaptureError :=
  match run (timeout c) (cp_resolved c) (baseArgs c ["get"; "customresourcedefinitions"; "-o"; "jsonpath=" +:+ jp]) with
  | inl out => inl (parseManagedCRDs out)
  | inr err => inr (CaptureFailed ("discover CRDs: " +:+ err))
  end.

(** ** Lists *)

Definition listItems (d : LoadedDocument) : option (list value) :=
  if negb (has_suffix "List" (ld_Kind d)) then None else get_slice (ld_Raw d) "items".
Fixpoint expand_items (sourcePath : string) (items : list value) : list LoadedDocument + string :=
  match items with
  | [] => inl []
  | item :: items =>
      match as_map item with
      | None => expand_items sourcePath items
      | Some m =>
          match be_marshal env (Some m) with
          | inr err => inr ("re-marshal list item: " +:+ err)
          | inl text =>
              match LoadReader (be_decode env) text sourcePath with
              | inr err => inr ("re-parse list item: " +:+ err)
              | inl expanded => match expand_items sourcePath items with inl out => inl (expanded ++ out) | inr err => inr err end
              end
          end
      end
  end.
Fixpoint expandLists (docs : list LoadedDocument) (sourcePath : string) : list LoadedDocument + string :=
  match docs with
  | [] => inl []
  | d :: docs =>
      match (match listItems d with Some items => expand_items sourcePath items | None => inl [d] end) with
      | inr err => inr err
      | inl out => match expandLists docs sourcePath with inl rest => inl (out ++ rest) | inr err => inr err end
      end
  end.

(** ** The capture *)

(** What one target gives: its documents, nothing when its type is optional and not
    installed, or the error that ends the capture. *)
Definition target_docs (c : Capturer) (t : target) : option (list LoadedDocument) + CaptureError :=
  match get c t with
  | inr err => if tg_optional t && isMissingResourceType err then inl None
               else inr (CaptureFailed ("kubectl get " +:+ tg_selector t +:+ ": " +:+ err))
  | inl out =>
      let sourcePath := "kubectl://" +:+ tg_selector t in
      match LoadReader (be_decode env) out sourcePath with
      | inr err => inr (CaptureFailed ("parse " +:+ tg_selector t +:+ ": " +:+ err))
      | inl docs =>
          match expandLists docs sourcePath with
          | inr err => inr (CaptureFailed ("unwrap " +:+ tg_selector t +:+ ": " +:+ err))
          | inl docs => inl (Some docs)
          end
      end
  end.
Definition skipping (t : target) : string := "clustersrc: skipping " +:+ tg_selector t +:+ " (resource type not installed)".
(** The loop: the documents and the captured kinds, and the lines written to stderr. *)
Fixpoint capture_targets (c : Capturer) (ts : list target) (docs : list LoadedDocument) (captured log : list string) :
    (list LoadedDocument * list string + CaptureError) * list string :=
  match ts with
  | [] => (inl (docs, captured), log)
  | t :: ts =>
      match target_docs c t with
      | inr err => (inr err, log)
      | inl None => capture_targets c ts docs captured (log ++ [skipping t])
      | inl (Some new) => capture_targets c ts (docs ++ new)
          (captured ++ [tg_selector t +:+ " (" +:+ itoa (Z.of_nat (length new)) +:+ ")"]) log
      end
  end.
Definition captured_line (captured : list string) : string :=
  "clustersrc: captured " +:+ itoa (Z.of_nat (length captured)) +:+ " kinds: " +:+
  join ", " (sort_slice str_lt captured).
Definition env_printers : printers := MkPrinters (be_fmt_float env) (be_other env).
(** The builder of a capture: nothing is rendered and no ApplicationSet expanded. *)
Definition capture_builder : Builder := MkBuilder true true "" (MkExpansionContext ∅ "") "" None.

Context {T : Type} `{!Renderers T} (tools : T) (now : Z).
Definition Capture (c : Capturer) (clusterName : string) :
    option (Capturer * list string * (Snapshot + CaptureError)) :=
  match probe c with
  | (c, Some err) => Some (c, [], inr err)
  | (c, None) =>
      let k8sVersion := serverVersion c in
      match discoverManagedCRDs c with
      | inr err => Some (c, [], inr err)
      | inl managed =>
          match capture_targets c (fixedTargets ++ managed) [] [] [] with
          | (inr err, log) => Some (c, log, inr err)
          | (inl (docs, captured), log) =>
              let log := log ++ [captured_line captured] in
              match Build capture_builder env docs (NewBuilder tools) with
              | None => None
              | Some (inr err) => Some (c, log, inr (CaptureFailed ("build IR from cluster: " +:+ err)))
              | Some (inl (world, _)) =>
                  let snap := FromWorldWithOptions env_printers now world clusterName true in
                  let snap := {| snap with sn_KubernetesVersion := k8sVersion |} in
                  Some (c, log, inl (ComputeDigest env_printers snap))
              end
          end
      end
  end.
End capture.

(** ** Lemmas *)

(** A word of the output of kubectl: printable ASCII without a space. *)
Definition word_char (c : ascii) : bool := let n := N_of_ascii c in (N.leb 33 n && N.leb n 126).
Fixpoint word (s : string) : bool := match s with "" => true | String c r => word_char c && word r end.

Lemma word_char_no_space c r : word_char c = true → find_first (λ w, has_prefix w (String c r)) white_space = None.
Proof. destruct c as [[] [] [] [] [] [] [] []]; intros H; vm_compute in H; first [discriminate|reflexivity]. Qed.
Lemma fields_from_word cur w r : word w = true → fields_from 0 cur (w +:+ r) = fields_from 0 (cur +:+ w) r.
Proof.
  revert cur. induction w as [|c w IH]; intros cur; [by rewrite app_str_nil_r|].
  cbn [word]. intros [Hc Hw]%andb_true_iff. cbn [String.append fields_from].
  rewrite word_char_no_space by done. rewrite IH by done. f_equal. by rewrite app_str_assoc.
Qed.
Lemma fields_from_space cur r :
  fields_from 0 cur (String " " r) = (if String.eqb cur "" then [] else [cur]) ++ fields_from 0 "" r.
Proof. reflexivity. Qed.
Lemma fields_word w r : word w = true → w ≠ "" → fields (w +:+ " " +:+ r) = w :: fields r.
Proof.
  intros Hw Hne. change (" " +:+ r) with (String " " r). unfold fields. rewrite fields_from_word, fields_from_space by done. cbn [String.append].
  by destruct (String.eqb_spec w "").
Qed.
Lemma fields_last w : word w = true → fields w = if String.eqb w "" then [] else [w].
Proof.
  intros Hw. unfold fields. rewrite <- (app_str_nil_r w) at 1. by rewrite fields_from_word.
Qed.
Lemma word_no_break w : word w = true → has_char (byte 10) w = false.
Proof.
  induction w as [|c w IH]; [done|]. cbn [word]. intros [Hc Hw]%andb_true_iff. rewrite has_char_cons, IH by done.
  rewrite orb_false_r. apply Ascii.eqb_neq. intros <-. discriminate.
Qed.

(** The line kubectl prints of a CRD, for the jsonpath of the request: no version is
    stored when the last word is empty. *)
Record crd_row : Type := MkCrdRow { cr_plural : string; cr_group : string; cr_scope : string; cr_version : string }.
Definition row_line (r : crd_row) : string :=
  cr_plural r +:+ " " +:+ cr_group r +:+ " " +:+ cr_scope r +:+ " " +:+ cr_version r.
Definition row_wf (r : crd_row) : Prop :=
  word (cr_plural r) = true ∧ cr_plural r ≠ "" ∧ word (cr_group r) = true ∧ cr_group r ≠ "" ∧
  word (cr_scope r) = true ∧ cr_scope r ≠ "" ∧ word (cr_version r) = true.
Definition row_target (r : crd_row) : target :=
  let selector := cr_plural r +:+ "." +:+ (if String.eqb (cr_version r) "" then "" else cr_version r +:+ ".") +:+ cr_group r in
  MkTarget selector (negb (String.eqb (fold_case (cr_scope r)) "cluster")) selector false.

Lemma row_fields r : row_wf r → fields (row_line r) =
  [cr_plural r; cr_group r; cr_scope r] ++ (if String.eqb (cr_version r) "" then [] else [cr_version r]).
Proof.
  intros (Hp & Hp' & Hg & Hg' & Hs & Hs' & Hv). unfold row_line.
  rewrite !fields_word by done. by rewrite fields_last.
Qed.
Lemma managed_row r : row_wf r → managed_target (fields (row_line r)) =
  if matchesProviderGroup (cr_group r) then [row_target r] else [].
Proof.
  intros Hr. rewrite row_fields by done. unfold managed_target, row_target. cbn [app].
  destruct (matchesProviderGroup _); cbn [negb]; [|done].
  destruct (String.eqb (cr_version r) "") eqn:E; cbn [app]; [done|]. rewrite E. by rewrite !app_str_assoc.
Qed.
Lemma row_no_break r : row_wf r → has_char (byte 10) (row_line r) = false.
Proof.
  intros (Hp & Hp' & Hg & Hg' & Hs & Hs' & Hv). unfold row_line. rewrite !has_char_app.
  rewrite (word_no_break _ Hp), (word_no_break _ Hg), (word_no_break _ Hs), (word_no_break _ Hv). reflexivity.
Qed.

(** The managed types: of the CRDs kubectl lists, exactly those of the provider groups
    become targets, in order, each named by its plural, its storage version, when one
    is stored, and its group, and read in all namespaces unless it is of the cluster. *)
Theorem parseManagedCRDs_spec (rows : list crd_row) : Forall row_wf rows →
  parseManagedCRDs (join "" (map (λ r, row_line r +:+ nl) rows)) =
  map row_target (filter (λ r, matchesProviderGroup (cr_group r) = true) rows).
Proof.
  unfold parseManagedCRDs. induction 1 as [|r rows Hr Hrs IH]; [done|]. cbn [map].
  assert (E : join "" ((row_line r +:+ nl) :: map (λ r, row_line r +:+ nl) rows) =
    row_line r +:+ String (byte 10) (join "" (map (λ r, row_line r +:+ nl) rows))).
  { destruct rows as [|q rows]; [done|]. rewrite join_cons by done. cbn [String.append]. by rewrite !app_str_assoc. }
  rewrite E, split_on_app by (by apply row_no_break). cbn [flat_map]. rewrite managed_row by done.
  rewrite IH, filter_cons. destruct (matchesProviderGroup (cr_group r)); by case_decide.
Qed.

Section capture_spec.
Context (env : build_env) (look_path : string → string + string)
  (run : Z → string → list string → string + string) (decode_version : string → option string).
Context {T : Type} `{!Renderers T} (tools : T) (now : Z).

(** The documents of a target, none when it is skipped. *)
Definition docs_of_target (c : Capturer) (t : target) : list LoadedDocument :=
  match target_docs env run c t with inl (Some docs) => docs | _ => [] end.
Definition answered (c : Capturer) (log : list string) (t : target) : Prop :=
  match target_docs env run c t with
  | inl (Some _) => True
  | inl None => tg_optional t = true ∧ skipping t ∈ log
  | inr _ => False
  end.
Lemma subseteq_app_inv {A} (l k m : list A) : l ++ k ⊆ m → l ⊆ m.
Proof. intros H x Hx. apply H, elem_of_app. by left. Qed.
Lemma capture_targets_inv c ts docs captured log docs' captured' log' :
  capture_targets env run c ts docs captured log = (inl (docs', captured'), log') →
  Forall (answered c log') ts ∧ docs' = docs ++ flat_map (docs_of_target c) ts ∧ log ⊆ log'.
Proof.
  revert docs captured log. induction ts as [|t ts IH]; intros docs captured log; cbn [capture_targets flat_map].
  { intros [= <- _ <-]. by rewrite app_nil_r. }
  unfold docs_of_target at 1. destruct (target_docs env run c t) as [[new|]|err] eqn:E; [| |done].
  - intros (H1 & -> & H2)%IH. split_and!; [constructor; [unfold answered; by rewrite E|exact H1]|by rewrite app_assoc|exact H2].
  - intros (H1 & -> & H2)%IH. split_and!; [|reflexivity|by apply (subseteq_app_inv _ [skipping t])].
    constructor; [|exact H1]. unfold answered. rewrite E. split; [|apply H2; apply elem_of_app; right; by apply list_elem_of_singleton].
    revert E. unfold target_docs. destruct (get _ _ _); [destruct (LoadReader _ _ _); [destruct (expandLists _ _ _)|]; done|].
    destruct (tg_optional t); [done|]. cbn [andb]. discriminate.
Qed.

Lemma capture_build docs w e : Build capture_builder env docs (NewBuilder tools) = Some (inl (w, e)) →
  last_passes env (enrichOwningApp (be_cwd env) (be_is_git env)
    (built (be_fmt_float env) (be_other env) (be_functions env) (resolve_knobs capture_builder zero_World) docs)) = Some w.
Proof.
  intros (st1 & st2 & H1 & H2 & H3)%Build_halves. apply (inj Some) in H2 as <-. destruct st1 as [w1 e1].
  apply finish_build_inv in H3 as (st & -> & H3 & _). cbn [fst] in H3. rewrite <- H3. f_equal.
  unfold NewBuilder, with_world in *. cbn [fst snd] in *.
  pose proof (add_documents_closed (be_fmt_float env) (be_other env) (be_functions env) docs
    (resolve_knobs capture_builder zero_World) (@nil Diagnostic, tools)) as E.
  assert (Eh : render_app capture_builder env = λ _ _ (st : World * (list Diagnostic * T)), Some st) by reflexivity.
  rewrite Eh in H1. change (World * (list Diagnostic * T))%type with (World * (list Diagnostic * T))%type in *.
  rewrite E in H1. destruct (find_first _ docs); [done|].
  pose proof (f_equal (λ o, match o with Some (inl (v, _)) => v | _ => w1 end) H1) as Ew. cbv beta iota in Ew. by rewrite Ew.
Qed.
Lemma target_docs_error c t err : target_docs env run c t = inr err → IsKubectlAbsent err = false.
Proof.
  unfold target_docs. destruct (get _ _ _) as [out|why].
  - destruct (LoadReader _ _ _) as [docs|]; [|by intros [= <-]]. destruct (expandLists _ _ _); [done|by intros [= <-]].
  - destruct (tg_optional t && _); [done|by intros [= <-]].
Qed.
Lemma capture_targets_error c ts docs captured log err log' :
  capture_targets env run c ts docs captured log = (inr err, log') → IsKubectlAbsent err = false.
Proof.
  revert docs captured log. induction ts as [|t ts IH]; intros docs captured log; cbn [capture_targets]; [done|].
  destruct (target_docs env run c t) as [[new|]|why] eqn:E; [apply IH|apply IH|]. intros [= -> _]. by eapply target_docs_error.
Qed.

(** The owners of the facts of documents: the claims are those of their Applications. *)
Definition document_owners (docs : list LoadedDocument) : list ownerPrefix :=
  buildOwnerPrefixes (be_cwd env) (be_is_git env) {| zero_World with w_ArgoApps := facts "argo-application" application_of docs |}.
Definition document_resources (docs : list LoadedDocument) : list ResourceInfo :=
  map (own_resource (be_cwd env) (document_owners docs)) (facts "resource" resource_of docs).
(** A snapshot whose content is the facts of [docs], in order, with their owners; its
    resources are followed by the Secrets their ExternalSecrets produce. *)
Record snapshot_of (docs : list LoadedDocument) (snap : Snapshot) : Prop := MkSnapshotOf {
  so_CRDs : sn_CRDs snap = map (own_crd (be_cwd env) (document_owners docs))
    (facts "crd" (λ d, crd_of (be_fmt_float env) (be_other env) d (spec_of d)) docs);
  so_XRDs : sn_XRDs snap = map (own_crd (be_cwd env) (document_owners docs))
    (facts "xrd" (λ d, xrd_of (be_fmt_float env) (be_other env) d (spec_of d)) docs);
  so_Compositions : sn_Compositions snap = map (own_composition (be_cwd env) (document_owners docs))
    (facts "composition" (λ d, composition_of (be_fmt_float env) (be_other env) d (spec_of d)) docs);
  so_Functions : sn_Functions snap = map (λ f, MkFunctionStatus (own_function (be_cwd env) (document_owners docs) f) "" true)
    (facts "function" (function_of (be_functions env)) docs);
  so_Providers : sn_Providers snap = map (λ p, MkProviderStatus (own_provider (be_cwd env) (document_owners docs) p) "" true)
    (facts "provider" provider_of docs);
  so_Configurations : sn_Configurations snap = facts "configuration" configuration_of docs;
  so_Schemas : sn_Schemas snap = w_Schemas (built (be_fmt_float env) (be_other env) (be_functions env) zero_World docs);
  so_TrackingMode : sn_ArgoTrackingMode snap =
    match facts "argo-application" application_of docs with [] => "" | app :: _ => app_TrackingMode app end;
  so_Apps : sn_ArgoApps snap = facts "argo-application" application_of docs;
  so_AppSets : sn_ArgoAppSets snap = facts "argo-applicationset" appset_of docs;
  so_Projects : sn_ArgoProjects snap = facts "argo-appproject" project_of docs;
  so_Resources : sn_Resources snap = document_resources docs ++
    produced_secrets {| zero_World with w_Resources := document_resources docs |} }.
(** The World of a capture, as the facts of its documents. *)
Lemma capture_facts docs w e name version : Build capture_builder env docs (NewBuilder tools) = Some (inl (w, e)) →
  let snap := FromWorldWithOptions (env_printers env) now w name true in
  snapshot_of docs (ComputeDigest (env_printers env) {| snap with sn_KubernetesVersion := version |}).
Proof.
  intros Eb%capture_build. rewrite enrichOwningApp_eq in Eb. cbv zeta in Eb.
  apply last_passes_keep in Eb as (secrets & Hs & [H1 H2 H3 H4 H5 H6 H7 H8 H9 H10 H11]).
  split; cbn [ComputeDigest FromWorldWithOptions sn_CRDs sn_XRDs sn_Compositions sn_Functions sn_Providers sn_Configurations
    sn_Schemas sn_ArgoTrackingMode sn_ArgoApps sn_ArgoAppSets sn_ArgoProjects sn_Resources].
  - exact H1.
  - exact H2.
  - exact H3.
  - rewrite H4. by apply map_map.
  - rewrite H5. by apply map_map.
  - exact H6.
  - exact H7.
  - by rewrite H8.
  - exact H8.
  - exact H9.
  - exact H10.
  - rewrite H11, Hs. reflexivity.
Qed.

(** C32: A snapshot of a cluster is what the cluster answered: it verifies, it carries the
    name and the version asked for, every type was read or, when optional, reported as
    not installed, and all it holds, from its CRDs, XRDs, Compositions, packages and
    schemas to its Argo objects, none expanded from a set, and its resources, is the
    facts of the documents read, in order, with their owners, and the Secrets their
    ExternalSecrets produce.  A capture that finds no kubectl says so, and no other
    failure is taken for that. *)
Theorem Capture_outcome c clusterName c' log out :
  Capture env look_path run decode_version tools now c clusterName = Some (c', log, out) →
  match out with
  | inr err => IsKubectlAbsent err = true ↔ cp_probed c = false ∧
      ∃ why, look_path (if String.eqb (cp_KubectlBin c) "" then "kubectl" else cp_KubectlBin c) = inr why
  | inl snap =>
      Verify (env_printers env) snap = true ∧ sn_ClusterName snap = clusterName ∧
      sn_KubernetesVersion snap = serverVersion run decode_version c' ∧
      ∃ managed, discoverManagedCRDs run c' = inl managed ∧
        let ts := fixedTargets ++ managed in
        let docs := flat_map (docs_of_target c') ts in
        Forall (answered c' log) ts ∧ snapshot_of docs snap ∧
        Forall (λ r, has_prefix "produced:externalsecret:" (ri_Provenance r) = true)
          (produced_secrets {| zero_World with w_Resources := document_resources docs |})
  end.
Proof.
  unfold Capture. destruct (probe look_path c) as [c1 [err|]] eqn:Ep.
  { intros [= <- <- <-]. revert Ep. unfold probe. destruct (cp_probed c); [done|].
    destruct (look_path _) as [|why]; [done|]. intros [= <- <-]. split; [by eauto|done]. }
  assert (Hfail : ∀ err, IsKubectlAbsent err = false → IsKubectlAbsent err = true ↔ cp_probed c = false ∧
    ∃ why, look_path (if String.eqb (cp_KubectlBin c) "" then "kubectl" else cp_KubectlBin c) = inr why).
  { intros err ->. split; [done|]. intros [Hc [why Hw]]. revert Ep. unfold probe. rewrite Hc. cbn [cp_KubectlBin]. by rewrite Hw. }
  destruct (discoverManagedCRDs run c1) as [managed|err] eqn:Ed.
  2: { intros [= <- <- <-]. apply Hfail. revert Ed. unfold discoverManagedCRDs. destruct (run _ _ _); [done|by intros [= <-]]. }
  destruct (capture_targets _ _ _ _ _ _ _) as [[[docs captured]|err] log1] eqn:Et.
  2: { intros [= <- <- <-]. apply Hfail. by eapply capture_targets_error. }
  destruct (Build _ _ _ _) as [[[w e]|err]|] eqn:Eb; [| |done].
  2: { intros [= <- <- <-]. by apply Hfail. }
  intros H. apply (inj Some) in H. apply pair_equal_spec in H as [H <-]. apply pair_equal_spec in H as [<- <-].
  apply capture_targets_inv in Et as (Ha & -> & Hl).
  apply (capture_facts _ _ _ clusterName (serverVersion run decode_version c1)) in Eb.
  split_and!; [apply String.eqb_refl|done|done|]. exists managed. split; [done|]. cbv zeta. split_and!.
  - eapply Forall_impl; [exact Ha|]. intros t. unfold answered.
    destruct (target_docs _ _ _ _) as [[|]|]; [done| |done]. intros [? ?]. split; [done|]. apply elem_of_app. by left.
  - exact Eb.
  - by apply synthesized_provenance.
Qed.
End capture_spec.

(** ** A small cluster: one Application, one managed instance, and no Crossplane *)

Definition ec2_rows : list crd_row := [
  MkCrdRow "instances" "ec2.aws.upbound.io" "Cluster" "v1beta1"; MkCrdRow "widgets" "example.org" "Namespaced" "v1";
  MkCrdRow "secrets" "external-secrets.io" "Namespaced" "" ].
Definition rows_text : string := join "" (map (λ r, row_line r +:+ nl) ec2_rows).
Lemma parseManagedCRDs_spec_witness : Forall row_wf ec2_rows ∧
  map tg_selector (parseManagedCRDs rows_text) = ["instances.v1beta1.ec2.aws.upbound.io"; "secrets.external-secrets.io"].
Proof.
  assert (H : Forall row_wf ec2_rows) by (repeat constructor; discriminate).
  split; [exact H|]. unfold rows_text. rewrite (parseManagedCRDs_spec ec2_rows H). reflexivity.
Defined.

Definition small_cluster (_ : Z) (bin : string) (args : list string) : string + string :=
  if String.eqb bin "" then inr "exec: no command"
  else match args with
       | ["--context=prod"; "version"; _; _] => inl "v1.30"
       | ["--context=prod"; "get"; "customresourcedefinitions"; _; "yaml"] => inl "crds"
       | ["--context=prod"; "get"; "customresourcedefinitions"; _; _] => inl rows_text
       | ["--context=prod"; "get"; "applications.argoproj.io"; "-A"; _; _] => inl "apps"
       | ["--context=prod"; "get"; "instances.v1beta1.ec2.aws.upbound.io"; _; _] => inl "instances"
       | ["--context=prod"; "get"; "secrets.external-secrets.io"; "-A"; _; _] => inl "none"
       | _ => inr "error: the server doesn't have a resource type"
       end.
Definition named (kind name : string) : obj :=
  [("apiVersion", VStr "argoproj.io/v1alpha1"); ("kind", VStr kind); ("metadata", VMap [("name", VStr name)])].
Definition list_of (items : list value) : obj := [("apiVersion", VStr "v1"); ("kind", VStr "List"); ("items", VList items)].
Definition cluster_env : build_env := {| demo_env with
  be_marshal := λ r, inl (get_str (get_map r "metadata") "name");
  be_decode := λ text,
    let doc r := ([MkYamlNode true (Some (1, 1)%Z) (inl (Some r))], None) in
    if String.eqb text "apps" then doc (list_of [VMap (named "Application" "web"); VNull])
    else if String.eqb text "instances" then doc (list_of [VMap (named "Instance" "db")])
    else if String.eqb text "web" then doc (named "Application" "web")
    else if String.eqb text "db" then doc (named "Instance" "db")
    else doc (list_of []) |}.
#[local] Instance no_tools : Renderers unit := {
  open_helm u := u; open_kustomize u := u; open_composition u := u;
  helm_render _ _ _ u := (inl "", u); kustomize_render _ _ u := (inl "", u); composition_render _ _ _ u := (inl "", u);
  helm_twice _ _ _ u := (inl (false, Some ""), u); kustomize_twice _ _ u := (inl (false, Some ""), u);
  helm_pull _ u := (inl "", u) }.
Definition prod : Capturer := MkCapturer "" "prod" 0 "" false.
#[local] Notation capture_prod found c :=
  (Capture cluster_env (if found then inl else λ _, inr "not found") small_cluster Some tt 0 c "prod").
Definition capture_view (r : option (Capturer * list string * (Snapshot + CaptureError))) :
    option (string * list string * list string * nat) :=
  match r with
  | Some (_, log, inl snap) =>
      Some (sn_KubernetesVersion snap, map app_Name (sn_ArgoApps snap), map ri_Name (sn_Resources snap), length log)
  | _ => None
  end.
Example capture_small : capture_view (capture_prod true prod) = Some ("v1.30", ["web"], ["db"], 8).
Proof. vm_compute. reflexivity. Qed.
Lemma capture_succeeds : ∃ c' log snap, capture_prod true prod = Some (c', log, inl snap).
Proof.
  pose proof capture_small as H. destruct (capture_prod true prod) as [[[c' log] [snap|err]]|]; [by eauto|done..].
Qed.
Lemma Capture_outcome_witness : ∃ c' log snap, capture_prod true prod = Some (c', log, inl snap) ∧
  Verify (env_printers cluster_env) snap = true ∧ sn_KubernetesVersion snap = serverVersion small_cluster Some c' ∧
  ∃ docs, snapshot_of cluster_env docs snap.
Proof.
  destruct capture_succeeds as (c' & log & snap & E). exists c', log, snap. split; [exact E|].
  pose proof (Capture_outcome cluster_env (if true then inl else λ _, inr "not found") small_cluster Some tt 0%Z prod "prod" c' log (inl snap) E)
    as (Hv & _ & Hk & managed & _ & _ & Hs & _).
  split; [exact Hv|]. split; [exact Hk|]. eexists. exact Hs.
Defined.

(** A probe that failed counts as done: a second capture runs an empty command, and its
    error is not the one of an absent kubectl. *)
Example probe_forgets : let c := {| prod with cp_probed := true |} in
  capture_prod false prod = Some (c, [], inr (KubectlAbsent "clustersrc: kubectl binary absent: not found")) ∧
  capture_prod false c = Some (c, [], inr (CaptureFailed "discover CRDs: exec: no command")).
Proof. split; vm_compute; reflexivity. Qed.
