(* ===== verification/ProofFile.v ===== *)
(** The files of the audit log (src/pkg/audit/proof.go): the JSON text a proof is saved
    as, and its printed summary.

    The text of a float does not occur in a proof; the iteration order of its map of
    rules and the short form of its time are parameters. *)
From Stdlib Require Import ZArith.
From S2P Require Import Prelude GoStrings Types Json Wire Sha256 AuditLog.

#[local] Open Scope string_scope.
#[local] Open Scope list_scope.

#[export] Instance wire_Judgment : Wire Judgment := struct (λ p x, [
  field p "status" (j_Status x); field p "ruleId" (j_RuleID x); field p "resource" (j_Resource x);
  omitempty p "message" (j_Message x); omitempty p "obligationId" (j_ObligationID x);
  omitempty p "category" (j_Category x); omitempty p "generator" (j_Generator x); field p "digest" (j_Digest x)]).
#[export] Instance wire_RunSummary : Wire RunSummary := struct (λ p x, [
  field p "totalObligations" (rs_TotalObligations x); field p "satisfied" (rs_Satisfied x);
  field p "violated" (rs_Violated x); omitempty p "obligationIds" (rs_ObligationIDs x)]).
#[export] Instance wire_ProofMetadata : Wire ProofMetadata := struct (λ p x, [
  field p "irDigest" (pm_IRDigest x); field p "snapshotDigest" (pm_SnapshotDigest x);
  field p "kernelVersion" (pm_KernelVersion x); field p "rulesetVersion" (pm_RulesetVersion x);
  field p "rulesetDigest" (pm_RulesetDigest x); field p "timestamp" (pm_Timestamp x);
  omitempty p "signingIdentity" (pm_SigningIdentity x); omitempty p "signature" (pm_Signature x);
  omitempty p "repo" (pm_Repo x); omitempty p "commit" (pm_Commit x); omitempty p "cluster" (pm_Cluster x)]).
(** A subtree, whose key is named [ruleId] or [resourceKey]. *)
Definition subtree_json (key : string) (p : printers) (x : Subtree) : option json := members [
  field p key (sub_Key x); field p "digest" (sub_Digest x); field p "judgments" (sub_Judgments x)].
(** encoding/json sorts the keys of a map. *)
Definition subtrees_json (key : string) (p : printers) (m : gmap string Subtree) : option json :=
  JObj <$> mapM (λ kv : string * Subtree, pair kv.1 <$> subtree_json key p kv.2)
    (sort_slice (λ a b, str_lt a.1 b.1) (map_to_list m)).
Definition member (name : string) (o : option json) : option (list (string * json)) := (λ j, [(name, j)]) <$> o.
Definition proof_json (p : printers) (x : Proof_) : option json := members [
  field p "version" (p_Version x); field p "rootDigest" (p_RootDigest x); field p "metadata" (p_Metadata x);
  match p_Run x with Some r => field p "run" r | None => Some [] end;
  member "ruleSubtrees" (subtrees_json "ruleId" p (p_RuleSubtrees x));
  member "resourceSubtrees" (subtrees_json "resourceKey" p (p_ResourceSubtrees x));
  field p "tree" (p_Tree x)].
Definition plain_printers : printers := MkPrinters (λ _, "") (λ _, None).
(** [Save]: the text that is written. *)
Definition Save (x : Proof_) : option string := indented "" <$> proof_json plain_printers x.

(** ** The summary *)

Section summary.
Context (order : gmap string Subtree → list (string * Subtree)) (rfc3339 : string → string).
Definition all_judgments (p : Proof_) : list Judgment := flat_map (λ kv, sub_Judgments kv.2) (order (p_RuleSubtrees p)).
Definition count_status (s : string) (js : list Judgment) : nat := length (filter (λ j, j_Status j = s) js).
Definition Summary (p : Proof_) : string :=
  let js := all_judgments p in
  let m := p_Metadata p in
  "Proof: " +:+ truncDigest (p_RootDigest p) +:+ nl +:+
  "  IR:       " +:+ pm_IRDigest m +:+ nl +:+
  "  Snapshot: " +:+ pm_SnapshotDigest m +:+ nl +:+
  "  Kernel:   " +:+ pm_KernelVersion m +:+ nl +:+
  "  Ruleset:  " +:+ pm_RulesetVersion m +:+ " (" +:+ truncDigest (pm_RulesetDigest m) +:+ ")" +:+ nl +:+
  "  Time:     " +:+ rfc3339 (pm_Timestamp m) +:+ nl +:+
  "  Judgments: " +:+ nat_str (length js) +:+ " total (" +:+ nat_str (count_status "error" js) +:+ " errors, " +:+
    nat_str (count_status "warning" js) +:+ " warnings, " +:+ nat_str (count_status "ok" js) +:+ " ok)" +:+ nl +:+
  (if Nat.eqb (count_status "error" js) 0 then ""
   else nl +:+ "  Errors:" +:+ nl +:+
        join "" (map (λ j, "    " +:+ j_RuleID j +:+ " " +:+ j_Resource j +:+ ": " +:+ j_Message j +:+ nl)
                     (filter (λ j, j_Status j = "error") js))).
End summary.

(** ** Every proof can be saved *)

#[export] Instance total_Judgment : WireTotal Judgment.
Proof. solve_total. Qed.
#[export] Instance total_RunSummary : WireTotal RunSummary.
Proof. solve_total. Qed.
#[export] Instance total_ProofMetadata : WireTotal ProofMetadata.
Proof. solve_total. Qed.
Lemma subtree_total key p x : is_Some (subtree_json key p x).
Proof. apply members_total. repeat (apply Forall_cons; split); [apply field_total..|apply Forall_nil_2]. Qed.
Lemma subtrees_total key p m : is_Some (subtrees_json key p m).
Proof.
  unfold subtrees_json. destruct (mapM_total (λ kv : string * Subtree, pair kv.1 <$> subtree_json key p kv.2)
    (sort_slice (λ a b, str_lt a.1 b.1) (map_to_list m))) as [l ->]; [|by eexists].
  intros kv _. destruct (subtree_total key p kv.2) as [j ->]. by eexists.
Qed.
Lemma Save_total x : is_Some (Save x).
Proof.
  unfold Save. apply fmap_is_Some, members_total.
  repeat (apply Forall_cons; split); [apply field_total..| | | |apply field_total|apply Forall_nil_2].
  - destruct (p_Run x); [apply field_total|by eexists].
  - unfold member. by apply fmap_is_Some, subtrees_total.
  - unfold member. by apply fmap_is_Some, subtrees_total.
Qed.
