(* ===== verification/Shell.v ===== *)
(** The frame of the commands of src/cmd/xpc/main.go: what a command reads of its
    process, what it prints and writes, its exit code, and the loop over its flags.

    A command is a function of the state of its outputs that goes on with a value,
    stops with an exit code, or panics ([None]). *)
From Stdlib Require Import ZArith.
From S2P Require Import Prelude GoStrings.

#[local] Open Scope string_scope.
#[local] Open Scope list_scope.

(** ** Commands *)

(** Standard output, standard error, and the files written. *)
Record io : Type := MkIO { io_out : string; io_err : string; io_files : gmap string string }.
Definition command (A : Type) : Type := io → option (io * (A + Z)).
#[export] Instance command_ret : MRet command := λ A a s, Some (s, inl a).
#[export] Instance command_bind : MBind command := λ A B f m s,
  match m s with
  | None => None
  | Some (s, inl a) => f a s
  | Some (s, inr code) => Some (s, inr code)
  end.
Definition exit_with {A} (code : Z) : command A := λ s, Some (s, inr code).
Definition panic {A} : command A := λ _, None.
Definition print (text : string) : command unit :=
  λ s, Some ({| s with io_out := io_out s +:+ text |}, inl tt).
Definition eprint (text : string) : command unit :=
  λ s, Some ({| s with io_err := io_err s +:+ text |}, inl tt).
Definition eprintln (text : string) : command unit := eprint (text +:+ nl).
(** An error: its line on standard error, and exit code 1. *)
Definition fail {A} (text : string) : command A := eprintln text;; exit_with 1.
Definition or_fail {A} (what : string → string) (r : A + string) : command A :=
  match r with inl a => mret a | inr err => fail (what err) end.
Definition or_panic {A} (o : option A) : command A := match o with Some a => mret a | None => panic end.
(** [write]: why a file cannot be written, if it cannot. *)
Definition write_file (write : string → option string) (path text : string) : command (unit + string) := λ s,
  match write path with
  | Some err => Some (s, inl (inr err))
  | None => Some ({| s with io_files := <[path := text]> (io_files s) |}, inl (inl tt))
  end.
(** The exit code of a command that returns one. *)
Definition status (m : command Z) (s : io) : option (io * Z) :=
  match m s with
  | None => None
  | Some (s, inl code) | Some (s, inr code) => Some (s, code)
  end.

(** ** Flags *)

(** A flag that stands alone, or one whose value follows its name; a [strict] one must
    have a value that is not empty, and is an unknown flag otherwise. *)
Inductive flag (A : Type) : Type :=
  | Switch (name : string) (set : A → A)
  | Value (name : string) (strict : bool) (set : string → A → command A).
Arguments Switch {A} name set. Arguments Value {A} name strict set.
Definition flag_matches {A} (arg : string) (f : flag A) : bool :=
  match f with
  | Switch name _ => String.eqb arg name
  | Value name strict _ => has_prefix name arg && (negb strict || Nat.ltb (String.length name) (String.length arg))
  end.
Definition set_flag {A} (f : flag A) (arg : string) (o : A) : command A :=
  match f with
  | Switch _ set => mret (set o)
  | Value name _ set => set (trim_prefix name arg) o
  end.
Section flags.
Context {A : Type} (flags : list (flag A)) (help : command A) (positional : string → A → command A).
(** The switch of a command: its flags in their order, then help, then what looks like
    a flag, then a positional argument. *)
Definition parse_arg (arg : string) (o : A) : command A :=
  match find_first (flag_matches arg) flags with
  | Some f => set_flag f arg o
  | None =>
      if String.eqb arg "--help" || String.eqb arg "-h" then help
      else if has_prefix "-" arg then fail ("unknown flag: " +:+ arg)
      else positional arg o
  end.
Fixpoint parse_args (args : list string) (o : A) : command A :=
  match args with
  | [] => mret o
  | arg :: args => o ← parse_arg arg o; parse_args args o
  end.
End flags.

(** ** Lemmas *)

Lemma bind_Some {A B} (f : A → command B) (m : command A) s s' r : (m ≫= f) s = Some (s', r) ↔
  (∃ s1 a, m s = Some (s1, inl a) ∧ f a s1 = Some (s', r)) ∨ (∃ code, m s = Some (s', inr code) ∧ r = inr code).
Proof.
  unfold mbind, command_bind. destruct (m s) as [[s1 [a|code]]|].
  - split; [intros H; left; eauto|]. by intros [(s2 & b & [= <- <-] & H)|(code & [= ] & _)].
  - split; [intros [= <- <-]; right; eauto|]. intros [(s2 & b & [= ] & _)|(c & [= <- <-] & ->)]. done.
  - split; [done|]. by intros [(s2 & b & [= ] & _)|(c & [= ] & _)].
Qed.
Lemma bind_inl {A B} (f : A → command B) (m : command A) s s' b : (m ≫= f) s = Some (s', inl b) ↔
  ∃ s1 a, m s = Some (s1, inl a) ∧ f a s1 = Some (s', inl b).
Proof. rewrite bind_Some. split; [intros [?|(code & _ & [= ])]; eauto|by left]. Qed.
Lemma bind_or_fail {A B} (f : A → command B) what (r : A + string) s :
  (or_fail what r ≫= f) s = match r with inl a => f a s | inr err => (fail (what err) : command B) s end.
Proof. by destruct r. Qed.
Lemma ret_Some {A} (a : A) s s' r : (mret a : command A) s = Some (s', r) ↔ s' = s ∧ r = inl a.
Proof. unfold mret, command_ret. split; [by intros [= <- <-]|by intros [-> ->]]. Qed.
Lemma fail_Some {A} text s s' (r : A + Z) : fail text s = Some (s', r) → r = inr 1%Z ∧ io_out s' = io_out s ∧ io_files s' = io_files s.
Proof. unfold fail. intros H. apply bind_Some in H as [(s1 & [] & [= <-] & [= <- <-])|(code & [= ] & _)]. done. Qed.
Lemma or_fail_Some {A} what (r : A + string) s s' r' : or_fail what r s = Some (s', r') →
  (∃ a, r = inl a ∧ s' = s ∧ r' = inl a) ∨ (∃ err, r = inr err ∧ r' = inr 1%Z).
Proof.
  unfold or_fail. destruct r as [a|err]; [intros [-> ->]%ret_Some; left; eauto|].
  intros (-> & _)%fail_Some. right; eauto.
Qed.
Lemma or_panic_Some {A} (o : option A) s s' r : or_panic o s = Some (s', r) → ∃ a, o = Some a ∧ s' = s ∧ r = inl a.
Proof. unfold or_panic. destruct o as [a|]; [|done]. intros [-> ->]%ret_Some. eauto. Qed.

(** A command that prints nothing on standard output and, if it stops, stops with 1, or
    with 0 where it may print its help. *)
Definition silent {A} (helps : bool) (m : command A) : Prop := ∀ s s' r, m s = Some (s', r) →
  io_out s' = io_out s ∧ match r with inl _ => True | inr code => code = 1%Z ∨ (helps = true ∧ code = 0%Z) end.
Lemma silent_bind {A B} h (m : command A) (f : A → command B) : silent h m → (∀ a, silent h (f a)) → silent h (m ≫= f).
Proof.
  intros Hm Hf s s' r [(s1 & a & H1 & H2)|(c & H & ->)]%bind_Some; [|exact (Hm _ _ _ H)].
  destruct (Hm _ _ _ H1) as [E1 _], (Hf _ _ _ _ H2) as [E2 ?]. split; [congruence|done].
Qed.
Lemma silent_ret {A} h (a : A) : silent h (mret a).
Proof. by intros s s' r [-> ->]%ret_Some. Qed.
Lemma silent_exit {A} : silent true (exit_with 0 : command A).
Proof. intros s s' r [= <- <-]. split; [done|by right]. Qed.
Lemma silent_stop {A} h : silent h (exit_with 1 : command A).
Proof. intros s s' r [= <- <-]. split; [done|by left]. Qed.
Lemma silent_eprint h text : silent h (eprint text).
Proof. by intros s s' r [= <- <-]. Qed.
Lemma silent_fail {A} h text : silent h (fail text : command A).
Proof. intros s s' r (-> & -> & _)%fail_Some. split; [done|by left]. Qed.
Lemma silent_or_fail {A} h what (r : A + string) : silent h (or_fail what r).
Proof. destruct r; [apply silent_ret|apply silent_fail]. Qed.
Lemma silent_or_panic {A} h (o : option A) : silent h (or_panic o).
Proof. destruct o; [apply silent_ret|done]. Qed.
Lemma silent_panic {A} h : silent h (panic : command A).
Proof. done. Qed.
Lemma silent_write_file h write path text : silent h (write_file write path text).
Proof. intros s s' r. unfold write_file. destruct (write path); by intros [= <- <-]. Qed.
Create HintDb shell.
#[export] Hint Resolve silent_bind silent_ret silent_eprint silent_fail silent_or_fail silent_or_panic silent_panic
  silent_exit silent_stop silent_write_file : shell.
#[export] Hint Extern 1 (silent _ (eprintln _)) => apply silent_eprint : shell.
(** Through the tests of a command, then the hints. *)
Ltac silence := repeat (apply silent_bind; [|intros ?]) || case_match || (progress cbn beta iota); auto with shell.

Lemma silent_parse_args {A} h (flags : list (flag A)) (help : command A) positional args o :
  Forall (λ f, ∀ arg o, silent h (set_flag f arg o)) flags → silent h help → (∀ arg o, silent h (positional arg o)) →
  silent h (parse_args flags help positional args o).
Proof.
  intros Hf Hh Hp. revert o. induction args as [|arg args IH]; intros o; [apply silent_ret|]. cbn [parse_args].
  apply silent_bind; [|intros; apply IH]. unfold parse_arg. destruct (find_first _ flags) as [f|] eqn:E.
  - rewrite Forall_forall in Hf. apply Hf. by apply find_first_Some in E as [? _].
  - destruct (_ || _); [done|]. destruct (has_prefix _ _); [apply silent_fail|done].
Qed.
(** The arguments one after the other. *)
Lemma parse_args_app {A} (flags : list (flag A)) help positional args args' o s :
  parse_args flags help positional (args ++ args') o s =
  (parse_args flags help positional args o ≫= parse_args flags help positional args') s.
Proof.
  revert o s. induction args as [|arg args IH]; intros o s; [done|]. cbn [app parse_args].
  unfold mbind, command_bind. destruct (parse_arg _ _ _ arg o s) as [[s1 [o1|code]]|]; [|done..]. rewrite IH. done.
Qed.
