(* ===== verification/RunCheck.v ===== *)
(** `xpc check` (src/cmd/xpc/main.go, runCheck): the flags, the documents and the
    snapshot, the World, the rules a run is restricted to, the kernel, the notes added
    after it, the waivers, the report, the profile and the proof, and the exit code.

    The text of the usage, the texts of foreign errors, the lines of XPC_TIMING and the
    timings of a profile are not modelled; the process is a record of what the command
    reads.  Loading a directory is one outcome of Loader.v's workers. *)
From Stdlib Require Import ZArith.
From S2P Require Import Prelude GoStrings Paths Yaml Types Config Waiver AppSet Json AuditLog Enrich Kl Encode Checker Documents Loader Owner Tools Build Wire Snapshot Report SExpr ProofFile Shell.

#[local] Open Scope string_scope.
#[local] Open Scope list_scope.

(** ** Options *)

Record check_options : Type := MkCheckOptions {
  co_format : string; co_strictConversions : bool; co_generateProof : bool; co_snapshotPath : string;
  co_skipRender : bool; co_helmBin : string; co_kustomizeBin : string; co_crossplaneBin : string;
  co_appsetFixturePath : string; co_helmCacheDir : string; co_skipAppSetExpand : bool; co_kernelPath : string;
  co_configPath : string; co_ssaMPMode : string; co_focusPreset : string; co_profileRules : bool;
  co_profileOut : string; co_waiversPath : string; co_showWaived : bool; co_noWaivers : bool;
  co_categoryFilter : list string; co_ruleFilter : list string; co_paths : list string }.
Definition default_options (getenv : string → string) : check_options := {|
  co_format := "agent"; co_strictConversions := false; co_generateProof := false; co_snapshotPath := "";
  co_skipRender := false; co_helmBin := ""; co_kustomizeBin := ""; co_crossplaneBin := "";
  co_appsetFixturePath := ""; co_helmCacheDir := ""; co_skipAppSetExpand := false;
  co_kernelPath := getenv "XPC_KERNEL_PATH"; co_configPath := getenv "XPC_CONFIG_PATH"; co_ssaMPMode := "observe";
  co_focusPreset := "all"; co_profileRules := false; co_profileOut := "";
  co_waiversPath := getenv "XPC_WAIVERS_PATH"; co_showWaived := false; co_noWaivers := false;
  co_categoryFilter := []; co_ruleFilter := []; co_paths := [] |}.

Definition splitCSV (s : string) : list string :=
  filter (λ t, t ≠ "") (map trim_space (split_on "," s)).
(** A value that must be one of some words. *)
Definition one_of (flag : string) (words : list string) (set : string → check_options → check_options)
    (v : string) (o : check_options) : command check_options :=
  if contains_string words v then mret (set v o)
  else fail ("invalid " +:+ flag +:+ "=" +:+ v +:+ " (must be one of: " +:+ join ", " words +:+ ")").
Definition check_flags : list (flag check_options) := [
  Switch "--strict-conversions" (λ o, {| o with co_strictConversions := true |});
  Switch "--proof" (λ o, {| o with co_generateProof := true |});
  Switch "--skip-render" (λ o, {| o with co_skipRender := true |});
  Switch "--skip-appset-expand" (λ o, {| o with co_skipAppSetExpand := true |});
  Switch "--profile-rules" (λ o, {| o with co_profileRules := true |});
  Value "--format=" true (λ v o, mret {| o with co_format := v |});
  Value "--snapshot=" true (λ v o, mret {| o with co_snapshotPath := v |});
  Value "--helm-bin=" true (λ v o, mret {| o with co_helmBin := v |});
  Value "--kustomize-bin=" true (λ v o, mret {| o with co_kustomizeBin := v |});
  Value "--crossplane-bin=" false (λ v o, mret {| o with co_crossplaneBin := v |});
  Value "--appset-fixture=" true (λ v o, mret {| o with co_appsetFixturePath := v |});
  Value "--helm-cache-dir=" false (λ v o, mret {| o with co_helmCacheDir := v |});
  Value "--kernel-path=" false (λ v o, mret {| o with co_kernelPath := v |});
  Value "--config=" false (λ v o, mret {| o with co_configPath := v |});
  Value "--profile-out=" false (λ v o, mret {| o with co_profileOut := v |});
  Value "--waivers=" false (λ v o, mret {| o with co_waiversPath := v |});
  Switch "--show-waived" (λ o, {| o with co_showWaived := true |});
  Switch "--no-waivers" (λ o, {| o with co_noWaivers := true |});
  Value "--ssa-mp-mode=" false
    (one_of "--ssa-mp-mode" ["observe"; "partial"; "any"] (λ v o, {| o with co_ssaMPMode := v |}));
  Value "--focus=" false
    (one_of "--focus" ["all"; "inc6-floor"; "render"] (λ v o, {| o with co_focusPreset := v |}));
  Value "--category=" false (λ v o, mret {| o with co_categoryFilter := co_categoryFilter o ++ splitCSV v |});
  Value "--rules=" false (λ v o, mret {| o with co_ruleFilter := co_ruleFilter o ++ splitCSV v |}) ].
Definition add_path (arg : string) (o : check_options) : command check_options :=
  mret {| o with co_paths := co_paths o ++ [arg] |}.

(** ** The rules of a run *)

Definition focusPresetAllowlist (preset : string) : list string :=
  if String.eqb preset "inc6-floor" then
    ["XPC.S.crossplane-state-needs-orphan"; "XPC.E.appset-finalizer-without-preserve"; "XPC.E.prod-appset-autosync"]
  else if String.eqb preset "render" then
    ["XPC.H.helm-renders"; "XPC.H.kustomize-renders"; "XPC.H.composition-renders"; "XPC.H.values-well-typed";
     "XPC.H.render-deterministic"]
  else [].
Definition codeCategory (code : string) : string :=
  if negb (has_prefix "XPC." code) then ""
  else match cut_char "." (trim_prefix "XPC." code) with Some (letters, _) => letters | None => "" end.
(** The codes of each category, in the order of the known rules. *)
Definition add_category (m : gmap string (list string)) (code : string) : gmap string (list string) :=
  let cat := codeCategory code in
  if String.eqb cat "" then m else <[cat := default [] (m !! cat) ++ [code]]> m.
Definition byCategory : gmap string (list string) := foldl add_category ∅ KnownRuleCodes.
Definition sortedCategoryLetters (m : gmap string (list string)) : list string := sort_slice str_lt (map fst (map_to_list m)).
(** [add]: the codes in the order they first come. *)
Definition add_code (out : list string) (code : string) : list string :=
  if bool_decide (code ∈ out) then out else out ++ [code].
Fixpoint add_categories (categories : list string) (out : list string) : list string + string :=
  match categories with
  | [] => inl out
  | cat :: categories =>
      match byCategory !! cat with
      | None => inr ("invalid --category=" +:+ cat +:+ " (no rules in category " +:+ quote cat +:+
                     "; known categories: " +:+ join "," (sortedCategoryLetters byCategory) +:+ ")")
      | Some codes => add_categories categories (foldl add_code out codes)
      end
  end.
Definition resolveRuleAllowlist (focusPreset : string) (categories rules : list string) : list string + string :=
  match categories, rules with
  | [], [] => inl (focusPresetAllowlist focusPreset)
  | _, _ => match add_categories categories [] with
            | inl out => inl (foldl add_code out rules)
            | inr err => inr err
            end
  end.
Definition postKernelAllowed (allowlist categoryFilter : list string) (code : string) : bool :=
  match allowlist with
  | [] => true
  | _ => contains_string allowlist code ||
         (negb (String.eqb (codeCategory code) "") && contains_string categoryFilter (codeCategory code))
  end.

(** ** The notes of a run without rendering *)

Definition skip_note (app : ArgoApplication) (code renderer : string) : Diagnostic := {| zero_Diagnostic with
  dg_Code := code; dg_Severity := SeverityInfo; dg_Source := app_Source app;
  dg_Message := app_Name app +:+ ": " +:+ renderer +:+ " render skipped (--skip-render set)" |}.
(** One source: what was seen of the Application so far, and the notes. *)
Definition note_source (allowed : string → bool) (app : ArgoApplication)
    (st : bool * bool * list Diagnostic) (src : ArgoSource) : bool * bool * list Diagnostic :=
  let '(helmSeen, kustSeen, notes) := st in
  if String.eqb (as_Renderer src) "helm" then
    if negb helmSeen && allowed "XPC.H.helm-renders"
    then (true, kustSeen, notes ++ [skip_note app "XPC.H.helm-renders" "helm"]) else st
  else if String.eqb (as_Renderer src) "kustomize" then
    if negb kustSeen && allowed "XPC.H.kustomize-renders"
    then (helmSeen, true, notes ++ [skip_note app "XPC.H.kustomize-renders" "kustomize"]) else st
  else st.
Definition app_notes (allowed : string → bool) (app : ArgoApplication) : list Diagnostic :=
  snd (foldl (note_source allowed app) (false, false, []) (app_Sources app)).
Definition post_kernel (allowed : string → bool) (skipRender : bool) (expansion : list Diagnostic)
    (apps : list ArgoApplication) : list Diagnostic :=
  filter (λ d, allowed (dg_Code d) = true) expansion ++
  (if skipRender then flat_map (app_notes allowed) apps else []).

(** ** The process *)

Record process (T : Type) : Type := MkProcess {
  ps_getenv : string → string; ps_getwd : string + string; ps_abs : string → option string;
  ps_stat : string → bool + string; ps_read : string → string + string; ps_write : string → option string;
  ps_load_directory : string → list LoadedDocument + string;
  ps_load_config : string → option Config; ps_discover : string → option (option (string * bool));
  ps_config_error : string → string;
  ps_find_waivers : string → option string; ps_decode_waivers : string → list Waiver + string;
  ps_waiver_error : WaiverError → string;
  ps_decode_snapshot : string → Snapshot + string; ps_decode_fixtures : string → gmap string (list obj) + string;
  ps_now : Z; ps_today : date; ps_timestamp : string;
  ps_build : build_env; ps_tools : string → string → string → T;
  ps_ruleset : string → list (string * string) + string; ps_profile : RunResult → string; ps_usage : string }.
Arguments ps_getenv {T}. Arguments ps_getwd {T}. Arguments ps_abs {T}. Arguments ps_stat {T}. Arguments ps_read {T}.
Arguments ps_write {T}. Arguments ps_load_directory {T}. Arguments ps_load_config {T}. Arguments ps_discover {T}.
Arguments ps_config_error {T}. Arguments ps_find_waivers {T}. Arguments ps_decode_waivers {T}.
Arguments ps_waiver_error {T}. Arguments ps_decode_snapshot {T}. Arguments ps_decode_fixtures {T}. Arguments ps_now {T}.
Arguments ps_today {T}. Arguments ps_timestamp {T}. Arguments ps_build {T}. Arguments ps_tools {T}.
Arguments ps_ruleset {T}. Arguments ps_profile {T}. Arguments ps_usage {T}.

(** What a run found: the kernel's result, the World it checked, the snapshot, and the
    diagnostics that are left. *)
Record check_outcome : Type := MkCheckOutcome {
  ck_result : RunResult; ck_world : World; ck_snapshot : option Snapshot; ck_diags : list Diagnostic }.

Section check.
Context {Obj : Type} `{!KL Obj}.
Context (init_error : string → option string) (check_world : Obj → Obj) (IsError : Obj → bool).
Context {T : Type} `{!Renderers T} (ps : process T) (order : ∀ A, gmap string A → list (string * A)).

Definition print_usage {A} : command A := eprint (ps_usage ps);; exit_with 0.
(** [parse_args] and the default path: the current directory, unless a snapshot is the
    only input. *)
Definition parse_check (args : list string) : command check_options :=
  o ← parse_args check_flags print_usage add_path args (default_options (ps_getenv ps));
  mret match co_paths o with
       | [] => if String.eqb (co_snapshotPath o) "" then {| o with co_paths := ["."] |} else o
       | _ => o
       end.

(** *** Inputs *)

Definition resolve_config (o : check_options) (cwd : string) : command Config :=
  match Config.Resolve (ps_load_config ps) (ps_discover ps) (co_configPath o) "" cwd with
  | None => fail ("error loading xpc.yaml: " +:+ ps_config_error ps (co_configPath o))
  | Some (cfg, path, via) =>
      (if via && negb (String.eqb path "")
       then eprintln ("info: xpc.yaml discovered via exe-dir fallback at " +:+ path) else mret tt);; mret cfg
  end.
Definition load_path (path : string) : command (list LoadedDocument) :=
  is_dir ← or_fail (λ err, "error: " +:+ err) (ps_stat ps path);
  or_fail (λ err, "error loading " +:+ path +:+ ": " +:+ err)
    (if is_dir : bool then ps_load_directory ps path else LoadFile (ps_read ps) (be_decode (ps_build ps)) path).
Fixpoint load_paths (paths : list string) (docs : list LoadedDocument) : command (list LoadedDocument) :=
  match paths with
  | [] => mret docs
  | path :: paths => new ← load_path path; load_paths paths (docs ++ new)
  end.
(** [snapshot.Load], over the decoder of its JSON. *)
Definition load_snapshot (path : string) : Snapshot + string :=
  match ps_read ps path with
  | inr err => inr ("reading snapshot: " +:+ err)
  | inl data => match ps_decode_snapshot ps data with
                | inr err => inr ("unmarshaling snapshot: " +:+ err)
                | inl s => inl s
                end
  end.
Definition snapshot_input (o : check_options) : command (option Snapshot) :=
  if String.eqb (co_snapshotPath o) "" then mret None
  else snap ← or_fail (λ err, "error loading snapshot: " +:+ err) (load_snapshot (co_snapshotPath o));
       (if IsStale (ps_now ps) SnapshotTTL snap
        then eprintln "warning: snapshot is stale (older than 15 minutes)" else mret tt);;
       mret (Some snap).
(** [loadAppSetFixtures]: each value becomes its text; a set without parameters has no
    entry. *)
Definition stringify (pr : obj) : gmap string string :=
  foldl (λ m kv, <[fst kv := be_show (ps_build ps) (snd kv)]> m) ∅ pr.
Definition loadAppSetFixtures (path : string) : gmap string (list (gmap string string)) + string :=
  match ps_read ps path with
  | inr err => inr err
  | inl data =>
      match ps_decode_fixtures ps data with
      | inr err => inr ("decoding YAML: " +:+ err)
      | inl r => inl (omap (λ prs, match prs with [] => None | _ => Some (map stringify prs) end) r)
      end
  end.
Definition fixtures_input (o : check_options) : command (gmap string (list (gmap string string))) :=
  let path := co_appsetFixturePath o in
  if String.eqb path "" then mret ∅
  else or_fail (λ err, "error loading --appset-fixture=" +:+ path +:+ ": " +:+ err) (loadAppSetFixtures path).

(** *** The World *)

Definition check_builder (o : check_options) (cfg : Config) (fixtures : gmap string (list (gmap string string))) : Builder :=
  MkBuilder (co_skipRender o) (co_skipAppSetExpand o) (co_helmCacheDir o) (MkExpansionContext fixtures "")
    (co_ssaMPMode o) (Some cfg).
Definition build_world (o : check_options) (cfg : Config) (docs : list LoadedDocument) : command (World * list Diagnostic) :=
  fixtures ← fixtures_input o;
  let tools := ps_tools ps (co_helmBin o) (co_kustomizeBin o) (co_crossplaneBin o) in
  built ← or_panic (Build (check_builder o cfg fixtures) (ps_build ps) docs (NewBuilder tools));
  st ← or_fail (λ err, "error building IR: " +:+ err) built;
  mret (fst st, fst (snd st)).
(** The snapshot is merged, and every fact computed again over the merged World. *)
Definition merge_snapshot (w : World) (snap : option Snapshot) : command World :=
  match snap with
  | None => mret w
  | Some s => or_panic (ReEnrich (be_show (ps_build ps)) (be_order (ps_build ps)) (mergeSnapshotIntoWorld w s))
  end.

(** *** Waivers *)

(** [waiver.Load], over the decoder of its YAML. *)
Definition load_waivers (path : string) : string + Set_ :=
  match ps_read ps path with
  | inr err => inl ("reading " +:+ path +:+ ": " +:+ err)
  | inl data => match ps_decode_waivers ps data with
                | inr err => inl ("parsing " +:+ path +:+ ": " +:+ err)
                | inl l => inr (MkSet l path)
                end
  end.
Definition waived_lines (d : Diagnostic) : string :=
  "  waived " +:+ dg_Code d +:+ " " +:+ sl_File (dg_Source d) +:+ ":" +:+ itoa (sl_Line (dg_Source d)) +:+ nl +:+
  "    " +:+ dg_Message d +:+ nl.
Definition waiver_summary (r : Waiver.Result) : string :=
  "waivers: " +:+ nat_str (length (res_Waived r)) +:+ " suppressed, " +:+ nat_str (res_ExpiredCount r) +:+
  " expired (re-firing), " +:+ nat_str (res_UnusedCount r) +:+ " unused".
Definition apply_waivers (o : check_options) (cwd : string) (diags : list Diagnostic) : command (list Diagnostic) :=
  if co_noWaivers o then mret diags
  else match Waiver.Resolve load_waivers (ps_abs ps) (ps_find_waivers ps) (co_waiversPath o) cwd with
       | inl err => fail ("error loading waivers: " +:+ err)
       | inr wv =>
           match Validate wv with
           | Some err => fail ("error in .xpc-waivers.yaml: " +:+ ps_waiver_error ps err)
           | None =>
               match set_Waivers wv with
               | [] => mret diags
               | _ =>
                   let r := Apply wv diags (ps_today ps) in
                   (if negb (Nat.eqb (length (res_Waived r)) 0) || negb (Nat.eqb (res_ExpiredCount r) 0) ||
                       negb (Nat.eqb (res_UnusedCount r) 0)
                    then eprintln (waiver_summary r) else mret tt);;
                   (if co_showWaived o then eprint (join "" (map waived_lines (res_Waived r))) else mret tt);;
                   mret (res_Active r)
               end
           end
       end.

(** *** The run *)

Definition check_run (o : check_options) : command check_outcome :=
  cwd ← or_fail (λ err, "error resolving current directory: " +:+ err) (ps_getwd ps);
  cfg ← resolve_config o cwd;
  docs ← load_paths (co_paths o) [];
  snap ← snapshot_input o;
  match docs, snap with
  | [], None => fail "no YAML documents found"
  | _, _ =>
      built ← build_world o cfg docs;
      w ← merge_snapshot (fst built) snap;
      allowlist ← or_fail (λ err, err) (resolveRuleAllowlist (co_focusPreset o) (co_categoryFilter o) (co_ruleFilter o));
      let '(result, w) := CheckWithObligations (init_error (co_kernelPath o)) check_world IsError w
                            (MkCheckConfig allowlist (co_profileRules o)) in
      let diags := run_Diagnostics result ++
        post_kernel (postKernelAllowed allowlist (co_categoryFilter o)) (co_skipRender o) (snd built) (w_ArgoApps w) in
      diags ← apply_waivers o cwd diags;
      mret (MkCheckOutcome result w snap diags)
  end.

(** *** Its outputs *)

Definition write_profile (o : check_options) (r : check_outcome) : command unit :=
  if co_profileRules o || negb (String.eqb (co_profileOut o) "") then
    let text := ps_profile ps (ck_result r) in
    if String.eqb (co_profileOut o) "" then eprint text
    else done ← write_file (ps_write ps) (co_profileOut o) text;
         or_fail (λ err, "error writing profile: " +:+ err) done
  else mret tt.
Definition make_proof (o : check_options) (r : check_outcome) (parts : list (string * string)) : Proof_ :=
  let result := ck_result r in
  GenerateWithRulesetDigest (ck_diags r)
    (Some (MkRunSummary (Z.of_nat (run_TotalObligations result)) (Z.of_nat (run_Satisfied result))
             (Z.of_nat (run_Violated result)) (run_ObligationIDs result)))
    (DigestWorld (be_show (ps_build ps)) order (ck_world r)) (from_option sn_Digest "" (ck_snapshot r))
    (computeRulesetDigestFromParts parts) (ps_timestamp ps).
Definition write_proof (o : check_options) (r : check_outcome) : command unit :=
  if co_generateProof o then
    parts ← or_fail (λ err, "error computing ruleset digest: " +:+ err) (ps_ruleset ps (co_kernelPath o));
    let p := make_proof o r parts in
    text ← or_fail (λ err, "error saving proof: " +:+ err)
             match Save p with Some text => inl text | None => inr "marshaling proof: json: unsupported value" end;
    done ← write_file (ps_write ps) "check.xpcproof" text;
    or_fail (λ err, "error saving proof: " +:+ err) done;;
    (if Nat.ltb (String.length (p_RootDigest p)) 20 then panic
     else eprintln ("proof written to check.xpcproof (root: " +:+ str_take 20 (p_RootDigest p) +:+ ")"))
  else mret tt.
Definition has_error (diags : list Diagnostic) : bool :=
  existsb (λ d, match dg_Severity d with SeverityError => true | _ => false end) diags.
Definition read_source (path : string) : option string := match ps_read ps path with inl s => Some s | inr _ => None end.
Definition finish_check (o : check_options) (r : check_outcome) : command Z :=
  text ← or_fail (λ err, "error writing report: " +:+ err) (Report read_source (ck_diags r) (co_format o));
  print text;;
  write_profile o r;;
  write_proof o r;;
  mret (if has_error (ck_diags r) then 1%Z else 0%Z).
Definition runCheck (args : list string) : command Z :=
  o ← parse_check args;
  r ← check_run o;
  finish_check o r.
End check.

(** ** The rules of a run *)

Lemma category_fold cat l m : cat ≠ "" →
  foldl add_category m l !! cat =
  match m !! cat, filter (λ c, codeCategory c = cat) l with
  | None, [] => None
  | o, codes => Some (default [] o ++ codes)
  end.
Proof.
  intros Hcat. revert m. induction l as [|c l IH]; intros m; cbn [foldl].
  { rewrite filter_nil. destruct (m !! cat); [|done]. by rewrite app_nil_r. }
  rewrite IH, filter_cons. unfold add_category. destruct (String.eqb_spec (codeCategory c) "") as [E|E].
  { case_decide; [congruence|done]. }
  case_decide as H; [subst cat; rewrite lookup_insert_eq|rewrite lookup_insert_ne by done; done].
  destruct (m !! codeCategory c), (filter _ l); cbn; by rewrite <- ?(assoc_L (++)).
Qed.
Lemma category_empty l m : foldl add_category m l !! "" = m !! "".
Proof.
  revert m. induction l as [|c l IH]; intros m; [done|]. cbn [foldl]. rewrite IH. unfold add_category.
  destruct (String.eqb_spec (codeCategory c) ""); [done|]. by rewrite lookup_insert_ne.
Qed.
Lemma byCategory_lookup cat : byCategory !! cat =
  match filter (λ c, codeCategory c = cat) KnownRuleCodes with
  | [] => None
  | codes => if String.eqb cat "" then None else Some codes
  end.
Proof.
  unfold byCategory. destruct (String.eqb_spec cat "") as [->|H].
  - rewrite category_empty. by destruct (filter _ _).
  - rewrite category_fold, lookup_empty by done. by destruct (filter _ _).
Qed.

Lemma elem_of_add_codes out l c : c ∈ foldl add_code out l ↔ c ∈ out ∨ c ∈ l.
Proof.
  revert out. induction l as [|x l IH]; intros out; cbn [foldl]; [rewrite elem_of_nil; tauto|].
  rewrite IH, elem_of_cons. unfold add_code. case_bool_decide as H.
  - split; [tauto|]. by intros [?|[->|?]]; auto.
  - rewrite elem_of_app, list_elem_of_singleton. tauto.
Qed.
Lemma NoDup_add_codes out l : NoDup out → NoDup (foldl add_code out l).
Proof.
  revert out. induction l as [|x l IH]; intros out H; [done|]. apply IH. unfold add_code. case_bool_decide; [done|].
  apply NoDup_app. split_and!; [done| |apply NoDup_singleton]. intros y Hy ->%list_elem_of_singleton. done.
Qed.
(** A category some known rule code has. *)
Definition known_category (cat : string) : Prop := cat ≠ "" ∧ ∃ code, code ∈ KnownRuleCodes ∧ codeCategory code = cat.
Lemma byCategory_known cat :
  match byCategory !! cat with
  | Some codes => known_category cat ∧ codes = filter (λ c, codeCategory c = cat) KnownRuleCodes
  | None => ¬ known_category cat
  end.
Proof.
  rewrite byCategory_lookup. destruct (filter _ KnownRuleCodes) as [|code codes] eqn:E.
  { intros (_ & c & Hc & Hcat). apply (not_elem_of_nil c). rewrite <- E. by apply list_elem_of_filter. }
  destruct (String.eqb_spec cat "") as [->|Hne]; [by intros []|]. split; [|done]. split; [done|]. exists code.
  assert (Hin : code ∈ filter (λ c, codeCategory c = cat) KnownRuleCodes) by (rewrite E; by left).
  by apply list_elem_of_filter in Hin as [? ?].
Qed.
Lemma add_categories_spec cats out : NoDup out →
  match add_categories cats out with
  | inl allow => NoDup allow ∧ (∀ c, c ∈ allow ↔ c ∈ out ∨ (c ∈ KnownRuleCodes ∧ codeCategory c ∈ cats)) ∧
                 Forall known_category cats
  | inr err => ∃ before cat after, cats = before ++ cat :: after ∧ Forall known_category before ∧ ¬ known_category cat ∧
                 has_prefix ("invalid --category=" +:+ cat) err = true
  end.
Proof.
  revert out. induction cats as [|cat cats IH]; intros out Hnd; cbn [add_categories].
  { split_and!; [done|intros c; rewrite elem_of_nil; tauto|constructor]. }
  pose proof (byCategory_known cat) as Hk. destruct (byCategory !! cat) as [codes|].
  2: { exists [], cat, cats. split_and!; [done|constructor|exact Hk|]. rewrite <- app_str_assoc. apply has_prefix_app. }
  destruct Hk as [Hk ->]. specialize (IH (foldl add_code out (filter (λ c, codeCategory c = cat) KnownRuleCodes)) (NoDup_add_codes _ _ Hnd)).
  destruct (add_categories _ _) as [allow|err].
  - destruct IH as (H1 & H2 & H3). split_and!; [done| |by constructor].
    intros c. rewrite H2, elem_of_add_codes, list_elem_of_filter, elem_of_cons. tauto.
  - destruct IH as (before & cat' & after & -> & Hb & H). exists (cat :: before), cat', after.
    split_and!; [done|by constructor|apply H..].
Qed.

(** C36: The rules a run is restricted to: without filters those of the preset; otherwise
    every category given is known, and the rules are, each once, the codes given and
    every known code of these categories, at least one of them. It is an error exactly
    when a category given is one no known code has, and the error is about the first. *)
Theorem resolveRuleAllowlist_spec focus cats rules :
  match resolveRuleAllowlist focus cats rules with
  | inl allow =>
      (∀ cat, cat ∈ cats → known_category cat) ∧
      ((cats = [] ∧ rules = [] ∧ allow = focusPresetAllowlist focus) ∨
       (NoDup allow ∧ allow ≠ [] ∧ ∀ code, code ∈ allow ↔ code ∈ rules ∨ (code ∈ KnownRuleCodes ∧ codeCategory code ∈ cats)))
  | inr err =>
      ∃ before cat after, cats = before ++ cat :: after ∧ (∀ c, c ∈ before → known_category c) ∧ ¬ known_category cat ∧
        has_prefix ("invalid --category=" +:+ cat) err = true
  end.
Proof.
  unfold resolveRuleAllowlist. assert (Hcase : cats = [] ∧ rules = [] ∨ (cats ≠ [] ∨ rules ≠ [])).
  { destruct cats, rules; [by left|right..]; [by right|by left|by left]. }
  pose proof (add_categories_spec cats [] NoDup_nil_2) as H.
  destruct Hcase as [[-> ->]|Hne]; [split; [by intros cat ?%not_elem_of_nil|by left]|].
  assert (E : (match cats, rules with
     | [], [] => inl (focusPresetAllowlist focus)
     | _, _ => match add_categories cats [] with inl out => inl (foldl add_code out rules) | inr err => inr err end
     end) = match add_categories cats [] with inl out => inl (foldl add_code out rules) | inr err => inr err end).
  { destruct cats, rules; [|done..]. by destruct Hne. }
  rewrite E. destruct (add_categories cats []) as [out|err].
  2: { destruct H as (before & cat & after & H1 & H2 & H3). exists before, cat, after. rewrite Forall_forall in H2. split; [exact H1|split; [exact H2|exact H3]]. }
  destruct H as (H1 & H2 & H3). rewrite Forall_forall in H3. split; [exact H3|right].
  assert (Hc : ∀ code, code ∈ foldl add_code out rules ↔ code ∈ rules ∨ (code ∈ KnownRuleCodes ∧ codeCategory code ∈ cats)).
  { intros code. rewrite elem_of_add_codes, H2, elem_of_nil. tauto. }
  split_and!; [by apply NoDup_add_codes| |done]. intros Hnil. rewrite Hnil in Hc.
  destruct rules as [|code rules]; [|by apply (not_elem_of_nil code), Hc; left; left].
  destruct cats as [|cat cats]; [by destruct Hne|]. destruct (H3 cat) as (_ & c & Hk & Hcat); [by left|].
  apply (not_elem_of_nil c), Hc. right. split; [done|]. rewrite Hcat. by left.
Qed.
Example category_not_known :
  resolveRuleAllowlist "all" ["I"] [] =
  inr ("invalid --category=I (no rules in category " +:+ quote "I" +:+ "; known categories: A,B,D,E,H,K,M,S)").
Proof. vm_compute. reflexivity. Qed.

(** ** The notes after the kernel *)

Definition note_of (app : ArgoApplication) (renderer : string) : Diagnostic :=
  if String.eqb renderer "helm" then skip_note app "XPC.H.helm-renders" "helm"
  else skip_note app "XPC.H.kustomize-renders" "kustomize".
Definition has_source (app : ArgoApplication) (renderer : string) : Prop := ∃ src, src ∈ app_Sources app ∧ as_Renderer src = renderer.

(** What the loop over the sources knows: a renderer was seen when its note is there. *)
Record noted (allowed : string → bool) (app : ArgoApplication) (srcs : list ArgoSource)
    (st : bool * bool * list Diagnostic) : Prop := MkNoted {
  nt_helm : fst (fst st) = true ↔ note_of app "helm" ∈ snd st;
  nt_kustomize : snd (fst st) = true ↔ note_of app "kustomize" ∈ snd st;
  nt_nodup : NoDup (snd st);
  nt_spec : ∀ d, d ∈ snd st ↔ allowed (dg_Code d) = true ∧ ∃ r, r ∈ ["helm"; "kustomize"] ∧ d = note_of app r ∧
              ∃ src, src ∈ srcs ∧ as_Renderer src = r }.
Lemma notes_differ app : note_of app "helm" ≠ note_of app "kustomize".
Proof. intros H%(f_equal dg_Code). discriminate. Qed.
Lemma noted_more {allowed app srcs st} src : noted allowed app srcs st →
  (∀ r, r ∈ ["helm"; "kustomize"] → as_Renderer src = r → allowed (dg_Code (note_of app r)) = true → note_of app r ∈ snd st) →
  noted allowed app (srcs ++ [src]) st.
Proof.
  intros [H1 H2 H3 H4] H. split; [done..|]. intros d. rewrite H4. split.
  - intros (Ha & r & Hr & -> & src' & Hs & Hr'). split; [done|]. exists r. split_and!; [done..|]. exists src'.
    split; [apply elem_of_app; by left|done].
  - intros (Ha & r & Hr & -> & src' & [Hs| ->%list_elem_of_singleton]%elem_of_app & Hr').
    + split; [done|]. exists r. split_and!; [done..|]. by exists src'.
    + apply H4. by apply H.
Qed.
Lemma noted_new {allowed app srcs h k notes} src r : noted allowed app srcs (h, k, notes) →
  r ∈ ["helm"; "kustomize"] → as_Renderer src = r → allowed (dg_Code (note_of app r)) = true → note_of app r ∉ notes →
  noted allowed app (srcs ++ [src]) (String.eqb r "helm" || h, String.eqb r "kustomize" || k, notes ++ [note_of app r]).
Proof.
  intros [H1 H2 H3 H4] Hr Hsrc Ha Hnew. cbn [fst snd] in *. split; cbn [fst snd].
  - rewrite elem_of_app, list_elem_of_singleton, <- H1, orb_true_iff.
    apply elem_of_cons in Hr as [-> | ->%list_elem_of_singleton]; cbn; [tauto|].
    split; [intros [?|?]; [done|by left]|intros [?|E]; [by right|by apply notes_differ in E]].
  - rewrite elem_of_app, list_elem_of_singleton, <- H2, orb_true_iff.
    apply elem_of_cons in Hr as [-> | ->%list_elem_of_singleton]; cbn; [|tauto].
    split; [intros [?|?]; [done|by left]|intros [?|E]; [by right|by apply eq_sym, notes_differ in E]].
  - apply NoDup_app. split_and!; [done| |apply NoDup_singleton]. intros d Hd ->%list_elem_of_singleton. done.
  - intros d. rewrite elem_of_app, list_elem_of_singleton, H4. split.
    + intros [(Had & q & Hq & -> & src' & Hs & Hq')| ->].
      * split; [done|]. exists q. split_and!; [done..|]. exists src'. split; [apply elem_of_app; by left|done].
      * split; [done|]. exists r. split_and!; [done..|]. exists src. split; [apply elem_of_app; right; by apply list_elem_of_singleton|done].
    + intros (Had & q & Hq & -> & src' & [Hs| ->%list_elem_of_singleton]%elem_of_app & Hq').
      * left. split; [done|]. exists q. split_and!; [done..|]. by exists src'.
      * right. by rewrite <- Hq', Hsrc.
Qed.
Lemma note_sources allowed app srcs : noted allowed app srcs (foldl (note_source allowed app) (false, false, []) srcs).
Proof.
  induction srcs as [|src srcs IH] using rev_ind.
  { split; cbn; [by split; [|intros ?%not_elem_of_nil]..|constructor|]. intros d. split; [by intros ?%not_elem_of_nil|].
    by intros (_ & r & _ & _ & src & H%not_elem_of_nil & _). }
  rewrite foldl_app. cbn [foldl]. destruct (foldl _ _ srcs) as [[h k] notes]. unfold note_source.
  pose proof (nt_helm _ _ _ _ IH) as Hh. pose proof (nt_kustomize _ _ _ _ IH) as Hk. cbn [fst snd] in *.
  destruct (String.eqb_spec (as_Renderer src) "helm") as [E|E]; [|destruct (String.eqb_spec (as_Renderer src) "kustomize") as [E'|E']].
  - destruct (negb h && _) eqn:Ec.
    + apply andb_true_iff in Ec as [Hnh Ha]. destruct h; [done|].
      apply (noted_new (h := false) src "helm"); [done|by left|done|done|]. by intros ?%Hh.
    + apply noted_more; [done|]. cbn [snd]. intros r _ <- Ha. rewrite E in *. apply Hh.
      destruct h; [done|]. unfold note_of in Ha. cbn in Ha, Ec. congruence.
  - destruct (negb k && _) eqn:Ec.
    + apply andb_true_iff in Ec as [Hnk Ha]. destruct k; [done|].
      apply (noted_new (h := h) (k := false) src "kustomize"); [done|right; by left|done|done|]. by intros ?%Hk.
    + apply noted_more; [done|]. cbn [snd]. intros r _ <- Ha. rewrite E' in *. apply Hk.
      destruct k; [done|]. unfold note_of in Ha. cbn in Ha, Ec. congruence.
  - apply noted_more; [done|]. cbn [snd]. intros r Hr Hs. by apply elem_of_cons in Hr as [-> | ->%list_elem_of_singleton].
Qed.

(** What a run adds after the kernel: the expansion's diagnostics whose code the run
    allows, in order, and, without rendering, for each Application exactly one note for
    each of helm and kustomize that it has a source of and the run allows, each once;
    and nothing out of scope: with an allowlist every code added is in it or of a
    category asked for. *)
Theorem post_kernel_spec allowlist categories skipRender expansion apps :
  let allowed := postKernelAllowed allowlist categories in
  (∃ notes, post_kernel allowed skipRender expansion apps = filter (λ d, allowed (dg_Code d) = true) expansion ++ concat notes ∧
    if skipRender then Forall2 (λ app ns, NoDup ns ∧ ∀ d, d ∈ ns ↔ allowed (dg_Code d) = true ∧
                                  ∃ r, r ∈ ["helm"; "kustomize"] ∧ d = note_of app r ∧ has_source app r) apps notes
    else notes = []) ∧
  (allowlist ≠ [] → ∀ d, d ∈ post_kernel allowed skipRender expansion apps →
    dg_Code d ∈ allowlist ∨ codeCategory (dg_Code d) ∈ categories).
Proof.
  intros allowed.
  assert (Hn : ∀ app, NoDup (app_notes allowed app) ∧ ∀ d, d ∈ app_notes allowed app ↔ allowed (dg_Code d) = true ∧
    ∃ r, r ∈ ["helm"; "kustomize"] ∧ d = note_of app r ∧ has_source app r).
  { intros app. destruct (note_sources allowed app (app_Sources app)) as [_ _ H3 H4]. split; [exact H3|exact H4]. }
  split.
  - exists (if skipRender then map (app_notes allowed) apps else []). unfold post_kernel. destruct skipRender; [|done].
    split; [by rewrite flat_map_concat_map|]. induction apps as [|app apps IH]; [constructor|]. constructor; [apply Hn|exact IH].
  - intros Hne d Hd. assert (Ha : allowed (dg_Code d) = true).
    { unfold post_kernel in Hd. apply elem_of_app in Hd as [[? _]%list_elem_of_filter|Hd]; [done|].
      destruct skipRender; [|by apply not_elem_of_nil in Hd].
      apply elem_of_flat_map in Hd as (app & _ & Hd). by apply Hn in Hd as [? _]. }
    unfold allowed, postKernelAllowed in Ha. destruct allowlist; [done|].
    apply orb_true_iff in Ha as [?%contains_string_spec|[_ ?%contains_string_spec]%andb_true_iff]; [by left|by right].
Qed.

(** ** Exit codes *)

Section outcome.
Context {Obj : Type} `{!KL Obj}.
Context (init_error : string → option string) (check_world : Obj → Obj) (IsError : Obj → bool).
Context {T : Type} `{!Renderers T} (ps : process T) (order : ∀ A, gmap string A → list (string * A)).

#[local] Notation resolve_waivers o cwd :=
  (Waiver.Resolve (load_waivers ps) (ps_abs ps) (ps_find_waivers ps) (co_waiversPath o) cwd).
(** A finding that a live waiver of a validated register accepts. *)
Definition accepted (o : check_options) (cwd : string) (d : Diagnostic) : Prop :=
  co_noWaivers o = false ∧ ∃ wv, resolve_waivers o cwd = inr wv ∧ Validate wv = None ∧ suppressed wv (ps_today ps) d = true.

(** What the register itself is reported for. *)
Definition register_reports (o : check_options) (cwd : string) (diags : list Diagnostic) : list Diagnostic :=
  if co_noWaivers o then []
  else match resolve_waivers o cwd with inl _ => [] | inr wv => waiver_reports wv (ps_today ps) diags end.
Lemma register_reports_codes o cwd diags d : d ∈ register_reports o cwd diags →
  dg_Code d ∈ [CodeWaiverExpired; CodeWaiverUnused].
Proof.
  unfold register_reports. destruct (co_noWaivers o); [by intros ?%not_elem_of_nil|].
  destruct (resolve_waivers o cwd) as [err|wv]; [by intros ?%not_elem_of_nil|]. apply waiver_reports_codes.
Qed.

(** The waivers take away the findings they accept, and no other; what they add is
    about the register. *)
Lemma apply_waivers_out o cwd diags s s' out : apply_waivers ps o cwd diags s = Some (s', inl out) →
  ∀ d, d ∈ out ↔ (d ∈ diags ∧ ¬ accepted o cwd d) ∨ d ∈ register_reports o cwd diags.
Proof.
  unfold apply_waivers, accepted, register_reports. intros H d. destruct (co_noWaivers o).
  { apply ret_Some in H as [_ [= ->]]. rewrite elem_of_nil. split; [left|]; [by split; [|intros []]|by intros [[? _]|]]. }
  destruct (resolve_waivers o cwd) as [err|wv]; [by apply fail_Some in H as [? _]|].
  destruct (Validate wv) as [err|] eqn:Ev; [by apply fail_Some in H as [? _]|].
  assert (Hs : (¬ (false = false ∧ ∃ wv', (inr wv : string + Set_) = inr wv' ∧ Validate wv' = None ∧ suppressed wv' (ps_today ps) d = true)) ↔
    suppressed wv (ps_today ps) d = false).
  { destruct (suppressed wv (ps_today ps) d) eqn:E.
    - split; [|done]. intros Hn. destruct Hn. split; [done|]. by exists wv.
    - split; [done|]. intros _ (_ & wv' & [= <-] & _ & E'). congruence. }
  rewrite Hs. destruct (set_Waivers wv) as [|v l] eqn:Ew.
  - apply ret_Some in H as [_ [= ->]]. rewrite no_waivers_suppressed, no_waivers_reports, elem_of_nil by done. tauto.
  - apply bind_inl in H as (s1 & _ & _ & H). apply bind_inl in H as (s2 & _ & _ & H). apply ret_Some in H as [_ [= ->]].
    rewrite (proj1 (proj2 (Apply_waived wv diags (ps_today ps)))), elem_of_app, list_elem_of_filter. tauto.
Qed.
Lemma accepted_dec o cwd d : accepted o cwd d ∨ ¬ accepted o cwd d.
Proof.
  unfold accepted. destruct (co_noWaivers o); [right; by intros []|].
  destruct (resolve_waivers o cwd) as [err|wv]; [right; by intros (_ & ? & ? & _)|].
  destruct (Validate wv) eqn:Ev; [right; by intros (_ & ? & [= <-] & ? & _); congruence|].
  destruct (suppressed wv (ps_today ps) d) eqn:E; [left; split; [done|]; by exists wv|].
  right. intros (_ & ? & [= <-] & _ & ?). congruence.
Qed.
Lemma apply_waivers_keeps o cwd diags s s' out : apply_waivers ps o cwd diags s = Some (s', inl out) →
  ∀ d, d ∈ diags → d ∈ out ∨ accepted o cwd d.
Proof. intros H d Hd. rewrite (apply_waivers_out _ _ _ _ _ _ H). destruct (accepted_dec o cwd d); tauto. Qed.

Lemma silent_one_of flag words set v o : silent true (one_of flag words set v o).
Proof. unfold one_of. case_match; auto with shell. Qed.
Lemma silent_parse args : silent true (parse_check ps args).
Proof.
  unfold parse_check. apply silent_bind; [|auto with shell]. apply silent_parse_args.
  - repeat (apply Forall_cons; split; [intros arg o; first [apply silent_ret|apply silent_one_of]|]). constructor.
  - unfold print_usage. auto with shell.
  - intros arg o. apply silent_ret.
Qed.
Lemma silent_load paths docs : silent false (load_paths ps paths docs).
Proof.
  revert docs. induction paths as [|path paths IH]; intros docs; [apply silent_ret|]. cbn [load_paths].
  apply silent_bind; [|auto]. unfold load_path. auto with shell.
Qed.
Lemma silent_waivers o cwd diags : silent false (apply_waivers ps o cwd diags).
Proof. unfold apply_waivers. silence. Qed.
Lemma silent_check_run o : silent false (check_run init_error check_world IsError ps o).
Proof.
  unfold check_run. apply silent_bind; [auto with shell|intros cwd].
  apply silent_bind; [unfold resolve_config; silence|intros cfg]. apply silent_bind; [apply silent_load|intros docs].
  apply silent_bind; [unfold snapshot_input; silence|intros snap].
  assert (H : silent false (
    built ← build_world ps o cfg docs; w ← merge_snapshot ps (fst built) snap;
    allowlist ← or_fail (λ err, err) (resolveRuleAllowlist (co_focusPreset o) (co_categoryFilter o) (co_ruleFilter o));
    let '(result, w) := CheckWithObligations (init_error (co_kernelPath o)) check_world IsError w
                          (MkCheckConfig allowlist (co_profileRules o)) in
    diags ← apply_waivers ps o cwd (run_Diagnostics result ++
      post_kernel (postKernelAllowed allowlist (co_categoryFilter o)) (co_skipRender o) (snd built) (w_ArgoApps w));
    mret (MkCheckOutcome result w snap diags))).
  { apply silent_bind; [unfold build_world, fixtures_input; silence|intros built].
    apply silent_bind; [unfold merge_snapshot; silence|intros w]. apply silent_bind; [auto with shell|intros allowlist].
    destruct (CheckWithObligations _ _ _ _ _) as [result w']. apply silent_bind; [apply silent_waivers|auto with shell]. }
  destruct docs, snap; [exact H|apply silent_fail|exact H|exact H].
Qed.

(** The findings before the waivers: the kernel's, and the notes after it. *)
Definition found (o : check_options) (allowlist : list string) (expansion : list Diagnostic) (r : check_outcome) : list Diagnostic :=
  run_Diagnostics (ck_result r) ++
  post_kernel (postKernelAllowed allowlist (co_categoryFilter o)) (co_skipRender o) expansion (w_ArgoApps (ck_world r)).
(** What a run that was not stopped did. *)
Lemma check_run_inv o s s' r : check_run init_error check_world IsError ps o s = Some (s', inl r) →
  ∃ cwd cfg docs built w allowlist s1 s2,
    ps_getwd ps = inl cwd ∧ load_paths ps (co_paths o) [] s1 = Some (s2, inl docs) ∧
    (if String.eqb (co_snapshotPath o) "" then ck_snapshot r = None
     else ∃ snap, load_snapshot ps (co_snapshotPath o) = inl snap ∧ ck_snapshot r = Some snap) ∧
    (∃ s3 s4, build_world ps o cfg docs s3 = Some (s4, inl built)) ∧
    (∃ s3 s4, merge_snapshot ps (fst built) (ck_snapshot r) s3 = Some (s4, inl w)) ∧
    resolveRuleAllowlist (co_focusPreset o) (co_categoryFilter o) (co_ruleFilter o) = inl allowlist ∧
    CheckWithObligations (init_error (co_kernelPath o)) check_world IsError w
      (MkCheckConfig allowlist (co_profileRules o)) = (ck_result r, ck_world r) ∧
    ∃ s3 s4, apply_waivers ps o cwd (found o allowlist (snd built) r) s3 = Some (s4, inl (ck_diags r)).
Proof.
  unfold check_run. intros (s1 & cwd & H1 & H)%bind_inl. apply bind_inl in H as (s2 & cfg & H2 & H).
  apply bind_inl in H as (s3 & docs & H3 & H). apply bind_inl in H as (s4 & snap & H4 & H).
  apply or_fail_Some in H1 as [(? & Hcwd & _ & [= <-])|(err & _ & [= ])].
  set (rest := built ← build_world ps o cfg docs; _) in H.
  assert (Hrest : rest s4 = Some (s', inl r)).
  { destruct docs, snap; [exact H|by apply fail_Some in H as [? _]|exact H|exact H]. }
  clear H. subst rest. apply bind_inl in Hrest as (s5 & built & H5 & H). apply bind_inl in H as (s6 & w & H6 & H).
  apply bind_inl in H as (s7 & allowlist & H7 & H).
  apply or_fail_Some in H7 as [(? & Hal & _ & [= <-])|(err & _ & [= ])].
  destruct (CheckWithObligations _ _ _ _ _) as [result w'] eqn:Ec. apply bind_inl in H as (s8 & diags & H8 & H).
  apply ret_Some in H as [_ [= ->]]. exists cwd, cfg, docs, built, w, allowlist, s2, s3.
  assert (Hs : if String.eqb (co_snapshotPath o) "" then snap = None
     else ∃ sn, load_snapshot ps (co_snapshotPath o) = inl sn ∧ snap = Some sn).
  { unfold snapshot_input in H4. destruct (String.eqb _ ""); [by apply ret_Some in H4 as [_ [= ->]]|].
    apply bind_inl in H4 as (s9 & sn & H4 & H). apply or_fail_Some in H4 as [(? & Hl & _ & [= <-])|(err & _ & [= ])].
    apply bind_inl in H as (s10 & _ & _ & H). apply ret_Some in H as [_ [= ->]]. by exists sn. }
  split_and!; [done|done|exact Hs|by eauto|by eauto|done|done|]. exists s7, s8. exact H8.
Qed.
Lemma silent_outputs o r : silent false (write_profile ps o r) ∧ silent false (write_proof ps order o r).
Proof. split; [unfold write_profile; silence|unfold write_proof; silence]. Qed.
Lemma has_error_spec diags : has_error diags = false ↔ ∀ d, d ∈ diags → dg_Severity d ≠ SeverityError.
Proof.
  unfold has_error. rewrite <- not_true_iff_false, existsb_elem_of. split.
  - intros H d Hd E. apply H. exists d. by rewrite E.
  - intros H (d & Hd & E). apply (H d Hd). by destruct (dg_Severity d).
Qed.

(** C1: The exit code tells: it is 0 or 1, and when it is 0, and help was not asked for,
    the report was printed, of findings none of which is an error, and every error of
    the kernel is accepted by a waiver of a validated register: one of its own rule,
    constrained by a file or a name, with a reason and an expiry day not yet passed. *)
Theorem runCheck_passes args s s' code :
  status (runCheck init_error check_world IsError ps order args) s = Some (s', code) →
  (code = 0%Z ∨ code = 1%Z) ∧
  (code = 0%Z → parse_check ps args s = Some (s', inr 0%Z) ∨
    ∃ o s1 r text, parse_check ps args s = Some (s1, inl o) ∧
      (∃ s2, check_run init_error check_world IsError ps o s1 = Some (s2, inl r)) ∧
      Report (read_source ps) (ck_diags r) (co_format o) = inl text ∧ io_out s' = io_out s +:+ text ∧
      (∀ d, d ∈ ck_diags r → dg_Severity d ≠ SeverityError) ∧
      ∀ d, d ∈ run_Diagnostics (ck_result r) → dg_Severity d = SeverityError →
        co_noWaivers o = false ∧ ∃ cwd wv w exp,
          ps_getwd ps = inl cwd ∧ resolve_waivers o cwd = inr wv ∧ w ∈ set_Waivers wv ∧ dg_Code d = wv_Rule w ∧
          ((wv_File w ≠ "" ∧ fileMatches (sl_File (dg_Source d)) (wv_File w) = true) ∨
           (wv_Name w ≠ "" ∧ contains (dg_Message d) (wv_Name w) = true)) ∧
          trim_space (wv_Reason w) ≠ "" ∧ parse_date (wv_ExpiresAt w) = Some exp ∧ date_le (ps_today ps) exp).
Proof.
  unfold status. destruct (runCheck _ _ _ _ _ args s) as [[s0 r0]|] eqn:H; [|done]. intros Hs.
  assert (s0 = s' ∧ r0 = inl code ∨ s0 = s' ∧ r0 = inr code) as [[-> ->]|[-> ->]]
    by (destruct r0; injection Hs as -> ->; [by left|by right]); clear Hs.
  - unfold runCheck in H. apply bind_inl in H as (s1 & o & H1 & H). apply bind_inl in H as (s2 & r & H2 & H).
    unfold finish_check in H. apply bind_inl in H as (s3 & text & H3 & H).
    apply or_fail_Some in H3 as [(? & Hr & -> & [= <-])|(err & _ & [= ])].
    apply bind_inl in H as (s4 & u4 & H4 & H). apply bind_inl in H as (s5 & u5 & H5 & H).
    apply bind_inl in H as (s6 & u6 & H6 & H). apply ret_Some in H as [-> [= ->]].
    split; [destruct (has_error _); auto|]. intros Hc. right. exists o, s1, r, text.
    destruct (has_error (ck_diags r)) eqn:He; [done|]. rewrite has_error_spec in He.
    apply silent_outputs in H5 as [E5 _], H6 as [E6 _]. injection H4 as <-. cbn [io_out] in *.
    destruct (silent_check_run _ _ _ _ H2) as [E2 _], (silent_parse _ _ _ _ H1) as [E1 _].
    split_and!; [done|by eexists|done|by rewrite E6, E5, E2, E1|done|]. intros d Hd Hsev.
    destruct (check_run_inv _ _ _ _ H2) as (cwd & _ & _ & built & _ & allowlist & _ & _ & Hcwd & _ & _ & _ & _ & _ & _ & s7 & s8 & Hk).
    destruct (apply_waivers_keeps _ _ _ _ _ _ Hk d ltac:(apply elem_of_app; by left)) as [Hin|(Hnw & wv & Hres & Hv & Hsup)]; [by apply He in Hin|].
    split; [done|]. destruct (suppressed_justified wv (ps_today ps) d Hv Hsup) as (w & exp & Hw). by exists cwd, wv, w, exp.
  - unfold runCheck in H. apply bind_Some in H as [(s1 & o & H1 & H)|(c & H & [= ->])].
    2: { split; [apply silent_parse in H as [_ [?|[_ ?]]]; auto|]. intros ->. by left. }
    assert (code = 1%Z) as ->; [|split; [by right|done]].
    apply bind_Some in H as [(s2 & r & H2 & H)|(c & H & [= ->])].
    2: { by apply silent_check_run in H as [_ [?|[? _]]]. }
    unfold finish_check in H. apply bind_Some in H as [(s3 & text & H3 & H)|(c & H & [= ->])].
    2: { by apply (silent_or_fail false) in H as [_ [?|[? _]]]. }
    apply bind_Some in H as [(s4 & u4 & H4 & H)|(c & [= ] & _)].
    assert (Hf : silent false (write_profile ps o r;; write_proof ps order o r;; mret (if has_error (ck_diags r) then 1%Z else 0%Z))).
    { apply silent_bind; [apply silent_outputs|intros _]. apply silent_bind; [apply silent_outputs|auto with shell]. }
    by apply Hf in H as [_ [?|[? _]]].
Qed.

(** ** The World a run checks *)

Lemma build_world_inv o cfg docs s s' w ds : build_world ps o cfg docs s = Some (s', inl (w, ds)) → ∃ fixtures t,
  Build (check_builder o cfg fixtures) (ps_build ps) docs
    (NewBuilder (ps_tools ps (co_helmBin o) (co_kustomizeBin o) (co_crossplaneBin o))) = Some (inl (w, (ds, t))).
Proof.
  unfold build_world. intros (s1 & fixtures & _ & H)%bind_inl. cbv zeta in H. apply bind_inl in H as (s2 & built & H1 & H).
  apply or_panic_Some in H1 as (st & H1 & _ & [= <-]). apply bind_inl in H as (s3 & st & H2 & H).
  apply or_fail_Some in H2 as [(? & -> & _ & [= <-])|(err & _ & [= ])].
  apply ret_Some in H as [_ [= -> ->]]. exists fixtures. destruct st as [w1 [ds1 t1]]. by exists t1.
Qed.
(** A build without documents: the World is empty but for its knobs. *)
Lemma build_nothing b env (t : T) w ds t' : Build b env [] (NewBuilder t) = Some (inl (w, (ds, t'))) → same_documents zero_World w.
Proof.
  intros (st1 & st2 & H1 & H2 & H3)%Build_halves. apply (inj Some) in H1. apply (inj inl) in H1 as <-.
  assert (H2' : st2 = with_world (resolve_knobs b) (NewBuilder t)).
  { destruct (bu_SkipAppSetExpand b); [by apply (inj Some) in H2|]. by apply (inj Some) in H2. }
  subst st2. clear H2. apply finish_build_inv in H3 as (st & Hst & H3 & _). cbn [fst] in H3.
  assert (E : same_documents zero_World (fst st)).
  { destruct (bu_SkipRender b); [rewrite Hst; split; reflexivity|]. destruct Hst as (st0 & Hd & ->).
    apply (inj Some) in Hd as <-. split; reflexivity. }
  apply last_passes_keep in H3 as (secrets & Hs & H3). etrans; [exact E|]. etrans; [|exact H3].
  assert (Hr : w_Resources (fst st) = []) by apply E. unfold produced_secrets in Hs. rewrite Hr in Hs. cbn in Hs.
  subst secrets. destruct E. split; try done. cbn. by rewrite Hr.
Qed.
Lemma merge_by_nil {A} (key : A → string) l : merge_by key [] l = l.
Proof.
  unfold merge_by. cbn [app]. induction l as [|x l IH]; [done|].
  rewrite filter_cons_True by apply not_elem_of_nil. by rewrite IH.
Qed.

Lemma merge_snapshot_inv w snap s s' w' : merge_snapshot ps w snap s = Some (s', inl w') →
  match snap with
  | None => w' = w
  | Some sn => ReEnrich (be_show (ps_build ps)) (be_order (ps_build ps)) (mergeSnapshotIntoWorld w sn) = Some w'
  end.
Proof.
  unfold merge_snapshot. destruct snap as [sn|]; [|by intros [_ [= ->]]%ret_Some].
  generalize (ReEnrich (be_show (ps_build ps)) (be_order (ps_build ps)) (mergeSnapshotIntoWorld w sn)). intros o H.
  by apply or_panic_Some in H as (w1 & -> & _ & [= <-]).
Qed.
(** A snapshot merged into a World without documents, re-enriched. *)
Record snapshot_world (snap : Snapshot) (w : World) : Prop := MkSnapshotWorld {
  sw_CRDs : w_CRDs w = sn_CRDs snap; sw_XRDs : w_XRDs w = sn_XRDs snap; sw_Schemas : w_Schemas w = sn_Schemas snap;
  sw_Functions : w_Functions w = map fst_FunctionInfo (sn_Functions snap);
  sw_Providers : w_Providers w = map pst_ProviderInfo (sn_Providers snap);
  sw_Resources : w_Resources w = sn_Resources snap; sw_Apps : w_ArgoApps w = sn_ArgoApps snap;
  sw_AppSets : w_ArgoAppSets w = sn_ArgoAppSets snap; sw_Projects : w_ArgoProjects w = sn_ArgoProjects snap;
  sw_Compositions : w_Compositions w = []; sw_Configurations : w_Configurations w = [] }.
Lemma merge_into_nothing snap w : same_documents zero_World w → snapshot_world snap (mergeSnapshotIntoWorld w snap).
Proof.
  intros [C1 C2 C3 C4 C5 C6 C7 C8 C9 C10 C11]. unfold mergeSnapshotIntoWorld. split; cbn [w_CRDs w_XRDs w_Compositions
    w_Functions w_Providers w_Configurations w_Schemas w_ArgoApps w_ArgoAppSets w_ArgoProjects w_Resources].
  - rewrite C1. apply merge_by_nil.
  - rewrite C2. apply merge_by_nil.
  - rewrite C7. by apply map_empty_union.
  - rewrite C4. apply merge_by_nil.
  - rewrite C5. apply merge_by_nil.
  - rewrite C11. apply merge_by_nil.
  - rewrite C8. apply merge_by_nil.
  - rewrite C9. apply merge_by_nil.
  - rewrite C10. apply merge_by_nil.
  - exact C3.
  - exact C6.
Qed.
Lemma snapshot_world_same snap w w' : same_documents w w' → snapshot_world snap w → snapshot_world snap w'.
Proof. intros [] []. split; congruence. Qed.

Lemma merge_once w snap s s' w' : enriched_once (ps_build ps) w → merge_snapshot ps w snap s = Some (s', inl w') →
  enriched_once (ps_build ps) w' ∧
  same_documents (match snap with Some sn => mergeSnapshotIntoWorld w sn | None => w end) w'.
Proof.
  intros Hw Hm%merge_snapshot_inv. destruct snap as [sn|]; [|by subst w'].
  split; [|exact (ReEnrich_documents _ _ _ _ Hm)].
  assert (Hi : w_SchemaIndex (mergeSnapshotIntoWorld w sn) = None) by reflexivity. revert Hi Hm.
  generalize (mergeSnapshotIntoWorld w sn) as w1. intros w1 Hi. unfold ReEnrich. intros Hm. exists (clear_facts w1).
  split; [by split|]. split; [exact (once_documents _ _ _ _ Hm)|exact Hm].
Qed.

(** C16: The World the kernel is given holds the documents of the manifests, loaded and
    built, with those of the snapshot merged in, and its facts were computed in one go
    from exactly these, in some iteration order of the maps: no fact is older than the
    merge, and no schema index is. A run whose only input is a snapshot checks exactly
    its CRDs, XRDs, packages, schemas, resources and Argo objects, but none of its
    Compositions or Configurations. *)
Theorem check_run_world `{!RenderersLaws T} o s s' r :
  check_run init_error check_world IsError ps o s = Some (s', inl r) →
  ∃ cfg fixtures docs built ds t w allowlist,
    (∃ s1 s2, load_paths ps (co_paths o) [] s1 = Some (s2, inl docs)) ∧
    Build (check_builder o cfg fixtures) (ps_build ps) docs
      (NewBuilder (ps_tools ps (co_helmBin o) (co_kustomizeBin o) (co_crossplaneBin o))) = Some (inl (built, (ds, t))) ∧
    (if String.eqb (co_snapshotPath o) "" then ck_snapshot r = None
     else ∃ snap, load_snapshot ps (co_snapshotPath o) = inl snap ∧ ck_snapshot r = Some snap) ∧
    same_documents (match ck_snapshot r with Some snap => mergeSnapshotIntoWorld built snap | None => built end) w ∧
    enriched_once (ps_build ps) w ∧
    CheckWithObligations (init_error (co_kernelPath o)) check_world IsError w
      (MkCheckConfig allowlist (co_profileRules o)) = (ck_result r, ck_world r) ∧
    (co_paths o = [] → ∀ snap, ck_snapshot r = Some snap → snapshot_world snap w).
Proof.
  intros (cwd & cfg & docs & [w0 ds] & w & allowlist & s1 & s2 & _ & Hdocs & Hsnap & (s3 & s4 & Hb) & (s5 & s6 & Hm) & _ & Hc & _)%check_run_inv.
  apply build_world_inv in Hb as (fixtures & t & Hb). cbn [fst] in Hm.
  assert (Hw0 : enriched_once (ps_build ps) w0)
    by exact (Build_facts _ _ docs (NewBuilder _) (w0, (ds, t)) (conj eq_refl eq_refl) Hb).
  destruct (merge_once _ _ _ _ _ Hw0 Hm) as [Hw Hd]. exists cfg, fixtures, docs, w0, ds, t, w, allowlist.
  split_and!; [by exists s1, s2|exact Hb|exact Hsnap|exact Hd|exact Hw|exact Hc|].
  intros Hp snap Hsn. rewrite Hsn in Hd. rewrite Hp in Hdocs. apply ret_Some in Hdocs as [_ [= ->]].
  apply build_nothing in Hb. eapply snapshot_world_same; [exact Hd|]. by apply merge_into_nothing.
Qed.

(** ** The flags *)

(** One piece of a command line, and what it does to the options. *)
Definition step : Type := (list string * (check_options → check_options))%type.
Definition switch_step (name : string) (b : bool) (set : bool → check_options → check_options)
    (get : check_options → bool) : step :=
  (if b then [name] else [], λ o, set (if b then true else get o) o).
Definition strict_step (name absent v : string) (set : string → check_options → check_options)
    (get : check_options → string) : step :=
  (if String.eqb v absent then [] else [name +:+ v], λ o, set (if String.eqb v absent then get o else v) o).
Definition value_step (name v : string) (set : string → check_options → check_options) : step := ([name +:+ v], set v).
Definition option_steps (a : check_options) : list step := [
  switch_step "--strict-conversions" (co_strictConversions a) (λ b o, {| o with co_strictConversions := b |}) co_strictConversions;
  switch_step "--proof" (co_generateProof a) (λ b o, {| o with co_generateProof := b |}) co_generateProof;
  switch_step "--skip-render" (co_skipRender a) (λ b o, {| o with co_skipRender := b |}) co_skipRender;
  switch_step "--skip-appset-expand" (co_skipAppSetExpand a) (λ b o, {| o with co_skipAppSetExpand := b |}) co_skipAppSetExpand;
  switch_step "--profile-rules" (co_profileRules a) (λ b o, {| o with co_profileRules := b |}) co_profileRules;
  switch_step "--show-waived" (co_showWaived a) (λ b o, {| o with co_showWaived := b |}) co_showWaived;
  switch_step "--no-waivers" (co_noWaivers a) (λ b o, {| o with co_noWaivers := b |}) co_noWaivers;
  strict_step "--format=" "agent" (co_format a) (λ v o, {| o with co_format := v |}) co_format;
  strict_step "--snapshot=" "" (co_snapshotPath a) (λ v o, {| o with co_snapshotPath := v |}) co_snapshotPath;
  strict_step "--helm-bin=" "" (co_helmBin a) (λ v o, {| o with co_helmBin := v |}) co_helmBin;
  strict_step "--kustomize-bin=" "" (co_kustomizeBin a) (λ v o, {| o with co_kustomizeBin := v |}) co_kustomizeBin;
  strict_step "--appset-fixture=" "" (co_appsetFixturePath a) (λ v o, {| o with co_appsetFixturePath := v |}) co_appsetFixturePath;
  value_step "--crossplane-bin=" (co_crossplaneBin a) (λ v o, {| o with co_crossplaneBin := v |});
  value_step "--helm-cache-dir=" (co_helmCacheDir a) (λ v o, {| o with co_helmCacheDir := v |});
  value_step "--kernel-path=" (co_kernelPath a) (λ v o, {| o with co_kernelPath := v |});
  value_step "--config=" (co_configPath a) (λ v o, {| o with co_configPath := v |});
  value_step "--profile-out=" (co_profileOut a) (λ v o, {| o with co_profileOut := v |});
  value_step "--waivers=" (co_waiversPath a) (λ v o, {| o with co_waiversPath := v |});
  value_step "--ssa-mp-mode=" (co_ssaMPMode a) (λ v o, {| o with co_ssaMPMode := v |});
  value_step "--focus=" (co_focusPreset a) (λ v o, {| o with co_focusPreset := v |});
  (map (λ c, "--category=" +:+ c) (co_categoryFilter a),
   λ o, {| o with co_categoryFilter := co_categoryFilter o ++ co_categoryFilter a |});
  (map (λ c, "--rules=" +:+ c) (co_ruleFilter a), λ o, {| o with co_ruleFilter := co_ruleFilter o ++ co_ruleFilter a |});
  (co_paths a, λ o, {| o with co_paths := co_paths o ++ co_paths a |}) ].
(** A command line for some options. *)
Definition args_of (a : check_options) : list string := concat (map fst (option_steps a)).
(** Options a command line can give: a format, modes the flags know, tokens that are
    trimmed and hold no comma, paths that do not look like flags, and an input. *)
Record options_wf (o : check_options) : Prop := MkOptionsWf {
  ow_format : co_format o ≠ ""; ow_mode : contains_string ["observe"; "partial"; "any"] (co_ssaMPMode o) = true;
  ow_focus : contains_string ["all"; "inc6-floor"; "render"] (co_focusPreset o) = true;
  ow_categories : Forall (λ c, splitCSV c = [c]) (co_categoryFilter o);
  ow_rules : Forall (λ c, splitCSV c = [c]) (co_ruleFilter o);
  ow_paths : Forall (λ p, has_prefix "-" p = false) (co_paths o);
  ow_input : co_paths o = [] → co_snapshotPath o ≠ "" }.

#[local] Notation parse := (parse_args check_flags (print_usage ps) add_path).
Definition runs (args : list string) (o o' : check_options) : Prop := ∀ s, parse args o s = Some (s, inl o').
Lemma runs_app args args' o o1 o2 : runs args o o1 → runs args' o1 o2 → runs (args ++ args') o o2.
Proof. intros H1 H2 s. rewrite parse_args_app. unfold mbind, command_bind. rewrite H1. apply H2. Qed.
Lemma runs_steps (l : list step) o : Forall (λ st : step, ∀ o, runs st.1 o (st.2 o)) l →
  runs (concat (map fst l)) o (foldl (λ o st, st.2 o) o l).
Proof.
  intros H. revert o. induction H as [|st l Hst _ IH]; intros o; [by intros s|]. cbn [map concat foldl].
  eapply runs_app; [apply Hst|apply IH].
Qed.
Lemma runs_switch name b set get : (∀ o, runs [name] o (set true o)) → (∀ o, set (get o) o = o) →
  ∀ o, runs (switch_step name b set get).1 o ((switch_step name b set get).2 o).
Proof. intros H1 H2 o. destruct b; cbn [switch_step fst snd]; [apply H1|]. rewrite H2. by intros s. Qed.
Lemma runs_strict name absent v set get : v ≠ "" ∨ absent = "" →
  (∀ c r o, runs [name +:+ String c r] o (set (String c r) o)) → (∀ o, set (get o) o = o) →
  ∀ o, runs (strict_step name absent v set get).1 o ((strict_step name absent v set get).2 o).
Proof.
  intros Hv H1 H2 o. cbn [strict_step fst snd]. destruct (String.eqb_spec v absent) as [->|Hne]; [rewrite H2; by intros s|].
  destruct v as [|c r]; [|apply H1]. destruct Hv as [Hv|Hv]; [done|congruence].
Qed.
Lemma runs_list (name : string) (set : list string → check_options → check_options) l o :
  (∀ o, set [] o = o) → (∀ k l o, set l (set k o) = set (k ++ l) o) →
  Forall (λ c, ∀ o, runs [name +:+ c] o (set [c] o)) l → runs (map (λ c, name +:+ c) l) o (set l o).
Proof.
  intros H0 Hs H. revert o. induction H as [|c l Hc _ IH]; intros o; [rewrite H0; by intros s|].
  change (c :: l) with ([c] ++ l). rewrite <- Hs. cbn [map app]. apply (runs_app [name +:+ c] _ _ (set [c] o)); [apply Hc|apply IH].
Qed.
Lemma has_prefix_trans p q s : has_prefix p q = true → has_prefix q s = true → has_prefix p s = true.
Proof.
  intros [r ->]%has_prefix_spec [t ->]%has_prefix_spec. apply has_prefix_spec. exists (r +:+ t). by rewrite app_str_assoc.
Qed.
Definition flag_name {A} (f : flag A) : string := match f with Switch name _ => name | Value name _ _ => name end.
Lemma no_flag arg : has_prefix "-" arg = false → find_first (flag_matches arg) check_flags = None.
Proof.
  intros H. apply find_first_None. intros f Hf.
  assert (Hn : has_prefix "-" (flag_name f) = true).
  { assert (Ha : Forall (λ f, has_prefix "-" (flag_name f) = true) check_flags) by (repeat constructor).
    rewrite Forall_forall in Ha. by apply Ha. }
  apply not_true_iff_false. intros Hm. rewrite <- not_true_iff_false in H. apply H.
  destruct f as [name set|name strict set]; cbn [flag_matches flag_name] in *.
  - apply String.eqb_eq in Hm as ->. exact Hn.
  - apply andb_true_iff in Hm as [Hm _]. by eapply has_prefix_trans.
Qed.
Lemma runs_path p o : has_prefix "-" p = false → runs [p] o {| o with co_paths := co_paths o ++ [p] |}.
Proof.
  intros H s. cbn [parse_args]. unfold parse_arg. rewrite no_flag by done.
  destruct (String.eqb_spec p "--help") as [->|_]; [done|]. destruct (String.eqb_spec p "-h") as [->|_]; [done|].
  cbn [orb]. rewrite H. reflexivity.
Qed.
Lemma runs_mode v o : contains_string ["observe"; "partial"; "any"] v = true →
  runs ["--ssa-mp-mode=" +:+ v] o {| o with co_ssaMPMode := v |}.
Proof.
  intros H s. change (parse ["--ssa-mp-mode=" +:+ v] o s) with ((one_of "--ssa-mp-mode" ["observe"; "partial"; "any"]
    (λ v o, {| o with co_ssaMPMode := v |}) v o ≫= parse []) s). unfold one_of. rewrite H. reflexivity.
Qed.
Lemma runs_focus v o : contains_string ["all"; "inc6-floor"; "render"] v = true →
  runs ["--focus=" +:+ v] o {| o with co_focusPreset := v |}.
Proof.
  intros H s. change (parse ["--focus=" +:+ v] o s) with ((one_of "--focus" ["all"; "inc6-floor"; "render"]
    (λ v o, {| o with co_focusPreset := v |}) v o ≫= parse []) s). unfold one_of. rewrite H. reflexivity.
Qed.
Lemma runs_category l o : Forall (λ c, splitCSV c = [c]) l →
  runs (map (λ c, "--category=" +:+ c) l) o {| o with co_categoryFilter := co_categoryFilter o ++ l |}.
Proof.
  intros H. apply (runs_list _ (λ k o, {| o with co_categoryFilter := co_categoryFilter o ++ k |})).
  - intros []; cbn. by rewrite app_nil_r.
  - intros k m []; cbn. by rewrite (assoc_L (++)).
  - eapply Forall_impl; [exact H|]. cbn beta. intros c Hc o1 s. rewrite <- Hc. reflexivity.
Qed.
Lemma runs_rules l o : Forall (λ c, splitCSV c = [c]) l →
  runs (map (λ c, "--rules=" +:+ c) l) o {| o with co_ruleFilter := co_ruleFilter o ++ l |}.
Proof.
  intros H. apply (runs_list _ (λ k o, {| o with co_ruleFilter := co_ruleFilter o ++ k |})).
  - intros []; cbn. by rewrite app_nil_r.
  - intros k m []; cbn. by rewrite (assoc_L (++)).
  - eapply Forall_impl; [exact H|]. cbn beta. intros c Hc o1 s. rewrite <- Hc. reflexivity.
Qed.
Lemma runs_paths l o : Forall (λ p, has_prefix "-" p = false) l → runs l o {| o with co_paths := co_paths o ++ l |}.
Proof.
  intros H. revert o. induction H as [|p l Hp _ IH]; intros o; [intros s; destruct o; cbn; by rewrite app_nil_r|].
  apply (runs_app [p] l _ {| o with co_paths := co_paths o ++ [p] |}); [by apply runs_path|].
  replace {| o with co_paths := co_paths o ++ p :: l |} with
    (let o1 := {| o with co_paths := co_paths o ++ [p] |} in {| o1 with co_paths := co_paths o1 ++ l |}); [apply IH|].
  cbn. by rewrite <- (assoc_L (++)).
Qed.
Lemma if_self (b : bool) : (if b then true else false) = b.
Proof. by destruct b. Qed.
Lemma if_absent v absent : (if String.eqb v absent then absent else v) = v.
Proof. by destruct (String.eqb_spec v absent). Qed.
(** The steps, one after the other, rebuild the options. *)
Lemma steps_rebuild getenv a : foldl (λ o st, st.2 o) (default_options getenv) (option_steps a) = a.
Proof.
  destruct a. lazy beta iota zeta delta [foldl option_steps switch_step strict_step value_step fst snd default_options
    co_format co_strictConversions co_generateProof co_snapshotPath co_skipRender co_helmBin co_kustomizeBin co_crossplaneBin
    co_appsetFixturePath co_helmCacheDir co_skipAppSetExpand co_kernelPath co_configPath co_ssaMPMode co_focusPreset
    co_profileRules co_profileOut co_waiversPath co_showWaived co_noWaivers co_categoryFilter co_ruleFilter co_paths app].
  by rewrite !if_self, !if_absent.
Qed.

(** C37: Every set of options has a command line that gives it back, whatever the
    environment holds. *)
Theorem parse_check_args o s : options_wf o → parse_check ps (args_of o) s = Some (s, inl o).
Proof.
  intros [W1 W2 W3 W4 W5 W6 W7].
  assert (H : runs (args_of o) (default_options (ps_getenv ps)) o).
  { rewrite <- (steps_rebuild (ps_getenv ps) o) at 2. apply runs_steps. unfold option_steps.
    do 7 (apply Forall_cons; split; [apply runs_switch; [by intros ??|by intros []]|]).
    apply Forall_cons; split; [apply runs_strict; [by left|by intros ????|by intros []]|].
    do 4 (apply Forall_cons; split; [apply runs_strict; [by right|by intros ????|by intros []]|]).
    do 6 (apply Forall_cons; split; [by intros ??|]).
    apply Forall_cons; split; [intros ?; by apply runs_mode|]. apply Forall_cons; split; [intros ?; by apply runs_focus|].
    apply Forall_cons; split; [intros ?; by apply runs_category|]. apply Forall_cons; split; [intros ?; by apply runs_rules|].
    apply Forall_cons; split; [intros ?; by apply runs_paths|]. apply Forall_nil_2. }
  unfold parse_check, mbind, command_bind. rewrite H. destruct (co_paths o) as [|p l] eqn:Ep; [|done].
  destruct (String.eqb_spec (co_snapshotPath o) "") as [E|]; [by apply W7 in E|done].
Qed.
End outcome.

(** ** A repository with one file, one finding, and a register that accepts it *)

Definition demo_finding : KernelJudgment := {|
  ju_Code := "XPC002"; ju_Severity := Some SeverityError; ju_Source := MkSourceLocation "a.yaml" 3 0;
  ju_Message := "webhook conversion"; ju_Detail := ""; ju_Fix := ""; ju_Related := [];
  ju_Obligation := obligationRefForCode "XPC002" |}.
(** A kernel with that one rule. *)
Definition demo_kernel (world : KObj) : KObj :=
  makeList (if rule_allowed ["XPC002"] (toy_allowlist world) then [judgment_obj demo_finding] else []).
Definition demo_waiver : Waiver := {|
  wv_Rule := "XPC002"; wv_File := "a.yaml"; wv_Kind := ""; wv_Name := ""; wv_Namespace := ""; wv_Reason := "until v2";
  wv_AddedBy := ""; wv_AddedAt := ""; wv_ExpiresAt := "2026-12-31" |}.
Definition demo_snap : Snapshot := let s := New 0 "prod" in {| s with
  sn_Resources := [{| zero_ResourceInfo with ri_APIVersion := "v1"; ri_Kind := "ConfigMap"; ri_Name := "live" |}];
  sn_Compositions := [{| zero_CompositionInfo with comp_Name := "db" |}] |}.
#[local] Instance no_renderers : Renderers unit := {
  open_helm u := u; open_kustomize u := u; open_composition u := u;
  helm_render _ _ _ u := (inl "", u); kustomize_render _ _ u := (inl "", u); composition_render _ _ _ u := (inl "", u);
  helm_twice _ _ _ u := (inl (false, Some ""), u); kustomize_twice _ _ u := (inl (false, Some ""), u);
  helm_pull _ u := (inl "", u) }.
#[local] Instance no_renderers_laws : RenderersLaws unit.
Proof. split; simpl; intros; by exists "". Qed.
Definition demo_process : process unit := {|
  ps_getenv _ := ""; ps_getwd := inl "/repo"; ps_abs := Some; ps_stat _ := inl false;
  ps_read path := inl path; ps_write _ := None; ps_load_directory _ := inl [];
  ps_load_config _ := None; ps_discover _ := Some None; ps_config_error _ := "";
  ps_find_waivers _ := Some "/repo/.xpc-waivers.yaml"; ps_decode_waivers _ := inl [demo_waiver]; ps_waiver_error _ := "";
  ps_decode_snapshot _ := inl demo_snap; ps_decode_fixtures _ := inl ∅;
  ps_now := 0; ps_today := MkDate 2026 6 1; ps_timestamp := "2026-06-01T00:00:00Z";
  ps_build := demo_env; ps_tools _ _ _ := tt; ps_ruleset _ := inl []; ps_profile _ := ""; ps_usage := "" |}.
#[local] Notation demo_check args :=
  (runCheck (λ _, None) demo_kernel (λ _, false) demo_process (λ _, map_to_list) args).
Definition no_io : io := MkIO "" "" ∅.
Definition code_of (m : command Z) : option Z := snd <$> status m no_io.

Example demo_codes : map (λ args, code_of (demo_check args))
    [["a.yaml"]; ["--no-waivers"; "a.yaml"]; ["--category=M"; "a.yaml"]; ["--category=I"; "a.yaml"]; ["--nope"]; ["-h"];
     ["--format=xml"; "a.yaml"]] =
  map Some [0; 1; 0; 1; 1; 0; 1]%Z.
Proof. vm_compute. reflexivity. Qed.
(** A filter without letters filters nothing, and a run restricted to other rules is
    told that the waiver of a rule it did not run matched nothing. *)
Example empty_category : code_of (demo_check ["--no-waivers"; "--category=,"; "a.yaml"]) = Some 1%Z.
Proof. vm_compute. reflexivity. Qed.
Definition out_of (m : command Z) : string := from_option (λ r, io_out (fst r)) "" (status m no_io).
Example waiver_out_of_scope : contains (out_of (demo_check ["--category=M"; "a.yaml"]))
  "waiver for XPC002 (a.yaml) matched no finding" = true.
Proof. vm_compute. reflexivity. Qed.

Lemma code_of_status m code : code_of m = Some code → ∃ s', status m no_io = Some (s', code).
Proof. unfold code_of. destruct (status m no_io) as [[s' c]|]; [|done]. intros [= ->]. by exists s'. Qed.
Lemma demo_passes : ∃ s', status (demo_check ["a.yaml"]) no_io = Some (s', 0%Z).
Proof. apply code_of_status. vm_compute. reflexivity. Qed.
Lemma runCheck_passes_witness : ∃ s', status (demo_check ["a.yaml"]) no_io = Some (s', 0%Z) ∧
  (parse_check demo_process ["a.yaml"] no_io = Some (s', inr 0%Z) ∨
   ∃ r, (∃ s1 o s2, parse_check demo_process ["a.yaml"] no_io = Some (s1, inl o) ∧
         check_run (λ _, None) demo_kernel (λ _, false) demo_process o s1 = Some (s2, inl r)) ∧
     ∀ d, d ∈ ck_diags r → dg_Severity d ≠ SeverityError).
Proof.
  destruct demo_passes as [s' E]. exists s'. split; [exact E|].
  destruct (runCheck_passes (λ _, None) demo_kernel (λ _, false) demo_process (λ _, map_to_list) ["a.yaml"] no_io s' 0%Z E)
    as [_ H]. destruct (H eq_refl) as [Hh|(o & s1 & r & text & Hp & (s2 & Hr) & _ & _ & Hd & _)]; [by left|right].
  exists r. split; [exists s1, o, s2; split; [exact Hp|exact Hr]|exact Hd].
Defined.
Definition audit_options : check_options := let o := default_options (λ _, "") in
  {| o with co_snapshotPath := "live.xpcsnap"; co_noWaivers := true |}.
Definition returns {A} (r : option (io * (A + Z))) : bool := match r with Some (_, inl _) => true | _ => false end.
Lemma returns_inl {A} (r : option (io * (A + Z))) : returns r = true → ∃ s' a, r = Some (s', inl a).
Proof. destruct r as [[s' [a|code]]|]; [by eauto|done..]. Qed.
Lemma audit_runs : ∃ s' r, check_run (λ _, None) demo_kernel (λ _, false) demo_process audit_options no_io = Some (s', inl r).
Proof. apply returns_inl. vm_compute. reflexivity. Qed.
(** A snapshot alone: the live ConfigMap is checked, the Composition is not. *)
Lemma check_run_world_witness : ∃ w, map ri_Name (w_Resources w) = ["live"] ∧ w_Compositions w = [] ∧
  enriched_once demo_env w.
Proof.
  destruct audit_runs as (s' & r & E).
  destruct (check_run_world (λ _, None) demo_kernel (λ _, false) demo_process audit_options no_io s' r E)
    as (cfg & fixtures & docs & built & ds & t & w & allowlist & _ & _ & (snap & Hl & Hsn) & _ & Hw & _ & Hs).
  apply (Hs eq_refl) in Hsn. exists w. injection Hl as <-.
  split; [rewrite (sw_Resources _ _ Hsn); reflexivity|]. split; [exact (sw_Compositions _ _ Hsn)|exact Hw].
Defined.
Definition some_options : check_options := let o := default_options (λ _, "") in
  {| o with co_format := "sarif"; co_skipRender := true; co_categoryFilter := ["M"; "S"]; co_paths := ["deploy"; "apps/a.yaml"] |}.
Lemma parse_check_args_witness : parse_check demo_process (args_of some_options) no_io = Some (no_io, inl some_options).
Proof.
  apply (parse_check_args demo_process some_options no_io).
  split; [discriminate|reflexivity|reflexivity|repeat constructor..|discriminate].
Defined.
