(* ===== verification/Command.v ===== *)
(** The other commands of src/cmd/xpc/main.go that end in a report: verify, proof show
    and proof diff, dump-ir, explain and snapshot (bisect is BisectCommand.v).

    `xpc plan` is PlanCommand.v and `xpc skill` Skill.v.  The decoding of a proof's
    JSON, the table of explanations and kubectl are parameters. *)
From Stdlib Require Import ZArith.
From S2P Require Import Prelude GoStrings Paths Yaml Types Config Waiver Bisect AppSet Sha256 Json AuditLog Enrich Kl Encode Checker Documents Loader Tools Build Wire Snapshot Report SExpr Cluster ProofFile Shell RunCheck.

#[local] Open Scope string_scope.
#[local] Open Scope list_scope.

(** [s[:n]], which panics when [s] is shorter. *)
Definition first_bytes (n : nat) (s : string) : command string :=
  if Nat.ltb (String.length s) n then panic else mret (str_take n s).
Definition println (text : string) : command unit := print (text +:+ nl).

Section commands.
Context {T : Type} `{!Renderers T} (ps : process T) (order : ∀ A, gmap string A → list (string * A)).
Context (decode_proof : string → Proof_ + string) (rfc3339 : string → string).

(** ** Proofs *)

(** [LoadProof], over the decoder of its JSON. *)
Definition LoadProof (path : string) : Proof_ + string :=
  match ps_read ps path with
  | inr err => inr ("reading proof: " +:+ err)
  | inl data => match decode_proof data with
                | inr err => inr ("unmarshaling proof: " +:+ err)
                | inl p => inl p
                end
  end.
Definition runVerify (args : list string) : command Z :=
  match args with
  | [] => fail "error: no proof file specified"
  | proofPath :: _ =>
      p ← or_fail (λ err, "error loading proof: " +:+ err) (LoadProof proofPath);
      if AuditLog.Verify p then
        root ← first_bytes 20 (p_RootDigest p);
        println ("proof verified: " +:+ root);;
        println ("  IR digest:       " +:+ pm_IRDigest (p_Metadata p));;
        println ("  Snapshot digest:  " +:+ pm_SnapshotDigest (p_Metadata p));;
        println ("  Kernel version:   " +:+ pm_KernelVersion (p_Metadata p));;
        println ("  Ruleset version:  " +:+ pm_RulesetVersion (p_Metadata p));;
        println ("  Timestamp:        " +:+ rfc3339 (pm_Timestamp (p_Metadata p)));;
        mret 0%Z
      else fail "proof verification FAILED: Merkle root mismatch"
  end.
(** The flags of `proof show`: the rule, and the path. *)
Definition show_flags : list (flag (string * string)) := [Value "--rule=" true (λ v o, mret (v, snd o))].
Fixpoint parse_show (args : list string) (o : string * string) : command (string * string) :=
  match args with
  | [] => mret o
  | arg :: args =>
      o ← match find_first (flag_matches arg) show_flags with
          | Some f => set_flag f arg o
          | None => if has_prefix "-" arg then fail ("unknown flag: " +:+ arg) else mret (fst o, arg)
          end;
      parse_show args o
  end.
Definition judgment_lines (js : list Judgment) : string :=
  match js with
  | [] => "  No judgments (all resources satisfy this rule)" +:+ nl
  | _ => join "" (map (λ j, "  [" +:+ j_Status j +:+ "] " +:+ j_Resource j +:+ ": " +:+ j_Message j +:+ nl) js)
  end.
Definition runProofShow (args : list string) : command Z :=
  o ← parse_show args ("", "");
  let '(ruleFilter, proofPath) := (o : string * string) in
  if String.eqb proofPath "" then fail "error: no proof file specified"
  else
    p ← or_fail (λ err, "error loading proof: " +:+ err) (LoadProof proofPath);
    if String.eqb ruleFilter "" then print (ProofFile.Summary (order Subtree) rfc3339 p);; mret 0%Z
    else match p_RuleSubtrees p !! ruleFilter with
         | None => fail ("rule " +:+ ruleFilter +:+ " not found in proof")
         | Some st =>
             digest ← first_bytes 20 (sub_Digest st);
             println ("Rule " +:+ sub_Key st +:+ " (digest: " +:+ digest +:+ ")");;
             print (judgment_lines (sub_Judgments st));;
             mret 0%Z
         end.
Definition runProofDiff (args : list string) : command Z :=
  match args with
  | pa :: pb :: _ =>
      a ← or_fail (λ err, "error loading proof " +:+ pa +:+ ": " +:+ err) (LoadProof pa);
      b ← or_fail (λ err, "error loading proof " +:+ pb +:+ ": " +:+ err) (LoadProof pb);
      print (DiffProofs a b);; mret 0%Z
  | _ => fail "error: two proof files required"
  end.
Definition runProof (args : list string) : command Z :=
  match args with
  | [] => fail "error: proof subcommand required (show, diff)"
  | sub :: args => if String.eqb sub "show" then runProofShow args
                   else if String.eqb sub "diff" then runProofDiff args
                   else fail ("unknown proof subcommand: " +:+ sub)
  end.

(** ** The intermediate representation, and explanations *)

Definition plain_builder : Builder := MkBuilder false false "" (MkExpansionContext ∅ "") "" None.
Definition build_plain (docs : list LoadedDocument) : command World :=
  built ← or_panic (Build plain_builder (ps_build ps) docs (NewBuilder (ps_tools ps "" "" "")));
  st ← or_fail (λ err, "error building IR: " +:+ err) built;
  mret (fst st).
Definition runDumpIR (args : list string) : command Z :=
  match args with
  | [] => fail "error: no path specified"
  | path :: _ =>
      docs ← load_path ps path;
      world ← build_plain docs;
      print (ToSExpr (be_show (ps_build ps)) order world);; mret 0%Z
  end.
(** [explanations]: errorExplanations; [known]: the codes the message names. *)
Definition runExplain (explanations : gmap string string) (known : string) (args : list string) : command Z :=
  match args with
  | [] => fail "error: no error code specified"
  | code :: _ =>
      match explanations !! code with
      | None => eprintln ("unknown error code: " +:+ code);; fail (nl +:+ known)
      | Some text => println text;; mret 0%Z
      end
  end.

(** ** Snapshots *)

Record snapshot_options : Type := MkSnapshotOptions {
  so_output : string; so_cluster : string; so_diff : string; so_fromCluster : bool; so_context : string;
  so_kubectl : string; so_includeResources : bool; so_paths : list string }.
Definition snapshot_flags : list (flag snapshot_options) := [
  Value "--output=" true (λ v o, mret {| o with so_output := v |});
  Value "--cluster=" true (λ v o, mret {| o with so_cluster := v |});
  Value "--diff=" true (λ v o, mret {| o with so_diff := v |});
  Switch "--from-cluster" (λ o, {| o with so_fromCluster := true |});
  Value "--context=" true (λ v o, mret {| o with so_context := v |});
  Value "--kubectl-bin=" true (λ v o, mret {| o with so_kubectl := v |});
  Switch "--include-resources" (λ o, {| o with so_includeResources := true |}) ].
Definition default_snapshot : snapshot_options := MkSnapshotOptions "" "local" "" false "" "" false [].

Context (look_path : string → string + string) (run : Z → string → list string → string + string)
  (decode_version : string → option string) (time_json time_rfc3339 : Z → string)
  (diff_order : ∀ A, nat → gmap string A → list (string * A)).
Definition no_kubectl : string := "error: --from-cluster requires kubectl on PATH (or --kubectl-bin=)".
Definition error_text (e : CaptureError) : string := match e with KubectlAbsent err => err | CaptureFailed err => err end.
Definition capture_snapshot (o : snapshot_options) : command Snapshot :=
  match so_paths o with
  | _ :: _ => fail "error: --from-cluster does not take path arguments"
  | [] =>
      r ← or_panic (Capture (ps_build ps) look_path run decode_version (ps_tools ps "" "" "") (ps_now ps)
                      (MkCapturer (so_kubectl o) (so_context o) 0 "" false) (so_cluster o));
      let '(_, log, out) := r in
      eprint (join "" (map (λ line, line +:+ nl) log));;
      match out with
      | inl snap => mret snap
      | inr err => if IsKubectlAbsent err then fail no_kubectl else fail ("error capturing cluster: " +:+ error_text err)
      end
  end.
Definition manifest_snapshot (o : snapshot_options) : command Snapshot :=
  docs ← load_paths ps match so_paths o with [] => ["."] | paths => paths end [];
  world ← build_plain docs;
  mret (FromWorldWithOptions (env_printers (ps_build ps)) (ps_now ps) world (so_cluster o) (so_includeResources o)).
(** [strings.SplitN(s, ",", 2)]. *)
Definition diff_snapshots (paths : string) : command Z :=
  match cut_char "," paths with
  | None => fail "error: --diff requires two comma-separated paths"
  | Some (pa, pb) =>
      a ← or_fail (λ err, "error loading snapshot " +:+ pa +:+ ": " +:+ err) (load_snapshot ps pa);
      b ← or_fail (λ err, "error loading snapshot " +:+ pb +:+ ": " +:+ err) (load_snapshot ps pb);
      print (Snapshot.Diff time_rfc3339 diff_order a b);; mret 0%Z
  end.
Definition save_snapshot (path : string) (snap : Snapshot) : command Snapshot :=
  if String.eqb path "" then mret snap
  else let '(snap, text) := Snapshot.Save time_json (env_printers (ps_build ps)) snap in
       text ← or_fail (λ err, "error saving snapshot: " +:+ err)
                match text with Some text => inl text | None => inr "marshaling snapshot: json: unsupported value" end;
       done ← write_file (ps_write ps) path text;
       or_fail (λ err, "error saving snapshot: " +:+ err) done;;
       eprintln ("snapshot written to " +:+ path);;
       mret snap.
Definition runSnapshot (args : list string) : command Z :=
  o ← parse_args snapshot_flags (print_usage ps) (λ arg o, mret {| o with so_paths := so_paths o ++ [arg] |}) args default_snapshot;
  if negb (String.eqb (so_diff o) "") then diff_snapshots (so_diff o)
  else
    snap ← (if so_fromCluster o : bool then capture_snapshot o else manifest_snapshot o);
    snap ← save_snapshot (so_output o) snap;
    println (sn_Digest snap);; mret 0%Z.
End commands.

(** ** Lemmas: the root of a proof *)

Lemma merkle_level_shorter l : (l ≠ [] → merkle_level l ≠ []) ∧ ((2 ≤ length l)%nat → (length (merkle_level l) < length l)%nat).
Proof.
  split; [by destruct l as [|a [|b l]]|]. intros Hl. rewrite length_merkle_level.
  apply Nat.Div0.div_lt_upper_bound. lia.
Qed.
Lemma merkle_loop_digest fuel l : l ≠ [] → (length l ≤ S fuel)%nat → Forall digest_length l → digest_length (merkle_loop fuel l).
Proof.
  revert l. induction fuel as [|fuel IH]; intros [|a [|b l]] Hne Hf Hd; try done.
  - rewrite Forall_singleton in Hd. exact Hd.
  - cbn [length] in Hf. lia.
  - rewrite Forall_singleton in Hd. exact Hd.
  - destruct (merkle_level_shorter (a :: b :: l)) as (H1 & H2). cbn [merkle_loop].
    apply IH; [by apply H1| |apply merkle_level_digests]. cbn [length] in Hf, H2. lia.
Qed.
Lemma root_length p : digest_length (snd (merkleTree p)).
Proof.
  unfold merkleTree. cbn [snd]. set (x := hashBytes _). generalize (match p_Run p with Some s => [hashRunSummary s] | None => [] end ++
    subtree_digests (p_RuleSubtrees p) ++ subtree_digests (p_ResourceSubtrees p)) as l. intros l. cbn [app computeMerkleRoot].
  destruct l as [|y l]; [apply length_hashBytes|]. destruct (merkle_level_shorter (x :: y :: l)) as (H1 & H2).
  change (merkle_loop (length (x :: y :: l)) (x :: y :: l)) with (merkle_loop (length (y :: l)) (merkle_level (x :: y :: l))).
  apply merkle_loop_digest; [by apply H1|cbn [length] in *; lia|apply merkle_level_digests].
Qed.

Section verify.
Context {T : Type} (ps : process T) (decode_proof : string → Proof_ + string) (rfc3339 : string → string).

Lemma verify_accepts path rest p s : LoadProof ps decode_proof path = inl p → AuditLog.Verify p = true →
  ∃ s', status (runVerify ps decode_proof rfc3339 (path :: rest)) s = Some (s', 0%Z).
Proof.
  intros El Ev. unfold status, runVerify. rewrite bind_or_fail, El, Ev.
  assert (Hl : Nat.ltb (String.length (p_RootDigest p)) 20 = false).
  { apply String.eqb_eq in Ev. rewrite <- Ev. pose proof (root_length p) as ->. done. }
  unfold first_bytes. rewrite Hl. by eexists.
Qed.
(** `xpc verify` always ends, and with code 0 exactly when its first argument is a file
    that holds a proof whose root is that of its content; a proof it accepts has a
    digest long enough for the prefix it prints. *)
Theorem runVerify_code args s : ∃ s' code, status (runVerify ps decode_proof rfc3339 args) s = Some (s', code) ∧
  (code = 0%Z ∨ code = 1%Z) ∧
  (code = 0%Z ↔ ∃ path rest p, args = path :: rest ∧ LoadProof ps decode_proof path = inl p ∧ AuditLog.Verify p = true).
Proof.
  unfold status, runVerify. destruct args as [|path rest].
  { eexists _, 1%Z. split; [reflexivity|]. split; [by right|]. split; [done|]. by intros (? & ? & ? & [= ] & _). }
  rewrite bind_or_fail. destruct (LoadProof ps decode_proof path) as [p|err] eqn:El.
  2: { eexists _, 1%Z. split; [reflexivity|]. split; [by right|]. split; [done|]. intros (? & ? & p & [= <- <-] & H & _). congruence. }
  destruct (AuditLog.Verify p) eqn:Ev.
  - destruct (verify_accepts path rest p s El Ev) as [s' Hs]. unfold status, runVerify in Hs.
    rewrite bind_or_fail, El, Ev in Hs. rewrite Hs. exists s', 0%Z. split; [done|]. split; [by left|]. split; [|done].
    intros _. by exists path, rest, p.
  - eexists _, 1%Z. split; [reflexivity|]. split; [by right|]. split; [done|]. intros (? & ? & q & [= <- <-] & H & Hv). congruence.
Qed.
End verify.

(** ** A check and its proof *)

Section checked.
Context {Obj : Type} `{!KL Obj}.
Context (init_error : string → option string) (check_world : Obj → Obj) (IsError : Obj → bool).
Context {T : Type} `{!Renderers T} (ps : process T) (order : ∀ A, gmap string A → list (string * A)).

(** What the last part of a run leaves behind, when it did not stop: the file of the
    proof; the prefix of the digest it prints is always there to print. *)
Lemma write_proof_inv o r s s' u : co_generateProof o = true → write_proof ps order o r s = Some (s', inl u) →
  ∃ parts text, Save (make_proof ps order o r parts) = Some text ∧ io_files s' !! "check.xpcproof" = Some text.
Proof.
  unfold write_proof. intros ->. intros (s1 & parts & _ & H)%bind_inl. cbv zeta in H.
  apply bind_inl in H as (s2 & text & H1 & H). apply or_fail_Some in H1 as [(? & Ht & -> & [= <-])|(err & _ & [= ])].
  apply bind_inl in H as (s3 & done & H2 & H). apply bind_inl in H as (s4 & u4 & H3 & H).
  apply or_fail_Some in H3 as [([] & -> & -> & _)|(err & _ & [= ])]. exists parts, text.
  split; [by destruct (Save _) as [t|]; [injection Ht as ->|]|].
  unfold write_file in H2. destruct (ps_write ps "check.xpcproof") as [err|]; [injection H2 as _ H2; congruence|].
  injection H2 as <-. destruct (Nat.ltb _ 20); [done|]. injection H as <-. cbn [io_files]. apply lookup_insert_eq.
Qed.
Lemma write_proof_runs o r s : write_proof ps order o r s ≠ None.
Proof.
  unfold write_proof. destruct (co_generateProof o); [|done]. rewrite bind_or_fail.
  destruct (ps_ruleset ps (co_kernelPath o)) as [parts|err]; [|done]. cbv zeta.
  set (p := make_proof ps order o r parts). destruct (Save_total p) as [text Ht]. rewrite Ht, bind_or_fail.
  unfold mbind at 1, command_bind at 1, write_file. destruct (ps_write ps "check.xpcproof") as [err|]; [done|].
  rewrite bind_or_fail. assert (Hv : AuditLog.Verify p = true) by apply generated_verifies.
  apply String.eqb_eq in Hv. rewrite <- Hv. pose proof (root_length p) as ->. done.
Qed.
(** C18: `xpc check --proof` leaves a proof that `xpc verify` accepts: a run that reaches its
    end has written one, it never panics on the digest it prints, inclusion in it holds
    for exactly the findings reported, and a later verify that reads the file back,
    through a decoder that inverts the encoder on it, exits with 0. *)
Theorem checked_proof_verifies args s s1 o : parse_check ps args s = Some (s1, inl o) → co_generateProof o = true →
  (∀ s2 r, check_run init_error check_world IsError ps o s1 = Some (s2, inl r) →
     runCheck init_error check_world IsError ps order args s ≠ None) ∧
  ∀ s' code, runCheck init_error check_world IsError ps order args s = Some (s', inl code) →
    ∃ s2 r p text, check_run init_error check_world IsError ps o s1 = Some (s2, inl r) ∧
      io_files s' !! "check.xpcproof" = Some text ∧ Save p = Some text ∧
      (∀ rule resource, VerifyInclusion p rule resource = true ↔
         ∃ d, d ∈ ck_diags r ∧ dg_Code d = rule ∧ j_Resource (judgment_of d) = resource) ∧
      ∀ (later : process T) decode_proof rfc3339 rest s3,
        ps_read later "check.xpcproof" = inl text → decode_proof text = inl p →
        ∃ s4, status (runVerify later decode_proof rfc3339 ("check.xpcproof" :: rest)) s3 = Some (s4, 0%Z).
Proof.
  intros Hp Hg. split.
  - intros s2 r Hr. unfold runCheck. unfold mbind at 1, command_bind at 1. rewrite Hp.
    unfold mbind at 1, command_bind at 1. rewrite Hr. unfold finish_check. rewrite bind_or_fail.
    destruct (Report _ _ _) as [text|err]; [|done]. unfold mbind at 1, command_bind at 1. cbn [print].
    unfold mbind at 1, command_bind at 1. destruct (write_profile ps o r _) as [[s3 [u|code]]|] eqn:Ew; [|done|].
    + unfold mbind at 1, command_bind at 1. destruct (write_proof ps order o r s3) as [[s4 [u4|code]]|] eqn:Eq; [done..|].
      by apply write_proof_runs in Eq.
    + exfalso. revert Ew. unfold write_profile. destruct (_ || _); [|done]. destruct (String.eqb _ ""); [done|].
      unfold mbind, command_bind, write_file. destruct (ps_write ps _); done.
  - intros s' code H. unfold runCheck in H. apply bind_inl in H as (s1' & o' & H1 & H). rewrite Hp in H1.
    injection H1 as <- <-. apply bind_inl in H as (s2 & r & H2 & H). unfold finish_check in H.
    apply bind_inl in H as (s3 & text & _ & H). apply bind_inl in H as (s4 & u4 & _ & H).
    apply bind_inl in H as (s5 & u5 & _ & H). apply bind_inl in H as (s6 & u6 & H6 & H). apply ret_Some in H as [-> _].
    destruct (write_proof_inv _ _ _ _ _ Hg H6) as (parts & t & Hsave & Hf).
    exists s2, r, (make_proof ps order o r parts), t. split_and!; [done|done|done|intros; apply generated_inclusion|].
    intros later decode_proof rfc3339 rest s7 Hread Hdec. apply verify_accepts with (p := make_proof ps order o r parts).
    + unfold LoadProof. by rewrite Hread, Hdec.
    + apply generated_verifies.
Qed.
End checked.

(** ** The demo repository again *)

#[local] Existing Instance no_renderers.
#[local] Notation proof_check :=
  (runCheck (λ _, None) demo_kernel (λ _, false) demo_process (λ _, map_to_list) ["--proof"; "a.yaml"]).
Definition proof_options : check_options := let o := default_options (λ _, "") in
  {| o with co_generateProof := true; co_paths := ["a.yaml"] |}.
Lemma proof_check_ends : ∃ s' code, proof_check no_io = Some (s', inl code).
Proof. apply returns_inl. vm_compute. reflexivity. Qed.
(** The process of a later day, where the file holds what was written. *)
Definition later_process (text : string) : process unit := {| demo_process with ps_read := λ _, inl text |}.
Lemma checked_proof_verifies_witness : ∃ s' code text p, proof_check no_io = Some (s', inl code) ∧
  io_files s' !! "check.xpcproof" = Some text ∧ Save p = Some text ∧
  ∃ s4, status (runVerify (later_process text) (λ t, if String.eqb t text then inl p else inr "not the proof") (λ t, t)
    ["check.xpcproof"]) no_io = Some (s4, 0%Z).
Proof.
  destruct proof_check_ends as (s' & code & E).
  destruct (checked_proof_verifies (λ _, None) demo_kernel (λ _, false) demo_process (λ _, map_to_list)
    ["--proof"; "a.yaml"] no_io no_io proof_options eq_refl eq_refl) as [_ H].
  destruct (H s' code E) as (s2 & r & p & text & Hr & Hf & Hs & Hi & Hv). exists s', code, text, p.
  split; [exact E|]. split; [exact Hf|]. split; [exact Hs|]. apply (Hv (later_process text)); [reflexivity|].
  cbv beta. rewrite String.eqb_refl. reflexivity.
Defined.
(** A proof file is not checked before it is shown: a short digest in it panics, an
    empty rule shows the summary. *)
Definition short_proof : Proof_ := {| sample_proof with p_RuleSubtrees := {["XPC002" := MkSubtree "XPC002" "abc" []]} |}.
Example show_panics :
  map (λ args, code_of (runProofShow demo_process (λ _, map_to_list) (λ _, inl short_proof) (λ t, t) args))
    [["--rule=XPC002"; "p"]; ["--rule=XPC009"; "p"]; ["p"]; []] = [None; Some 1; Some 0; Some 1]%Z.
Proof. vm_compute. reflexivity. Qed.
