(* ===== verification/BisectCommand.v ===== *)
(** `xpc bisect` (src/cmd/xpc/main.go, runBisect): its flags, the check of a rule in a
    worktree (bisect.go, checkAtCommit), the inner `xpc check` the detector runs, and
    its messages.

    git is a parameter: the commit of a ref, the list of a range, a subject, and the
    worktree of a commit.  The inner check is RunCheck.v's own, run as a process. *)
From Stdlib Require Import ZArith.
From S2P Require Import Prelude GoStrings Paths Types Waiver Bisect Checker Kl Encode Tools Build Wire Report Shell RunCheck.

#[local] Open Scope string_scope.
#[local] Open Scope list_scope.

(** ** Flags *)

Record bisect_options : Type := MkBisectOptions {
  bo_ruleCode : string; bo_goodRef : string; bo_badRef : string; bo_manifestPath : string;
  bo_xpcBin : string; bo_kernelPath : string; bo_configPath : string }.
Definition default_bisect (getenv : string → string) : bisect_options :=
  MkBisectOptions "" "" "HEAD" "" "" (getenv "XPC_KERNEL_PATH") (getenv "XPC_CONFIG_PATH").
Definition bisect_flags : list (flag bisect_options) := [
  Value "--rule=" false (λ v o, mret {| o with bo_ruleCode := v |});
  Value "--good=" false (λ v o, mret {| o with bo_goodRef := v |});
  Value "--bad=" false (λ v o, mret {| o with bo_badRef := v |});
  Value "--xpc-bin=" false (λ v o, mret {| o with bo_xpcBin := v |});
  Value "--kernel-path=" false (λ v o, mret {| o with bo_kernelPath := v |});
  Value "--config=" false (λ v o, mret {| o with bo_configPath := v |}) ].
Definition add_manifest (arg : string) (o : bisect_options) : command bisect_options :=
  if negb (String.eqb (bo_manifestPath o) "") then fail "error: xpc bisect accepts at most one path"
  else mret {| o with bo_manifestPath := arg |}.

(** The arguments of the inner check. *)
Definition extraArgs (kernelPath configPath : string) : list string :=
  (if String.eqb kernelPath "" then [] else ["--kernel-path=" +:+ kernelPath]) ++
  (if String.eqb configPath "" then [] else ["--config=" +:+ configPath]).
Definition detector_args (extra : list string) (workdir : string) : list string :=
  ["--skip-render"; "--format=json"] ++ extra ++ [workdir].

(** ** A worktree *)

(** [checkAtCommit]: [worktree] adds the worktree of a commit, and [None] is an error. *)
Definition checkAtCommit (worktree : string → option string) (repoRoot manifestPath : string)
    (check : string → option bool) (sha : string) : option bool :=
  wtDir ← worktree sha;
  check (if String.eqb manifestPath "" then wtDir
         else path_join [wtDir; if is_abs manifestPath then path_rel repoRoot manifestPath else manifestPath]).

(** ** The command *)

Section bisect.
Context {Obj : Type} `{!KL Obj}.
Context (init_error : string → option string) (check_world : Obj → Obj) (IsError : Obj → bool).
Context {T : Type} `{!Renderers T} (ps : process T) (order : ∀ A, gmap string A → list (string * A)).
Context (decode_codes : string → option (list string)) (crash : string).

(** `xpc check` as a process: a run that exits with another code than 0, or panics,
    leaves what it printed. *)
Definition run_check (args : list string) : Exec :=
  match status (runCheck init_error check_world IsError ps order args) (MkIO "" "" ∅) with
  | Some (s, code) => if Z.eqb code 0 then ExecOk (io_out s) else ExecExit (io_out s) (io_err s)
  | None => ExecExit "" crash
  end.
Definition detector (ruleCode kernelPath configPath workdir : string) : option bool :=
  XPCCheckDetector decode_codes (λ dir, run_check (detector_args (extraArgs kernelPath configPath) dir)) ruleCode workdir.

(** [check_with]: the check another binary makes, for --xpc-bin=. *)
Context (executable : string + string) (check_with : string → list string → Exec)
  (worktree revParse : string → option string) (revList : string → string → option (list string))
  (commitSubject : string → option string) (error_of : RunError → string).

Definition bisect_detector (o : bisect_options) (xpcBin workdir : string) : option bool :=
  XPCCheckDetector decode_codes
    (λ dir, (if String.eqb (bo_xpcBin o) "" then run_check else check_with xpcBin)
              (detector_args (extraArgs (bo_kernelPath o) (bo_configPath o)) dir)) (bo_ruleCode o) workdir.
Definition bisect_failure (o : bisect_options) (e : RunError) : command Z :=
  match e with
  | ErrSameCommit => fail "error: --good and --bad resolve to the same commit; nothing to bisect"
  | ErrRuleNeverChanged =>
      eprintln ("rule " +:+ bo_ruleCode o +:+ " never changed firing state between " +:+ bo_goodRef o +:+ " and " +:+ bo_badRef o);;
      fail ("either both refs fire it, or neither does " +:+ bytes [226; 128; 148]%N +:+ " bisect has nothing to find")
  | e => fail ("error: " +:+ error_of e)
  end.
Definition bisect_report (o : bisect_options) (res : Bisect.Result) : command Z :=
  good ← (if Nat.ltb (String.length (br_GoodSHA res)) 12 then panic else mret (str_take 12 (br_GoodSHA res)));
  print (unlines [
    "rule " +:+ bo_ruleCode o +:+ " " +:+ (match br_Direction res with StartedFiring => "started firing" | StoppedFiring => "stopped firing" end) +:+ " at:";
    "  commit:  " +:+ br_Commit res;
    "  subject: " +:+ br_Subject res;
    "  good:    " +:+ bo_goodRef o +:+ " (" +:+ good +:+ ")"]);;
  bad ← (if Nat.ltb (String.length (br_BadSHA res)) 12 then panic else mret (str_take 12 (br_BadSHA res)));
  print (unlines [
    "  bad:     " +:+ bo_badRef o +:+ " (" +:+ bad +:+ ")";
    "  steps:   " +:+ itoa (Z.of_nat (br_Steps res))]);;
  mret 0%Z.
Definition runBisect (args : list string) : command Z :=
  o ← parse_args bisect_flags (print_usage ps) add_manifest args (default_bisect (ps_getenv ps));
  if String.eqb (bo_ruleCode o) "" then fail "error: --rule is required"
  else if String.eqb (bo_goodRef o) "" then fail "error: --good is required"
  else match ValidateRuleCode (bo_ruleCode o) with
  | Some e => fail ("error: " +:+ error_of e)
  | None =>
      xpcBin ← (if String.eqb (bo_xpcBin o) "" then or_fail (λ err, "error: resolve xpc binary: " +:+ err) executable
                else mret (bo_xpcBin o));
      cwd ← or_fail (λ err, "error: getwd: " +:+ err) (ps_getwd ps);
      match Bisect.Run (checkAtCommit worktree cwd (bo_manifestPath o) (bisect_detector o xpcBin)) revParse revList commitSubject
              (bo_ruleCode o) (bo_goodRef o) (bo_badRef o) with
      | inl e => bisect_failure o e
      | inr res => bisect_report o res
      end
  end.

(** ** What the detector sees *)

Definition detector_options (kernelPath configPath workdir : string) : check_options :=
  let o := default_options (ps_getenv ps) in
  let o := {| o with co_skipRender := true; co_format := "json"; co_paths := [workdir] |} in
  let o := if String.eqb kernelPath "" then o else {| o with co_kernelPath := kernelPath |} in
  if String.eqb configPath "" then o else {| o with co_configPath := configPath |}.
Lemma detector_parse kernelPath configPath workdir s : has_prefix "-" workdir = false →
  parse_check ps (detector_args (extraArgs kernelPath configPath) workdir) s =
  Some (s, inl (detector_options kernelPath configPath workdir)).
Proof.
  intros Hw. set (o0 := default_options (ps_getenv ps)).
  set (o1 := {| o0 with co_skipRender := true; co_format := "json" |}).
  set (o2 := if String.eqb kernelPath "" then o1 else {| o1 with co_kernelPath := kernelPath |}).
  set (o3 := if String.eqb configPath "" then o2 else {| o2 with co_configPath := configPath |}).
  assert (H : runs ps (detector_args (extraArgs kernelPath configPath) workdir) o0 {| o3 with co_paths := co_paths o3 ++ [workdir] |}).
  { unfold detector_args, extraArgs. rewrite <- !(assoc_L (++)). apply (runs_app _ _ _ _ o1); [by intros ?|].
    apply (runs_app _ _ _ _ o2); [unfold o2; by destruct (String.eqb kernelPath "")|].
    apply (runs_app _ _ _ _ o3); [unfold o3; by destruct (String.eqb configPath "")|by apply runs_path]. }
  unfold parse_check, mbind, command_bind. rewrite H. unfold detector_options.
  destruct (String.eqb kernelPath ""), (String.eqb configPath ""); reflexivity.
Qed.
Lemma reportJSON_not_empty diags text : reportJSON diags = inl text → String.eqb text "" = false.
Proof.
  unfold reportJSON, encoded. destruct (wire no_values diags) as [j|]; [|done]. intros [= <-]. unfold encode_indented.
  by destruct (indented "" j).
Qed.
(** The process, when the run was not stopped: the report is all it prints. *)
Lemma run_check_reports kernelPath configPath workdir s r : has_prefix "-" workdir = false →
  check_run init_error check_world IsError ps (detector_options kernelPath configPath workdir) (MkIO "" "" ∅) = Some (s, inl r) →
  ∃ text, reportJSON (ck_diags r) = inl text ∧
    (run_check (detector_args (extraArgs kernelPath configPath) workdir) = ExecOk text ∨
     ∃ err, run_check (detector_args (extraArgs kernelPath configPath) workdir) = ExecExit text err).
Proof.
  intros Hw Hr. destruct (reportJSON_total (ck_diags r)) as [text Ht]. exists text. split; [done|].
  assert (E : status (runCheck init_error check_world IsError ps order (detector_args (extraArgs kernelPath configPath) workdir))
    (MkIO "" "" ∅) = Some ({| s with io_out := text |}, if has_error (ck_diags r) then 1%Z else 0%Z)).
  { unfold status, runCheck. unfold mbind at 1, command_bind at 1. rewrite detector_parse by done.
    unfold mbind at 1, command_bind at 1. rewrite Hr. unfold finish_check.
    assert (Hf : co_format (detector_options kernelPath configPath workdir) = "json" ∧
      co_profileRules (detector_options kernelPath configPath workdir) = false ∧
      co_profileOut (detector_options kernelPath configPath workdir) = "" ∧
      co_generateProof (detector_options kernelPath configPath workdir) = false)
      by (unfold detector_options; by destruct (String.eqb kernelPath ""), (String.eqb configPath "")).
    destruct Hf as (-> & Hp & Hpo & Hg). change (Report (read_source ps) (ck_diags r) "json") with (reportJSON (ck_diags r)).
    rewrite bind_or_fail, Ht. unfold write_profile, write_proof. rewrite Hp, Hpo, Hg. change (String.eqb "" "") with true.
    apply silent_check_run in Hr as [Ho _]. destruct s as [out err files]. cbn [io_out] in Ho. subst out. reflexivity. }
  unfold run_check. rewrite E. cbn [io_out io_err]. destruct (has_error (ck_diags r)); [right; by exists (io_err s)|by left].
Qed.

Definition any_code (ruleCode : string) (diags : list Diagnostic) : bool :=
  existsb (λ c, String.eqb c ruleCode) (map dg_Code diags).
Lemma any_code_spec ruleCode diags : any_code ruleCode diags = true ↔ ∃ d, d ∈ diags ∧ dg_Code d = ruleCode.
Proof.
  unfold any_code. rewrite existsb_elem_of. setoid_rewrite list_elem_of_fmap. setoid_rewrite String.eqb_eq. split.
  - intros (c & (d & -> & Hd) & E). by exists d.
  - intros (d & Hd & E). exists (dg_Code d). split; [by exists d|done].
Qed.
Lemma detector_reports ruleCode kernelPath configPath workdir diags text :
  reportJSON diags = inl text →
  (∀ text, reportJSON diags = inl text → decode_codes text = Some (map dg_Code diags)) →
  (run_check (detector_args (extraArgs kernelPath configPath) workdir) = ExecOk text ∨
   ∃ err, run_check (detector_args (extraArgs kernelPath configPath) workdir) = ExecExit text err) →
  detector ruleCode kernelPath configPath workdir = Some (any_code ruleCode diags).
Proof.
  intros Ht Hlaw Hx. unfold detector, XPCCheckDetector.
  assert (Hs : ScanDiagnostics decode_codes text ruleCode = Some (any_code ruleCode diags))
    by (unfold ScanDiagnostics; by rewrite (reportJSON_not_empty _ _ Ht), (Hlaw _ Ht)).
  destruct Hx as [-> |(err & ->)]; [exact Hs|]. apply reportJSON_not_empty in Ht. by destruct text.
Qed.
(** A rule among the findings the waivers leave. *)
Lemma fires_after_waivers o cwd findings s s' out ruleCode : apply_waivers ps o cwd findings s = Some (s', inl out) →
  (any_code ruleCode out = true ↔ (∃ d, d ∈ findings ∧ dg_Code d = ruleCode ∧ ¬ accepted ps o cwd d) ∨
                                  (∃ d, d ∈ register_reports ps o cwd findings ∧ dg_Code d = ruleCode)) ∧
  (ruleCode ∉ [CodeWaiverExpired; CodeWaiverUnused] →
     (any_code ruleCode out = true ↔ ∃ d, d ∈ findings ∧ dg_Code d = ruleCode ∧ ¬ accepted ps o cwd d)).
Proof.
  clear executable check_with worktree revParse revList commitSubject error_of.
  intros H. pose proof (apply_waivers_out init_error _ _ _ _ _ _ _ H) as Ho. rewrite any_code_spec. setoid_rewrite Ho. split; [naive_solver|].
  intros Hc. split; [|naive_solver]. intros (d & [[? ?]|Hr] & <-); [by exists d|].
  by apply register_reports_codes in Hr.
Qed.

(** C26: The detector answers for the findings that are left after the waivers, the
    register being that of the directory the bisection runs in: a rule fires exactly when
    a finding of the kernel, or a note after it, is of that rule and no live waiver of the
    validated register accepts it, so a rule whose every finding is waived does not fire
    and a rule with one finding that is not does.  (The two rules about the register
    itself answer for its entries.)  A check that stops before its report is the answer
    no when it found no manifests, and an error otherwise. *)
Theorem detector_after_waivers ruleCode kernelPath configPath workdir : has_prefix "-" workdir = false →
  let o := detector_options kernelPath configPath workdir in
  match check_run init_error check_world IsError ps o (MkIO "" "" ∅) with
  | Some (_, inl r) =>
      (∀ text, reportJSON (ck_diags r) = inl text → decode_codes text = Some (map dg_Code (ck_diags r))) →
      ∃ fires cwd cfg docs built allowlist,
        detector ruleCode kernelPath configPath workdir = Some fires ∧
        (fires = true ↔ ∃ d, d ∈ ck_diags r ∧ dg_Code d = ruleCode) ∧
        ps_getwd ps = inl cwd ∧
        (∃ s1 s2, load_paths ps [workdir] [] s1 = Some (s2, inl docs)) ∧
        (∃ s1 s2, build_world ps o cfg docs s1 = Some (s2, inl built)) ∧
        resolveRuleAllowlist (co_focusPreset o) (co_categoryFilter o) (co_ruleFilter o) = inl allowlist ∧
        let findings := found o allowlist (snd built) r in
        (fires = true ↔ (∃ d, d ∈ findings ∧ dg_Code d = ruleCode ∧ ¬ accepted ps o cwd d) ∨
                        (∃ d, d ∈ register_reports ps o cwd findings ∧ dg_Code d = ruleCode)) ∧
        (ruleCode ∉ [CodeWaiverExpired; CodeWaiverUnused] →
           (fires = true ↔ ∃ d, d ∈ findings ∧ dg_Code d = ruleCode ∧ ¬ accepted ps o cwd d))
  | Some (s, inr _) =>
      detector ruleCode kernelPath configPath workdir = if isBenignNoManifests (io_err s) then Some false else None
  | None => detector ruleCode kernelPath configPath workdir = if isBenignNoManifests crash then Some false else None
  end.
Proof.
  intros Hw o. destruct (check_run _ _ _ _ o _) as [[s [r|code]]|] eqn:Hr.
  - intros Hlaw. destruct (run_check_reports kernelPath configPath workdir s r Hw Hr) as (text & Ht & Hx).
    apply check_run_inv in Hr as (cwd & cfg & docs & built & w & allowlist & s1 & s2 & Hcwd & Hdocs & _ & Hb & _ & Hal & _ & s3 & s4 & Ha).
    assert (Hp : co_paths o = [workdir])
      by (unfold o, detector_options; by destruct (String.eqb kernelPath ""), (String.eqb configPath "")).
    rewrite Hp in Hdocs. exists (any_code ruleCode (ck_diags r)), cwd, cfg, docs, built, allowlist. cbv zeta.
    split_and!; [by eapply detector_reports|apply any_code_spec|done|by eauto|done|done|..].
    + exact (proj1 (fires_after_waivers _ _ _ _ _ _ ruleCode Ha)).
    + exact (proj2 (fires_after_waivers _ _ _ _ _ _ ruleCode Ha)).
  - unfold detector, XPCCheckDetector, run_check, runCheck, status. unfold mbind at 1, command_bind at 1.
    rewrite detector_parse by done. unfold mbind at 1, command_bind at 1. fold o. rewrite Hr.
    apply silent_check_run in Hr as [Ho [-> |[? _]]]; [|done]. cbn in Ho. by rewrite Ho.
  - unfold detector, XPCCheckDetector, run_check, runCheck, status. unfold mbind at 1, command_bind at 1.
    rewrite detector_parse by done. unfold mbind at 1, command_bind at 1. fold o. by rewrite Hr.
Qed.
End bisect.

(** ** A finding a waiver accepts *)

#[local] Existing Instance no_renderers.
(** The codes of an indented report. *)
Definition code_of_line (l : string) : option string :=
  match str_cut (quote "code" +:+ ": ") l with Some (_, v) => Some (until_break (str_drop 1 v)) | None => None end.
Definition demo_decode (text : string) : option (list string) := Some (omap code_of_line (split_on (byte 10) text)).
#[local] Notation demo_run :=
  (check_run (λ _, None) demo_kernel (λ _, false) demo_process (detector_options demo_process "" "" "a.yaml") (MkIO "" "" ∅)).
#[local] Notation demo_detector ruleCode :=
  (detector (λ _, None) demo_kernel (λ _, false) demo_process (λ _, map_to_list) demo_decode "" ruleCode "" "" "a.yaml").
Definition demo_sees (r : option (io * (check_outcome + Z))) : bool :=
  match r with
  | Some (_, inl r) =>
      existsb (λ d, String.eqb (dg_Code d) "XPC002") (run_Diagnostics (ck_result r)) &&
      negb (existsb (λ d, String.eqb (dg_Code d) "XPC002") (ck_diags r)) &&
      bool_decide (from_option (λ cs, cs) [] (match reportJSON (ck_diags r) with inl t => demo_decode t | inr _ => None end) = map dg_Code (ck_diags r))
  | _ => false
  end.
(** The kernel finds XPC002 there, and a bisection on it is told it does not fire. *)
Example demo_bisect : demo_sees demo_run = true ∧ demo_detector "XPC002" = Some false.
Proof. vm_compute. done. Qed.
Lemma demo_found (run : option (io * (check_outcome + Z))) : demo_sees run = true → ∃ s r, run = Some (s, inl r) ∧
  (∀ text, reportJSON (ck_diags r) = inl text → demo_decode text = Some (map dg_Code (ck_diags r))) ∧
  ¬ ∃ d, d ∈ ck_diags r ∧ dg_Code d = "XPC002".
Proof.
  unfold demo_sees. destruct run as [[s [r|]]|]; [|done..]. intros ((_ & Hn)%andb_true_iff & Hd)%andb_true_iff.
  exists s, r. split; [done|]. split.
  - intros text Ht. rewrite Ht in Hd. by apply bool_decide_eq_true_1 in Hd as <-.
  - intros (d & Hin & Hc). apply negb_true_iff, not_true_iff_false in Hn. apply Hn, existsb_elem_of. exists d.
    split; [done|]. by apply String.eqb_eq.
Qed.
Lemma detector_after_waivers_witness : demo_detector "XPC002" = Some false.
Proof.
  pose proof (detector_after_waivers (λ _, None) demo_kernel (λ _, false) demo_process (λ _, map_to_list) demo_decode ""
    "XPC002" "" "" "a.yaml" eq_refl) as H. cbv zeta in H.
  destruct (demo_found demo_run (proj1 demo_bisect)) as (s & r & E & Hlaw & Hno). rewrite E in H.
  destruct (H Hlaw) as (fires & _ & _ & _ & _ & _ & Hd & Hf & _). rewrite Hd. destruct fires; [|reflexivity]. destruct (Hno (proj1 Hf eq_refl)).
Defined.
