(* ===== verification/PlanRun.v ===== *)
(** The runs of a plan (src/pkg/plan/runner.go): how a --base or --head argument becomes
    a directory or a snapshot, the worktrees that are added and removed, the check of
    each variant, and the plan made of the two.

    The state is what a run leaves outside its process: the directories it made under
    the temporary directory, and the worktrees registered with git.  git, the file
    system and the removals, whose failures the code ignores, are parameters.  A panic
    ([None]) happens before any cleanup. *)
From Stdlib Require Import ZArith.
From S2P Require Import Prelude GoStrings Paths Yaml Types Config Plan Sha256 AppSet Enrich Kl Encode Checker Documents Loader Tools Build Snapshot Shell RunCheck.

#[local] Open Scope string_scope.
#[local] Open Scope list_scope.

(** ** Data *)

(** What os.Stat says of a path that exists. *)
Inductive file_kind : Type := RegularFile | DirectoryFile | OtherFile.
Record VariantSource : Type := MkVariantSource { vs_Kind : string; vs_Path : string }.
(** plan.Config *)
Record plan_config : Type := MkPlanConfig {
  pc_BaseRef : string; pc_HeadRef : string; pc_Path : string; pc_KernelPath : string;
  pc_SkipRender : bool; pc_HelmBin : string; pc_HelmCacheDir : string; pc_KustomizeBin : string;
  pc_CrossplaneBin : string; pc_SkipAppSetExpand : bool; pc_SSAMPMode : string;
  pc_AppSetFixtures : option (gmap string (list (gmap string string))); pc_ConfigOverride : option Config }.
Record temp : Type := MkTemp { tp_dirs : gset string; tp_trees : gset string }.
(** A worktree to remove, and the directory it was made in. *)
#[local] Notation cleanup := (string * string)%type.

(** Where the worktree of a variant goes: the first eight bytes of the hash of the
    repository, the ref and the tag name its directory. *)
Definition NUL : string := bytes [0]%N.
Definition wt_parent (temp_dir repoRoot ref tag : string) : string :=
  path_join [temp_dir; "xpc-plan-" +:+ str_take 16 (hex_state (sha256_words (repoRoot +:+ NUL +:+ ref +:+ NUL +:+ tag)))].

Section plan_run.
Context {Obj : Type} `{!KL Obj}.
Context (init_error : string → option string) (check_world : Obj → Obj) (IsError : Obj → bool).
Context {T : Type} `{!Renderers T} (ps : process T).
Context (stat : string → option file_kind) (not_exist : string → bool) (abs : string → string + string)
  (temp_dir : string) (mkdir_all : string → option string)
  (git_add : string → string → string → option string) (git_remove remove_all : string → bool).

(** ** The variants *)

Definition repo_root_test (dir : string) : option string :=
  match stat (path_join [dir; ".git"]) with Some _ => Some dir | None => None end.
Definition findRepoRoot (start : string) : string + string :=
  match climb repo_root_test (climb_fuel start) start with
  | Some dir => inl dir
  | None => inr ("no .git found above " +:+ start)
  end.
(** [git worktree remove --force], then [os.RemoveAll]. *)
Definition drop_tree (wtDir dir : string) (t : temp) : temp :=
  MkTemp (if remove_all dir then tp_dirs t ∖ {[dir]} else tp_dirs t)
         (if git_remove wtDir then tp_trees t ∖ {[wtDir]} else tp_trees t).
Definition run_cleanup (c : cleanup) (t : temp) : temp := drop_tree (fst c) (snd c) t.
(** The closures, last in first out. *)
Definition run_cleanups (cs : list cleanup) (t : temp) : temp := foldl (λ t c, run_cleanup c t) t (rev cs).

(** The git part of [resolveVariant]. *)
Definition add_worktree (repoRoot absPath ref tag : string) (t : temp) : (VariantSource * option cleanup + string) * temp :=
  let wtParent := wt_parent temp_dir repoRoot ref tag in
  let wtDir := path_join [wtParent; tag] in
  match mkdir_all wtParent with
  | Some err => (inr ("mkdir worktree parent: " +:+ err), t)
  | None =>
      let t := MkTemp (tp_dirs t ∪ {[wtParent]}) (tp_trees t) in
      let t := match stat wtDir with Some _ => drop_tree wtDir wtDir t | None => t end in
      match git_add repoRoot wtDir ref with
      | Some err => (inr ("git worktree add " +:+ wtDir +:+ " " +:+ ref +:+ ": " +:+ err), t)
      | None =>
          (inl (MkVariantSource "directory" (path_join [wtDir; path_rel repoRoot absPath]), Some (wtDir, wtParent)),
           MkTemp (tp_dirs t) (tp_trees t ∪ {[wtDir]}))
      end
  end.
Definition resolveVariant (ref path tag : string) (t : temp) : (VariantSource * option cleanup + string) * temp :=
  let in_place kind :=
    match abs ref with
    | inr err => (inr ("abs(" +:+ ref +:+ "): " +:+ err), t)
    | inl a => (inl (MkVariantSource kind a, None), t)
    end in
  let in_git :=
    match abs path with
    | inr err => (inr ("abs(" +:+ path +:+ "): " +:+ err), t)
    | inl absPath =>
        match findRepoRoot absPath with
        | inr err => (inr ("find repo root from " +:+ absPath +:+ ": " +:+ err), t)
        | inl repoRoot => add_worktree repoRoot absPath ref tag t
        end
    end in
  if String.eqb ref "" then (inr ("empty --" +:+ tag), t)
  else match stat ref with
       | Some RegularFile => if has_suffix ".xpcsnap" ref then in_place "snapshot" else in_git
       | Some DirectoryFile => in_place "directory"
       | Some OtherFile | None => in_git
       end.

(** ** Checking a variant

    The lines it writes to stderr come with the result. *)

Definition resolveVariantConfig (override : option Config) (variantDir : string) : Config * list string :=
  match override with
  | Some c => (c, [])
  | None =>
      match Config.Resolve (ps_load_config ps) (ps_discover ps) "" "" variantDir with
      | Some (cfg, _, _) => (cfg, [])
      | None => (Default, ["warning: error loading xpc.yaml under " +:+ variantDir +:+ ": " +:+
                            ps_config_error ps variantDir +:+ " (using defaults)"])
      end
  end.
Definition path_missing (dir : string) : Diagnostic := {| zero_Diagnostic with
  dg_Code := "XPC.P.path-missing"; dg_Severity := SeverityInfo;
  dg_Message := "manifest path " +:+ dir +:+ " does not exist on this variant";
  dg_Detail := "The directory was not present at the resolved ref. Likely cause: the manifest tree was added, renamed, or restructured after that point in history. Treating this side as an empty World; resources on the other variant will appear as Added or Removed accordingly.";
  dg_Fix := "If this is unexpected, double-check the --base / --head refs and the path argument." |}.
Definition snapshot_incomplete (snapPath : string) : Diagnostic := {| zero_Diagnostic with
  dg_Code := "XPC.P.snapshot-incomplete"; dg_Severity := SeverityInfo;
  dg_Message := "snapshot " +:+ snapPath +:+ " has no resource instances";
  dg_Detail := "The snapshot was captured without --include-resources, so the plan delta " +:+
    "cannot reflect cluster-side state. Type-environment diagnostics still flow through.";
  dg_Fix := "Re-capture with `xpc snapshot --include-resources` to populate " +:+ "Resources/ArgoApps/AppSets/Projects." |}.
Definition variant_check (cfg : plan_config) (w : World) : list Diagnostic * World :=
  let '(result, w) := CheckWithObligations (init_error (pc_KernelPath cfg)) check_world IsError w (MkCheckConfig [] false) in
  (run_Diagnostics result, w).
Definition plan_builder (cfg : plan_config) (c : Config) : Builder :=
  MkBuilder (pc_SkipRender cfg) (pc_SkipAppSetExpand cfg) (pc_HelmCacheDir cfg)
    (MkExpansionContext (default ∅ (pc_AppSetFixtures cfg)) "") (pc_SSAMPMode cfg) (Some c).
Definition runVariant (cfg : plan_config) (ref dir : string) : option ((VariantResult + string) * list string) :=
  if not_exist dir then Some (inl (MkVariantResult ref dir NewWorld [path_missing dir]), [])
  else match ps_load_directory ps dir with
  | inr err => Some (inr ("load " +:+ dir +:+ ": " +:+ err), [])
  | inl docs =>
      let '(c, log) := resolveVariantConfig (pc_ConfigOverride cfg) dir in
      match Build (plan_builder cfg c) (ps_build ps) docs
              (NewBuilder (ps_tools ps (pc_HelmBin cfg) (pc_KustomizeBin cfg) (pc_CrossplaneBin cfg))) with
      | None => None
      | Some (inr err) => Some (inr ("build IR: " +:+ err), log)
      | Some (inl (world, (expansion, _))) =>
          let '(diags, world) := variant_check cfg world in
          Some (inl (MkVariantResult ref dir world (diags ++ expansion)), log)
      end
  end.
Definition runVariantFromSnapshot (cfg : plan_config) (ref snapPath : string) : VariantResult + string :=
  match load_snapshot ps snapPath with
  | inr err => inr ("loading snapshot " +:+ snapPath +:+ ": " +:+ err)
  | inl snap =>
      let '(diags, world) := variant_check cfg (EnrichTrajectoryData (be_order (ps_build ps)) (ToWorld snap)) in
      let incomplete := match sn_Resources snap, sn_ArgoApps snap, sn_ArgoAppSets snap, sn_ArgoProjects snap with
                        | [], [], [], [] => [snapshot_incomplete snapPath]
                        | _, _, _, _ => []
                        end in
      inl (MkVariantResult ref snapPath world (diags ++ incomplete))
  end.
Definition runVariantFromSource (cfg : plan_config) (ref : string) (src : VariantSource) :
    option ((VariantResult + string) * list string) :=
  if String.eqb (vs_Kind src) "snapshot" then Some (runVariantFromSnapshot cfg ref (vs_Path src), [])
  else if String.eqb (vs_Kind src) "directory" || String.eqb (vs_Kind src) "" then runVariant cfg ref (vs_Path src)
  else Some (inr ("unknown variant source kind " +:+ quote (vs_Kind src) +:+ " for " +:+ ref), []).

(** ** The run *)

(** The result: the plan and the cleanups still to run, or an error, after which the
    run has cleaned up by itself. *)
Definition Run (cfg : plan_config) (t : temp) : option ((Plan * list cleanup + string) * list string * temp) :=
  match resolveVariant (pc_BaseRef cfg) (pc_Path cfg) "base" t with
  | (inr err, t) => Some (inr ("resolve base: " +:+ err), [], t)
  | (inl (baseSrc, c1), t) =>
      let cs := option_list c1 in
      match resolveVariant (pc_HeadRef cfg) (pc_Path cfg) "head" t with
      | (inr err, t) => Some (inr ("resolve head: " +:+ err), [], run_cleanups cs t)
      | (inl (headSrc, c2), t) =>
          let cs := cs ++ option_list c2 in
          match runVariantFromSource cfg (pc_BaseRef cfg) baseSrc with
          | None => None
          | Some (inr err, log) => Some (inr ("check base: " +:+ err), log, run_cleanups cs t)
          | Some (inl baseResult, log) =>
              match runVariantFromSource cfg (pc_HeadRef cfg) headSrc with
              | None => None
              | Some (inr err, log') => Some (inr ("check head: " +:+ err), log ++ log', run_cleanups cs t)
              | Some (inl headResult, log') =>
                  Some (inl (plan_of (be_show (ps_build ps)) baseResult headResult, cs), log ++ log', t)
              end
          end
      end
  end.
End plan_run.

(** ** What a run leaves behind *)

(** The state once the cleanups still to run have run. *)
Definition left_behind (git_remove remove_all : string → bool)
    (r : (Plan * list cleanup + string) * list string * temp) : temp :=
  match r with
  | (inl (_, cs), _, t) => run_cleanups git_remove remove_all cs t
  | (inr _, _, t) => t
  end.

Section leaks.
Context {Obj : Type} `{!KL Obj}.
Context (init_error : string → option string) (check_world : Obj → Obj) (IsError : Obj → bool).
Context {T : Type} `{!Renderers T} (ps : process T).
Context (stat : string → option file_kind) (not_exist : string → bool) (abs : string → string + string)
  (temp_dir : string) (mkdir_all : string → option string)
  (git_add : string → string → string → option string) (git_remove remove_all : string → bool).
#[local] Notation resolve := (resolveVariant stat abs temp_dir mkdir_all git_add git_remove remove_all).
#[local] Notation run := (Run init_error check_world IsError ps stat not_exist abs temp_dir mkdir_all git_add git_remove remove_all).
#[local] Notation cleaned := (run_cleanups git_remove remove_all).

(** The repository around the path of a plan. *)
Definition repository (path root : string) : Prop := ∃ a, abs path = inl a ∧ findRepoRoot stat a = inl root.
(** The worktree git added for a variant, with the directory made for it. *)
Definition added (path ref tag wtDir dir : string) : Prop :=
  ∃ root, repository path root ∧ dir = wt_parent temp_dir root ref tag ∧ wtDir = path_join [dir; tag] ∧
          git_add root wtDir ref = None.
(** The directory of a worktree git refused. *)
Definition refused (path ref tag dir : string) : Prop :=
  ∃ root, repository path root ∧ dir = wt_parent temp_dir root ref tag ∧ is_Some (git_add root (path_join [dir; tag]) ref).
Definition made (cfg : plan_config) (wtDir dir : string) : Prop :=
  added (pc_Path cfg) (pc_BaseRef cfg) "base" wtDir dir ∨ added (pc_Path cfg) (pc_HeadRef cfg) "head" wtDir dir.
Definition refused_one (cfg : plan_config) (dir : string) : Prop :=
  refused (pc_Path cfg) (pc_BaseRef cfg) "base" dir ∨ refused (pc_Path cfg) (pc_HeadRef cfg) "head" dir.

(** What is new in [t'] since [t]: the worktrees and directories of the cleanups [cs],
    and directories of which [P] holds. *)
Definition new_in (cs : list cleanup) (P : string → Prop) (t t' : temp) : Prop :=
  (∀ x, x ∈ tp_trees t' → x ∈ tp_trees t ∨ x ∈ map fst cs) ∧
  (∀ x, x ∈ tp_dirs t' → x ∈ tp_dirs t ∨ x ∈ map snd cs ∨ P x).
Lemma new_in_refl cs P t : new_in cs P t t.
Proof. split; by left. Qed.
Lemma new_in_trans cs1 cs2 (P : string → Prop) t1 t2 t3 : new_in cs1 (λ _, False) t1 t2 → new_in cs2 P t2 t3 → new_in (cs1 ++ cs2) P t1 t3.
Proof.
  intros [A1 A2] [B1 B2]. split; intros x H; rewrite map_app, elem_of_app.
  - destruct (B1 x H) as [H1|]; [destruct (A1 x H1)|]; auto.
  - destruct (B2 x H) as [H1|[|]]; [destruct (A2 x H1) as [|[|[]]]|..]; auto.
Qed.
Lemma drop_tree_new wtDir dir t x : (x ∈ tp_trees (drop_tree git_remove remove_all wtDir dir t) → x ∈ tp_trees t) ∧
  (x ∈ tp_dirs (drop_tree git_remove remove_all wtDir dir t) → x ∈ tp_dirs t).
Proof. unfold drop_tree. cbn [tp_trees tp_dirs]. destruct (git_remove wtDir), (remove_all dir); set_solver. Qed.

(** What resolving a variant leaves, besides what its cleanup takes away. *)
Definition leaves (path ref tag : string) (t : temp) (out : VariantSource * option cleanup + string) (t' : temp) : Prop :=
  match out with
  | inl (_, c) => new_in (option_list c) (λ _, False) t t' ∧ ∀ w d, c = Some (w, d) → added path ref tag w d
  | inr _ => new_in [] (refused path ref tag) t t'
  end.
Lemma add_worktree_leaves path root a ref tag t out t' : repository path root →
  add_worktree stat temp_dir mkdir_all git_add git_remove remove_all root a ref tag t = (out, t') → leaves path ref tag t out t'.
Proof.
  intros Hroot. unfold add_worktree. set (dir := wt_parent temp_dir root ref tag). set (wtDir := path_join [dir; tag]).
  destruct (mkdir_all dir); [intros [= <- <-]; apply new_in_refl|].
  set (t1 := match stat wtDir with Some _ => _ | None => _ end).
  assert (H1 : ∀ x, (x ∈ tp_trees t1 → x ∈ tp_trees t) ∧ (x ∈ tp_dirs t1 → x ∈ tp_dirs t ∨ x = dir)).
  { intros x. subst t1. destruct (stat wtDir).
    - destruct (drop_tree_new wtDir wtDir (MkTemp (tp_dirs t ∪ {[dir]}) (tp_trees t)) x) as [A B].
      split; [exact A|]. intros H%B. cbn in H. set_solver.
    - cbn [tp_trees tp_dirs]. set_solver. }
  destruct (git_add root wtDir ref) eqn:E; intros [= <- <-].
  - split; intros x H; [left; by apply H1|]. destruct (proj2 (H1 x) H) as [| ->]; [by left|]. right; right.
    exists root. split_and!; [done|done|]. fold wtDir. by rewrite E.
  - split.
    + split; intros x H; cbn [tp_trees tp_dirs option_list map fst snd] in *.
      * apply elem_of_union in H as [H| ->%elem_of_singleton]; [left; by apply H1|right; by left].
      * destruct (proj2 (H1 x) H) as [| ->]; [by left|right; left; by left].
    + intros w d [= <- <-]. by exists root.
Qed.
Lemma resolveVariant_leaves ref path tag t out t' : resolve ref path tag t = (out, t') → leaves path ref tag t out t'.
Proof.
  pose proof (new_in_refl [] (refused path ref tag) t) as Hid. unfold resolveVariant. destruct (String.eqb ref ""); [by intros [= <- <-]|].
  assert (Hin : ∀ kind, match abs ref with
      | inr err => (inr ("abs(" +:+ ref +:+ "): " +:+ err), t)
      | inl a => (inl (MkVariantSource kind a, None), t) end = (out, t') → leaves path ref tag t out t').
  { intros kind. destruct (abs ref); intros [= <- <-]; [|done]. split; [apply new_in_refl|done]. }
  assert (Hgit : match abs path with
      | inr err => (inr ("abs(" +:+ path +:+ "): " +:+ err), t)
      | inl absPath => match findRepoRoot stat absPath with
          | inr err => (inr ("find repo root from " +:+ absPath +:+ ": " +:+ err), t)
          | inl root => add_worktree stat temp_dir mkdir_all git_add git_remove remove_all root absPath ref tag t end
      end = (out, t') → leaves path ref tag t out t').
  { destruct (abs path) as [a|] eqn:Ea; [|by intros [= <- <-]]. destruct (findRepoRoot stat a) as [root|] eqn:Er; [|by intros [= <- <-]].
    apply add_worktree_leaves. by exists a. }
  destruct (stat ref) as [[]|]; [destruct (has_suffix ".xpcsnap" ref); [apply Hin|apply Hgit]|apply Hin|apply Hgit..].
Qed.

(** A cleanup that ran took its worktree and its directory away, or the removal failed. *)
Lemma foldl_cleanups (l : list cleanup) t x :
  let t' := foldl (λ t c, run_cleanup git_remove remove_all c t) t l in
  (x ∈ tp_trees t' → x ∈ tp_trees t ∧ (x ∈ map fst l → git_remove x = false)) ∧
  (x ∈ tp_dirs t' → x ∈ tp_dirs t ∧ (x ∈ map snd l → remove_all x = false)).
Proof.
  revert t. induction l as [|[w d] l IH]; intros t; cbn [foldl map fst snd].
  { split; intros H; (split; [done|by intros ?%not_elem_of_nil]). }
  destruct (IH (run_cleanup git_remove remove_all (w, d) t)) as [A B]. unfold run_cleanup, drop_tree in A, B.
  cbn [fst snd tp_trees tp_dirs] in A, B. split; intros H; rewrite elem_of_cons.
  - destruct (A H) as [H1 H2]. destruct (git_remove w) eqn:E.
    + split; [set_solver|]. intros [->|]; [set_solver|auto].
    + split; [done|]. intros [->|]; [done|auto].
  - destruct (B H) as [H1 H2]. destruct (remove_all d) eqn:E.
    + split; [set_solver|]. intros [->|]; [set_solver|auto].
    + split; [done|]. intros [->|]; [done|auto].
Qed.
(** Once the cleanups of all that is new have run. *)
Definition left_over (cfg : plan_config) (P : string → Prop) (t t' : temp) : Prop :=
  (∀ x, x ∈ tp_trees t' → x ∈ tp_trees t ∨ git_remove x = false ∧ ∃ dir, made cfg x dir) ∧
  (∀ x, x ∈ tp_dirs t' → x ∈ tp_dirs t ∨ (remove_all x = false ∧ ∃ wtDir, made cfg wtDir x) ∨ P x).
Lemma run_cleanups_left cfg cs P t t' : new_in cs P t t' → Forall (λ c, made cfg (fst c) (snd c)) cs →
  left_over cfg P t (cleaned cs t').
Proof.
  intros [N1 N2] Hcs. rewrite Forall_forall in Hcs.
  assert (F : ∀ x, (x ∈ tp_trees (cleaned cs t') → x ∈ tp_trees t' ∧ (x ∈ map fst cs → git_remove x = false)) ∧
    (x ∈ tp_dirs (cleaned cs t') → x ∈ tp_dirs t' ∧ (x ∈ map snd cs → remove_all x = false))).
  { intros x. pose proof (foldl_cleanups (rev cs) t' x) as H. cbv zeta in H. by rewrite !map_rev, !elem_of_rev in H. }
  split; intros x H; apply F in H as [H Hf].
  - destruct (N1 x H) as [|Hx]; [by left|right]. split; [auto|]. apply list_elem_of_fmap in Hx as ([w d] & -> & Hc).
    exists d. by apply (Hcs (w, d)).
  - destruct (N2 x H) as [|[Hx|]]; [by left| |by right; right]. right; left. split; [auto|].
    apply list_elem_of_fmap in Hx as ([w d] & -> & Hc). exists w. by apply (Hcs (w, d)).
Qed.
Lemma made_all cfg (c1 c2 : option cleanup) : (∀ w d, c1 = Some (w, d) → added (pc_Path cfg) (pc_BaseRef cfg) "base" w d) →
  (∀ w d, c2 = Some (w, d) → added (pc_Path cfg) (pc_HeadRef cfg) "head" w d) →
  Forall (λ c, made cfg (fst c) (snd c)) (option_list c1 ++ option_list c2).
Proof.
  intros H1 H2. apply Forall_app. split.
  - destruct c1 as [[w d]|]; cbn; [|constructor]. constructor; [left; by apply H1|constructor].
  - destruct c2 as [[w d]|]; cbn; [|constructor]. constructor; [right; by apply H2|constructor].
Qed.

(** C15: A plan that does not panic cleans up after itself, whatever operation fails: once
    its cleanups have run, and after an error they have, a worktree that was not there before is one git added for base
    or head and then failed to remove; and a directory that was not there before is one
    of such a worktree that could not be removed or, after an error, the one made for
    a worktree git then refused to add, which no cleanup takes away. *)
Theorem Run_leaves_nothing cfg t r : run cfg t = Some r →
  let t' := left_behind git_remove remove_all r in
  (∀ x, x ∈ tp_trees t' → x ∈ tp_trees t ∨ git_remove x = false ∧ ∃ dir, made cfg x dir) ∧
  (∀ x, x ∈ tp_dirs t' → x ∈ tp_dirs t ∨ (remove_all x = false ∧ ∃ wtDir, made cfg wtDir x) ∨
     (∃ err, fst (fst r) = inr err) ∧ refused_one cfg x).
Proof.
  unfold Run. destruct (resolve (pc_BaseRef cfg) _ _ t) as [[[baseSrc c1]|err] t1] eqn:E1; apply resolveVariant_leaves in E1.
  2: { intros [= <-]. destruct E1 as [H1 H2]. split; intros x H.
       - destruct (H1 x H) as [|?%not_elem_of_nil]; [by left|done].
       - destruct (H2 x H) as [|[?%not_elem_of_nil|Hr]]; [by left|done|]. right; right. split; [by eexists|by left]. }
  destruct E1 as [N1 A1].
  destruct (resolve (pc_HeadRef cfg) _ _ t1) as [[[headSrc c2]|err] t2] eqn:E2; apply resolveVariant_leaves in E2.
  2: { intros [= <-]. pose proof (new_in_trans _ _ _ _ _ _ N1 E2) as N. rewrite app_nil_r in N.
       apply (run_cleanups_left cfg) in N as [L1 L2]; [|by rewrite <- (app_nil_r (option_list c1)); apply (made_all cfg c1 None)].
       split; [exact L1|]. intros x H. destruct (L2 x H) as [|[|Hr]]; [by left|by right; left|].
       right; right. split; [by eexists|by right]. }
  destruct E2 as [N2 A2]. pose proof (new_in_trans _ _ _ _ _ _ N1 N2) as N.
  apply (run_cleanups_left cfg) in N as [L1 L2]; [|by apply made_all]. intros Hr.
  assert (Hl : left_behind git_remove remove_all r = cleaned (option_list c1 ++ option_list c2) t2).
  { destruct (runVariantFromSource _ _ _ _ _ _ (pc_BaseRef cfg) _) as [[[br|err] log]|]; [|by injection Hr as <-|done].
    destruct (runVariantFromSource _ _ _ _ _ _ (pc_HeadRef cfg) _) as [[[hr|err] log']|]; [by injection Hr as <-..|done]. }
  rewrite Hl. split; [exact L1|]. intros x H. destruct (L2 x H) as [|[|[]]]; [by left|by right; left].
Qed.
End leaks.

(** ** A variant taken from a snapshot *)

Section snapshot_variant.
Context {Obj : Type} `{!KL Obj}.
Context (init_error : string → option string) (check_world : Obj → Obj) (IsError : Obj → bool).
Context {T : Type} (ps : process T).
(** The configuration a plan was given does not reach it, and the kernel is given a
    World whose resources were never validated against their schemas. *)
Lemma snapshot_ignores_config cfg c ref path :
  runVariantFromSnapshot init_error check_world IsError ps {| cfg with pc_ConfigOverride := c |} ref path =
  runVariantFromSnapshot init_error check_world IsError ps cfg ref path.
Proof. reflexivity. Qed.
Lemma snapshot_not_validated order snap : w_ResourceFieldFacts (EnrichTrajectoryData order (ToWorld snap)) = [].
Proof. rewrite EnrichTrajectoryData_refs, registry_joins_eq. reflexivity. Qed.
End snapshot_variant.

(** ** A repository *)

#[local] Existing Instance no_renderers.
Definition repo_stat (p : string) : option file_kind := if String.eqb p "/repo/.git" then Some DirectoryFile else None.
Definition repo_abs (p : string) : string + string := inl (path_join ["/repo"; p]).
(** git knows every ref but one. *)
Definition repo_git (_ _ ref : string) : option string := if String.eqb ref "gone" then Some "invalid reference" else None.
Definition plan_between (base head : string) : plan_config := {|
  pc_BaseRef := base; pc_HeadRef := head; pc_Path := "deploy"; pc_KernelPath := ""; pc_SkipRender := true; pc_HelmBin := "";
  pc_HelmCacheDir := ""; pc_KustomizeBin := ""; pc_CrossplaneBin := ""; pc_SkipAppSetExpand := false;
  pc_SSAMPMode := "observe"; pc_AppSetFixtures := None; pc_ConfigOverride := None |}.
#[local] Notation demo_run base head :=
  (Run (λ _, None) demo_kernel (λ _, false) demo_process repo_stat (λ _, false) repo_abs "/tmp" (λ _, None) repo_git
     (λ _, true) (λ _, true) (plan_between base head) (MkTemp ∅ ∅)).
Definition ends (r : option ((Plan * list (string * string) + string) * list string * temp)) : option (bool * nat * nat * nat) :=
  (λ r : (Plan * list (string * string) + string) * list string * temp,
     (match fst (fst r) with inl _ => true | inr _ => false end, size (tp_trees (snd r)),
      size (tp_trees (left_behind (λ _, true) (λ _, true) r)), size (tp_dirs (left_behind (λ _, true) (λ _, true) r)))) <$> r.
(** Two worktrees while the plan is shown and none after; a ref git does not know
    leaves the directory made for it. *)
Example plan_trees : ends (demo_run "main" "HEAD") = Some (true, 2, 0, 0) ∧ ends (demo_run "main" "gone") = Some (false, 0, 0, 1).
Proof. vm_compute. done. Qed.
Lemma ends_inv r x : ends r = Some x → ∃ r', r = Some r'.
Proof. destruct r as [r|]; [by eexists|done]. Qed.
Lemma Run_leaves_nothing_witness : ∃ r, demo_run "main" "HEAD" = Some r ∧
  ∀ x, x ∉ tp_trees (left_behind (λ _, true) (λ _, true) r).
Proof.
  destruct (ends_inv _ _ (proj1 plan_trees)) as [r Hr]. exists r. split; [exact Hr|]. intros x Hx.
  destruct (proj1 (Run_leaves_nothing (λ _, None) demo_kernel (λ _, false) demo_process repo_stat (λ _, false) repo_abs "/tmp" (λ _, None)
    repo_git (λ _, true) (λ _, true) (plan_between "main" "HEAD") (MkTemp ∅ ∅) r Hr) x Hx) as [H|[H _]]; [|discriminate].
  exact (not_elem_of_empty x H).
Defined.
