(* ===== verification/PlanCommand.v ===== *)
(** `xpc plan` (src/cmd/xpc/main.go, runPlan): the flags, the run, the three outputs
    (src/pkg/plan/output.go) as the texts they print, the comment posted on a merge
    request (comment.go), and the exit code.

    What the comment tool answers is a parameter; the rest of the surroundings is that
    of PlanRun.v. *)
From Stdlib Require Import ZArith.
From S2P Require Import Prelude GoStrings Paths Yaml Types Registries Config PathWalk Plan AppSet Kl Encode Checker Documents Loader Tools Build Json Wire Report Shell RunCheck PlanRun.

#[local] Open Scope string_scope.
#[local] Open Scope list_scope.

(** ** The outputs *)

#[export] Instance wire_jsonChange : Wire jsonChange := struct (λ p x, [
  field p "code" (jc_Code x); field p "message" (jc_Message x); field p "apiVersion" (jc_APIVersion x);
  field p "kind" (jc_Kind x); omitempty p "namespace" (jc_Namespace x); field p "name" (jc_Name x);
  omitempty p "app" (jc_App x); omitempty p "reason" (jc_Reason x); field p "source" (jc_Source x)]).
Definition jsonVariant_json (ref : string) : json := JObj [("ref", JString ref)].
Definition jsonDeltaCounts_json (d : nat * nat * nat) : json :=
  let '(a, r, m) := d in
  JObj [("added", JText (itoa (Z.of_nat a))); ("removed", JText (itoa (Z.of_nat r))); ("modified", JText (itoa (Z.of_nat m)))].
Definition jsonDiagSides_json (p : printers) (d : list Diagnostic * list Diagnostic) : option json :=
  members [field p "base" (fst d); field p "head" (snd d)].
Definition jsonPlan_json (p : printers) (x : jsonPlan) : option json := members [
  Some [("base", jsonVariant_json (jp_Base x))]; Some [("head", jsonVariant_json (jp_Head x))];
  Some [("delta", jsonDeltaCounts_json (jp_Delta x))]; omitempty p "destructive" (jp_Destructive x);
  (λ j, [("diagnostics", j)]) <$> jsonDiagSides_json p (jp_Diagnostics x)].
Definition write_json (p : Plan) : string + string := encoded (jsonPlan_json no_values (WriteJSON p)).
Definition WriteSARIF (p : Plan) : string + string := reportSARIF (filterPlanDiagnostics (pl_Diagnostics p) "XPC.P.").

Definition destructive_item (d : Diagnostic) : string :=
  line ("- " +:+ dg_Message d) +:+
  (if String.eqb (dg_Detail d) "" then "" else line ("  - " +:+ dg_Detail d)) +:+
  (if String.eqb (dg_Fix d) "" then "" else line ("  - **Fix:** " +:+ dg_Fix d)).
Definition nat_text (n : nat) : string := itoa (Z.of_nat n).
Definition tip_line (side ref : string) (diags : list Diagnostic) : string :=
  let '(e, w, i) := countBySeverity diags in
  line ("- " +:+ side +:+ " (" +:+ ref +:+ "): " +:+ nat_text e +:+ " errors, " +:+ nat_text w +:+ " warnings, " +:+ nat_text i +:+ " info").
Definition WriteMarkdown (p : Plan) : string :=
  let destructive := filterPlanDiagnostics (pl_Diagnostics p) "XPC.P." in
  let d := pl_Delta p in
  line ("## xpc plan: " +:+ vr_Ref (pl_Base p) +:+ " → " +:+ vr_Ref (pl_Head p)) +:+ nl +:+
  (match destructive with
   | [] => ""
   | _ => line ("### ⚠ Destructive changes (" +:+ nat_text (length destructive) +:+ ")") +:+ nl +:+
          join "" (map destructive_item destructive) +:+ nl
   end) +:+
  line "### Resource changes" +:+ nl +:+
  line ("- Added: " +:+ nat_text (length (rd_Added d))) +:+
  line ("- Modified: " +:+ nat_text (length (rd_Modified d))) +:+
  line ("- Removed: " +:+ nat_text (length (rd_Removed d))) +:+ nl +:+
  line "### Per-tip diagnostics" +:+ nl +:+
  tip_line "base" (vr_Ref (pl_Base p)) (vr_Diagnostics (pl_Base p)) +:+
  tip_line "head" (vr_Ref (pl_Head p)) (vr_Diagnostics (pl_Head p)).

(** ** The comment *)

Definition tailStderr (s : string) : string :=
  let tail := if Nat.ltb 512 (String.length s) then str_drop (String.length s - 512) s else s in
  trim_left_of [nl; bytes [13]%N] (String.length tail) tail.
Definition DescribeTarget (t : CommentTarget) : string :=
  if String.eqb (ct_VCS t) "gitlab" then "gitlab MR " +:+ ct_Project t +:+ "!" +:+ itoa (ct_MRorPR t)
  else if String.eqb (ct_VCS t) "github" then "github PR " +:+ ct_Project t +:+ "#" +:+ itoa (ct_MRorPR t)
  else ct_VCS t +:+ " " +:+ ct_Project t +:+ "/" +:+ itoa (ct_MRorPR t).

Section plan_command.
Context {Obj : Type} `{!KL Obj}.
Context (init_error : string → option string) (check_world : Obj → Obj) (IsError : Obj → bool).
Context {T : Type} `{!Renderers T} (ps : process T).
Context (stat : string → option file_kind) (not_exist : string → bool) (abs : string → string + string)
  (temp_dir : string) (mkdir_all : string → option string)
  (git_add : string → string → string → option string) (git_remove remove_all : string → bool).
(** [post_run]: the tool with its arguments and its input; why it failed, and what it
    wrote to stderr. *)
Context (look_path : string → string + string) (post_run : string → list string → string → option (string * string))
  (comment_error : CommentError → string).

Definition post_with (bin what : string) (args : list string) (body : string) : option string :=
  match look_path bin with
  | inr err => Some ("plan: required CLI not on PATH: " +:+ bin +:+ ": " +:+ err)
  | inl path => match post_run path args body with
                | None => None
                | Some (err, stderr) => Some ("plan: post-comment subprocess failed: " +:+ what +:+ ": " +:+ err +:+ ": " +:+ tailStderr stderr)
                end
  end.
(** [PostComment]: why it failed. *)
Definition PostComment (t : CommentTarget) (body : string) : option string :=
  let n := itoa (ct_MRorPR t) in
  if String.eqb (ct_VCS t) "gitlab" then
    post_with "glab" "glab mr note" ["mr"; "note"; n; "--repo=" +:+ ct_Project t; "--message-file=-"] body
  else if String.eqb (ct_VCS t) "github" then
    post_with "gh" "gh pr comment" ["pr"; "comment"; n; "--repo=" +:+ ct_Project t; "--body-file=-"] body
  else Some ("plan: invalid --post-comment spec: unknown VCS " +:+ quote (ct_VCS t)).

(** ** The flags *)

Inductive plan_format : Type := FormatJSON | FormatMarkdown | FormatSARIF.
Record plan_options : Type := MkPlanOptions {
  po_baseRef : string; po_headRef : string; po_format : plan_format; po_skipRender : bool; po_enableRender : bool;
  po_helmBin : string; po_helmCacheDir : string; po_kustomizeBin : string; po_crossplaneBin : string;
  po_appsetFixturePath : string; po_skipAppSetExpand : bool; po_ssaMPMode : string; po_kernelPath : string;
  po_configPath : string; po_strictConversions : bool; po_postCommentSpec : string; po_dryRun : bool;
  po_postCommentRequired : bool; po_paths : list string }.
Definition default_plan : plan_options := {|
  po_baseRef := ""; po_headRef := "HEAD"; po_format := FormatMarkdown; po_skipRender := true; po_enableRender := false;
  po_helmBin := ""; po_helmCacheDir := ""; po_kustomizeBin := ""; po_crossplaneBin := ""; po_appsetFixturePath := "";
  po_skipAppSetExpand := false; po_ssaMPMode := "observe"; po_kernelPath := ps_getenv ps "XPC_KERNEL_PATH";
  po_configPath := ps_getenv ps "XPC_CONFIG_PATH"; po_strictConversions := false; po_postCommentSpec := "";
  po_dryRun := false; po_postCommentRequired := false; po_paths := [] |}.
Definition set_format (v : string) (o : plan_options) : command plan_options :=
  if String.eqb v "json" then mret {| o with po_format := FormatJSON |}
  else if String.eqb v "markdown" || String.eqb v "md" then mret {| o with po_format := FormatMarkdown |}
  else if String.eqb v "sarif" then mret {| o with po_format := FormatSARIF |}
  else fail ("unknown --format=" +:+ v +:+ " (want json, markdown, or sarif)").
Definition set_mode (v : string) (o : plan_options) : command plan_options :=
  if contains_string ["observe"; "partial"; "any"] v then mret {| o with po_ssaMPMode := v |}
  else fail ("invalid --ssa-mp-mode=" +:+ v).
Definition plan_flags : list (flag plan_options) := [
  Value "--base=" false (λ v o, mret {| o with po_baseRef := v |});
  Value "--head=" false (λ v o, mret {| o with po_headRef := v |});
  Value "--format=" false set_format;
  Switch "--render" (λ o, {| o with po_enableRender := true |});
  Switch "--skip-render" (λ o, {| o with po_skipRender := true |});
  Value "--helm-bin=" false (λ v o, mret {| o with po_helmBin := v |});
  Value "--helm-cache-dir=" false (λ v o, mret {| o with po_helmCacheDir := v |});
  Value "--kustomize-bin=" false (λ v o, mret {| o with po_kustomizeBin := v |});
  Value "--crossplane-bin=" false (λ v o, mret {| o with po_crossplaneBin := v |});
  Value "--appset-fixture=" false (λ v o, mret {| o with po_appsetFixturePath := v |});
  Switch "--skip-appset-expand" (λ o, {| o with po_skipAppSetExpand := true |});
  Value "--ssa-mp-mode=" false set_mode;
  Value "--kernel-path=" false (λ v o, mret {| o with po_kernelPath := v |});
  Value "--config=" false (λ v o, mret {| o with po_configPath := v |});
  Switch "--strict-conversions" (λ o, {| o with po_strictConversions := true |});
  Value "--post-comment=" false (λ v o, mret {| o with po_postCommentSpec := v |});
  Switch "--dry-run" (λ o, {| o with po_dryRun := true |});
  Switch "--post-comment-required" (λ o, {| o with po_postCommentRequired := true |}) ].
Definition add_plan_path (arg : string) (o : plan_options) : command plan_options :=
  mret {| o with po_paths := po_paths o ++ [arg] |}.

(** ** The command *)

(** Everything before the run: the target of the comment, and the configuration. *)
Definition comment_target (o : plan_options) : command CommentTarget :=
  if String.eqb (po_postCommentSpec o) "" then mret (MkCommentTarget "" "" 0)
  else match ParseCommentSpec (ps_getenv ps) (po_postCommentSpec o) with
       | inl err => fail ("error: --post-comment: " +:+ comment_error err)
       | inr t => mret t
       end.
Definition explicit_config (o : plan_options) : command (option Config) :=
  if String.eqb (po_configPath o) "" then mret None
  else match ps_load_config ps (po_configPath o) with
       | None => fail ("error loading xpc.yaml: " +:+ ps_config_error ps (po_configPath o))
       | Some c => mret (Some c)
       end.
Definition plan_fixtures (o : plan_options) : command (option (gmap string (list (gmap string string)))) :=
  if String.eqb (po_appsetFixturePath o) "" then mret None
  else fixtures ← or_fail (λ err, "error loading --appset-fixture=" +:+ po_appsetFixturePath o +:+ ": " +:+ err)
                    (loadAppSetFixtures ps (po_appsetFixturePath o));
       mret (Some fixtures).
Definition prepare (args : list string) : command (plan_options * CommentTarget * plan_config) :=
  o ← parse_args plan_flags (print_usage ps) add_plan_path args default_plan;
  target ← comment_target o;
  if String.eqb (po_baseRef o) "" then fail "error: --base is required"
  else match (match po_paths o with [] => ["."] | paths => paths end) with
  | [path] =>
      explicit ← explicit_config o;
      fixtures ← plan_fixtures o;
      mret (o, target, {|
        pc_BaseRef := po_baseRef o; pc_HeadRef := po_headRef o; pc_Path := path; pc_KernelPath := po_kernelPath o;
        pc_SkipRender := if po_enableRender o then false else po_skipRender o; pc_HelmBin := po_helmBin o;
        pc_HelmCacheDir := po_helmCacheDir o; pc_KustomizeBin := po_kustomizeBin o; pc_CrossplaneBin := po_crossplaneBin o;
        pc_SkipAppSetExpand := po_skipAppSetExpand o; pc_SSAMPMode := po_ssaMPMode o; pc_AppSetFixtures := fixtures;
        pc_ConfigOverride := explicit |})
  | _ => fail "error: xpc plan accepts at most one path"
  end.
Definition plan_text (format : plan_format) (p : Plan) : string + string :=
  match format with
  | FormatJSON => match write_json p with inl text => inl text | inr err => inr ("write json: " +:+ err) end
  | FormatMarkdown => inl (WriteMarkdown p)
  | FormatSARIF => match WriteSARIF p with inl text => inl text | inr err => inr ("write sarif: " +:+ err) end
  end.
Definition post_comment (o : plan_options) (target : CommentTarget) (body : string) : command unit :=
  if String.eqb (po_postCommentSpec o) "" then mret tt
  else if po_dryRun o then
    eprintln ("would post " +:+ nat_text (String.length body) +:+ " bytes to " +:+ DescribeTarget target)
  else match PostComment target body with
       | Some err => eprintln ("post-comment failed: " +:+ err);; if po_postCommentRequired o then exit_with 1 else mret tt
       | None => eprintln ("posted comment to " +:+ DescribeTarget target)
       end.
Definition destructive_error (d : Diagnostic) : bool :=
  has_prefix "XPC.P." (dg_Code d) && match dg_Severity d with SeverityError => true | _ => false end.
Definition plan_output (o : plan_options) (target : CommentTarget) (p : Plan) : command Z :=
  text ← or_fail (λ err, err) (plan_text (po_format o) p);
  print text;;
  post_comment o target text;;
  mret (if existsb destructive_error (pl_Diagnostics p) then 1%Z else 0%Z).
(** The exit code, with what is left outside the process: the cleanup is deferred. *)
Definition runPlan (args : list string) (t : temp) (s : io) : option (io * Z * temp) :=
  match prepare args s with
  | None => None
  | Some (s, inr code) => Some (s, code, t)
  | Some (s, inl (o, target, cfg)) =>
      match Run init_error check_world IsError ps stat not_exist abs temp_dir mkdir_all git_add git_remove remove_all cfg t with
      | None => None
      | Some (r, log, t) =>
          let s := {| s with io_err := io_err s +:+ unlines log |} in
          let out := match r with inl (p, _) => plan_output o target p | inr err => fail ("plan failed: " +:+ err) end in
          match status out s with
          | None => None
          | Some (s, code) => Some (s, code, left_behind git_remove remove_all (r, log, t))
          end
      end
  end.

(** ** What the exit code tells *)

Lemma silent_prepare args : silent true (prepare args).
Proof.
  unfold prepare. apply silent_bind.
  - apply silent_parse_args.
    + repeat (apply Forall_cons; split; [intros arg o; cbn [set_flag]; unfold set_format, set_mode; silence|]). constructor.
    + unfold print_usage. auto with shell.
    + intros arg o. apply silent_ret.
  - intros o. unfold comment_target, explicit_config, plan_fixtures. silence.
Qed.
Lemma silent_post o target body : silent false (post_comment o target body).
Proof. unfold post_comment. silence. Qed.
#[local] Notation resolve := (resolveVariant stat abs temp_dir mkdir_all git_add git_remove remove_all).
#[local] Notation run := (Run init_error check_world IsError ps stat not_exist abs temp_dir mkdir_all git_add git_remove remove_all).
#[local] Notation variant := (runVariantFromSource init_error check_world IsError ps not_exist).
(** [base] and [head] are what the two refs of a plan are checked as. *)
Definition variants (cfg : plan_config) (t : temp) (base head : VariantResult) : Prop :=
  ∃ baseSrc c1 t1 log1 headSrc c2 t2 log2,
    resolve (pc_BaseRef cfg) (pc_Path cfg) "base" t = (inl (baseSrc, c1), t1) ∧
    resolve (pc_HeadRef cfg) (pc_Path cfg) "head" t1 = (inl (headSrc, c2), t2) ∧
    variant cfg (pc_BaseRef cfg) baseSrc = Some (inl base, log1) ∧ variant cfg (pc_HeadRef cfg) headSrc = Some (inl head, log2).
Lemma Run_plan cfg t p cs log t' : run cfg t = Some (inl (p, cs), log, t') →
  p = plan_of (be_show (ps_build ps)) (pl_Base p) (pl_Head p) ∧ variants cfg t (pl_Base p) (pl_Head p).
Proof.
  unfold Run, variants. destruct (resolve (pc_BaseRef cfg) _ _ t) as [[[baseSrc c1]|err] t1]; [|done].
  destruct (resolve (pc_HeadRef cfg) _ _ t1) as [[[headSrc c2]|err] t2] eqn:E2; [|done].
  destruct (variant cfg (pc_BaseRef cfg) baseSrc) as [[[br|err] l1]|] eqn:Eb; [|done..].
  destruct (variant cfg (pc_HeadRef cfg) headSrc) as [[[hr|err] l2]|] eqn:Eh; [|done..].
  intros Heq. assert (E : plan_of (be_show (ps_build ps)) br hr = p) by congruence. rewrite <- E. split; [reflexivity|].
  exists baseSrc, c1, t1, l1, headSrc, c2, t2, l2. split_and!; [reflexivity|exact E2|exact Eb|exact Eh].
Qed.
Lemma plan_output_code o target p s s' code : status (plan_output o target p) s = Some (s', code) →
  (code = 0%Z ∨ code = 1%Z) ∧
  (code = 0%Z → ∃ text, plan_text (po_format o) p = inl text ∧ io_out s' = io_out s +:+ text ∧
    existsb destructive_error (pl_Diagnostics p) = false).
Proof.
  unfold status. destruct (plan_output o target p s) as [[s0 r0]|] eqn:H; [|done].
  unfold plan_output in H. apply bind_Some in H as [(s1 & text & H1 & H)|(c & H & ->)].
  2: { apply (silent_or_fail false) in H as [_ [->|[? _]]]; [|done]. intros [= <- <-]. split; [by right|done]. }
  apply or_fail_Some in H1 as [(? & Ht & -> & [= <-])|(err & _ & [= ])].
  apply bind_Some in H as [(s2 & u & [= <- <-] & H)|(c & [= ] & _)].
  apply bind_Some in H as [(s3 & u3 & H3 & H)|(c & H & ->)].
  2: { apply silent_post in H as [_ [->|[? _]]]; [|done]. intros [= <- <-]. split; [by right|done]. }
  apply silent_post in H3 as [E3 _]. apply ret_Some in H as [-> ->]. intros [= <- <-].
  split; [destruct (existsb _ _); auto|]. intros Hc. exists text. rewrite E3. split; [done|]. split; [done|].
  by destruct (existsb destructive_error (pl_Diagnostics p)).
Qed.
Lemma no_plan_errors p : p = plan_of (be_show (ps_build ps)) (pl_Base p) (pl_Head p) →
  existsb destructive_error (pl_Diagnostics p) = false → pl_Diagnostics p = [].
Proof.
  intros E H. pose proof (plan_errors (be_show (ps_build ps)) (pl_Base p) (pl_Head p)) as He. rewrite <- E in He.
  destruct (pl_Diagnostics p) as [|d l]; [done|]. inversion_clear He as [|? ? [Hp Hs] _]. cbn [existsb] in H.
  unfold destructive_error in H. by rewrite Hp, Hs in H.
Qed.

(** C2: The gate on a merge request: `xpc plan` exits with 0 or 1, and with 0, unless help
    was asked for, only when the run its options ask for gave a plan of the two refs,
    each resolved and checked on its own, the plan was printed in the format asked for,
    and nothing between the two Worlds is destructive: every resource of base that head
    does not have opts out or is not one whose deletion destroys state, and no immutable
    field of a resource they share changed, but for those head opts out of; each judged
    with the knobs of base. *)
Theorem runPlan_passes args t s s' code t' : runPlan args t s = Some (s', code, t') →
  (code = 0%Z ∨ code = 1%Z) ∧
  (code = 0%Z → prepare args s = Some (s', inr 0%Z) ∨
    ∃ s1 o target cfg p cs log t1 text, prepare args s = Some (s1, inl (o, target, cfg)) ∧
      run cfg t = Some (inl (p, cs), log, t1) ∧ variants cfg t (pl_Base p) (pl_Head p) ∧
      t' = run_cleanups git_remove remove_all cs t1 ∧
      plan_text (po_format o) p = inl text ∧ io_out s' = io_out s +:+ text ∧ pl_Diagnostics p = [] ∧
      let base := vr_World (pl_Base p) in
      let head := vr_World (pl_Head p) in
      (plain_groups (default StateBearingKindsRegistry (w_StateBearingKinds base)) →
       ∀ i b, indexAll base !! i = Some b → indexAll head !! i = None →
         bypassed (w_BypassKeys base) BypassAllowDelete (ir_Raw b) ∨
         ∀ d, ¬ destructive (w_BypassKeys base) (default StateBearingKindsRegistry (w_StateBearingKinds base)) i b d) ∧
      ∀ i b h entry bv hv, indexAll base !! i = Some b → indexAll head !! i = Some h →
        ¬ bypassed (r27_keys (w_BypassKeys base)) BypassAllowImmutableChange (ir_Raw h) →
        entry ∈ r27_registry (w_ImmutableFields base) →
        im_Group entry = groupFromAPIVersion (id_APIVersion i) → im_Kind entry = id_Kind i →
        ReadPath (ir_Raw b) (im_FieldPath entry) = Some bv → ReadPath (ir_Raw h) (im_FieldPath entry) = Some hv →
        deep_equal bv hv = true).
Proof.
  unfold runPlan. destruct (prepare args s) as [[s1 [[[o target] cfg]|c]]|] eqn:Hp; [| |done].
  2: { intros [= <- <- <-]. apply silent_prepare in Hp as [_ [->|[_ ->]]]; (split; [auto|by auto]). }
  pose proof (silent_prepare _ _ _ _ Hp) as [E1 _].
  destruct (run cfg t) as [[[[[p cs]|err] log] t1]|] eqn:Hr; [| |done].
  2: { unfold status. cbn. intros [= <- <- <-]. split; [by right|done]. }
  destruct (status _ _) as [[s2 c]|] eqn:Hs; [|done]. intros [= <- <- <-].
  apply plan_output_code in Hs as [Hc H0]. split; [exact Hc|]. intros ->. right.
  destruct (H0 eq_refl) as (text & Ht & Eo & Hd). cbn [io_out] in Eo. destruct (Run_plan _ _ _ _ _ _ Hr) as [Hplan Hvar].
  pose proof (no_plan_errors p Hplan Hd) as Hnil. exists s1, o, target, cfg, p, cs, log, t1, text.
  split; [done|]. split; [exact Hr|]. split; [exact Hvar|]. split; [done|]. split; [exact Ht|]. split; [by rewrite Eo, E1|]. split; [exact Hnil|]. cbv zeta.
  assert (Hn : ∀ d, d ∉ pl_Diagnostics p) by (rewrite Hnil; intros d; apply not_elem_of_nil).
  rewrite Hplan in Hn. unfold plan_of in Hn. cbn [pl_Diagnostics pl_Base pl_Head] in Hn. split.
  - intros Hg i b Hb Hh. destruct (decide (hasBypassAnnotation (ir_Raw b) (w_BypassKeys (vr_World (pl_Base p))) = true)) as [Hy|Hy].
    + left. by apply hasBypass_spec.
    + right. intros d Hdes. apply (Hn d), elem_of_app. left. apply elem_of_R26; [exact Hg|]. exists i, b.
      split_and!; [done|done|by rewrite <- hasBypass_spec|done].
  - intros i b h entry bv hv Hb Hh Hby Hent Hgr Hk Hbv Hhv. destruct (deep_equal bv hv) eqn:Hde; [done|]. exfalso.
    eapply Hn, elem_of_app. right. apply elem_of_R27. exists i, b, h, entry, bv, hv. split_and!; done.
Qed.
End plan_command.

(** ** Two directories and a snapshot that is not one *)

#[local] Existing Instance no_renderers.
Definition bucket_doc (policy : string) : LoadedDocument :=
  MkLoadedDocument (MkSourceLocation "a.yaml" 3 1) "s3.aws.upbound.io/v1beta1" "Bucket" (Some [
    ("metadata", VMap [("name", VStr "logs")]); ("spec", VMap [("deletionPolicy", VStr policy)])]).
(** One directory with a bucket, one with the same bucket orphaned, one empty. *)
Definition dirs_process : process unit := {| demo_process with ps_load_directory := λ d,
  if String.eqb d "/full" then inl [bucket_doc "Delete"]
  else if String.eqb d "/orphan" then inl [bucket_doc "Orphan"] else inl [] |}.
Definition dirs_stat (p : string) : option file_kind :=
  if contains_string ["/full"; "/orphan"; "/empty"] p then Some DirectoryFile else None.
#[local] Notation demo_plan args :=
  (runPlan (λ _, None) demo_kernel (λ _, false) dirs_process dirs_stat (λ _, false) inl "/tmp" (λ _, None) repo_git
     (λ _, true) (λ _, true) (λ _, inr "not found") (λ _ _ _, None) (λ _, "") args (MkTemp ∅ ∅) no_io).
Definition plan_code (r : option (io * Z * temp)) : option Z := (λ r : io * Z * temp, snd (fst r)) <$> r.
Example plan_codes : map (λ args, plan_code (demo_plan args)) [
    ["--base=/full"; "--head=/empty"]; ["--base=/empty"; "--head=/full"]; ["--base=/orphan"; "--head=/empty"];
    ["--base=/full"; "--head=/full"; "--format=json"]; ["--head=/full"]; ["--base=/full"; "a"; "b"]; ["--help"];
    ["--base=/empty"; "--post-comment=github://o/r/pull/1"; "--head=/full"];
    ["--base=/empty"; "--post-comment=github://o/r/pull/1"; "--post-comment-required"; "--head=/full"]] =
  map Some [1; 0; 0; 0; 1; 1; 0; 0; 1]%Z.
Proof. vm_compute. reflexivity. Qed.
Lemma plan_code_inv r code : plan_code r = Some code → ∃ s t, r = Some (s, code, t).
Proof. destruct r as [[[s c] t]|]; [|done]. intros [= ->]. by exists s, t. Qed.
Lemma orphan_code : plan_code (demo_plan ["--base=/orphan"; "--head=/empty"]) = Some 0%Z.
Proof. vm_compute. reflexivity. Qed.
Lemma runPlan_passes_witness : ∃ s t, demo_plan ["--base=/orphan"; "--head=/empty"] = Some (s, 0%Z, t) ∧
  ∃ s1 o target cfg p, prepare dirs_process (λ _, "") ["--base=/orphan"; "--head=/empty"] no_io = Some (s1, inl (o, target, cfg)) ∧
    plan_text (po_format o) p = inl (io_out s) ∧ pl_Diagnostics p = [].
Proof.
  destruct (plan_code_inv _ _ orphan_code) as (s & t & E). exists s, t. split; [exact E|].
  destruct (runPlan_passes (λ _, None) demo_kernel (λ _, false) dirs_process dirs_stat (λ _, false) inl "/tmp" (λ _, None)
    repo_git (λ _, true) (λ _, true) (λ _, inr "not found") (λ _ _ _, None) (λ _, "") ["--base=/orphan"; "--head=/empty"]
    (MkTemp ∅ ∅) no_io s 0%Z t E) as [_ H].
  destruct (H eq_refl) as [Hh|(s1 & o & target & cfg & p & cs & log & t1 & text & Hp & _ & _ & _ & Ht & Eo & Hd & _)]; [discriminate Hh|].
  exists s1, o, target, cfg, p. split; [exact Hp|]. split; [|exact Hd]. rewrite Eo. exact Ht.
Defined.
