(* ===== verification/Ruleset.v ===== *)
(** The digest of the rules (src/pkg/audit/proof.go, from ComputeEmbeddedRulesetDigest
    on): the files it covers, of the binary or of a kernel directory, how that directory
    is found, and that the two digests are the same for the same rules.

    The embedded file system and the operating system's are records of parameters; on
    Unix [filepath.ToSlash] is the identity, and [filepath.Rel] does not fail on
    absolute paths. *)
From Stdlib Require Import ZArith.
From S2P Require Import Prelude GoStrings Paths AuditLog Loader.

#[local] Open Scope string_scope.
#[local] Open Scope list_scope.

(** ** The file systems *)

(** [em_entries]: fs.ReadDir, names and whether they are directories. *)
Record embedded : Type := MkEmbedded {
  em_entries : list (string * bool) + string; em_read : string → option string }.
(** [dk_stat]: whether a path that exists is a directory; [dk_walk]: the paths that
    filepath.WalkDir visits, and whether they are directories. *)
Record disk : Type := MkDisk {
  dk_abs : string → string + string; dk_cwd : string + string; dk_stat : string → option bool;
  dk_executable : option string; dk_symlinks : string → option string;
  dk_walk : string → list (string * bool) + string; dk_read : string → string + string }.

(** ** The parts *)

Definition shen_files (entries : list (string * bool)) : list string :=
  sort_strings (omap (λ e : string * bool, if snd e || negb (String.eqb (path_ext (fst e)) ".shen") then None else Some (fst e)) entries).
(** The files in order, up to the first that cannot be read. *)
Fixpoint read_parts (rel : string → string) (read : string → string + string) (files : list string) : list (string * string) + string :=
  match files with
  | [] => inl []
  | f :: files =>
      match read f with
      | inr err => inr err
      | inl data => match read_parts rel read files with inl parts => inl ((rel f, data) :: parts) | inr err => inr err end
      end
  end.
Definition parts_digest (parts : list (string * string) + string) : string + string :=
  match parts with inl parts => inl (computeRulesetDigestFromParts parts) | inr err => inr err end.

Definition embedded_parts (em : embedded) : list (string * string) + string :=
  match em_entries em with
  | inr err => inr ("read embedded kernel: " +:+ err)
  | inl entries =>
      match shen_files entries with
      | [] => inr "no .shen files found in embedded kernel"
      | names => read_parts (λ n, n)
          (λ n, match em_read em n with Some data => inl data | None => inr ("read embedded kernel file " +:+ n) end) names
      end
  end.
Definition ComputeEmbeddedRulesetDigest (em : embedded) : string + string := parts_digest (embedded_parts em).

Section on_disk.
Context (dk : disk).

Definition searchKernelUpward (start : string) : option string :=
  climb (λ dir, let candidate := path_join [dir; "kernel"] in
    match dk_stat dk (path_join [candidate; "check.shen"]) with Some false => Some candidate | _ => None end) (climb_fuel start) start.
Definition resolveKernelPath (p : string) : string + string :=
  if negb (String.eqb p "") then dk_abs dk p
  else
    match dk_cwd dk with
    | inr err => inr err
    | inl cwd =>
        match searchKernelUpward cwd with
        | Some found => inl found
        | None =>
            match dk_executable dk ≫= λ exe, searchKernelUpward (path_dir (default exe (dk_symlinks dk exe))) with
            | Some found => inl found
            | None => inr "could not locate kernel directory for ruleset digest"
            end
        end
    end.
Definition disk_parts (kernelPath : string) : list (string * string) + string :=
  match resolveKernelPath kernelPath with
  | inr err => inr err
  | inl kernelDir =>
      match dk_walk dk kernelDir with
      | inr err => inr err
      | inl entries =>
          match shen_files entries with
          | [] => inr ("no .shen files found under " +:+ kernelDir)
          | files => read_parts (path_rel kernelDir) (dk_read dk) files
          end
      end
  end.
Definition ComputeRulesetDigest (kernelPath : string) : string + string := parts_digest (disk_parts kernelPath).
End on_disk.

(** ** The order and the names of the files below a directory *)

Lemma str_lt_app p a b : str_lt (p +:+ a) (p +:+ b) = str_lt a b.
Proof.
  unfold str_lt, String.ltb. induction p as [|c p IH]; [done|]. cbn. unfold Ascii.compare. by rewrite N.compare_refl.
Qed.
Lemma ext_from_app a n f : ext_from (a +:+ String "/" n) f = ext_from n "".
Proof.
  revert f. induction a as [|c a IH]; intros f; [done|]. cbn. destruct (Ascii.eqb c "/"); [apply IH|].
  destruct (Ascii.eqb c "."); apply IH.
Qed.
Lemma path_ext_show s n : path_ext (show_path true (n :: s)) = path_ext n.
Proof.
  unfold path_ext. destruct s as [|e s]; [done|]. change (n :: e :: s) with ([n] ++ e :: s).
  rewrite show_path_app by done. apply ext_from_app.
Qed.
Lemma sort_below s l : sort_strings ((λ n, show_path true (n :: s)) <$> l) = (λ n, show_path true (n :: s)) <$> sort_strings l.
Proof.
  destruct (show_path_below s) as [p Hp]. apply sort_slice_map. intros a b. rewrite !Hp. apply str_lt_app.
Qed.
Lemma sort_strings_perm_eq l l' : l ≡ₚ l' → sort_strings l = sort_strings l'.
Proof. apply (sort_slice_perm_eq str_lt). intros x y _ _. apply str_lt_total. Qed.

(** Reading the files below a directory is reading their names elsewhere. *)
Lemma read_parts_below s read read' names : stack true s → Forall name names →
  (∀ n, n ∈ names → read (show_path true (n :: s)) = read' n) →
  read_parts (path_rel (show_path true s)) read ((λ n, show_path true (n :: s)) <$> names) = read_parts (λ n, n) read' names.
Proof.
  intros Hs Hn Hr. induction Hn as [|n names Hn _ IH]; [done|]. cbn [fmap list_fmap read_parts].
  rewrite Hr by (by left). destruct (read' n); [|done]. rewrite IH by (intros m Hm; apply Hr; by right).
  by rewrite path_rel_show.
Qed.

Definition is_shen (n : string) : bool := String.eqb (path_ext n) ".shen".
Lemma shen_files_spec entries : shen_files entries = sort_strings (filter is_shen (map fst (filter (λ e : string * bool, snd e = false) entries))).
Proof.
  unfold shen_files. f_equal. induction entries as [|[n [|]] entries IH]; [done| |].
  - rewrite filter_cons_False by done. exact IH.
  - rewrite filter_cons_True by done. cbn [omap list_omap map fst snd orb]. unfold is_shen at 1.
    destruct (String.eqb (path_ext n) ".shen") eqn:E; cbn [negb].
    + rewrite filter_cons_True by (unfold is_shen; rewrite E; exact I). by f_equal.
    + rewrite filter_cons_False by (unfold is_shen; rewrite E; auto). exact IH.
Qed.

(** ** The two digests *)

(** A directory with the embedded rules, and any other files that are no rules, has
    the embedded digest. *)
Lemma disk_parts_embedded em dk p s names es ds : stack true s → Forall name names →
  em_entries em = inl es → shen_files es = sort_strings names →
  resolveKernelPath dk p = inl (show_path true s) → dk_walk dk (show_path true s) = inl ds →
  shen_files ds = (λ n, show_path true (n :: s)) <$> sort_strings names →
  (∀ n data, n ∈ names → em_read em n = Some data → dk_read dk (show_path true (n :: s)) = inl data) →
  ∀ parts, embedded_parts em = inl parts → disk_parts dk p = inl parts.
Proof.
  intros Hs Hn Hes Hem Hp Hds Hdk Hr parts. unfold embedded_parts, disk_parts. rewrite Hes, Hem, Hp, Hds, Hdk.
  assert (Hperm : sort_strings names ≡ₚ names) by apply sort_slice_perm.
  assert (Hn' : Forall name (sort_strings names)) by (by rewrite Hperm).
  assert (Hr' : ∀ n data, n ∈ sort_strings names → em_read em n = Some data → dk_read dk (show_path true (n :: s)) = inl data)
    by (intros n data Hin; rewrite Hperm in Hin; by apply Hr).
  clear Hperm Hr. destruct (sort_strings names) as [|n l] eqn:E; [done|]. rewrite <- E in *. intros Hparts.
  assert (Hne : (λ n, show_path true (n :: s)) <$> sort_strings names ≠ []) by (by rewrite E).
  destruct ((λ n, show_path true (n :: s)) <$> sort_strings names) eqn:Em; [done|]. rewrite <- Em. clear Hne Em E Hdk Hem.
  revert parts Hparts. induction Hn' as [|m names' Hm _ IH]; intros parts; [done|]. cbn [fmap list_fmap read_parts].
  destruct (em_read em m) as [data|] eqn:Er; [|done]. rewrite (Hr' m data) by (by left || done).
  destruct (read_parts _ _ names') as [rest|] eqn:Ep; [|done]. intros [= <-].
  rewrite (IH ltac:(intros x d Hx; apply Hr'; by right) rest eq_refl). by rewrite path_rel_show.
Qed.

(** The files a proof binds: those of --kernel, or else those of the binary. *)
Definition ruleset_parts (em : embedded) (dk : disk) (kernelPath : string) : list (string * string) + string :=
  if negb (String.eqb kernelPath "") then disk_parts dk kernelPath else embedded_parts em.
