(* ===== verification/KernelDir.v ===== *)
(** The kernel on disk: how each xpc process puts its embedded rules into a shared
    directory of the temporary directory (src/pkg/checker/bridge.go,
    resolveOrMaterialiseKernel), as the interleaving of the file operations of any
    number of processes that may fail or die at every step; and the digest of the
    rules in that directory, which is the digest of the binary's (Ruleset.v).

    A rename is atomic; the marker is written by truncation and then one write; the
    staging directory of a process is its own.  Nothing else writes to the directory. *)
From Stdlib Require Import ZArith.
From S2P Require Import Prelude GoStrings Paths Sha256 AuditLog Loader Ruleset.

#[local] Open Scope string_scope.
#[local] Open Scope list_scope.

(** ** The directory *)

Definition NUL : string := bytes [0]%N.
(** The embedded files: names and contents, in the order of the directory. *)
Definition kernel_text (files : list (string * string)) : string :=
  join "" (map (λ f : string * string, fst f +:+ NUL +:+ itoa (Z.of_nat (String.length (snd f))) +:+ NUL +:+ snd f) files).
Definition kernel_digest (files : list (string * string)) : string := str_take 16 (hex_state (sha256_words (kernel_text files))).
Definition kernel_dir (tempRoot : string) (files : list (string * string)) : string :=
  path_join [tempRoot; "xpc-kernel-" +:+ kernel_digest files].

(** ** The processes *)

(** Where a process is; [Staging k] and [Publishing k] have [k] files behind them, and
    [MarkerOpen] has truncated the marker. *)
Inductive phase : Type :=
  | ReadMarker | MakeDir | MakeStaging | Staging (k : nat) | Publishing (k : nat)
  | RereadMarker | OpenMarker | MarkerOpen | Returned | Failed.
Record store : Type := MkStore { st_files : gmap string string; st_marker : option string }.
Definition ended (p : phase) : bool := match p with Returned | Failed => true | _ => false end.

Section publish.
Context (files : list (string * string)) (digest : string).

Definition marker_valid (s : store) : bool := bool_decide (st_marker s = Some digest).
(** One file operation of a process; [ok] says whether it succeeds.  A marker that
    cannot be read is one that is not there. *)
Definition advance (ok : bool) (p : phase) (s : store) : option (phase * store) :=
  match p with
  | ReadMarker => Some (if ok && marker_valid s then Returned else MakeDir, s)
  | MakeDir => Some (if ok then MakeStaging else Failed, s)
  | MakeStaging => Some (if ok then Staging 0 else Failed, s)
  | Staging k =>
      match files !! k with
      | Some _ => Some (if ok then Staging (S k) else Failed, s)
      | None => Some (Publishing 0, s)
      end
  | Publishing k =>
      match files !! k with
      | Some (name, data) =>
          if ok then Some (Publishing (S k), MkStore (<[name := data]> (st_files s)) (st_marker s)) else Some (Failed, s)
      | None => Some (RereadMarker, s)
      end
  | RereadMarker => Some (if ok && marker_valid s then Returned else OpenMarker, s)
  | OpenMarker => if ok then Some (MarkerOpen, MkStore (st_files s) (Some "")) else Some (Failed, s)
  | MarkerOpen => if ok then Some (Returned, MkStore (st_files s) (Some digest)) else Some (Failed, s)
  | Returned | Failed => None
  end.
(** The system: process [i] takes a step, any process at any time. *)
Inductive sys_step : list phase * store → list phase * store → Prop :=
  | sys_step_at i ok p p' ps s s' :
      ps !! i = Some p → advance ok p s = Some (p', s') → sys_step (ps, s) (<[i := p']> ps, s').
(** The same, for a schedule: who steps, and whether it works. *)
Fixpoint run_schedule (sched : list (nat * bool)) (ps : list phase) (s : store) : list phase * store :=
  match sched with
  | [] => (ps, s)
  | (i, ok) :: sched =>
      match ps !! i ≫= λ p, advance ok p s with
      | Some (p', s') => run_schedule sched (<[i := p']> ps) s'
      | None => run_schedule sched ps s
      end
  end.

(** ** What a marker promises *)

Definition published (k : nat) (s : store) : Prop :=
  ∀ j name data, (j < k)%nat → files !! j = Some (name, data) → st_files s !! name = Some data.
Definition complete (s : store) : Prop := published (length files) s.
Definition phase_ok (s : store) (p : phase) : Prop :=
  match p with
  | Publishing k => published k s
  | RereadMarker | OpenMarker | MarkerOpen | Returned => complete s
  | _ => True
  end.
Definition sound (c : list phase * store) : Prop :=
  (st_marker (snd c) = Some digest → complete (snd c)) ∧ Forall (phase_ok (snd c)) (fst c).

Context (Hnames : NoDup (map fst files)) (Hdigest : digest ≠ "").

Lemma published_mono k s s' : (∀ name data, (name, data) ∈ files → st_files s !! name = Some data → st_files s' !! name = Some data) →
  published k s → published k s'.
Proof. intros H Hp j name data Hj Hf. apply H; [by eapply list_elem_of_lookup_2|by eapply Hp]. Qed.
(** Publishing a file again leaves what was published. *)
Lemma republish k name data s : files !! k = Some (name, data) →
  ∀ n d, (n, d) ∈ files → st_files s !! n = Some d → <[name := data]> (st_files s) !! n = Some d.
Proof.
  intros Hk n d Hin Hs. destruct (decide (n = name)) as [->|Hne]; [|by rewrite lookup_insert_ne].
  rewrite lookup_insert_eq. apply list_elem_of_lookup in Hin as [j Hj]. f_equal.
  assert (E : j = k).
  { apply (NoDup_lookup (map fst files) j k name Hnames); change (map fst files) with (fst <$> files); rewrite list_lookup_fmap.
    - by rewrite Hj.
    - by rewrite Hk. }
  subst j. rewrite Hk in Hj. by injection Hj as ->.
Qed.
Lemma published_all k s : (length files ≤ k)%nat → published k s → complete s.
Proof. intros Hk Hp j name data Hj. apply Hp. lia. Qed.
Lemma advance_keeps ok p s p' s' : advance ok p s = Some (p', s') → phase_ok s p → (st_marker s = Some digest → complete s) →
  phase_ok s' p' ∧ (st_marker s' = Some digest → complete s') ∧ (∀ q, phase_ok s q → phase_ok s' q).
Proof.
  intros Ha Hp Hm.
  assert (Hsame : ∀ q, s' = s → phase_ok s q → phase_ok s' q ∧ (st_marker s' = Some digest → complete s') ∧
    (∀ r, phase_ok s r → phase_ok s' r)) by (by intros q -> Hq).
  destruct p as [| | |k|k| | | | |]; cbn [advance] in Ha.
  - injection Ha as <- <-. apply Hsame; [done|]. destruct ok; [|done]. unfold marker_valid. case_bool_decide; [by apply Hm|done].
  - injection Ha as <- <-. by destruct ok; apply Hsame.
  - injection Ha as <- <-. by destruct ok; apply Hsame.
  - destruct (files !! k); injection Ha as <- <-; [by destruct ok; apply Hsame|]. apply Hsame; [done|]. intros j n d Hj. lia.
  - destruct (files !! k) as [[name data]|] eqn:Ek.
    + destruct ok; injection Ha as <- <-; [|by apply Hsame].
      assert (Hmono : ∀ j, published j s → published j (MkStore (<[name := data]> (st_files s)) (st_marker s)))
        by (intros j; apply published_mono; by apply (republish k)).
      split_and!.
      * intros j n d Hj Hf. destruct (decide (j = k)) as [->|Hne].
        { rewrite Ek in Hf. injection Hf as <- <-. cbn [st_files]. apply lookup_insert_eq. }
        apply (Hmono k Hp j n d); [lia|done].
      * intros Hv. apply Hmono, Hm. exact Hv.
      * intros q Hq. destruct q; try done; by apply Hmono.
    + injection Ha as <- <-. apply Hsame; [done|]. apply (published_all k); [by apply lookup_ge_None|done].
  - injection Ha as <- <-. apply Hsame; [done|]. by destruct ok; [unfold marker_valid; case_bool_decide|].
  - destruct ok; injection Ha as <- <-; [|by apply Hsame]. split_and!; [exact Hp| |by intros []].
    cbn [st_marker]. intros [= E]. congruence.
  - destruct ok; injection Ha as <- <-; [|by apply Hsame]. split_and!; [exact Hp|by intros _|by intros []].
  - done.
  - done.
Qed.
Lemma sys_step_sound c c' : sys_step c c' → sound c → sound c'.
Proof.
  intros [i ok p p' ps s s' Hi Ha] [Hm Hps]. cbn [fst snd] in *. rewrite Forall_forall in Hps.
  destruct (advance_keeps ok p s p' s' Ha (Hps p ltac:(by eapply list_elem_of_lookup_2)) Hm) as (Hp' & Hm' & Hall).
  split; [exact Hm'|]. cbn [fst snd]. apply Forall_forall. intros q Hq.
  apply list_elem_of_lookup in Hq as [j Hj]. apply list_lookup_insert_Some in Hj as [(_ & <- & _)|[_ Hj]]; [exact Hp'|].
  apply Hall, Hps. by eapply list_elem_of_lookup_2.
Qed.
End publish.

Lemma length_digest files : String.length (kernel_digest files) = 16%nat.
Proof.
  unfold kernel_digest, hex_state. generalize (sha256_words (kernel_text files)) as w. intros w. rewrite <- app_str_assoc.
  assert (Hx : String.length (hex_of 8 (h_a w) +:+ hex_of 8 (h_b w)) = 16%nat)
    by (rewrite length_app_str, !length_hex_of; reflexivity).
  rewrite <- Hx at 1. rewrite str_take_app. exact Hx.
Qed.

Lemma reach_sound files c c' : NoDup (map fst files) → rtc (sys_step files (kernel_digest files)) c c' →
  sound files (kernel_digest files) c → sound files (kernel_digest files) c'.
Proof.
  intros Hn. assert (Hd : kernel_digest files ≠ "") by (intros E; pose proof (length_digest files) as L; by rewrite E in L).
  induction 1 as [|c c1 c' Hstep _ IH]; [done|]. intros Hc. apply IH. by eapply sys_step_sound.
Qed.
Lemma start_sound files n s : (st_marker s = Some (kernel_digest files) → complete files s) →
  sound files (kernel_digest files) (replicate n ReadMarker, s).
Proof. intros H. split; [exact H|]. cbn [fst]. apply Forall_replicate. exact I. Qed.
Lemma returned_complete files ps s : sound files (kernel_digest files) (ps, s) → Returned ∈ ps → complete files s.
Proof. intros [_ Hps] Hin. rewrite Forall_forall in Hps. exact (Hps Returned Hin). Qed.

(** ** Nothing but the rules *)

Definition only (files : list (string * string)) (s : store) : Prop := ∀ n, is_Some (st_files s !! n) → n ∈ map fst files.
Lemma sys_step_only files digest c c' : sys_step files digest c c' → only files (snd c) → only files (snd c').
Proof.
  intros [i ok p p' ps s s' _ Ha] Ho. cbn [snd] in *.
  destruct p as [| | |k|k| | | | |]; cbn [advance] in Ha; try (by simplify_eq/=); try (by destruct ok; simplify_eq/=).
  - by destruct (files !! k); simplify_eq.
  - destruct (files !! k) as [[name data]|] eqn:E; [|by simplify_eq]. destruct ok; [|by simplify_eq].
    injection Ha as _ <-. intros n. cbn [st_files]. destruct (decide (n = name)) as [->|Hne].
    + intros _. apply list_elem_of_lookup_2 in E. by apply (list_elem_of_fmap_2' fst _ _ _ E).
    + rewrite lookup_insert_ne by done. apply Ho.
Qed.
Lemma complete_only files s : NoDup (map fst files) → complete files s → only files s → st_files s = list_to_map files.
Proof.
  intros Hn Hc Ho. apply map_eq. intros n. destruct (st_files s !! n) as [data|] eqn:E.
  - assert (Hin : n ∈ map fst files) by (apply Ho; by rewrite E). apply list_elem_of_fmap in Hin as ([n' d] & -> & Hin).
    cbn [fst] in *. rewrite (elem_of_list_to_map_1 files n' d Hn Hin). apply list_elem_of_lookup in Hin as [j Hj].
    rewrite <- E. apply (Hc j); [by eapply lookup_lt_Some|done].
  - symmetry. apply not_elem_of_list_to_map_1. intros Hin. apply list_elem_of_fmap in Hin as ([n' d] & -> & Hin). cbn [fst] in E.
    apply list_elem_of_lookup in Hin as [j Hj]. by rewrite (Hc j n' d ltac:(by eapply lookup_lt_Some) Hj) in E.
Qed.

(** What the directory shows to a walk, and to a read of a path in it. *)
Definition marker_name : string := ".xpc-kernel-digest".
Definition store_disk (dk : disk) (dir : string) (s : store) : disk := {| dk with
  dk_walk := λ d, if String.eqb d dir then
      inl ((dir, true) :: match st_marker s with Some _ => [(path_join [dir; marker_name], false)] | None => [] end ++
           map (λ n, (path_join [dir; n], false)) (sorted_keys (st_files s)))
    else dk_walk dk d;
  dk_read := λ p, match st_files s !! path_rel dir p with
    | Some data => inl data
    | None => inr ("open " +:+ p +:+ ": no such file or directory")
    end |}.
Definition embed_files (files : list (string * string)) : embedded :=
  MkEmbedded (inl (map (λ f : string * string, (fst f, false)) files)) (λ n, list_to_map (M := gmap string string) files !! n).

(** ** Concurrent processes *)

(** C13: Whatever the processes do, in whatever order, and wherever they fail or die: a
    marker with the digest is never there without every file as embedded, a process
    that is given the directory finds them all in it, and they stay. *)
Theorem kernel_dir_complete files n s0 ps s : NoDup (map fst files) →
  (st_marker s0 = Some (kernel_digest files) → complete files s0) →
  rtc (sys_step files (kernel_digest files)) (replicate n ReadMarker, s0) (ps, s) →
  (st_marker s = Some (kernel_digest files) → complete files s) ∧ (Returned ∈ ps → complete files s) ∧
  ∀ ps' s', rtc (sys_step files (kernel_digest files)) (ps, s) (ps', s') → complete files s → complete files s'.
Proof.
  intros Hn H0 Hr. pose proof (reach_sound files _ _ Hn Hr (start_sound files n s0 H0)) as Hsound.
  split; [apply Hsound|]. split; [by apply (returned_complete files ps s)|].
  intros ps' s' Hr' Hc.
  assert (Hsound' : sound files (kernel_digest files) (Returned :: ps, s)).
  { split; [apply Hsound|]. constructor; [exact Hc|apply Hsound]. }
  assert (Hshift : ∀ c c', rtc (sys_step files (kernel_digest files)) c c' →
    rtc (sys_step files (kernel_digest files)) (Returned :: fst c, snd c) (Returned :: fst c', snd c')).
  { induction 1 as [|c c1 c' Hstep _ IH]; [done|]. eapply rtc_l; [|exact IH]. destruct Hstep as [i ok p p' qs t t' Hi Ha].
    cbn [fst snd]. apply (sys_step_at _ _ (S i) ok p p' (Returned :: qs)); done. }
  apply Hshift, (reach_sound files _ _ Hn) in Hr'; [|exact Hsound']. destruct Hr' as [_ Hps]. cbn [fst snd] in Hps. by inversion Hps.
Qed.

(** How many steps a process still takes at most. *)
Definition steps_left (files : list (string * string)) (p : phase) : nat :=
  let n := length files in
  match p with
  | ReadMarker => n + n + 8 | MakeDir => n + n + 7 | MakeStaging => n + n + 6
  | Staging k => (n - k) + n + 5 | Publishing k => (n - k) + 4
  | RereadMarker => 3 | OpenMarker => 2 | MarkerOpen => 1 | Returned | Failed => 0
  end%nat.
Lemma advance_ends files digest ok p s : match advance files digest ok p s with
  | Some (p', _) => (steps_left files p' < steps_left files p)%nat ∧ (ok = true → p' ≠ Failed)
  | None => ended p = true
  end.
Proof.
  destruct p as [| | |k|k| | | | |]; cbn [advance steps_left ended]; try done.
  - destruct (ok && _); cbn; (split; [lia|done]).
  - destruct ok; cbn; (split; [lia|done]).
  - destruct ok; cbn; (split; [lia|done]).
  - destruct (files !! k) eqn:E.
    + apply lookup_lt_Some in E. destruct ok; cbn; (split; [lia|done]).
    + cbn. split; [lia|done].
  - destruct (files !! k) as [[name data]|] eqn:E; [apply lookup_lt_Some in E; destruct ok|]; cbn; (split; [lia|done]).
  - destruct (ok && _); cbn; (split; [lia|done]).
  - destruct ok; cbn; (split; [lia|done]).
  - destruct ok; cbn; (split; [lia|done]).
Qed.
Definition turns (i : nat) (sched : list (nat * bool)) : nat := length (filter (λ e, fst e = i) sched).
(** C39: No process waits for another: under any schedule, one that is given as many turns
    as it has steps left has ended, and if none of its operations failed it returns
    the directory. *)
Theorem kernel_processes_end files digest sched : ∀ ps s i p, ps !! i = Some p →
  ∃ p', (run_schedule files digest sched ps s).1 !! i = Some p' ∧
    ((steps_left files p ≤ turns i sched)%nat → ended p' = true) ∧
    ((∀ ok, (i, ok) ∈ sched → ok = true) → p ≠ Failed → p' ≠ Failed).
Proof.
  induction sched as [|[j ok] sched IH]; intros ps s i p Hi; cbn [run_schedule].
  { exists p. split; [done|]. split; [|done]. unfold turns. cbn. destruct p; cbn; [lia..|done|done]. }
  unfold turns. rewrite filter_cons. cbn [fst].
  destruct (decide (j = i)) as [->|Hne].
  - rewrite Hi. change (Some p ≫= _) with (advance files digest ok p s). pose proof (advance_ends files digest ok p s) as Ha.
    destruct (advance files digest ok p s) as [[p1 s1]|] eqn:E.
    + destruct Ha as [Hlt Hok]. destruct (IH (<[i := p1]> ps) s1 i p1) as (p' & Hp' & He & Hf).
      { apply list_lookup_insert_eq. by apply lookup_lt_Some in Hi. }
      exists p'. split; [exact Hp'|]. split.
      * cbn [length]. intros Hc. apply He. unfold turns. lia.
      * intros Hall Hp. apply Hf; [intros o Ho; apply Hall; by right|]. apply Hok, Hall. by left.
    + destruct (IH ps s i p Hi) as (p' & Hp' & He & Hf). exists p'. split; [exact Hp'|]. split.
      * intros _. apply He. by destruct p; try done; cbn; lia.
      * intros Hall Hp. apply Hf; [intros o Ho; apply Hall; by right|done].
  - assert (Hgo : ∀ ps1 s1, ps1 !! i = Some p → ∃ p', (run_schedule files digest sched ps1 s1).1 !! i = Some p' ∧
      ((steps_left files p ≤ turns i sched)%nat → ended p' = true) ∧
      ((∀ o, (i, o) ∈ (j, ok) :: sched → o = true) → p ≠ Failed → p' ≠ Failed)).
    { intros ps1 s1 H1. destruct (IH ps1 s1 i p H1) as (p' & Hp' & He & Hf). exists p'. split_and!; [exact Hp'|exact He|].
      intros Hall. apply Hf. intros o Ho. apply Hall. by right. }
    destruct (ps !! j ≫= _) as [[p1 s1]|]; apply Hgo; [by rewrite list_lookup_insert_ne|done].
Qed.

Lemma kernel_dir_show tempRoot files : is_abs tempRoot = true → ∃ s, stack true s ∧ kernel_dir tempRoot files = show_path true s.
Proof.
  intros Ha. assert (Hne : tempRoot ≠ "") by (by intros ->). unfold kernel_dir, path_join.
  rewrite filter_cons_True by done. rewrite filter_cons_True by done. rewrite filter_nil. cbn [join].
  destruct (path_clean_show (tempRoot +:+ "/" +:+ "xpc-kernel-" +:+ kernel_digest files)) as (s & Hs & E & _).
  assert (Hr : is_abs (tempRoot +:+ "/" +:+ "xpc-kernel-" +:+ kernel_digest files) = true) by (by destruct tempRoot).
  rewrite Hr in *. by exists s.
Qed.
(** The rules a walk of the directory finds. *)
Lemma store_disk_files dk s t names : stack true s → Forall name names → (map_to_list (st_files t)).*1 ≡ₚ names →
  ∃ ds, dk_walk (store_disk dk (show_path true s) t) (show_path true s) = inl ds ∧
    shen_files ds = (λ n, show_path true (n :: s)) <$> sort_strings (filter is_shen names).
Proof.
  intros Hs Hn Hk. eexists. split; [cbn; by rewrite String.eqb_refl|]. rewrite shen_files_spec.
  assert (Hm : name marker_name) by (by split_and!).
  assert (Hkeys : sorted_keys (st_files t) ≡ₚ names) by (by unfold sorted_keys, sort_strings; rewrite sort_slice_perm).
  assert (Hall : Forall name (sorted_keys (st_files t))) by (by rewrite Hkeys).
  assert (E : filter is_shen (map fst (filter (λ e : string * bool, snd e = false)
      ((show_path true s, true) :: match st_marker t with Some _ => [(path_join [show_path true s; marker_name], false)] | None => [] end ++
        map (λ n, (path_join [show_path true s; n], false)) (sorted_keys (st_files t))))) =
    (λ n, show_path true (n :: s)) <$> filter is_shen (sorted_keys (st_files t))).
  { rewrite filter_cons_False by done. rewrite filter_app, map_app, filter_app.
    assert (E0 : filter is_shen (map fst (filter (λ e : string * bool, snd e = false)
      match st_marker t with Some _ => [(path_join [show_path true s; marker_name], false)] | None => [] end)) = []).
    { destruct (st_marker t); [|done]. rewrite path_join_show by done. rewrite filter_cons_True by done. cbn [map fst].
      rewrite filter_cons_False; [done|]. unfold is_shen. rewrite path_ext_show. intros H. exact H. }
    rewrite E0. cbn [app]. clear E0 Hkeys. induction Hall as [|n l Hl _ IH]; [done|]. cbn [map]. rewrite filter_cons_True by done.
    cbn [map fst]. rewrite path_join_show by done. assert (Ei : is_shen (show_path true (n :: s)) = is_shen n)
      by (unfold is_shen; by rewrite path_ext_show).
    destruct (is_shen n) eqn:En.
    - rewrite (filter_cons_True is_shen (show_path true (n :: s))) by (by rewrite Ei).
      rewrite (filter_cons_True is_shen n) by (rewrite En; exact I). rewrite fmap_cons. f_equal. exact IH.
    - rewrite (filter_cons_False is_shen (show_path true (n :: s))) by (rewrite Ei; auto).
      rewrite (filter_cons_False is_shen n) by (rewrite En; auto). exact IH. }
  etrans; [exact (f_equal sort_strings E)|]. rewrite sort_below. f_equal. apply sort_strings_perm_eq. by rewrite Hkeys.
Qed.

(** C14: A directory that a process was given has the ruleset digest of the binary, so a
    proof made with --kernel=DIR and one made without bind the same rules. *)
Theorem materialised_digest files n ps s dk tempRoot : NoDup (map fst files) → Forall (λ f, name (fst f)) files →
  rtc (sys_step files (kernel_digest files)) (replicate n ReadMarker, MkStore ∅ None) (ps, s) → Returned ∈ ps →
  is_abs tempRoot = true → (∀ p, is_abs p = true → dk_abs dk p = inl (path_clean p)) →
  ∀ digest, ComputeEmbeddedRulesetDigest (embed_files files) = inl digest →
  ComputeRulesetDigest (store_disk dk (kernel_dir tempRoot files) s) (kernel_dir tempRoot files) = inl digest.
Proof.
  intros Hn Hnames Hr Hret Habs Hdk digest Hd.
  assert (Hc : complete files s).
  { apply (returned_complete files ps); [|exact Hret]. apply (reach_sound files _ _ Hn Hr). by apply start_sound. }
  assert (Ho : only files s).
  { change s with (snd (ps, s)). revert Hr. generalize (ps, s) as c. intros c Hr.
    assert (H0 : only files (snd (replicate n ReadMarker, MkStore ∅ None))) by (intros m [? Hm]; cbn in Hm; by rewrite lookup_empty in Hm).
    revert H0. clear -Hr. induction Hr as [|c1 c2 c3 Hstep _ IH]; [done|]. intros H0. apply IH. by eapply sys_step_only. }
  pose proof (complete_only files s Hn Hc Ho) as Hfiles.
  destruct (kernel_dir_show tempRoot files Habs) as (r & Hs & ->).
  assert (Hn' : Forall name (map fst files)) by (by apply Forall_map).
  destruct (store_disk_files dk r s (map fst files) Hs Hn') as (ds & Hds & Hsh).
  { rewrite Hfiles, map_to_list_to_map by done. done. }
  unfold ComputeEmbeddedRulesetDigest, ComputeRulesetDigest in *. destruct (embedded_parts _) as [parts|] eqn:Ep; [|done].
  rewrite (disk_parts_embedded (embed_files files) _ _ r (filter is_shen (map fst files)) (map (λ f : string * string, (fst f, false)) files) ds Hs) with (parts := parts);
    [exact Hd| |reflexivity| | |exact Hds|exact Hsh| |exact Ep].
  - apply Forall_forall. intros m [_ Hm]%list_elem_of_filter. rewrite Forall_forall in Hn'. by apply Hn'.
  - rewrite shen_files_spec. do 2 f_equal. clear. induction files as [|f files IH]; [done|]. cbn [map].
    rewrite filter_cons_True by done. cbn [map fst]. by f_equal.
  - unfold resolveKernelPath. assert (Hne : String.eqb (show_path true r) "" = false) by (by destruct r). rewrite Hne. cbn [negb].
    change (dk_abs (store_disk dk (show_path true r) s)) with (dk_abs dk). rewrite Hdk by (by destruct r). by rewrite path_clean_stack.
  - intros m data Hin Hem. unfold store_disk. cbn [dk_read]. apply list_elem_of_filter in Hin as [_ Hin]. rewrite Forall_forall in Hn'.
    rewrite path_rel_show by auto. rewrite Hfiles. cbn [embed_files em_read] in Hem. by rewrite Hem.
Qed.

(** ** Examples *)

Lemma run_schedule_reach files digest sched : ∀ ps s, rtc (sys_step files digest) (ps, s) (run_schedule files digest sched ps s).
Proof.
  induction sched as [|[i ok] sched IH]; intros ps s; [done|]. cbn [run_schedule].
  destruct (ps !! i) as [p|] eqn:Hi; [|apply IH]. change (Some p ≫= _) with (advance files digest ok p s).
  destruct (advance files digest ok p s) as [[p' s']|] eqn:Ha; [|apply IH].
  eapply rtc_l; [|apply IH]. by apply (sys_step_at _ _ i ok p p').
Qed.
Definition demo_files : list (string * string) := [("check.shen", "(datatype check)"); ("r1.shen", "(define r1)")].
Definition demo_dk : disk := MkDisk (λ p, inl (path_clean p)) (inl "/") (λ _, None) None (λ _, None) (λ _, inl []) (λ _, inr "no such file").
(** Two processes race; the first dies after its first file is published. *)
Definition demo_sched : list (nat * bool) :=
  replicate 7 (0%nat, true) ++ [(0%nat, false)] ++ replicate 5 (1%nat, true) ++ replicate 7 (1%nat, true).
Definition demo_state : list phase * store :=
  run_schedule demo_files (kernel_digest demo_files) demo_sched (replicate 2 ReadMarker) (MkStore ∅ None).
Lemma demo_names : NoDup (map fst demo_files) ∧ Forall (λ f, name (fst f)) demo_files.
Proof.
  split; [by apply (bool_decide_unpack _); vm_compute|]. unfold demo_files. repeat apply Forall_cons_2; [..|by apply Forall_nil];
    by unfold name; split_and!.
Qed.
Example demo_race : fst demo_state = [Failed; Returned].
Proof. vm_compute. reflexivity. Qed.

Lemma kernel_dir_complete_witness : fst demo_state = [Failed; Returned] ∧ complete demo_files (snd demo_state).
Proof.
  assert (Hr : rtc (sys_step demo_files (kernel_digest demo_files)) (replicate 2 ReadMarker, MkStore ∅ None) (demo_state.1, demo_state.2)).
  { rewrite <- surjective_pairing. apply run_schedule_reach. }
  split; [exact demo_race|].
  apply (kernel_dir_complete demo_files 2 (MkStore ∅ None) demo_state.1 demo_state.2 (proj1 demo_names)); [done|exact Hr|].
  rewrite demo_race. by right; left.
Defined.
Lemma kernel_processes_end_witness : ∃ p,
  (run_schedule demo_files (kernel_digest demo_files) (replicate 20 (0%nat, true)) [ReadMarker; Staging 1] (MkStore ∅ None)).1 !! 0%nat = Some p ∧
  ended p = true ∧ p ≠ Failed.
Proof.
  destruct (kernel_processes_end demo_files (kernel_digest demo_files) (replicate 20 (0%nat, true)) [ReadMarker; Staging 1]
    (MkStore ∅ None) 0 ReadMarker eq_refl) as (p & Hp & He & Hf).
  exists p. split; [exact Hp|]. split; [apply He; vm_compute; lia|]. apply Hf; [|done].
  intros ok Hin. apply elem_of_replicate in Hin as [[= ->] _]. reflexivity.
Defined.
Lemma materialised_digest_witness : ∃ digest, ComputeEmbeddedRulesetDigest (embed_files demo_files) = inl digest ∧
  ComputeRulesetDigest (store_disk demo_dk (kernel_dir "/tmp" demo_files) demo_state.2) (kernel_dir "/tmp" demo_files) = inl digest.
Proof.
  assert (Hd : ∃ digest, ComputeEmbeddedRulesetDigest (embed_files demo_files) = inl digest).
  { destruct (ComputeEmbeddedRulesetDigest (embed_files demo_files)) as [d|err] eqn:E; [by exists d|]. exfalso.
    revert E. unfold ComputeEmbeddedRulesetDigest, parts_digest.
    set (P := embedded_parts (embed_files demo_files)). assert (HP : match P with inl _ => true | inr _ => false end = true) by (vm_compute; reflexivity).
    by destruct P. }
  destruct Hd as [digest Hd]. exists digest. split; [exact Hd|].
  apply (materialised_digest demo_files 2 demo_state.1 demo_state.2 demo_dk "/tmp" (proj1 demo_names) (proj2 demo_names)); [| |done|done|exact Hd].
  - rewrite <- surjective_pairing. apply run_schedule_reach.
  - rewrite demo_race. by right; left.
Defined.
