(* ===== verification/TreeHash.v ===== *)
(** The digest of a directory tree that the render caches take their keys from
    (src/pkg/renderer/cache.go, HashChartDir; kustomize.go, HashKustomizeDir): what two
    trees with the same digest have in common, and where they need not.

    The file system is that of Ruleset.v. *)
From Stdlib Require Import ZArith.
From S2P Require Import Prelude GoStrings Paths Sha256 AuditLog Ruleset.

#[local] Open Scope string_scope.
#[local] Open Scope list_scope.

Definition NUL : ascii := "000"%char.
Definition LF : ascii := "010"%char.

(** The files below a directory, sorted, under their paths from it. *)
Definition tree_files (entries : list (string * bool)) : list string :=
  sort_strings (map fst (filter (λ e : string * bool, snd e = false) entries)).
Definition tree_parts (dk : disk) (dir : string) : list (string * string) + string :=
  match dk_walk dk dir with
  | inr err => inr err
  | inl entries => read_parts (path_rel dir) (dk_read dk) (tree_files entries)
  end.
(** What is hashed: of each file a line with its path, its contents, and a NUL. *)
Fixpoint tree_text (parts : list (string * string)) : string :=
  match parts with
  | [] => ""
  | (rel, data) :: parts => "file:" +:+ rel +:+ String LF (data +:+ String NUL (tree_text parts))
  end.
Definition tree_digest (parts : list (string * string)) : string := hex_state (sha256_words (tree_text parts)).
Definition HashChartDir (dk : disk) (chartPath : string) : string + string :=
  match tree_parts dk chartPath with inl parts => inl (tree_digest parts) | inr err => inr err end.
(** The same function again. *)
Definition HashKustomizeDir (dk : disk) (dir : string) : string + string :=
  match tree_parts dk dir with inl parts => inl (tree_digest parts) | inr err => inr err end.

(** ** What a digest binds *)

(** A file without NUL under a path of one line. *)
Definition text_file (f : string * string) : bool := negb (has_char LF (fst f)) && negb (has_char NUL (snd f)).
Lemma cut_first c a x b y : has_char c a = false → has_char c b = false → a +:+ String c x = b +:+ String c y → a = b ∧ x = y.
Proof. intros Ha Hb E. pose proof (cut_char_app c b y Hb) as H. rewrite <- E, cut_char_app in H by done. by injection H as -> ->. Qed.
Lemma tree_text_inj p q : Forall text_file p → Forall text_file q → tree_text p = tree_text q → p = q.
Proof.
  intros Hp. revert q. induction Hp as [|[rel data] p Hf _ IH]; intros q Hq.
  { destruct Hq as [|[rel data] q _ _]; [done|]. cbn. done. }
  destruct Hq as [|[rel' data'] q Hf' Hq]; [by cbn|]. cbn [tree_text]. intros E.
  unfold text_file in Hf, Hf'. cbn [fst snd] in *.
  apply Is_true_true, andb_true_iff in Hf as [Hr%negb_true_iff Hd%negb_true_iff].
  apply Is_true_true, andb_true_iff in Hf' as [Hr'%negb_true_iff Hd'%negb_true_iff].
  apply (f_equal (str_drop 5)) in E. change (rel +:+ String LF (data +:+ String NUL (tree_text p)) =
    rel' +:+ String LF (data' +:+ String NUL (tree_text q))) in E.
  apply (cut_first LF) in E as [-> E]; [|done..]. apply (cut_first NUL) in E as [-> E]; [|done..].
  f_equal. by apply IH.
Qed.

(** The key is sound for trees of text files: if two directories have the same digest,
    they hold the same files with the same contents, or SHA-256 has collided on the
    texts that were hashed. *)
Theorem HashChartDir_binds dk dk' dir dir' digest parts parts' :
  HashChartDir dk dir = inl digest → HashChartDir dk' dir' = inl digest →
  tree_parts dk dir = inl parts → tree_parts dk' dir' = inl parts' → Forall text_file parts → Forall text_file parts' →
  parts = parts' ∨ tree_text parts ≠ tree_text parts' ∧
    hex_state (sha256_words (tree_text parts)) = hex_state (sha256_words (tree_text parts')).
Proof.
  unfold HashChartDir. intros H H' E E' Hp Hp'. rewrite E in H. rewrite E' in H'. injection H as H. injection H' as H'.
  destruct (decide (tree_text parts = tree_text parts')) as [Et|Hne]; [left; by apply tree_text_inj|right].
  split; [exact Hne|]. unfold tree_digest in H, H'. by rewrite H, H'.
Qed.

(** A binary file with a NUL breaks it: one file and two files with the same digest. *)
Definition demo_disk (dir : string) (files : list (string * string)) : disk :=
  MkDisk (λ p, inl p) (inl "/") (λ _, None) None (λ _, None)
    (λ d, if String.eqb d dir then inl ((dir, true) :: map (λ f : string * string, (path_join [dir; fst f], false)) files) else inr "no such directory")
    (λ p, match find (λ f : string * string, String.eqb p (path_join [dir; fst f])) files with Some f => inl (snd f) | None => inr "no such file" end).
Example digests_collide :
  let one := [("a", "x" +:+ String NUL ("file:b" +:+ String LF "y"))] in
  let two := [("a", "x"); ("b", "y")] in
  HashChartDir (demo_disk "/c" one) "/c" = HashChartDir (demo_disk "/c" two) "/c" ∧
  tree_parts (demo_disk "/c" one) "/c" ≠ tree_parts (demo_disk "/c" two) "/c".
Proof. split; [vm_compute; reflexivity|by vm_compute]. Qed.
Lemma HashChartDir_binds_witness :
  let chart := [("Chart.yaml", "name: web"); ("values.yaml", "replicas: 1")] in
  tree_parts (demo_disk "/c" chart) "/c" = inl chart ∧
  (chart = chart ∨ tree_text chart ≠ tree_text chart ∧ hex_state (sha256_words (tree_text chart)) = hex_state (sha256_words (tree_text chart))).
Proof.
  intros chart. assert (E : tree_parts (demo_disk "/c" chart) "/c" = inl chart) by (vm_compute; reflexivity).
  assert (E' : tree_parts (demo_disk "/d" (rev chart)) "/d" = inl chart) by (vm_compute; reflexivity).
  assert (Hd : HashChartDir (demo_disk "/c" chart) "/c" = inl (tree_digest chart)) by (unfold HashChartDir; by rewrite E).
  assert (Hd' : HashChartDir (demo_disk "/d" (rev chart)) "/d" = inl (tree_digest chart)) by (unfold HashChartDir; by rewrite E').
  assert (Ht : Forall text_file chart) by (repeat constructor).
  split; [exact E|]. exact (HashChartDir_binds _ _ "/c" "/d" _ chart chart Hd Hd' E E' Ht Ht).
Defined.
