(* ===== verification/Skill.v ===== *)
(** The skill command and the entry point (src/cmd/xpc/skill.go, main of
    src/cmd/xpc/main.go): the files an installation writes below a project, the
    symbolic link beside them, and which command an invocation runs.

    A project is the files written and what is at the path of the link.  The embedded
    files and the operations of the operating system that can fail are parameters; an
    operation fails or not by its path. *)
From Stdlib Require Import ZArith.
From S2P Require Import Prelude GoStrings Paths Yaml Shell.

#[local] Open Scope string_scope.
#[local] Open Scope list_scope.

(** ** The project *)

Inductive place : Type := Nothing | Symlink (to : string) | Occupied.
Record project : Type := MkProject { pj_files : gmap string string; pj_link : place }.
(** Why an operation fails, if it does. *)
Record skill_os : Type := MkSkillOs {
  so_mkdir : string → option string; so_write : string → option string; so_remove : string → option string;
  so_symlink : string → option string; so_abs : string → string + string; so_cwd : string + string;
  so_stat : string → bool + string }.
(** What installSkill returns: the canonical path, the path of the link, and an error. *)
#[local] Notation installed := ((string * string) * option string)%type.

Definition skillName : string := "xpc".

Section skill.
Context (skill_files : string → option (list (string * string))) (os : skill_os) (skill_usage install_usage usage version : string).

Definition canonical_dir (target name : string) : string := path_join [target; ".agents"; "skills"; name].
Definition claude_dir (target : string) : string := path_join [target; ".claude"; "skills"].
Definition rel_target (name : string) : string := path_join [".."; ".."; ".agents"; "skills"; name].

(** The walk: each file is written, its directory made first, up to the first error. *)
Fixpoint write_skill (dir : string) (files : list (string * string)) (t : project) : project * option string :=
  match files with
  | [] => (t, None)
  | (rel, data) :: files =>
      let dst := path_join [dir; rel] in
      match so_mkdir os (path_dir dst) with
      | Some err => (t, Some err)
      | None =>
          match so_write os dst with
          | Some err => (t, Some err)
          | None => write_skill dir files (MkProject (<[dst := data]> (pj_files t)) (pj_link t))
          end
      end
  end.
Definition drop_link (t : project) : project := MkProject (pj_files t) Nothing.
Definition place_link (name path : string) (t : project) : project * option string :=
  match so_symlink os path with
  | Some err => (t, Some ("create symlink: " +:+ err))
  | None => (MkProject (pj_files t) (Symlink (rel_target name)), None)
  end.
(** What is at the path of the link goes, if it is forced to; what Readlink says of a
    path that is no link makes no difference. *)
Definition make_link (name path : string) (force : bool) (t : project) : project * option string :=
  match pj_link t with
  | Symlink existing =>
      if String.eqb existing (rel_target name) then (t, None)
      else if negb force then
        (t, Some (path +:+ " is a symlink pointing elsewhere (" +:+ existing +:+ "); rerun with --force to replace"))
      else match so_remove os path with
        | Some err => (t, Some ("remove stale symlink: " +:+ err))
        | None => place_link name path (drop_link t)
        end
  | Occupied =>
      if negb force then (t, Some (path +:+ " exists and is not a symlink; rerun with --force to replace"))
      else match so_remove os path with
        | Some err => (t, Some ("remove non-symlink: " +:+ err))
        | None => place_link name path (drop_link t)
        end
  | Nothing => place_link name path t
  end.
Definition installSkill (target name : string) (force : bool) (t : project) : project * installed :=
  match skill_files name with
  | None => (t, (("", ""), Some ("embedded skill " +:+ quote name +:+ " not found")))
  | Some files =>
      let dir := canonical_dir target name in
      match so_mkdir os dir with
      | Some err => (t, (("", ""), Some ("create canonical dir: " +:+ err)))
      | None =>
          match write_skill dir files t with
          | (t, Some err) => (t, (("", ""), Some ("write skill files: " +:+ err)))
          | (t, None) =>
              match so_mkdir os (claude_dir target) with
              | Some err => (t, ((dir, ""), Some ("create claude dir: " +:+ err)))
              | None =>
                  let path := path_join [claude_dir target; name] in
                  let '(t, err) := make_link name path force t in (t, ((dir, path), err))
              end
          end
      end
  end.

(** ** The command *)

Fixpoint parse_install (args : list string) (force : bool) (target : string) : command (bool * string) :=
  match args with
  | [] => mret (force, target)
  | a :: args =>
      if String.eqb a "--force" || String.eqb a "-f" then parse_install args true target
      else if String.eqb a "--help" || String.eqb a "-h" then eprint install_usage;; exit_with 0
      else if has_prefix "-" a then eprintln ("unknown flag: " +:+ a);; eprint install_usage;; exit_with 1
      else if negb (String.eqb target "") then eprintln "too many positional args";; eprint install_usage;; exit_with 1
      else parse_install args force a
  end.
Definition install_target (args : list string) : command (bool * string) :=
  o ← parse_install args false "";
  target ← (if String.eqb (snd o) "" then or_fail (λ err, "resolve cwd: " +:+ err) (so_cwd os) else mret (snd o));
  abs ← or_fail (λ err, "resolve target: " +:+ err) (so_abs os target);
  is_dir ← or_fail (λ err, "target " +:+ abs +:+ ": " +:+ err) (so_stat os abs);
  if negb is_dir then fail ("target " +:+ abs +:+ " is not a directory") else mret (fst o, abs).
Definition runSkillInstall (args : list string) (t : project) (s : io) : option (io * Z * project) :=
  match install_target args s with
  | None => None
  | Some (s, inr code) => Some (s, code, t)
  | Some (s, inl (force, abs)) =>
      let '(t, ((dir, path), err)) := installSkill abs skillName force t in
      let report := match err with
        | Some err => eprintln ("install: " +:+ err);; mret 1%Z
        | None =>
            eprintln ("✓ skill canonical: " +:+ dir);;
            eprintln ("✓ claude symlink:  " +:+ path +:+ " -> ../../.agents/skills/" +:+ skillName);; mret 0%Z
        end in
      match status report s with Some (s, code) => Some (s, code, t) | None => None end
  end.
Definition runSkill (args : list string) (t : project) (s : io) : option (io * Z * project) :=
  let stop (m : command Z) := match status m s with Some (s, code) => Some (s, code, t) | None => None end in
  match args with
  | [] => stop (eprint skill_usage;; exit_with 1)
  | sub :: args =>
      if String.eqb sub "install" then runSkillInstall args t s
      else if String.eqb sub "help" || String.eqb sub "--help" || String.eqb sub "-h" then stop (eprint skill_usage;; exit_with 0)
      else stop (eprint ("unknown skill subcommand: " +:+ sub +:+ nl +:+ nl);; eprint skill_usage;; exit_with 1)
  end.

(** ** The entry point: the command that runs, with its arguments, or the answer of the
    program itself. *)
Inductive subcommand : Type := Check_ | DumpIR | Snapshot_ | Verify_ | Proof_ | Bisect | Plan | Explain | Skill.
Inductive invocation : Type :=
  | Subcommand (c : subcommand) (args : list string)
  | Answer (out err : string) (code : Z).
Definition main (argv : list string) : invocation :=
  match argv with
  | [] => Answer "" usage 1
  | a :: args =>
      if String.eqb a "check" then Subcommand Check_ args
      else if String.eqb a "dump-ir" then Subcommand DumpIR args
      else if String.eqb a "snapshot" then Subcommand Snapshot_ args
      else if String.eqb a "verify" then Subcommand Verify_ args
      else if String.eqb a "proof" then Subcommand Proof_ args
      else if String.eqb a "bisect" then Subcommand Bisect args
      else if String.eqb a "plan" then Subcommand Plan args
      else if String.eqb a "explain" then Subcommand Explain args
      else if String.eqb a "skill" then Subcommand Skill args
      else if String.eqb a "version" then Answer ("xpc " +:+ version +:+ nl) "" 0
      else if String.eqb a "help" || String.eqb a "--help" || String.eqb a "-h" then Answer "" usage 0
      else Answer "" ("unknown command: " +:+ a +:+ nl +:+ nl +:+ usage) 1
  end.

(** ** Installing again *)

(** What the walk leaves: the last file written at a path, and else what was there. *)
Definition written (dir : string) (files : list (string * string)) (m : gmap string string) : gmap string string :=
  foldl (λ m f, <[path_join [dir; fst f] := snd f]> m) m files.
Lemma written_app dir a b m : written dir (a ++ b) m = written dir b (written dir a m).
Proof. apply foldl_app. Qed.
Lemma written_lookup dir files k : (∃ data, ∀ m, written dir files m !! k = Some data) ∨ ∀ m, written dir files m !! k = m !! k.
Proof.
  induction files as [|[rel data] files IH] using rev_ind; [by right|].
  destruct (decide (k = path_join [dir; rel])) as [->|Hne].
  - left. exists data. intros m. rewrite written_app. apply lookup_insert_eq.
  - destruct IH as [[d Hd]|Hm]; [left; exists d|right]; intros m; rewrite written_app; cbn [written foldl fst snd];
      rewrite lookup_insert_ne by done; [apply Hd|apply Hm].
Qed.
Lemma written_twice dir files m : written dir files (written dir files m) = written dir files m.
Proof. apply map_eq. intros k. destruct (written_lookup dir files k) as [[d Hd]|Hm]; [by rewrite !Hd|by rewrite !Hm]. Qed.
(** Whether the walk goes through does not depend on what is there. *)
Lemma write_skill_spec dir files t t' : write_skill dir files t = (t', None) →
  t' = MkProject (written dir files (pj_files t)) (pj_link t) ∧
  ∀ u, write_skill dir files u = (MkProject (written dir files (pj_files u)) (pj_link u), None).
Proof.
  revert t. induction files as [|[rel data] files IH]; intros t; cbn [write_skill].
  - intros [= <-]. split; [by destruct t|]. by intros [].
  - destruct (so_mkdir os _); [done|]. destruct (so_write os _); [done|]. intros H. destruct (IH _ H) as [-> Hu].
    split; [done|]. intros u. rewrite Hu. done.
Qed.
Lemma make_link_spec name path force t t' err : make_link name path force t = (t', err) →
  pj_files t' = pj_files t ∧ (err = None → pj_link t' = Symlink (rel_target name)) ∧
  (force = false → pj_link t ≠ Nothing → pj_link t' = pj_link t).
Proof.
  assert (Hp : ∀ u u' e, place_link name path u = (u', e) → pj_files u' = pj_files u ∧ (e = None → pj_link u' = Symlink (rel_target name))).
  { intros u u' e. unfold place_link. destruct (so_symlink os path); intros [= <- <-]; done. }
  unfold make_link. destruct (pj_link t) as [|to|] eqn:El.
  - intros [H1 H2]%Hp. split_and!; done.
  - destruct (String.eqb_spec to (rel_target name)) as [->|]; [intros [= <- <-]; rewrite El; done|].
    destruct force; cbn [negb]; [|intros [= <- <-]; by rewrite El].
    destruct (so_remove os path); [by intros [= <- <-]|]. intros [H1 H2]%Hp. done.
  - destruct force; cbn [negb]; [|intros [= <- <-]; by rewrite El].
    destruct (so_remove os path); [by intros [= <- <-]|]. intros [H1 H2]%Hp. done.
Qed.

(** C35: An installation that reports no error has written every file and the link; doing it
    again, forced or not, reports no error either and changes nothing.  Without --force
    what was at the path of the link is never replaced, error or not. *)
Theorem installSkill_idempotent target name force t t' dir path err : installSkill target name force t = (t', ((dir, path), err)) →
  (force = false → pj_link t ≠ Nothing → pj_link t' = pj_link t) ∧
  (err = None → ∃ files, skill_files name = Some files ∧ dir = canonical_dir target name ∧
    pj_files t' = written dir files (pj_files t) ∧ pj_link t' = Symlink (rel_target name) ∧
    ∀ force', installSkill target name force' t' = (t', ((dir, path), None))).
Proof.
  unfold installSkill. destruct (skill_files name) as [files|] eqn:Ef; [|by intros [= <- <- <- <-]].
  destruct (so_mkdir os (canonical_dir target name)) eqn:Em; [by intros [= <- <- <- <-]|].
  destruct (write_skill _ files t) as [t1 [e|]] eqn:Ew.
  { intros [= <- <- <- <-]. split; [|done]. intros _ _. clear -Ew. revert t Ew.
    induction files as [|[rel data] files IH]; intros t; cbn [write_skill]; [done|].
    destruct (so_mkdir os _); [by intros [= <- <-]|]. destruct (so_write os _); [by intros [= <- <-]|]. intros H. by apply IH in H. }
  destruct (write_skill_spec _ _ _ _ Ew) as [-> Hu]. destruct (so_mkdir os (claude_dir target)) eqn:Ec; [by intros [= <- <- <- <-]|].
  destruct (make_link _ _ _ _) as [t2 e] eqn:El. intros [= <- <- <- <-]. destruct (make_link_spec _ _ _ _ _ _ El) as (Hf & Hl & Hk).
  split; [exact Hk|]. intros ->. exists files. specialize (Hl eq_refl). split_and!; [done..|]. intros force'.
  rewrite Hu. assert (E : MkProject (written (canonical_dir target name) files (pj_files t2)) (pj_link t2) = t2).
  { rewrite Hf. cbn [pj_files]. rewrite written_twice. destruct t2. cbn in *. by subst. }
  rewrite E. unfold make_link. rewrite Hl, String.eqb_refl. done.
Qed.
End skill.

(** ** An example *)

Definition demo_os : skill_os := MkSkillOs (λ _, None) (λ _, None) (λ _, None) (λ _, None) (λ p, inl (path_clean p)) (inl "/repo") (λ _, inl true).
Definition demo_skill (name : string) : option (list (string * string)) :=
  if String.eqb name "xpc" then Some [("SKILL.md", "# xpc"); ("docs/rules.md", "rules")] else None.
Example skill_codes :
  let run link args := match runSkill demo_skill demo_os "" "" args (MkProject ∅ link) (MkIO "" "" ∅) with
    | Some (_, code, t) => Some (code, pj_link t)
    | None => None
    end in
  [run Nothing ["install"]; run Occupied ["install"]; run Occupied ["install"; "-f"; "/w"]; run Nothing ["install"; "a"; "b"]] =
  [Some (0%Z, Symlink "../../.agents/skills/xpc"); Some (1%Z, Occupied); Some (0%Z, Symlink "../../.agents/skills/xpc"); Some (1%Z, Nothing)].
Proof. vm_compute. reflexivity. Qed.
Lemma installSkill_idempotent_witness : ∃ t,
  installSkill demo_skill demo_os "/repo" "xpc" true (MkProject ∅ Occupied) =
    (t, (("/repo/.agents/skills/xpc", "/repo/.claude/skills/xpc"), None)) ∧
  installSkill demo_skill demo_os "/repo" "xpc" false t = (t, (("/repo/.agents/skills/xpc", "/repo/.claude/skills/xpc"), None)).
Proof.
  eexists. split; [reflexivity|].
  destruct (proj2 (installSkill_idempotent demo_skill demo_os "/repo" "xpc" true (MkProject ∅ Occupied) _ _ _ None eq_refl) eq_refl)
    as (files & _ & _ & _ & _ & H). apply (H false).
Defined.
