(* ===== verification/ConfigFile.v ===== *)
(** The loader of xpc.yaml (src/pkg/config/load.go, LoadIfPresent of discover.go): what
    a document may say at its top level, and which documents are refused.

    Decoding YAML is not code of the repository: the loose decoding into a map, the
    encoding of that map again and its strict decoding into a Config are parameters.
    The warnings come in the order Go ranges over the map, a parameter too. *)
From Stdlib Require Import ZArith.
From S2P Require Import Prelude GoStrings Types Config Shell.

#[local] Open Scope string_scope.
#[local] Open Scope list_scope.

Definition config_error_text (err : ConfigError) : string :=
  let field (i : nat) := "immutable-fields[" +:+ itoa (Z.of_nat i) +:+ "]" in
  let kind (block : string) (i : nat) := "state-bearing-kinds." +:+ block +:+ "[" +:+ itoa (Z.of_nat i) +:+ "]" in
  match err with
  | UnsupportedVersion got => "unsupported xpc.yaml version: got " +:+ itoa got +:+ ", this binary understands version " +:+ itoa CurrentVersion
  | GvkRequired i => field i +:+ ": gvk is required"
  | PathsRequired i gvk => field i +:+ " (" +:+ gvk +:+
      "): paths is required (suppress entries must list the specific field paths to remove)"
  | GvkTooManySegments i gvk => field i +:+ " (" +:+ gvk +:+ "): gvk has too many segments (want group/version/Kind)"
  | GvkTwoSegments i gvk => field i +:+ " (" +:+ gvk +:+
      "): two-segment gvk is reserved for core APIs like v1/ConfigMap; use group/version/Kind for grouped resources"
  | EmptyPath i gvk => field i +:+ " (" +:+ gvk +:+ "): paths contains empty entry"
  | KindRequired block i => kind block i +:+ ": kind is required"
  | KindBlank block i => kind block i +:+ ": kind must be non-blank"
  | GroupBlank block i k => kind block i +:+ " (kind=" +:+ k +:+ "): group must be non-blank when set"
  end.

(** The yaml tags of Config, in the order of its fields. *)
Definition knownTopLevelKeys : list string :=
  ["version"; "prod-patterns"; "immutable-fields"; "state-bearing-kinds"; "bypass-annotations"; "name-carveouts";
   "external-secret-stores"; "env-label"; "allowed-provider-configs"].
Definition known (k : string) : bool := contains_string knownTopLevelKeys k.
Definition unknown_key_warning (k : string) : string :=
  "warning: unknown top-level key " +:+ quote k +:+ " in xpc.yaml; ignoring (forward-compat)" +:+ nl.

Section load.
Context {V : Type} (unmarshal : string → gmap string V + string) (range : gmap string V → list string)
  (marshal : gmap string V → string + string) (decode : string → Config + option string)
  (read_file : string → string + string) (stat : string → option bool).

Definition strip (raw : gmap string V) : gmap string V := filter (λ kv : string * V, known (fst kv) = true) raw.
(** [decode] fails with no text at the end of the input, which leaves the zero Config. *)
Definition decode_known (raw : gmap string V) : Config + string :=
  match marshal (strip raw) with
  | inr err => inr err
  | inl stripped =>
      match decode stripped with
      | inl cfg => inl cfg
      | inr None => inl zero_Config
      | inr (Some msg) =>
          inr (if contains msg "field " then msg +:+ " (schema version " +:+ itoa CurrentVersion +:+ ")" else msg)
      end
  end.
(** The outcome, and what is printed on standard error. *)
Definition Parse (data : string) : (Config + string) * string :=
  if String.eqb (trim_space data) "" then (inl Default, "")
  else
    match unmarshal data with
    | inr err => (inr err, "")
    | inl raw =>
        (match decode_known raw with
         | inr err => inr err
         | inl cfg => match validate cfg with inl err => inr (config_error_text err) | inr cfg => inl cfg end
         end,
         join "" (map unknown_key_warning (filter (λ k, known k = false) (range raw))))
    end.
Definition Load (path : string) : (Config + string) * string :=
  match read_file path with
  | inr err => (inr ("read xpc.yaml at " +:+ path +:+ ": " +:+ err), "")
  | inl data =>
      match Parse data with
      | (inr err, text) => (inr ("parse xpc.yaml at " +:+ path +:+ ": " +:+ err), text)
      | ok => ok
      end
  end.
Definition LoadIfPresent (dir : string) : (Config + string) * string :=
  let candidate := path_join [dir; CanonicalFileName] in
  match stat candidate with
  | Some false => Load candidate
  | _ => (inl Default, "")
  end.

(** ** What is loaded *)

(** What a document stands for, its unknown top-level keys aside. *)
Definition stands_for (data : string) (cfg : Config) : Prop :=
  if String.eqb (trim_space data) "" then cfg = Default
  else ∃ raw c, unmarshal data = inl raw ∧ decode_known raw = inl c ∧
    (cfg_Version c = 0%Z ∨ cfg_Version c = CurrentVersion) ∧ cfg = {| c with cfg_Version := CurrentVersion |} ∧
    Forall valid_immutable (cfg_ImmutableFields c) ∧ Forall valid_kind (sbk_Append (cfg_StateBearingKinds c)) ∧
    Forall valid_kind (sbk_Suppress (cfg_StateBearingKinds c)).
Lemma Parse_spec data cfg : fst (Parse data) = inl cfg ↔ stands_for data cfg.
Proof.
  unfold Parse, stands_for. destruct (String.eqb (trim_space data) ""); [split; [by intros [= ->]|by intros ->]|].
  destruct (unmarshal data) as [raw|err]; [|split; [done|by intros (? & ? & ? & _)]]. cbn [fst].
  destruct (decode_known raw) as [c|err] eqn:Ed.
  - transitivity (validate c = inr cfg).
    { destruct (validate c); (split; [intros [= E]; by subst|by intros [= ->]]). }
    rewrite validate_accepts. split.
    + intros (Hv & Hi & Ha & Hs & ->). by exists raw, c.
    + intros (raw' & c' & [= <-] & E & Hv & -> & Hi & Ha & Hs). rewrite Ed in E. injection E as <-. done.
  - split; [done|]. intros (raw' & c' & [= <-] & E & _). by rewrite Ed in E.
Qed.
(** The known keys of a document decide what it loads as: an older binary reads a newer
    document as if the keys it does not know were not there. *)
Lemma decode_known_strip raw raw' : strip raw = strip raw' → decode_known raw = decode_known raw'.
Proof. unfold decode_known. by intros ->. Qed.

(** C34: The loader's contract: a file loads exactly when it is blank or when what is left of
    it without its unknown top-level keys decodes strictly to a configuration of this
    version (or of none) whose entries are well formed, and it loads as that; two
    documents that differ only in top-level keys xpc does not know load alike. *)
Theorem Load_spec path cfg :
  (fst (Load path) = inl cfg ↔ ∃ data, read_file path = inl data ∧ stands_for data cfg) ∧
  ∀ data data' raw raw', trim_space data ≠ "" → trim_space data' ≠ "" → unmarshal data = inl raw → unmarshal data' = inl raw' →
    strip raw' = strip raw → fst (Parse data') = fst (Parse data).
Proof.
  split.
  - unfold Load. destruct (read_file path) as [data|err]; [|split; [done|by intros (? & ? & _)]].
    transitivity (fst (Parse data) = inl cfg); [by destruct (Parse data) as [[?|?] ?]|]. rewrite Parse_spec.
    split; [by exists data|by intros (? & [= <-] & ?)].
  - intros data data' raw raw' Hb Hb' Hu Hu' E. unfold Parse.
    rewrite (proj2 (String.eqb_neq _ _) Hb), (proj2 (String.eqb_neq _ _) Hb'), Hu, Hu'. cbn [fst].
    by rewrite (decode_known_strip raw' raw E).
Qed.
End load.

Example load_warns :
  let unmarshal data := if String.eqb data "bad" then inr "yaml: line 1" else inl (<["version" := 1%Z]> {["colour" := 2%Z]}) in
  let parse := Parse unmarshal (λ m, (map_to_list m).*1) (λ m, inl "version: 1") (λ _, inl zero_Config) in
  (map (λ d, fst (parse d)) ["bad"; " "; "version: 1"], snd (parse "version: 1")) =
  ([inr "yaml: line 1"; inl Default; inl {| zero_Config with cfg_Version := 1%Z |}], unknown_key_warning "colour").
Proof. vm_compute. reflexivity. Qed.
Lemma Load_spec_witness :
  let unmarshal (data : string) : gmap string Z + string :=
    if String.eqb data "new" then inl (<["version" := 1%Z]> {["colour" := 2%Z]}) else inl {["version" := 1%Z]} in
  let parse := Parse unmarshal (λ m, (map_to_list m).*1) (λ m, inl "version: 1") (λ _, inl zero_Config) in
  strip (<["version" := 1%Z]> {["colour" := 2%Z]}) = strip {["version" := 1%Z]} ∧ fst (parse "new") = fst (parse "old").
Proof.
  intros unmarshal parse. assert (E : strip (<["version" := 1%Z]> {["colour" := 2%Z]}) = strip {["version" := 1%Z]}) by (vm_compute; reflexivity).
  split; [exact E|].
  apply (proj2 (Load_spec unmarshal (λ m, (map_to_list m).*1) (λ m, inl "version: 1") (λ _, inl zero_Config) (λ _, inl "old") "xpc.yaml" Default)
    "old" "new" _ _ ltac:(done) ltac:(done) eq_refl eq_refl E).
Defined.
